(* ===== verification/_CoqProject ===== *)
-Q . S2P
Prelude.v
GoStrings.v
GoPath.v
GoFloat.v
GoErrors.v
Http.v
Config.v
FrontMatter.v
Negotiate.v
DotDB.v
DotFlush.v
ServeContent.v
DotResp.v
DotFS.v
Dot.v
Init.v
DotNats.v
Template.v
StaticFile.v
Funcs.v
Mux.v
Build.v
Handlers.v
Types.v
Context.v
Instance.v
Streaming.v
Transactions.v
Requests.v
Serving.v
Example.v
Json.v
App.v
Server.v
ServerSpec.v
Concurrent.v
AppExample.v
