(* ===== verification/Prelude.v ===== *)
(** * A verification development of xtemplate

    xtemplate serves a directory over HTTP: template files answer requests with what
    they print, other files are served as they are.  This library models the Go
    package under src/ as executable Rocq definitions and proves what makes it
    correct.  The names of definitions are those of the Go code, with the receiver as
    a prefix for methods ([DotDB_Exec] is [DotDB.Exec]).

    ** The program and the files that model it

    A [Config] (config.go) is filled by the command line application (app/app.go) or
    by options.  [Config.Server] (server.go) makes a [Server], which holds the current
    [Instance] and replaces it on [Reload].  [Config.Instance] (instance.go) walks the
    template directory with a builder (build.go), which parses templates, hashes
    static files and registers routes; it initializes the configured dot providers,
    assembles the type of the dot value (dot.go) and runs initializer templates.
    [Instance.ServeHTTP] dispatches a request to a handler (handlers.go): for a
    static file, a buffered template or a streaming template.  Templates call the
    methods of their dot fields (dot_*.go) and template functions (funcs.go).

    Go itself and its standard library, as far as the code uses them:
    - Prelude: strings as byte lists, panics ([outcome]), results with errors
      ([result]), runs of transition systems, shared list lemmas and tactics.
    - GoStrings, GoPath, GoFloat, GoErrors: strings, unicode/utf8, path, float64 with
      strconv.ParseFloat, error values with wrapping, joining and [errors.As].
    - Http: headers, the response writer with its implicit status and declared
      length.  ServeContent: [http.ServeContent] with ranges and preconditions.
      Mux: [http.ServeMux] with wildcards, conflicts, redirects and 405.
      Json: encoding/json's scanner and values.

    The program:
    - Config: config.go and the options [WithDB], [WithFlags], [WithDir], [WithNats].
      Init: the [Init] methods of the fields, with what they open recorded.
    - FrontMatter: frontmatter.go.  Funcs: funcs.go, with its tables of functions,
      policies and markdown configurations.
    - DotDB, DotFS, DotFlush, DotResp: the fields of dot_db.go, dot_fs.go, dot_flush.go
      and dot_resp.go, each a state with one definition per method and its [Value] and
      [Cleanup].  DotNats: dot_nats.go and dot_kv.go.  Template: all fields together,
      the providers as records of methods (flags and request fields too), and the
      execution of a template.
    - Dot: dot.go, [makeDot], [value], [cleanup], the pool of structs, and the checks
      of [reflect].
    - Negotiate and StaticFile: [negiotiateEncoding] and [staticFileHandler] of
      handlers.go.  Handlers: [bufferingTemplateHandler] and [flushingTemplateHandler].
      Concurrent: the same two handlers step by step, any number at a time, over a
      heap with both pools; [DotX.Template], [Dir.Read] and [FuncMarkdown] take their
      buffers from the same pool.
    - Build: build.go.  Context: request ids and loggers.  Instance: instance.go and
      the methods of [DotX] in dot_instance.go.
    - Server: [Reload], [Stop] and the handler of server.go as goroutines that
      interleave at each access to shared memory.  ServerSpec: the abstract server.
    - App: app/app.go and cmd/main.go, [Main] and [Config.Server].
    - Types, Streaming, Transactions, Requests, Serving: theorems on the parts together.
      Example and AppExample: an example instance and an example command line, on
      which the theorems are applied.

    A template is a tree of outputs, failures and calls whose answers choose the
    continuation; every theorem on handlers holds for all such trees, except where a
    comment says which calls it leaves out.  A nested template gets a copy of the dot
    value that is not addressable, on which it cannot call methods with pointer
    receivers.  A dot provider
    is a record of methods over a world: the response writer, the calls that reached
    each database, and a state of custom providers.  Theorems on handlers are proved
    against classes of providers ([QuietProvider], [TameProvider], [TypedProvider])
    of which each built-in provider is an instance, and which a custom provider has
    to meet.

    ** What the theorems show

    - Requests: the response of a buffered template and its database agree
      ([response_matches_database]), it is all or nothing ([buffered_all_or_nothing]),
      no transaction stays open over any sequence of requests
      ([instance_closes_transactions], [db_all_or_nothing], [db_protocol_followed]), a
      streaming template ends in a response ([flushing_response]), fields are never
      of a wrong type ([handlers_type_safe]), a loaded instance answers every request
      ([requests_answered]), headers and status arrive ([Resp_cleanup_response]).
    - Requests at the same time: pools do not leak between them
      ([requests_isolated], [pooled_cells_unshared]).
    - The server: it refines its specification ([server_refines]), all calls return
      ([server_terminates]), cancel functions and instances match ([server_settled]),
      reloads do what they report ([reload_outcome]), requests find an instance
      ([request_finds_instance]); how requests fail all the same, from any state, is in
      [request_failures].
    - Loading and routing: [build_consistent] with its statistics, [template_served]
      (wildcard routes too, by the most specific pattern) and [template_file_route] from
      the directory to the handler, [static_file_integrity]
      and [static_file_revalidation] for static files, [static_name_collision] and
      [field_name_panics] for what fails to load.
    - Encoding negotiation: [negotiate_safe], [negotiate_strong_preference],
      [negotiate_smallest], [negotiate_q0_served].
    - Fields and functions: [SendSSE_delivers], [SendSSE_carriage_return],
      [Repeat_values], [Dir_confined] (names resolved element by element, never above
      the root), [Dir_cleanup_open], [QueryVal_single],
      [Subscribe_ends], [extract_partition], [extract_compose].
    - The application: [main_settings] compares the whole configuration, decoded from
      arguments and documents, with a reference; [main_watches_disk].

    ** Bounds and fuel

    Recursion is structural except in the JSON reader, whose fuel of twice the length
    of the text and one is proved enough ([parse_total]), and in float parsing, on the
    digits.  Integers are [Z] or [N]; their width is written out where the code
    depends on it ([ParseUint], [Repeat], int fields of JSON).  Choices the language
    leaves open are arguments: what a [sync.Pool] hands out, the order of a map, which
    case of a select fires, the interleaving of goroutines.

    ** What is assumed

    Third-party code is a parameter: the SQL driver answers from the history of calls;
    decompressors, hash function, minifier, template parser, sprig, bluemonday,
    goldmark and humanize are functions; NATS clients stop sending to a channel when
    it was unsubscribed, and a JetStream bucket obeys [KVLaws]; go-arg gives a field
    its argument, else leaves a non-zero value, else sets the default of the tag, and
    appends to the lists whose option can be repeated ([parse_flags]).  The redirect of [http.ServeMux] is an argument of [ServeHTTP],
    and only assumed not to panic.  The types of operating system, database and NATS handles are
    type parameters.

    ** Not modelled

    - Logging, metrics and the durations they report: they do not change what is
      computed.  The log lines of [staticFileHandler] on changed files are left out.
    - [Server.Serve] beyond handing the handler to [http.ListenAndServe], and what the
      file watcher does besides calling [Reload].
    - The text of values printed by [fmt] with reflection ([%v] of structs, [failf]):
      the printing is an argument.
    - The evaluation of template pipelines, variables and control structures inside
      html/template and its escaping: a template is the tree of its effects.
    - In Concurrent each request has a world of its own; how a database isolates the
      transactions of different requests is left to the database.
    - In Server, loading an instance is one step that either succeeds or fails: it
      shares nothing with other goroutines until the server switches to it.  Its panics
      are those of [field_name_panics].
    - [mockResponseWriter] of dot.go: no provider of the package writes to it while
      [makeDot] runs. *)

From stdpp Require Export base list option numbers gmap strings sorting pretty.
From Stdlib Require Export Ascii ZArith.

(** ** Go strings

    A Go [string] (and a [[]byte]) is a sequence of bytes.  It is a [list ascii]
    here, [ascii] being the type of 8-bit characters; [gs] turns a Rocq string
    literal into one. *)

Abbreviation gostring := (list ascii).

Definition gs (s : string) : gostring := String.list_ascii_of_string s.

(** [%d] of [fmt] for a length. *)
Definition itoa (n : nat) : gostring := gs (pretty n).

Definition NL : ascii := "010"%char.
Definition CR : ascii := "013"%char.
Definition SLASH : ascii := "/"%char.
Definition DOT : ascii := "."%char.

(** The numeric value of a byte, for range tests. *)
Definition byte_N (c : ascii) : N := N_of_ascii c.

(** ** Panics

    A Go function returns a value or panics.  Functions of the model that the
    Go code can leave by a panic have type [outcome A]. *)

Inductive outcome (A : Type) : Type :=
| Ret (a : A)
| Panic (msg : gostring).
Arguments Ret {_} _.
Arguments Panic {_} _.

#[export] Instance outcome_ret : MRet outcome := fun A a => Ret a.
#[export] Instance outcome_bind : MBind outcome := fun A B f m =>
  match m with
  | Ret a => f a
  | Panic msg => Panic msg
  end.
#[export] Instance outcome_fmap : FMap outcome := fun A B f m =>
  match m with
  | Ret a => Ret (f a)
  | Panic msg => Panic msg
  end.

Definition returns {A} (m : outcome A) : Prop := exists a, m = Ret a.

Lemma outcome_bind_ret {A B} (a : A) (f : A -> outcome B) : (Ret a ≫= f) = f a.
Proof. done. Qed.

Lemma outcome_bind_Ret_inv {A B} (m : outcome A) (f : A -> outcome B) b :
  m ≫= f = Ret b -> exists a, m = Ret a /\ f a = Ret b.
Proof. destruct m as [a|msg]; [by exists a | done]. Qed.

(** [s[lo:hi]] on a string or slice: the runtime panics when the bounds are out
    of order or past the end. *)
Definition slice {A} (s : list A) (lo hi : nat) : outcome (list A) :=
  if bool_decide (lo <= hi) && bool_decide (hi <= length s)
  then Ret (take (hi - lo) (drop lo s))
  else Panic (gs "slice bounds out of range").

(** [s[i]]: the runtime panics when the index is out of range. *)
Definition index_at {A} (s : list A) (i : nat) : outcome A :=
  match s !! i with
  | Some a => Ret a
  | None => Panic (gs "index out of range")
  end.

Lemma slice_Ret {A} (s : list A) lo hi :
  lo <= hi -> hi <= length s -> slice s lo hi = Ret (take (hi - lo) (drop lo s)).
Proof. intros H1 H2. unfold slice. by rewrite !bool_decide_true. Qed.

Lemma slice_end {A} (s : list A) lo :
  lo <= length s -> slice s lo (length s) = Ret (drop lo s).
Proof. intros H. rewrite slice_Ret by lia. by rewrite take_ge by (rewrite length_drop; lia). Qed.

(** ** Tactics and hints *)

(** Case analysis on every boolean test, [decide] and [match] of the goal, with
    the equations simplified as they appear. *)
Ltac go_cases :=
  repeat (first [ case_bool_decide | case_decide | case_match ]; simplify_eq/=; try done).

Create HintDb golists.
#[export] Hint Resolve Permutation_refl Permutation_cons_append : golists.

Create Rewrite HintDb gosimpl.
#[export] Hint Rewrite @length_app @length_take @length_drop @app_nil_r : gosimpl.

(** ** Lists *)

Section lists.
Context {A : Type}.
Implicit Types l k : list A.

(** A list is cut in three by two ordered positions. *)
Lemma take_drop_middle_cut l i j :
  i <= j -> j <= length l ->
  l = take i l ++ take (j - i) (drop i l) ++ drop j l.
Proof.
  intros Hij Hj. rewrite <- (take_drop i l) at 1. f_equal.
  rewrite <- (take_drop (j - i) (drop i l)) at 1. f_equal.
  rewrite drop_drop. f_equal. lia.
Qed.

Lemma lookup_last_app l x : (l ++ [x]) !! length l = Some x.
Proof. by apply list_lookup_middle. Qed.

Lemma Forall_foldl_inv {B} (P : A -> Prop) (f : A -> B -> A) (bs : list B) a :
  P a -> (forall a b, P a -> b ∈ bs -> P (f a b)) -> P (foldl f a bs).
Proof.
  revert a. induction bs as [|b bs IH]; intros a Ha Hf; simpl; [done|].
  apply IH.
  - apply Hf; [done|set_solver].
  - intros a' b' Ha' Hb'. apply Hf; [done|set_solver].
Qed.
End lists.

(** ** sort.Slice

    For fewer than 13 elements Go's [sort.Slice] is the insertion sort below:
    the element at [i] moves left while it is less than its left neighbour.
    [ins_left less x r] is one such pass, [r] being the sorted part reversed. *)
Section insertion_sort.
Context {A : Type} (less : A -> A -> bool).

Fixpoint ins_left (x : A) (r : list A) : list A :=
  match r with
  | [] => [x]
  | y :: r' => if less x y then y :: ins_left x r' else x :: r
  end.

Definition sort_slice (l : list A) : list A :=
  reverse (foldl (fun r x => ins_left x r) [] l).

Lemma ins_left_perm x r : ins_left x r ≡ₚ x :: r.
Proof.
  induction r as [|y r IH]; simpl; [done|].
  destruct (less x y); [|done]. rewrite IH. apply Permutation_swap.
Qed.

Lemma foldl_ins_perm l r : foldl (fun r x => ins_left x r) r l ≡ₚ l ++ r.
Proof.
  revert r. induction l as [|x l IH]; intros r; simpl; [done|].
  rewrite IH, ins_left_perm. by rewrite Permutation_middle.
Qed.

Lemma sort_slice_perm l : sort_slice l ≡ₚ l.
Proof. unfold sort_slice. by rewrite reverse_Permutation, foldl_ins_perm, app_nil_r. Qed.

(** With a key in [Z] compared by [<], the result is sorted by the key. *)
Context (key : A -> Z) (less_key : forall x y, less x y = bool_decide (key x < key y)%Z).

Definition key_le (x y : A) : Prop := (key x <= key y)%Z.
Definition key_ge (x y : A) : Prop := (key y <= key x)%Z.

Lemma ins_left_HdRel x y r :
  key_ge y x -> HdRel key_ge y r -> HdRel key_ge y (ins_left x r).
Proof.
  intros Hx Hr. destruct r as [|z r]; simpl; [by constructor|].
  inversion Hr; subst. destruct (less x z); by constructor.
Qed.

Lemma ins_left_sorted x r : Sorted key_ge r -> Sorted key_ge (ins_left x r).
Proof.
  induction r as [|y r IH]; simpl; intros Hs; [by repeat constructor|].
  inversion Hs; subst. rewrite less_key. case_bool_decide.
  - constructor; [by apply IH|]. apply ins_left_HdRel; [|done]. unfold key_ge; lia.
  - constructor; [done|]. constructor. unfold key_ge; lia.
Qed.

Lemma foldl_ins_sorted l r :
  Sorted key_ge r -> Sorted key_ge (foldl (fun r x => ins_left x r) r l).
Proof.
  revert r. induction l as [|x l IH]; intros r Hr; simpl; [done|].
  by apply IH, ins_left_sorted.
Qed.

#[local] Instance key_ge_trans : Transitive key_ge.
Proof. intros x y z. unfold key_ge. lia. Qed.

Lemma sort_slice_sorted l : StronglySorted key_le (sort_slice l).
Proof.
  unfold sort_slice.
  pose proof (foldl_ins_sorted l [] (Sorted_nil _)) as Hs.
  apply (Sorted_StronglySorted _) in Hs.
  induction Hs as [|x r Hs IH Hall]; [rewrite reverse_nil; constructor|].
  rewrite reverse_cons. apply StronglySorted_app; split_and!.
  - intros a b Ha Hb. apply list_elem_of_singleton in Hb as ->.
    rewrite elem_of_reverse in Ha. rewrite Forall_forall in Hall.
    by apply Hall.
  - done.
  - repeat constructor.
Qed.
End insertion_sort.

(** ** Counting *)

Lemma NoDup_counts {A} `{EqDecision A} (l : list A) :
  NoDup l <-> forall n, length (filter (fun m => m = n) l) <= 1.
Proof.
  assert (forall (x : A) (l : list A), x ∈ l <-> 1 <= length (filter (fun m => m = x) l)) as Hin.
  { intros x k. split.
    - intros Hx. assert (x ∈ filter (fun m => m = x) k) as Hf by (by apply list_elem_of_filter).
      destruct (filter _ k); [by apply not_elem_of_nil in Hf|cbn; lia].
    - destruct (filter _ k) as [|y ys] eqn:E; cbn; [lia|]. intros _.
      assert (y ∈ filter (fun m => m = x) k) as Hy by (rewrite E; apply list_elem_of_here).
      by apply list_elem_of_filter in Hy as [-> ?]. }
  induction l as [|x l IH]; [split; [cbn; lia|constructor]|].
  rewrite NoDup_cons, IH, Hin. split.
  - intros [Hx Hl] n. rewrite filter_cons. destruct (decide (x = n)) as [<-|_]; [cbn; lia|apply Hl].
  - intros Hl. split.
    + specialize (Hl x). rewrite filter_cons, decide_True in Hl by done. cbn in Hl. lia.
    + intros n. specialize (Hl n). rewrite filter_cons in Hl. destruct (decide (x = n)); cbn in Hl; lia.
Qed.

Lemma omap_id_fmap {A B} (f : A -> option B) (l : list A) : omap id (f <$> l) = omap f l.
Proof. induction l as [|x l IH]; [done|]. cbn. destruct (f x); cbn; by rewrite IH. Qed.

(** ** Runs of transition systems *)

(** The state after a list of events, when each of them is possible in its turn. *)
Definition run_steps {S E} (step : S -> E -> option S) (s : S) (es : list E) : option S :=
  foldl (fun s e => s ≫= fun s => step s e) (Some s) es.

Lemma run_steps_cons {S E} (step : S -> E -> option S) s e es :
  run_steps step s (e :: es) = step s e ≫= fun s => run_steps step s es.
Proof.
  unfold run_steps. cbn. destruct (step s e); [done|]. cbn. induction es; [done|]. cbn. done.
Qed.

Lemma run_steps_app {S E} (step : S -> E -> option S) s es es' :
  run_steps step s (es ++ es') = run_steps step s es ≫= fun s => run_steps step s es'.
Proof.
  revert s. induction es as [|e es IH]; intros s; [done|]. cbn [app]. rewrite !run_steps_cons.
  destruct (step s e); [|done]. apply IH.
Qed.

Lemma run_steps_ind {S E} (step : S -> E -> option S) (I : S -> Prop) s es s' :
  (forall s e s', I s -> step s e = Some s' -> I s') -> I s -> run_steps step s es = Some s' -> I s'.
Proof.
  intros Hstep. revert s. induction es as [|e es IH]; intros s Hs; [by intros [= <-]|].
  rewrite run_steps_cons. destruct (step s e) as [s1|] eqn:E1; [|done]. cbn. apply IH. by eapply Hstep.
Qed.
