(* ===== verification/GoStrings.v ===== *)
(** * The parts of Go's [strings], [unicode] and [unicode/utf8] the code uses

    Byte-string searches ([HasPrefix], [HasSuffix], [TrimPrefix], [TrimSuffix],
    [Index], [Split], [SplitN] with limit 2), the decoding of a string into runes
    that [for i, r := range s] performs, [unicode.IsSpace] and [TrimSpace]. *)

From S2P Require Import Prelude.

(** ** Prefixes, suffixes and search *)

Fixpoint HasPrefix (s p : gostring) {struct p} : bool :=
  match p, s with
  | [], _ => true
  | c :: p', d :: s' => bool_decide (c = d) && HasPrefix s' p'
  | _ :: _, [] => false
  end.

Definition HasSuffix (s p : gostring) : bool := HasPrefix (reverse s) (reverse p).

Definition TrimPrefix (s p : gostring) : gostring :=
  if HasPrefix s p then drop (length p) s else s.

Definition TrimSuffix (s p : gostring) : gostring :=
  if HasSuffix s p then take (length s - length p) s else s.

(** [strings.Index]: the offset of the first occurrence, [None] for -1. *)
Fixpoint Index (s sub : gostring) : option nat :=
  if HasPrefix s sub then Some 0
  else match s with
       | [] => None
       | _ :: s' => S <$> Index s' sub
       end.

(** [strings.Split] with a one-byte separator; the result is never empty. *)
Fixpoint Split (s : gostring) (sep : ascii) : list gostring :=
  match s with
  | [] => [[]]
  | c :: s' =>
      if bool_decide (c = sep) then [] :: Split s' sep
      else match Split s' sep with
           | l :: ls => (c :: l) :: ls
           | [] => [[c]]
           end
  end.

(** [strings.SplitN(s, sep, 2)] with a one-byte separator. *)
Fixpoint SplitN2 (s : gostring) (sep : ascii) : list gostring :=
  match s with
  | [] => [[]]
  | c :: s' =>
      if bool_decide (c = sep) then [[]; s']
      else match SplitN2 s' sep with
           | l :: ls => (c :: l) :: ls
           | [] => [[c]]
           end
  end.

(** [strings.Join] with a one-byte separator. *)
Fixpoint Join (ls : list gostring) (sep : ascii) : gostring :=
  match ls with
  | [] => []
  | [l] => l
  | l :: ls' => l ++ sep :: Join ls' sep
  end.

Lemma HasPrefix_spec s p : HasPrefix s p = true <-> p `prefix_of` s.
Proof.
  revert s. induction p as [|c p IH]; intros s; simpl.
  - destruct s; split; try done; intros _; apply prefix_nil.
  - destruct s as [|d s]; simpl.
    + split; [done|]. intros H. by apply prefix_nil_not in H.
    + rewrite andb_true_iff, bool_decide_eq_true, IH. split.
      * intros [-> H]. by apply prefix_cons.
      * intros H. split; [by eapply prefix_cons_inv_1 | by eapply prefix_cons_inv_2].
Qed.

Lemma HasPrefix_app p s : HasPrefix (p ++ s) p = true.
Proof. apply HasPrefix_spec. by eexists. Qed.

Lemma HasSuffix_spec s p : HasSuffix s p = true <-> p `suffix_of` s.
Proof. unfold HasSuffix. by rewrite HasPrefix_spec, suffix_prefix_reverse. Qed.

Lemma HasSuffix_app s p : HasSuffix (s ++ p) p = true.
Proof. apply HasSuffix_spec. by eexists. Qed.

Lemma TrimSuffix_app s p : TrimSuffix (s ++ p) p = s.
Proof.
  unfold TrimSuffix. rewrite HasSuffix_app, length_app.
  replace (length s + length p - length p) with (length s) by lia.
  by rewrite take_app_length.
Qed.

Lemma TrimSuffix_id_or s p : TrimSuffix s p = s \/ s = TrimSuffix s p ++ p.
Proof.
  unfold TrimSuffix. destruct (HasSuffix s p) eqn:E; [right | by left].
  apply HasSuffix_spec in E as [k ->]. rewrite length_app.
  replace (length k + length p - length p) with (length k) by lia.
  by rewrite take_app_length.
Qed.

Lemma TrimPrefix_app p s : TrimPrefix (p ++ s) p = s.
Proof. unfold TrimPrefix. by rewrite HasPrefix_app, drop_app_length. Qed.

(** [Index] finds an occurrence, and none starts before it. *)
Lemma Index_Some s sub i :
  Index s sub = Some i <->
  sub `prefix_of` drop i s /\ i <= length s /\
  (forall j, j < i -> ~ sub `prefix_of` drop j s).
Proof.
  revert i. induction s as [|c s IH]; intros i.
  - cbn [Index]. destruct (HasPrefix [] sub) eqn:E.
    + apply HasPrefix_spec in E. split.
      * intros ?; simplify_eq. split_and!; [done|simpl; lia|lia].
      * intros (_ & Hi & _). f_equal. simpl in Hi. lia.
    + split; [done|]. intros (H & Hi & _). simpl in Hi. assert (i = 0) as -> by lia.
      rewrite drop_0 in H. apply HasPrefix_spec in H. congruence.
  - cbn [Index]. destruct (HasPrefix (c :: s) sub) eqn:E.
    + apply HasPrefix_spec in E. split.
      * intros ?; simplify_eq. split_and!; [done|lia|lia].
      * intros (_ & _ & Hmin). destruct i as [|i]; [done|].
        destruct (Hmin 0); [lia|done].
    + assert (~ sub `prefix_of` c :: s) as Hn.
      { intros H. apply HasPrefix_spec in H. congruence. }
      destruct i as [|i].
      * split; [by destruct (Index s sub)|]. by intros (H & _).
      * rewrite fmap_Some. split.
        -- intros (k & Hk & [= <-]). apply IH in Hk as (H1 & H2 & H3).
           split_and!; [done|simpl; lia|]. intros [|j] Hj; [done|]. apply H3. lia.
        -- intros (H1 & H2 & H3). exists i. split; [|done]. apply IH.
           split_and!; [done|simpl in H2; lia|]. intros j Hj. apply (H3 (S j)). lia.
Qed.

Lemma Index_None s sub :
  Index s sub = None <-> forall j, j <= length s -> ~ sub `prefix_of` drop j s.
Proof.
  induction s as [|c s IH].
  - cbn [Index]. destruct (HasPrefix [] sub) eqn:E; split; try done.
    + intros H. destruct (H 0); [lia|]. by apply HasPrefix_spec.
    + intros _ j Hj Hp. simpl in Hj. assert (j = 0) as -> by lia.
      rewrite drop_0 in Hp. apply HasPrefix_spec in Hp. congruence.
  - cbn [Index]. destruct (HasPrefix (c :: s) sub) eqn:E.
    + split; [done|]. intros H. destruct (H 0); [lia|]. by apply HasPrefix_spec.
    + rewrite fmap_None, IH. split.
      * intros H [|j] Hj; [|apply H; simpl in Hj; lia].
        rewrite drop_0. intros Hp. apply HasPrefix_spec in Hp. congruence.
      * intros H j Hj. apply (H (S j)). simpl. lia.
Qed.

Lemma Index_bound s sub i : Index s sub = Some i -> i + length sub <= length s.
Proof.
  intros (H & Hi & _)%Index_Some. apply prefix_length in H.
  rewrite length_drop in H. lia.
Qed.

(** Splitting and joining are inverse to each other. *)
Lemma Split_not_nil s sep : Split s sep <> [].
Proof. destruct s as [|c s]; simpl; [done|]. destruct (bool_decide _), (Split s sep); done. Qed.

Lemma Join_Split s sep : Join (Split s sep) sep = s.
Proof.
  induction s as [|c s IH]; [done|]. cbn [Split].
  pose proof (Split_not_nil s sep) as Hn.
  case_bool_decide as Hc.
  - subst. destruct (Split s sep) as [|l ls] eqn:E; [done|]. cbn [Join] in *. by rewrite IH.
  - destruct (Split s sep) as [|l ls] eqn:E; [done|].
    rewrite <- IH. by destruct ls.
Qed.

Lemma Split_no_sep s sep l : l ∈ Split s sep -> sep ∉ l.
Proof.
  revert l. induction s as [|c s IH]; intros l; cbn [Split].
  - intros ->%list_elem_of_singleton. by apply not_elem_of_nil.
  - case_bool_decide as Hc.
    + intros [->|H]%elem_of_cons; [by apply not_elem_of_nil | by apply IH].
    + destruct (Split s sep) as [|l0 ls] eqn:E; [by apply Split_not_nil in E|].
      intros [->|H]%elem_of_cons.
      * apply not_elem_of_cons. split; [done|]. apply IH, list_elem_of_here.
      * apply IH. by apply list_elem_of_further.
Qed.

Lemma Split_id s sep : sep ∉ s -> Split s sep = [s].
Proof.
  induction s as [|c s IH]; intros H; [done|]. cbn [Split].
  apply not_elem_of_cons in H as [H1 H2]. rewrite bool_decide_false by done.
  by rewrite IH.
Qed.

Lemma Split_app l s sep : sep ∉ l -> Split (l ++ sep :: s) sep = l :: Split s sep.
Proof.
  induction l as [|c l IH]; intros H; cbn [app Split].
  - by rewrite bool_decide_true.
  - apply not_elem_of_cons in H as [H1 H2]. rewrite bool_decide_false by done.
    by rewrite IH.
Qed.

Lemma Split_Join (ls : list gostring) sep :
  ls <> [] -> (forall l, l ∈ ls -> sep ∉ l) -> Split (Join ls sep) sep = ls.
Proof.
  induction ls as [|l [|l' ls] IH]; intros Hn Hs; [done| |].
  - apply Split_id, Hs, list_elem_of_here.
  - cbn [Join]. rewrite Split_app by (apply Hs, list_elem_of_here).
    f_equal. apply IH; [done|]. intros k Hk. apply Hs. by apply list_elem_of_further.
Qed.

(** The first piece of [SplitN(s, sep, 2)] is the part before the separator. *)
Lemma SplitN2_head s sep :
  exists l ls, SplitN2 s sep = l :: ls /\ (sep ∉ l) /\ l `prefix_of` s.
Proof.
  induction s as [|c s (l & ls & E & Hn & Hp)]; cbn [SplitN2].
  - exists [], []. split_and!; [done|by apply not_elem_of_nil|done].
  - case_bool_decide as Hc.
    + exists [], [s]. split_and!; [done|by apply not_elem_of_nil|apply prefix_nil].
    + rewrite E. exists (c :: l), ls. split_and!; [done| |by apply prefix_cons].
      by apply not_elem_of_cons.
Qed.

Lemma SplitN2_id s sep : sep ∉ s -> SplitN2 s sep = [s].
Proof.
  induction s as [|c s IH]; intros H; [done|]. cbn [SplitN2].
  apply not_elem_of_cons in H as [H1 H2]. rewrite bool_decide_false by done.
  by rewrite IH.
Qed.

(** ** Runes *)

Definition in_range (lo hi : N) (c : ascii) : bool :=
  (lo <=? byte_N c)%N && (byte_N c <=? hi)%N.

(** The rune [utf8.DecodeRune] yields for an invalid encoding, with width 1. *)
Definition RuneError : N := 65533.

(** The range of the second byte after the leading byte [n0] of a sequence of
    three or four bytes; the others are 0x80..0xBF. *)
Definition second_ok (n0 : N) (b1 : ascii) : bool :=
  if (n0 =? 224)%N then in_range 160 191 b1
  else if (n0 =? 237)%N then in_range 128 159 b1
  else if (n0 =? 240)%N then in_range 144 191 b1
  else if (n0 =? 244)%N then in_range 128 143 b1
  else in_range 128 191 b1.

Definition low6 (c : ascii) : N := N.land (byte_N c) 63.

(** [utf8.DecodeRuneInString]: the first rune of [s] and its width. *)
Definition DecodeRune (s : gostring) : N * nat :=
  match s with
  | [] => (RuneError, 0)
  | b0 :: t =>
      let n0 := byte_N b0 in
      if (n0 <? 128)%N then (n0, 1)
      else if in_range 194 223 b0 then
        match t with
        | b1 :: _ =>
            if in_range 128 191 b1
            then (N.lor (N.shiftl (N.land n0 31) 6) (low6 b1), 2)
            else (RuneError, 1)
        | _ => (RuneError, 1)
        end
      else if in_range 224 239 b0 then
        match t with
        | b1 :: b2 :: _ =>
            if second_ok n0 b1 && in_range 128 191 b2
            then (N.lor (N.shiftl (N.land n0 15) 12)
                    (N.lor (N.shiftl (low6 b1) 6) (low6 b2)), 3)
            else (RuneError, 1)
        | _ => (RuneError, 1)
        end
      else if in_range 240 244 b0 then
        match t with
        | b1 :: b2 :: b3 :: _ =>
            if second_ok n0 b1 && in_range 128 191 b2 && in_range 128 191 b3
            then (N.lor (N.shiftl (N.land n0 7) 18)
                    (N.lor (N.shiftl (low6 b1) 12)
                       (N.lor (N.shiftl (low6 b2) 6) (low6 b3))), 4)
            else (RuneError, 1)
        | _ => (RuneError, 1)
        end
      else (RuneError, 1)
  end.

(** The pairs of offset and rune [for i, r := range s] visits; [skip] is the
    number of bytes left of the rune being passed over. *)
Fixpoint runes_go (skip off : nat) (s : gostring) : list (nat * N) :=
  match s with
  | [] => []
  | _ :: s' =>
      match skip with
      | S k => runes_go k (S off) s'
      | O => let '(r, w) := DecodeRune s in (off, r) :: runes_go (w - 1) (S off) s'
      end
  end.

Definition runes (s : gostring) : list (nat * N) := runes_go 0 0 s.

(** [unicode.IsSpace] *)
Definition IsSpace (r : N) : bool :=
  ((9 <=? r) && (r <=? 13) || (r =? 32) || (r =? 133) || (r =? 160) ||
   (r =? 5760) || ((8192 <=? r) && (r <=? 8202)) || (r =? 8232) || (r =? 8233) ||
   (r =? 8239) || (r =? 8287) || (r =? 12288))%N.

(** The UTF-8 encodings of the runes [IsSpace] accepts. *)
Definition space_encodings : list gostring :=
  (fun l : list N => ascii_of_N <$> l) <$>
  [[9]; [10]; [11]; [12]; [13]; [32]; [194; 133]; [194; 160]; [225; 154; 128];
   [226; 128; 128]; [226; 128; 129]; [226; 128; 130]; [226; 128; 131];
   [226; 128; 132]; [226; 128; 133]; [226; 128; 134]; [226; 128; 135];
   [226; 128; 136]; [226; 128; 137]; [226; 128; 138]; [226; 128; 168];
   [226; 128; 169]; [226; 128; 175]; [226; 129; 159]; [227; 128; 128]]%N.

(** Every encoding of the table decodes to a space that takes all its bytes. *)
Lemma space_encodings_decode :
  forallb (fun e => IsSpace (fst (DecodeRune e)) && bool_decide (snd (DecodeRune e) = length e))
    space_encodings = true.
Proof. vm_compute. reflexivity. Qed.

(** [strip encs s] removes from the front of [s] as long as it starts with one of
    the encodings; [length s] rounds are enough, each removing a byte or more. *)
Fixpoint strip (fuel : nat) (encs : list gostring) (s : gostring) : gostring :=
  match fuel with
  | O => s
  | S fuel' =>
      match list_find (fun e => HasPrefix s e = true) encs with
      | Some (_, e) => strip fuel' encs (drop (length e) s)
      | None => s
      end
  end.

(** [strings.TrimSpace]: leading, then trailing white space.  A string ends in a
    space rune exactly when it has the rune's encoding as a suffix. *)
Definition TrimSpace (s : gostring) : gostring :=
  let t := strip (length s) space_encodings s in
  reverse (strip (length t) (reverse <$> space_encodings) (reverse t)).

Lemma strip_suffix fuel encs s : strip fuel encs s `suffix_of` s.
Proof.
  revert s. induction fuel as [|n IH]; intros s; simpl; [done|].
  destruct (list_find _ encs) as [[i e]|]; [|done].
  etrans; [apply IH|]. apply suffix_drop.
Qed.

Lemma strip_id fuel encs s :
  (forall e, e ∈ encs -> HasPrefix s e = false) -> strip fuel encs s = s.
Proof.
  intros H. destruct fuel as [|n]; simpl; [done|].
  destruct (list_find _ encs) as [[i e]|] eqn:E; [|done].
  apply list_find_Some in E as (Hi & Hp & _).
  rewrite (H e) in Hp; [done|]. by eapply list_elem_of_lookup_2.
Qed.

(** Once stripped with enough fuel, no encoding is left in front. *)
Lemma strip_done fuel encs s :
  (forall e, e ∈ encs -> e <> []) -> length s <= fuel ->
  forall e, e ∈ encs -> HasPrefix (strip fuel encs s) e = false.
Proof.
  intros Hne. revert s. induction fuel as [|n IH]; intros s Hl e He; simpl.
  - destruct s; [|simpl in Hl; lia]. destruct e; [by apply Hne in He|done].
  - destruct (list_find _ encs) as [[i e']|] eqn:E.
    + apply list_find_Some in E as (Hi & Hp & _).
      apply list_elem_of_lookup_2, Hne in Hi.
      apply HasPrefix_spec, prefix_length in Hp.
      apply IH; [|done]. rewrite length_drop. destruct e'; [done|]. simpl in *. lia.
    + apply list_find_None in E. rewrite Forall_forall in E.
      apply not_true_is_false. by apply E.
Qed.

Lemma TrimSpace_id s :
  (forall e, e ∈ space_encodings -> HasPrefix s e = false /\ HasSuffix s e = false) ->
  TrimSpace s = s.
Proof.
  intros H. unfold TrimSpace. rewrite (strip_id (length s)) by (intros e He; by apply H).
  rewrite strip_id; [apply reverse_involutive|].
  intros e (e' & -> & He')%list_elem_of_fmap. by apply H.
Qed.

(** A newline rune is a newline byte: no longer encoding decodes to it. *)
Lemma lor_shiftl_newline a b k : (4 <= k)%N -> N.lor (N.shiftl a k) b = 10%N -> a = 0%N.
Proof.
  intros Hk H. apply N.bits_inj_0. intros j.
  assert (N.testbit 10 (j + k) = false) as Hf.
  { apply N.bits_above_log2. change (N.log2 10) with 3%N. lia. }
  rewrite <- H, N.lor_spec, N.shiftl_spec_high' in Hf by lia.
  apply orb_false_iff in Hf as [Hf _]. by rewrite N.add_sub in Hf.
Qed.

Lemma in_range_N lo hi c : in_range lo hi c = true -> (lo <= byte_N c <= hi)%N.
Proof. unfold in_range. rewrite andb_true_iff, !N.leb_le. lia. Qed.

(** A statement about the numbers of a range, by checking each of them. *)
Lemma N_range_check (f : N -> bool) lo len n :
  forallb f ((fun k => lo + N.of_nat k)%N <$> seq 0 len) = true ->
  (lo <= n < lo + N.of_nat len)%N -> f n = true.
Proof.
  intros H Hn. rewrite forallb_forall in H. apply H, list_elem_of_In.
  apply list_elem_of_fmap. exists (N.to_nat (n - lo)). split; [lia|].
  apply elem_of_seq. lia.
Qed.

Lemma second_ok_nonzero n0 b1 :
  (n0 = 224 \/ n0 = 240)%N -> second_ok n0 b1 = true -> low6 b1 <> 0%N.
Proof.
  intros Hn Hs. unfold low6.
  assert (144 <= byte_N b1 < 144 + 48)%N as Hr.
  { unfold second_ok in Hs. destruct Hn as [-> | ->]; simpl in Hs; apply in_range_N in Hs; lia. }
  pose proof (N_range_check (fun n => negb (N.land n 63 =? 0)%N) 144 48 (byte_N b1)
                eq_refl Hr) as H.
  apply negb_true_iff, N.eqb_neq in H. done.
Qed.

Lemma DecodeRune_newline c s : fst (DecodeRune (c :: s)) = 10%N -> c = NL.
Proof.
  intros H. cbn [DecodeRune] in H.
  destruct (byte_N c <? 128)%N.
  { simpl in H. unfold byte_N in H. rewrite <- (ascii_N_embedding c), H. reflexivity. }
  exfalso. repeat case_match; simplify_eq/=;
    repeat match goal with
    | H : (_ && _)%bool = true |- _ => apply andb_true_iff in H as [? ?]
    | H : in_range _ _ c = true |- _ => apply in_range_N in H
    end;
    match goal with H : N.lor _ _ = 10%N |- _ =>
      pose proof H as Hhigh; apply lor_shiftl_newline in Hhigh; [|lia];
      rewrite Hhigh, N.shiftl_0_l, N.lor_0_l in H; try (apply lor_shiftl_newline in H; [|lia])
    end.
  - pose proof (N_range_check (fun n => negb (N.land n 31 =? 0)%N) 194 30 (byte_N c)
      eq_refl ltac:(lia)) as Hc. by rewrite negb_true_iff, N.eqb_neq in Hc.
  - pose proof (N_range_check (fun n => negb (N.land n 15 =? 0)%N || (n =? 224)%N) 224 16 (byte_N c)
      eq_refl ltac:(lia)) as Hc.
    apply orb_true_iff in Hc as [Hc|Hc%N.eqb_eq]; [by rewrite negb_true_iff, N.eqb_neq in Hc|].
    eapply (second_ok_nonzero (byte_N c)); [by left|done|done].
  - pose proof (N_range_check (fun n => negb (N.land n 7 =? 0)%N || (n =? 240)%N) 240 5 (byte_N c)
      eq_refl ltac:(lia)) as Hc.
    apply orb_true_iff in Hc as [Hc|Hc%N.eqb_eq]; [by rewrite negb_true_iff, N.eqb_neq in Hc|].
    eapply (second_ok_nonzero (byte_N c)); [by right|done|done].
Qed.

Lemma runes_go_newline skip off s i :
  (i, 10%N) ∈ runes_go skip off s -> off <= i /\ s !! (i - off) = Some NL.
Proof.
  revert skip off. induction s as [|c s IH]; intros skip off; cbn [runes_go].
  { by intros ?%not_elem_of_nil. }
  assert (forall k, (i, 10%N) ∈ runes_go k (S off) s -> off <= i /\ (c :: s) !! (i - off) = Some NL) as Hs.
  { intros k [Hle Hl]%IH. split; [lia|]. by replace (i - off) with (S (i - S off)) by lia. }
  destruct skip as [|k]; [|apply Hs].
  destruct (DecodeRune (c :: s)) as [r w] eqn:E.
  intros [[= -> <-]|H]%elem_of_cons; [|by eapply Hs].
  split; [done|]. rewrite Nat.sub_diag. simpl. f_equal.
  apply (DecodeRune_newline c s). by rewrite E.
Qed.
