(* ===== verification/GoPath.v ===== *)
(** * Go's [path] package and [filepath.Ext], [filepath.Split] on Unix

    [Clean] is the documented lexical algorithm: the slash-separated elements are
    pushed on a stack, [.] and empty elements are dropped, and [..] removes the
    element before it.  [ValidPath] is [fs.ValidPath], which the names handed out
    by [fs.WalkDir] satisfy. *)

From S2P Require Import Prelude GoStrings.

Definition dot : gostring := gs ".".
Definition dotdot : gostring := gs "..".

(** One element; the stack has the last element first. *)
Definition clean_step (rooted : bool) (stack : list gostring) (e : gostring) : list gostring :=
  if bool_decide (e = []) || bool_decide (e = dot) then stack
  else if bool_decide (e = dotdot) then
    match stack with
    | top :: rest => if bool_decide (top = dotdot) then e :: stack else rest
    | [] => if rooted then [] else [e]
    end
  else e :: stack.

Definition clean_elems (rooted : bool) (es : list gostring) : list gostring :=
  reverse (foldl (clean_step rooted) [] es).

Definition is_rooted (p : gostring) : bool := HasPrefix p [SLASH].

Definition render (rooted : bool) (es : list gostring) : gostring :=
  if rooted then SLASH :: Join es SLASH
  else match es with
       | [] => dot
       | _ => Join es SLASH
       end.

Definition Clean (p : gostring) : gostring :=
  render (is_rooted p) (clean_elems (is_rooted p) (Split p SLASH)).

(** [path.Join]: empty arguments are ignored, and no argument left gives "". *)
Definition path_Join (es : list gostring) : gostring :=
  match filter (fun e => e <> []) es with
  | [] => []
  | es' => Clean (Join es' SLASH)
  end.

(** The offset after the last slash, 0 when there is none. *)
Definition after_last_slash (p : gostring) : nat :=
  match list_find (fun c => c = SLASH) (reverse p) with
  | Some (i, _) => length p - i
  | None => 0
  end.

(** [path.Split] and, on Unix, [filepath.Split]. *)
Definition path_Split (p : gostring) : gostring * gostring :=
  (take (after_last_slash p) p, drop (after_last_slash p) p).

(** [path.Dir] *)
Definition Dir (p : gostring) : gostring := Clean (path_Split p).1.

Fixpoint trim_slashes (r : gostring) : gostring :=
  match r with
  | c :: r' => if bool_decide (c = SLASH) then trim_slashes r' else r
  | [] => []
  end.

(** [path.Base] *)
Definition Base (p : gostring) : gostring :=
  match p with
  | [] => dot
  | _ =>
      let p := reverse (trim_slashes (reverse p)) in
      match (path_Split p).2 with
      | [] => [SLASH]
      | b => b
      end
  end.

(** [filepath.Ext]: from the last dot of the last element on. *)
Fixpoint ext_rev (r acc : gostring) : gostring :=
  match r with
  | [] => []
  | c :: r' =>
      if bool_decide (c = SLASH) then []
      else if bool_decide (c = DOT) then c :: acc
      else ext_rev r' (c :: acc)
  end.

Definition Ext (p : gostring) : gostring := ext_rev (reverse p) [].

(** [fs.ValidPath] *)
Definition valid_elem (e : gostring) : bool :=
  negb (bool_decide (e = [])) && negb (bool_decide (e = dot)) && negb (bool_decide (e = dotdot)).

Definition ValidPath (p : gostring) : bool :=
  bool_decide (p = dot) || forallb valid_elem (Split p SLASH).

(** ** Cleaned element lists *)

Lemma valid_elem_spec e : valid_elem e = true <-> e <> [] /\ e <> dot /\ e <> dotdot.
Proof.
  unfold valid_elem. rewrite !andb_true_iff, !negb_true_iff, !bool_decide_eq_false. tauto.
Qed.

Lemma clean_step_valid rooted stack e :
  valid_elem e = true -> clean_step rooted stack e = e :: stack.
Proof.
  intros (H1 & H2 & H3)%valid_elem_spec. unfold clean_step.
  by rewrite !bool_decide_false.
Qed.

(** The stack: regular elements above leading [..], the latter only when the
    path is not rooted. *)
Definition stack_ok (rooted : bool) (stack : list gostring) : Prop :=
  exists regular ups, stack = regular ++ replicate ups dotdot /\
    Forall (fun e => valid_elem e = true) regular /\ (rooted = true -> ups = 0).

Lemma clean_step_ok rooted stack e : stack_ok rooted stack -> stack_ok rooted (clean_step rooted stack e).
Proof.
  intros (reg & ups & -> & Hreg & Hups). unfold clean_step.
  destruct (bool_decide (e = []) || bool_decide (e = dot)) eqn:E1.
  { exists reg, ups. done. }
  apply orb_false_iff in E1 as [E1%bool_decide_eq_false E2%bool_decide_eq_false].
  case_bool_decide as E3.
  - subst. destruct reg as [|top reg]; simpl.
    + destruct ups as [|ups]; simpl.
      * destruct rooted; [by exists [], 0|]. exists [], 1. split_and!; [done|done|done].
      * exists [], (S (S ups)). split_and!; [done|done|]. intros Hr. by apply Hups in Hr.
    + apply Forall_cons in Hreg as [Htop Hreg]. apply valid_elem_spec in Htop as (_ & _ & Htop).
      rewrite bool_decide_false by done. by exists reg, ups.
  - exists (e :: reg), ups. split_and!; [done| |done]. constructor; [|done].
    by apply valid_elem_spec.
Qed.

Lemma clean_stack_ok rooted es : stack_ok rooted (foldl (clean_step rooted) [] es).
Proof.
  apply (Forall_foldl_inv (stack_ok rooted)).
  - exists [], 0. split_and!; [done|constructor|done].
  - intros stack e Hs _. by apply clean_step_ok.
Qed.

Lemma foldl_valid rooted es stack :
  Forall (fun e => valid_elem e = true) es ->
  foldl (clean_step rooted) stack es = reverse es ++ stack.
Proof.
  revert stack. induction es as [|e es IH]; intros stack Hes; simpl; [done|].
  apply Forall_cons in Hes as [He Hes]. rewrite clean_step_valid, IH by done.
  by rewrite reverse_cons, <- app_assoc.
Qed.

Lemma foldl_ups n : foldl (clean_step false) [] (replicate n dotdot) = replicate n dotdot.
Proof.
  assert (forall m, foldl (clean_step false) (replicate m dotdot) (replicate n dotdot)
                    = replicate (n + m) dotdot) as H.
  { induction n as [|n IH]; intros m; [done|]. cbn [replicate foldl].
    assert (clean_step false (replicate m dotdot) dotdot = replicate (S m) dotdot) as ->
      by (by destruct m).
    rewrite IH. by rewrite Nat.add_succ_r. }
  pose proof (H 0) as H0. by rewrite Nat.add_0_r in H0.
Qed.

(** Elements in the form [clean_elems] produces are left alone. *)
Lemma clean_elems_fixed rooted es :
  stack_ok rooted (reverse es) -> clean_elems rooted es = es.
Proof.
  intros (reg & ups & Hes & Hreg & Hups). unfold clean_elems.
  assert (es = replicate ups dotdot ++ reverse reg) as ->.
  { rewrite <- (reverse_involutive es), Hes, reverse_app. f_equal. apply reverse_replicate. }
  rewrite foldl_app. destruct rooted.
  - rewrite Hups by done. simpl. rewrite foldl_valid by (by apply Forall_reverse).
    by rewrite reverse_involutive, app_nil_r.
  - rewrite foldl_ups, foldl_valid by (by apply Forall_reverse).
    rewrite reverse_involutive, reverse_app. f_equal. apply reverse_replicate.
Qed.

Lemma clean_elems_ok rooted es : stack_ok rooted (reverse (clean_elems rooted es)).
Proof. unfold clean_elems. rewrite reverse_involutive. apply clean_stack_ok. Qed.

Lemma foldl_clean_in rooted stack es e : e ∈ foldl (clean_step rooted) stack es -> e ∈ stack \/ e ∈ es.
Proof.
  revert stack. induction es as [|x es IH]; intros stack; simpl; [by left|].
  intros [H|H]%IH; [|right; by apply list_elem_of_further].
  unfold clean_step in H. repeat case_match; set_solver.
Qed.

(** No element of a split path contains a slash, and [Clean] makes none. *)
Lemma clean_elems_in rooted es e : e ∈ clean_elems rooted es -> e ∈ es.
Proof.
  unfold clean_elems. rewrite elem_of_reverse. intros [Hn|?]%foldl_clean_in; [by apply not_elem_of_nil in Hn|done].
Qed.

(** ** Cleaned paths *)

Definition no_slash (es : list gostring) : Prop := forall e, e ∈ es -> SLASH ∉ e.

Lemma clean_elems_no_slash rooted p : no_slash (clean_elems rooted (Split p SLASH)).
Proof. intros e He%clean_elems_in. by eapply Split_no_sep. Qed.

Lemma stack_ok_nonempty rooted es e : stack_ok rooted (reverse es) -> e ∈ es -> e <> [].
Proof.
  intros (reg & ups & Hes & Hreg & _) He. rewrite <- elem_of_reverse, Hes in He.
  apply elem_of_app in He as [He|He].
  - rewrite Forall_forall in Hreg. by apply Hreg, valid_elem_spec in He as (? & _).
  - by apply elem_of_replicate in He as [-> _].
Qed.

Lemma is_rooted_render rooted es :
  stack_ok rooted (reverse es) -> no_slash es -> is_rooted (render rooted es) = rooted.
Proof.
  intros Hok Hns. unfold render. destruct rooted; [done|].
  destruct es as [|e es]; [done|].
  pose proof (stack_ok_nonempty _ _ e Hok (list_elem_of_here _ _)) as Hne.
  pose proof (Hns e (list_elem_of_here _ _)) as Hs.
  destruct e as [|c e]; [done|]. apply not_elem_of_cons in Hs as [Hc _].
  assert (exists t, Join ((c :: e) :: es) SLASH = c :: t) as [t ->] by (destruct es; simpl; eauto).
  unfold is_rooted. cbn [HasPrefix]. by rewrite bool_decide_false.
Qed.

Lemma clean_elems_Split_render rooted es :
  stack_ok rooted (reverse es) -> no_slash es ->
  clean_elems rooted (Split (render rooted es) SLASH) = es.
Proof.
  intros Hok Hns. unfold render.
  assert (es <> [] -> Split (Join es SLASH) SLASH = es) as Hsj by (intros; by apply Split_Join).
  destruct rooted.
  - cbn [Split]. rewrite bool_decide_true by done.
    change (clean_elems true ([] :: Split (Join es SLASH) SLASH))
      with (clean_elems true (Split (Join es SLASH) SLASH)).
    destruct es as [|e es]; [done|]. rewrite Hsj by done. by apply clean_elems_fixed.
  - destruct es as [|e es]; [done|]. rewrite Hsj by done. by apply clean_elems_fixed.
Qed.

Lemma Clean_render rooted es :
  stack_ok rooted (reverse es) -> no_slash es -> Clean (render rooted es) = render rooted es.
Proof.
  intros Hok Hns. unfold Clean. by rewrite is_rooted_render, clean_elems_Split_render.
Qed.

(** [path.Clean] is idempotent. *)
Lemma Clean_idemp p : Clean (Clean p) = Clean p.
Proof.
  unfold Clean at 2. rewrite Clean_render; [done|apply clean_elems_ok|apply clean_elems_no_slash].
Qed.

(** A rooted path cleans to a slash and regular elements: no [.], no [..], no
    empty element, so it cannot climb above the root. *)
Lemma Clean_rooted p :
  is_rooted p = true ->
  exists es, Clean p = SLASH :: Join es SLASH /\
    Forall (fun e => valid_elem e = true) es /\ no_slash es.
Proof.
  intros Hr. unfold Clean. rewrite Hr. eexists. split; [done|].
  split; [|apply clean_elems_no_slash].
  destruct (clean_elems_ok true (Split p SLASH)) as (reg & ups & Hes & Hreg & Hups).
  rewrite Hups, app_nil_r in Hes by done. rewrite <- Forall_reverse. by rewrite Hes.
Qed.

(** A valid file-system path other than the root is cleaned to itself. *)
Lemma Clean_valid p : ValidPath p = true -> p <> dot -> Clean (SLASH :: p) = SLASH :: p.
Proof.
  intros Hv Hne. unfold ValidPath in Hv. rewrite bool_decide_false in Hv by done. simpl in Hv.
  assert (Forall (fun e => valid_elem e = true) (Split p SLASH)) as Hall.
  { apply Forall_forall. intros e He%list_elem_of_In. rewrite forallb_forall in Hv. by apply Hv. }
  assert (SLASH :: p = render true (Split p SLASH)) as E by (simpl; by rewrite Join_Split).
  rewrite E. apply Clean_render.
  - exists (reverse (Split p SLASH)), 0. split_and!; [by rewrite app_nil_r| |done].
    by apply Forall_reverse.
  - intros e He. by eapply Split_no_sep.
Qed.

Lemma Clean_slash_rooted p : exists q, Clean (SLASH :: p) = SLASH :: q.
Proof. destruct (Clean_rooted (SLASH :: p)) as (es & -> & _); eauto. Qed.

(** ** Extensions and base names *)

(** [Ext p] is a suffix of [p]; it is empty or starts with a dot and has no other
    dot and no slash. *)
Lemma ext_rev_spec r acc :
  DOT ∉ acc -> SLASH ∉ acc ->
  ext_rev r acc = [] \/
  exists e r', ext_rev r acc = DOT :: e ++ acc /\ r = reverse (DOT :: e) ++ r' /\
    (DOT ∉ e) /\ (SLASH ∉ e).
Proof.
  revert acc. induction r as [|c r IH]; intros acc Hd Hs; simpl; [by left|].
  case_bool_decide as E1; [by left|]. case_bool_decide as E2.
  - right. subst. exists [], r. split_and!; [done|done|apply not_elem_of_nil|apply not_elem_of_nil].
  - destruct (IH (c :: acc)) as [?|(e & r' & H1 & H2 & H3 & H4)].
    + by apply not_elem_of_cons.
    + by apply not_elem_of_cons.
    + by left.
    + right. exists (e ++ [c]), r'. split_and!.
      * rewrite H1. by rewrite <- app_assoc.
      * rewrite H2. by rewrite (app_comm_cons e [c] DOT), reverse_app.
      * rewrite not_elem_of_app, list_elem_of_singleton. done.
      * rewrite not_elem_of_app, list_elem_of_singleton. done.
Qed.

Lemma Ext_spec p :
  Ext p = [] \/ exists e q, Ext p = DOT :: e /\ p = q ++ DOT :: e /\ (DOT ∉ e) /\ (SLASH ∉ e).
Proof.
  destruct (ext_rev_spec (reverse p) []) as [?|(e & r & H1 & H2 & H3 & H4)];
    [apply not_elem_of_nil|apply not_elem_of_nil|by left|].
  right. exists e, (reverse r). rewrite app_nil_r in H1. split_and!; [done| |done|done].
  rewrite <- (reverse_involutive p), H2, reverse_app, reverse_involutive. done.
Qed.

Lemma ext_rev_app e r acc :
  DOT ∉ e -> SLASH ∉ e -> ext_rev (reverse e ++ DOT :: r) acc = DOT :: e ++ acc.
Proof.
  revert acc. induction e as [|c e IH] using rev_ind; intros acc Hd Hs; [done|].
  rewrite not_elem_of_app, list_elem_of_singleton in Hd, Hs.
  destruct Hd as [Hd Hc]. destruct Hs as [Hs Hc'].
  rewrite reverse_snoc. cbn [app ext_rev].
  rewrite !bool_decide_false by done. rewrite IH by done. by rewrite <- app_assoc.
Qed.

Lemma Ext_app q e : DOT ∉ e -> SLASH ∉ e -> Ext (q ++ DOT :: e) = DOT :: e.
Proof.
  intros Hd Hs. unfold Ext.
  assert (reverse (q ++ DOT :: e) = reverse e ++ DOT :: reverse q) as ->.
  { by rewrite reverse_app, reverse_cons, <- app_assoc. }
  rewrite ext_rev_app by done. by rewrite app_nil_r.
Qed.

(** ** Relative paths *)

(** A relative path in lexical normal form: valid, or one that leaves the root. *)
Definition relative_normal (p : gostring) : Prop :=
  is_rooted p = false /\ Clean p = p /\
  (ValidPath p = true \/ p = dotdot \/ exists q, p = dotdot ++ SLASH :: q).

Lemma Clean_nonempty p : Clean p <> [].
Proof.
  unfold Clean, render. destruct (is_rooted p); [done|].
  pose proof (clean_elems_ok false (Split p SLASH)) as Hok.
  destruct (clean_elems false (Split p SLASH)) as [|e es]; [done|].
  pose proof (stack_ok_nonempty false (e :: es) e Hok (list_elem_of_here _ _)) as He.
  destruct es; simpl; [done|]. by destruct e.
Qed.

Lemma Clean_relative p : is_rooted p = false -> relative_normal (Clean p).
Proof.
  intros Hp. split_and!.
  - unfold Clean. rewrite Hp. apply is_rooted_render; [apply clean_elems_ok|apply clean_elems_no_slash].
  - apply Clean_idemp.
  - unfold Clean. rewrite Hp. pose proof (clean_elems_ok false (Split p SLASH)) as Hok.
    pose proof (clean_elems_no_slash false p) as Hns.
    destruct (clean_elems false (Split p SLASH)) as [|e es] eqn:E; [by left|].
    destruct Hok as (reg & ups & Hes & Hreg & _).
    assert (e :: es = replicate ups dotdot ++ reverse reg) as Heq.
    { rewrite <- (reverse_involutive (e :: es)), Hes, reverse_app. f_equal. apply reverse_replicate. }
    destruct ups as [|ups].
    + left. unfold ValidPath. cbn [render]. rewrite Split_Join; [|done|done].
      apply orb_true_iff. right. apply forallb_forall. intros x Hx%list_elem_of_In.
      rewrite Heq in Hx. cbn in Hx. rewrite elem_of_reverse in Hx.
      rewrite Forall_forall in Hreg. by apply Hreg.
    + right. cbn in Heq. injection Heq as -> Hrest. cbn [render].
      destruct es as [|x xs]; [by left|]. right. by eexists.
Qed.

(** Joining below a relative path gives a relative path. *)
Lemma path_Join_relative d n : d <> [] -> is_rooted d = false -> relative_normal (path_Join [d; Clean n]).
Proof.
  intros Hd Hr. unfold path_Join. pose proof (Clean_nonempty n).
  rewrite !filter_cons_True, filter_nil by done. cbn [Join].
  apply Clean_relative. by destruct d as [|c d].
Qed.

Lemma path_Join_nonempty d n : path_Join [d; Clean n] <> [].
Proof.
  unfold path_Join. pose proof (Clean_nonempty n) as Hn.
  destruct (decide (d <> [])).
  - rewrite !filter_cons_True, filter_nil by done. apply Clean_nonempty.
  - rewrite filter_cons_False, filter_cons_True, filter_nil by done. apply Clean_nonempty.
Qed.

(** ** Names relative to a directory

    A directory below the root of a file system is the list of its elements.  A name
    is resolved against it element by element; a name that climbs above the root has
    no meaning.  A rooted name does not leave the directory. *)

Definition elems_ok (es : list gostring) : Prop := Forall (fun e => valid_elem e = true) es /\ no_slash es.

(** The innermost element first; [stop] tells whether [..] stops at the top. *)
Fixpoint resolve_from (stop : bool) (stack es : list gostring) : option (list gostring) :=
  match es with
  | [] => Some stack
  | e :: es =>
      if bool_decide (e = []) || bool_decide (e = dot) then resolve_from stop stack es
      else if bool_decide (e = dotdot) then
        match stack with
        | _ :: rest => resolve_from stop rest es
        | [] => if stop then resolve_from stop [] es else None
        end
      else resolve_from stop (e :: stack) es
  end.

Definition resolve (dir : list gostring) (name : gostring) : option (list gostring) :=
  if is_rooted name then (fun st => dir ++ reverse st) <$> resolve_from true [] (Split name SLASH)
  else reverse <$> resolve_from false (reverse dir) (Split name SLASH).

Lemma elems_ok_reverse es : elems_ok es <-> elems_ok (reverse es).
Proof. unfold elems_ok, no_slash. rewrite Forall_reverse. by setoid_rewrite elem_of_reverse. Qed.

Lemma elems_ok_app es es' : elems_ok es -> elems_ok es' -> elems_ok (es ++ es').
Proof.
  intros [H1 H2] [H3 H4]. split; [by apply Forall_app|]. intros e [He|He]%elem_of_app; auto.
Qed.

(** A stack that has climbed above the root keeps doing so. *)
Lemma climbed_stays es reg n :
  Forall (fun e => valid_elem e = true) reg ->
  exists reg' n', foldl (clean_step false) (reg ++ replicate (S n) dotdot) es = reg' ++ replicate (S n') dotdot.
Proof.
  revert reg n. induction es as [|e es IH]; intros reg n Hr; [by exists reg, n|]. cbn [foldl]. unfold clean_step at 2.
  destruct (bool_decide (e = []) || bool_decide (e = dot)) eqn:E1; [by apply IH|].
  apply orb_false_iff in E1 as [E1%bool_decide_eq_false_1 E2%bool_decide_eq_false_1].
  destruct (bool_decide_reflect (e = dotdot)) as [->|E3].
  - destruct reg as [|top reg]; [by apply (IH [] (S n))|]. cbn [app]. apply Forall_cons in Hr as [Ht Hr].
    apply valid_elem_spec in Ht as (_ & _ & Ht). rewrite bool_decide_false by done. by apply IH.
  - apply (IH (e :: reg) n). constructor; [|done]. by apply valid_elem_spec.
Qed.

(** [path.Clean] resolves, where the name stays below the root. *)
Lemma clean_resolves rooted stack es :
  elems_ok stack -> no_slash es ->
  match resolve_from rooted stack es with
  | Some st => foldl (clean_step rooted) stack es = st /\ elems_ok st
  | None => rooted = false /\ exists reg n, foldl (clean_step rooted) stack es = reg ++ replicate (S n) dotdot
  end.
Proof.
  revert stack. induction es as [|e es IH]; intros stack Hs Hn; [done|]. cbn [resolve_from foldl].
  assert (no_slash es) as Hn' by (intros x Hx; apply Hn; by right).
  destruct (bool_decide (e = []) || bool_decide (e = dot)) eqn:E1.
  { assert (clean_step rooted stack e = stack) as -> by (unfold clean_step; by rewrite E1). by apply IH. }
  pose proof E1 as [E2%bool_decide_eq_false_1 E3%bool_decide_eq_false_1]%orb_false_iff.
  destruct (bool_decide_reflect (e = dotdot)) as [->|E4].
  - destruct stack as [|top stack].
    + destruct rooted; [by apply IH|]. split; [done|]. apply (climbed_stays es [] 0). constructor.
    + destruct Hs as [[Ht Hs]%Forall_cons Hsl]. apply valid_elem_spec in Ht as (_ & _ & Ht).
      assert (clean_step rooted (top :: stack) dotdot = stack) as ->.
      { unfold clean_step. rewrite E1. by rewrite bool_decide_true, bool_decide_false. }
      apply IH; [|done]. split; [done|]. intros x Hx. apply Hsl. by right.
  - assert (valid_elem e = true) as Hv by (by apply valid_elem_spec). rewrite clean_step_valid by done.
    apply IH; [|done]. destruct Hs as [Hs Hsl]. split; [by constructor|].
    intros x [->|Hx]%elem_of_cons; [apply Hn; by left|by apply Hsl].
Qed.

(** Cleaning a relative name first makes no difference. *)
Lemma clean_twice stack es :
  foldl (clean_step false) stack (clean_elems false es) = foldl (clean_step false) stack es.
Proof.
  unfold clean_elems. induction es as [|e es IH] using rev_ind; [done|]. rewrite !foldl_app. cbn [foldl]. rewrite <- IH.
  pose proof (clean_stack_ok false es) as (reg & ups & E & Hr & _).
  assert (forall x, foldl (clean_step false) stack (reverse (x :: foldl (clean_step false) [] es)) =
    clean_step false (foldl (clean_step false) stack (reverse (foldl (clean_step false) [] es))) x) as Hpush.
  { intros x. by rewrite reverse_cons, foldl_app. }
  unfold clean_step at 2. destruct (bool_decide (e = []) || bool_decide (e = dot)) eqn:E1.
  { unfold clean_step at 3. by rewrite E1. }
  destruct (bool_decide_reflect (e = dotdot)) as [->|E3]; [|by apply Hpush].
  destruct (foldl (clean_step false) [] es) as [|top rest] eqn:Ef; [done|].
  destruct (bool_decide_reflect (top = dotdot)) as [->|Ht]; [by apply Hpush|].
  assert (valid_elem top = true) as Hv.
  { destruct reg as [|x reg]; cbn in E; [by destruct ups; cbn in E; simplify_eq|].
    injection E as -> _. by apply Forall_cons in Hr as [? _]. }
  rewrite reverse_cons, foldl_app. cbn [foldl]. rewrite (clean_step_valid _ _ top) by done.
  unfold clean_step at 2. apply valid_elem_spec in Hv as (_ & _ & Hv).
  rewrite (bool_decide_false (dotdot = [])), (bool_decide_false (dotdot = dot)), (bool_decide_true (dotdot = dotdot)) by done.
  cbn [orb]. by rewrite bool_decide_false.
Qed.

Lemma Split_sep_app a b sep : Split (a ++ sep :: b) sep = Split a sep ++ Split b sep.
Proof.
  induction a as [|c a IH]; [cbn; by rewrite bool_decide_true|]. cbn [app Split]. rewrite IH.
  destruct (bool_decide (c = sep)); [done|]. pose proof (Split_not_nil a sep). by destruct (Split a sep).
Qed.

(** The elements of a cleaned name. *)
Lemma foldl_render rooted stack es :
  no_slash es -> foldl (clean_step false) stack (Split (render rooted es) SLASH) = foldl (clean_step false) stack es.
Proof.
  intros Hn. unfold render. destruct rooted.
  - cbn [Split]. rewrite bool_decide_true by done. destruct es as [|e es]; [done|]. by rewrite Split_Join.
  - destruct es as [|e es]; [done|]. by rewrite Split_Join.
Qed.

Lemma climbed_invalid reg n :
  no_slash reg -> ValidPath (render false (reverse (reg ++ replicate (S n) dotdot))) = false.
Proof.
  intros Hs. rewrite reverse_app, reverse_replicate. cbn [replicate app render]. unfold ValidPath.
  assert (no_slash (dotdot :: replicate n dotdot ++ reverse reg)) as Hns.
  { intros e [->|[[-> _]%elem_of_replicate|He]%elem_of_app]%elem_of_cons; [by apply (bool_decide_unpack _)..|].
    apply Hs. by apply elem_of_reverse. }
  rewrite Split_Join by done. rewrite bool_decide_false; [done|].
  by destruct (replicate n dotdot ++ reverse reg).
Qed.

(** [path.Join] of a directory and a cleaned name is the name resolved against the
    directory, and no valid path when that climbs above the root. *)
Lemma path_Join_resolve dir name :
  elems_ok dir ->
  match resolve dir name with
  | Some es => elems_ok es /\ path_Join [render false dir; Clean name] = render false es
  | None => ValidPath (path_Join [render false dir; Clean name]) = false
  end.
Proof.
  intros Hd. assert (render false dir <> [] /\ is_rooted (render false dir ++ SLASH :: Clean name) = false) as [Hne Hroot].
  { destruct Hd as [Hv Hs]. destruct dir as [|e dir]; [done|]. apply Forall_cons in Hv as [(He & _)%valid_elem_spec _].
    assert (SLASH ∉ e) as Hse by (apply Hs; by left). destruct e as [|c e]; [done|]. apply not_elem_of_cons in Hse as [Hc _].
    unfold is_rooted. cbn [render]. destruct dir; cbn; by rewrite bool_decide_false. }
  assert (path_Join [render false dir; Clean name] =
    render false (reverse (foldl (clean_step false) (reverse dir) (clean_elems (is_rooted name) (Split name SLASH))))) as ->.
  { unfold path_Join. rewrite !filter_cons_True, filter_nil by (done || apply Clean_nonempty). cbn [Join].
    unfold Clean at 1. rewrite Hroot, Split_sep_app. unfold clean_elems at 1. rewrite foldl_app, foldl_render by apply Hd.
    rewrite (foldl_valid false dir) by apply Hd. rewrite app_nil_r. unfold Clean. by rewrite foldl_render by apply clean_elems_no_slash. }
  assert (no_slash (Split name SLASH)) as Hn by (intros e He; by eapply Split_no_sep).
  unfold resolve. destruct (is_rooted name) eqn:Er.
  - pose proof (clean_resolves true [] (Split name SLASH) ltac:(split; [done|by intros e ?%not_elem_of_nil]) Hn) as H.
    destruct (resolve_from true [] (Split name SLASH)) as [st|]; [|by destruct H]. cbn [fmap option_fmap option_map].
    destruct H as [E Hok]. unfold clean_elems. rewrite E. apply elems_ok_reverse in Hok.
    split; [by apply elems_ok_app|]. rewrite foldl_valid by apply Hok.
    by rewrite reverse_involutive, reverse_app, reverse_involutive.
  - rewrite clean_twice.
    pose proof (clean_resolves false (reverse dir) (Split name SLASH) ltac:(by apply elems_ok_reverse in Hd) Hn) as H.
    destruct (resolve_from false (reverse dir) (Split name SLASH)) as [st|]; cbn [fmap option_fmap option_map].
    + destruct H as [-> Hok]. by apply elems_ok_reverse in Hok.
    + destruct H as (_ & reg & n & E). rewrite E. apply climbed_invalid. intros e He.
      destruct (foldl_clean_in false (reverse dir) (Split name SLASH) e) as [Hin|Hin]; [|apply Hd; by apply elem_of_reverse|by apply Hn].
      rewrite E. apply elem_of_app. by left.
Qed.

(** ** Paths given by their elements *)

(** The path with these elements under the root, ["/a/b"]; "" for no element. *)
Definition under_root (es : list gostring) : gostring := mjoin (cons SLASH <$> es).

Lemma under_root_snoc es e : under_root (es ++ [e]) = under_root es ++ SLASH :: e.
Proof. unfold under_root. rewrite fmap_app, join_app. cbn. by rewrite app_nil_r. Qed.

Lemma under_root_Join es : es <> [] -> under_root es = SLASH :: Join es SLASH.
Proof.
  induction es as [|e [|e' es] IH]; intros H; [done| |].
  - cbn. by rewrite app_nil_r.
  - change (under_root (e :: e' :: es)) with ((SLASH :: e) ++ under_root (e' :: es)).
    rewrite IH by done. done.
Qed.

Lemma list_find_none_app {A} (P : A -> Prop) `{!forall x, Decision (P x)} (l k : list A) :
  Forall (fun x => ~ P x) l -> list_find P (l ++ k) = prod_map (Nat.add (length l)) id <$> list_find P k.
Proof.
  induction 1 as [|x l Hx _ IH]; cbn [app list_find].
  - by destruct (list_find P k) as [[]|].
  - rewrite decide_False by done. rewrite IH. by destruct (list_find P k) as [[]|].
Qed.

Lemma after_last_slash_app d e : SLASH ∉ e -> after_last_slash (d ++ SLASH :: e) = length d + 1.
Proof.
  intros He. unfold after_last_slash. rewrite reverse_app, reverse_cons, <- app_assoc.
  rewrite list_find_none_app.
  - cbn [app list_find]. rewrite decide_True by done. cbn. rewrite !length_app, length_reverse. cbn. lia.
  - apply Forall_reverse, Forall_forall. by intros x Hx ->.
Qed.

Lemma path_Split_app d e : SLASH ∉ e -> path_Split (d ++ SLASH :: e) = (d ++ [SLASH], e).
Proof.
  intros He. unfold path_Split. rewrite after_last_slash_app by done.
  replace (d ++ SLASH :: e) with ((d ++ [SLASH]) ++ e) by (by rewrite <- app_assoc).
  replace (length d + 1) with (length (d ++ [SLASH])) by (rewrite length_app; done).
  by rewrite take_app_length, drop_app_length.
Qed.

Lemma Base_app d e : SLASH ∉ e -> e <> [] -> Base (d ++ SLASH :: e) = e.
Proof.
  intros He Hne. unfold Base.
  assert (reverse (trim_slashes (reverse (d ++ SLASH :: e))) = d ++ SLASH :: e) as ->.
  { destruct (exists_last Hne) as (e0 & c & ->).
    assert (c <> SLASH) as Hc by (intros ->; apply He, elem_of_app; right; by apply list_elem_of_singleton).
    replace (d ++ SLASH :: e0 ++ [c]) with ((d ++ SLASH :: e0) ++ [c]) by (by rewrite <- app_assoc).
    rewrite reverse_snoc. cbn [trim_slashes]. rewrite bool_decide_false by done.
    by rewrite reverse_cons, reverse_involutive. }
  rewrite path_Split_app by done. destruct d; cbn; by destruct e.
Qed.

Lemma Clean_elements es :
  Forall (fun e => valid_elem e = true) es -> no_slash es ->
  Clean (SLASH :: Join es SLASH) = SLASH :: Join es SLASH.
Proof.
  intros Hv Hs. apply (Clean_render true); [|done].
  exists (reverse es), 0. split_and!; [by rewrite app_nil_r|by apply Forall_reverse|done].
Qed.

Lemma Clean_under_root es :
  Forall (fun e => valid_elem e = true) es -> no_slash es ->
  Clean (under_root es ++ [SLASH]) = SLASH :: Join es SLASH.
Proof.
  intros Hv Hs. destruct (decide (es = [])) as [->|Hne]; [done|].
  unfold Clean. assert (is_rooted (under_root es ++ [SLASH]) = true) as -> by (by rewrite under_root_Join).
  assert (Split (under_root es ++ [SLASH]) SLASH = [] :: es ++ [[]]) as ->.
  { rewrite under_root_Join by done. cbn [app Split]. rewrite bool_decide_true by done. f_equal.
    assert (Join es SLASH ++ [SLASH] = Join (es ++ [[]]) SLASH) as ->.
    { clear Hs Hv. induction es as [|e [|e' es] IH]; [done|done|].
      change (Join (e :: e' :: es) SLASH) with (e ++ SLASH :: Join (e' :: es) SLASH).
      change (Join ((e :: e' :: es) ++ [[]]) SLASH) with (e ++ SLASH :: Join ((e' :: es) ++ [[]]) SLASH).
      rewrite <- IH by done. by rewrite <- app_assoc. }
    rewrite Split_Join; [done|by destruct es|]. intros l [Hl|Hl]%elem_of_app; [by apply Hs|].
    apply list_elem_of_singleton in Hl as ->. apply not_elem_of_nil. }
  unfold clean_elems. cbn [foldl]. rewrite foldl_app.
  change (clean_step true [] []) with (@nil gostring). rewrite (foldl_valid true es) by done. rewrite app_nil_r.
  cbn [foldl]. change (clean_step true (reverse es) []) with (reverse es). by rewrite reverse_involutive.
Qed.

Lemma Dir_under_root es e :
  Forall (fun e => valid_elem e = true) es -> no_slash es -> SLASH ∉ e ->
  Dir (under_root (es ++ [e])) = SLASH :: Join es SLASH.
Proof.
  intros Hv Hs He. unfold Dir. rewrite under_root_snoc, path_Split_app by done. by apply Clean_under_root.
Qed.
