(* ===== verification/GoFloat.v ===== *)
(** * float64 and [strconv.ParseFloat(s, 64)]

    A [float64] is a [spec_float] of the Standard Library, computed with binary64
    rounding ([prec] = 53, [emax] = 1024), so every operation is the IEEE 754 one.
    [ParseFloat] covers the whole syntax the Go function accepts: decimal and
    hexadecimal numbers with exponents and digit separators, infinities and NaN.
    The digits are kept exactly, and the value is rounded once, to nearest even. *)

From S2P Require Import Prelude GoStrings.
From Stdlib Require Import SpecFloat.

Abbreviation float64 := spec_float.

Definition prec64 : Z := 53.
Definition emax64 : Z := 1024.

Definition fsub : float64 -> float64 -> float64 := SFsub prec64 emax64.
Definition fabs : float64 -> float64 := SFabs.
Definition flt (x y : float64) : bool := SFltb x y.
Definition fle (x y : float64) : bool := SFleb x y.

(** The nearest float64 to [m * 10^d] with the given sign. *)
Definition of_decimal (neg : bool) (m : N) (d : Z) : float64 :=
  match m with
  | N0 => S754_zero neg
  | Npos p =>
      match d with
      | Zneg k =>
          let '(q, e, loc) := SFdiv_core_binary prec64 emax64 (Zpos p) 0 (Z.pow 10 (Zpos k)) 0 in
          binary_round_aux prec64 emax64 neg q e loc
      | _ =>
          match (Zpos p * Z.pow 10 d)%Z with
          | Zpos m' => binary_round prec64 emax64 neg m' 0
          | _ => S754_zero neg
          end
      end
  end.

(** The nearest float64 to [m * 2^e] with the given sign. *)
Definition of_binary (neg : bool) (m : N) (e : Z) : float64 :=
  match m with
  | N0 => S754_zero neg
  | Npos p => binary_round prec64 emax64 neg p e
  end.

Definition f0 : float64 := S754_zero false.
Definition f1 : float64 := Eval vm_compute in of_decimal false 1 0.
Definition f0_1 : float64 := Eval vm_compute in of_decimal false 1 (-1).

(** ** The syntax *)

(** [lower(c)] of strconv: the letter in lower case. *)
Definition lower (c : ascii) : ascii := ascii_of_N (N.lor (byte_N c) 32).

Definition digit_val (hex : bool) (c : ascii) : option N :=
  if in_range 48 57 c then Some (byte_N c - 48)%N
  else if hex && in_range 97 102 (lower c) then Some (byte_N (lower c) - 97 + 10)%N
  else None.

(** The digits of the mantissa: their value, how many follow the point, whether
    a point, a digit and a separator were seen; and what is left of the input. *)
Record mant := {
  m_val : N; m_frac : nat; m_dot : bool; m_digits : bool; m_under : bool
}.

Fixpoint read_mant (hex : bool) (s : gostring) (m : mant) : mant * gostring :=
  match s with
  | [] => (m, [])
  | c :: s' =>
      if bool_decide (c = "_"%char) then
        read_mant hex s' {| m_val := m_val m; m_frac := m_frac m; m_dot := m_dot m;
                            m_digits := m_digits m; m_under := true |}
      else if bool_decide (c = DOT) then
        if m_dot m then (m, s)
        else read_mant hex s' {| m_val := m_val m; m_frac := m_frac m; m_dot := true;
                                 m_digits := m_digits m; m_under := m_under m |}
      else match digit_val hex c with
           | Some d =>
               read_mant hex s'
                 {| m_val := (m_val m * (if hex then 16 else 10) + d)%N;
                    m_frac := if m_dot m then S (m_frac m) else m_frac m;
                    m_dot := m_dot m; m_digits := true; m_under := m_under m |}
           | None => (m, s)
           end
  end.

(** The digits of the exponent; it stops growing at 10000. *)
Fixpoint read_exp_digits (s : gostring) (e : N) (under : bool) : N * bool * gostring :=
  match s with
  | [] => (e, under, [])
  | c :: s' =>
      if bool_decide (c = "_"%char) then read_exp_digits s' e true
      else match digit_val false c with
           | Some d => read_exp_digits s' (if (e <? 10000)%N then (e * 10 + d)%N else e) under
           | None => (e, under, s)
           end
  end.

Definition read_exp (s : gostring) : option (Z * bool * gostring) :=
  let '(neg, s) :=
    match s with
    | c :: s' => if bool_decide (c = "+"%char) then (false, s')
                 else if bool_decide (c = "-"%char) then (true, s')
                 else (false, s)
    | [] => (false, s)
    end in
  match s with
  | c :: _ =>
      match digit_val false c with
      | Some _ =>
          let '(e, under, rest) := read_exp_digits s 0 false in
          Some (if neg then (- Z.of_N e)%Z else Z.of_N e, under, rest)
      | None => None
      end
  | [] => None
  end.

(** [underscoreOK]: a separator stands between digits, or after a base prefix.
    [prev] is what was seen last: [true] a digit or prefix, [false] anything
    else; [under] says that the last character was a separator. *)
Fixpoint underscore_ok (hex : bool) (s : gostring) (prev under : bool) : bool :=
  match s with
  | [] => negb under
  | c :: s' =>
      match digit_val hex c with
      | Some _ => underscore_ok hex s' true false
      | None =>
          if bool_decide (c = "_"%char) then
            if prev then underscore_ok hex s' false true else false
          else if under then false else underscore_ok hex s' false false
      end
  end.

Definition split_sign (s : gostring) : bool * gostring :=
  match s with
  | c :: s' => if bool_decide (c = "+"%char) then (false, s')
               else if bool_decide (c = "-"%char) then (true, s')
               else (false, s)
  | [] => (false, s)
  end.

Definition equal_fold (s t : gostring) : bool := bool_decide ((lower <$> s) = t).

(** [special]: the names of the infinities (with a sign) and of NaN (without). *)
Definition special (s : gostring) : option float64 :=
  let '(neg, t) := split_sign s in
  if equal_fold t (gs "inf") || equal_fold t (gs "infinity") then Some (S754_infinity neg)
  else if equal_fold s (gs "nan") then Some S754_nan
  else None.

(** Whether a number starts with the hexadecimal prefix, and what follows it. *)
Definition hex_prefix (s : gostring) : bool * gostring :=
  match s with
  | c :: x :: s' =>
      if bool_decide (c = "0"%char) && bool_decide (lower x = "x"%char) then (true, s')
      else (false, s)
  | _ => (false, s)
  end.

Definition is_inf (x : float64) : bool :=
  match x with S754_infinity _ => true | _ => false end.

(** [strconv.ParseFloat(s, 64)]; [None] when it returns an error, for a wrong
    syntax as for a value out of range. *)
Definition ParseFloat (s : gostring) : option float64 :=
  match special s with
  | Some x => Some x
  | None =>
      let '(neg, s1) := split_sign s in
      let '(hex, s2) := hex_prefix s1 in
      let '(m, rest) := read_mant hex s2
        {| m_val := 0; m_frac := 0; m_dot := false; m_digits := false; m_under := false |} in
      if negb (m_digits m) then None
      else
        let exp :=
          match rest with
          | c :: rest' =>
              if bool_decide (lower c = (if hex then "p"%char else "e"%char))
              then read_exp rest' else None
          | [] => if hex then None else Some (0%Z, false, [])
          end in
        match exp with
        | Some (e, under, []) =>
            if (m_under m || under) && negb (underscore_ok hex s2 hex false) then None
            else
              let x := if hex
                       then of_binary neg (m_val m) (e - 4 * Z.of_nat (m_frac m))
                       else of_decimal neg (m_val m) (e - Z.of_nat (m_frac m)) in
              if is_inf x then None else Some x
        | _ => None
        end
  end.

Example ParseFloat_examples :
  ParseFloat (gs "0.5") = Some (S754_finite false 4503599627370496 (-53)) /\
  ParseFloat (gs "1") = Some f1 /\ ParseFloat (gs "1e0") = Some f1 /\
  ParseFloat (gs "0x1p0") = Some f1 /\ ParseFloat (gs ".1") = Some f0_1 /\
  ParseFloat (gs "1_0e-1") = Some f1 /\ ParseFloat (gs "-0") = Some (S754_zero true) /\
  ParseFloat (gs "Inf") = Some (S754_infinity false) /\ ParseFloat (gs "NaN") = Some S754_nan /\
  ParseFloat (gs "") = None /\ ParseFloat (gs "1e") = None /\ ParseFloat (gs "1__0") = None /\
  ParseFloat (gs "1e400") = None /\ ParseFloat (gs "0.5 ") = None.
Proof. vm_compute. tauto. Qed.

(** ** Subtraction and comparison *)

Lemma binary_round_aux_opp sx mx ex lx :
  binary_round_aux prec64 emax64 (negb sx) mx ex lx = SFopp (binary_round_aux prec64 emax64 sx mx ex lx).
Proof.
  unfold binary_round_aux. destruct (shr_fexp _ _ mx ex lx) as [mrs e].
  destruct (shr_fexp _ _ _ e loc_Exact) as [mrs' e'].
  destruct (shr_m mrs'); [done| |done]. by destruct (_ <=? _)%Z.
Qed.

Lemma binary_normalize_opp m e s :
  m <> 0%Z ->
  binary_normalize prec64 emax64 (- m) e s = SFopp (binary_normalize prec64 emax64 m e s).
Proof.
  intros Hm. destruct m as [|m|m]; [done| |]; simpl; unfold binary_round;
    destruct (shl_align _ _ _) as [mz ez]; by rewrite <- binary_round_aux_opp.
Qed.

Definition is_zero (x : float64) : bool := match x with S754_zero _ => true | _ => false end.

(** [b - a] is the opposite of [a - b], zeros apart. *)
Lemma fsub_swap a b : is_zero (fsub a b) = false -> fsub b a = SFopp (fsub a b).
Proof.
  unfold fsub. destruct a as [sa|sa| |sa ma ea], b as [sb|sb| |sb mb eb];
    try (by destruct sa, sb); try (by destruct sa); try (by destruct sb);
    try done; simpl.
  rewrite (Z.min_comm eb ea).
  set (x := cond_Zopp sa _). set (y := cond_Zopp sb _).
  replace (y - x)%Z with (- (x - y))%Z by lia. intros Hz.
  apply binary_normalize_opp. intros E. by rewrite E in Hz.
Qed.

Definition fpos (x : float64) : bool := flt f0 x.

(** What is above a positive number is positive, so its opposite is not above. *)
Lemma flt_fpos c x : fpos c = true -> flt c x = true -> fpos x = true.
Proof.
  unfold fpos, flt, SFltb.
  destruct c as [sc|sc| |sc mc ec]; try done; destruct sc; try done;
    destruct x as [sx|sx| |sx mx ex]; try done; destruct sx; done.
Qed.

Lemma fpos_opp c x : fpos c = true -> fpos x = true -> flt c (SFopp x) = false.
Proof.
  unfold fpos, flt, SFltb.
  destruct c as [sc|sc| |sc mc ec]; try done; destruct sc; try done;
    destruct x as [sx|sx| |sx mx ex]; try done; destruct sx; done.
Qed.

Lemma fpos_abs_opp x : fpos x = true -> fabs (SFopp x) = x.
Proof.
  unfold fpos, flt, SFltb. destruct x as [sx|sx| |sx mx ex]; try done; destruct sx; done.
Qed.

Lemma flt_fle c x : flt c x = true -> fle x c = false.
Proof.
  unfold flt, fle, SFltb, SFleb. destruct c as [sc|sc| |sc mc ec], x as [sx|sx| |sx mx ex]; simpl;
    try done; try (by destruct sc, sx); try (by destruct sc); try (by destruct sx).
  destruct sc, sx; try done; rewrite (Z.compare_antisym ec ex);
    destruct (ec ?= ex)%Z eqn:E; simpl; try done;
    change (Pos.compare_cont Eq) with Pos.compare; rewrite (Pos.compare_antisym mc mx);
    by destruct (mc ?= mx)%positive.
Qed.

(** If [a] exceeds [b] by more than [c], then [b] neither exceeds [a] by more than
    [c] nor comes within [c] of it. *)
Lemma strong_preference_asym c a b :
  fpos c = true -> flt c (fsub a b) = true ->
  flt c (fsub b a) = false /\ fle (fabs (fsub b a)) c = false.
Proof.
  intros Hc Hlt. pose proof (flt_fpos _ _ Hc Hlt) as Hp.
  rewrite (fsub_swap a b) by (by destruct (fsub a b)).
  split; [by apply fpos_opp|]. rewrite fpos_abs_opp by done. by apply flt_fle.
Qed.
