(* ===== verification/GoErrors.v ===== *)
(** * Go error values

    The errors the program makes and inspects: texts ([fmt.Errorf] without
    [%w], [errors.New]), wrapped errors ([fmt.Errorf] with [%w], and the
    [ExecError] of [text/template], which wraps what a called method returned),
    [errors.Join], [fs.PathError], and the two error types of xtemplate,
    [ReturnError] (dot_instance.go) and [ErrorStatus] (dot_resp.go).
    A Go [error] that may be nil is an [option goerr]. *)

From S2P Require Import Prelude GoStrings.

Inductive goerr : Type :=
| ErrText (msg : gostring)
| ErrWrap (prefix : gostring) (e : goerr)
| ErrJoin (es : list goerr)
| PathError (op path : gostring) (e : goerr)
| ReturnError
| ErrorStatus (code : Z).

(** A pair [(T, error)] of which exactly one half is meaningful. *)
Inductive result (A : Type) : Type :=
| Ok (a : A)
| Err (e : goerr).
Arguments Ok {_} _.
Arguments Err {_} _.

#[export] Instance result_ret : MRet result := fun A a => Ok a.
#[export] Instance result_bind : MBind result := fun A B f m =>
  match m with
  | Ok a => f a
  | Err e => Err e
  end.

(** The induction principle that reaches the errors inside a join. *)
Section goerr_induction.
Context (P : goerr -> Prop).
Context (HText : forall msg, P (ErrText msg)).
Context (HWrap : forall prefix e, P e -> P (ErrWrap prefix e)).
Context (HJoin : forall es, Forall P es -> P (ErrJoin es)).
Context (HPath : forall op path e, P e -> P (PathError op path e)).
Context (HReturn : P ReturnError).
Context (HStatus : forall code, P (ErrorStatus code)).

Fixpoint goerr_ind' (e : goerr) : P e :=
  match e with
  | ErrText msg => HText msg
  | ErrWrap prefix e => HWrap prefix e (goerr_ind' e)
  | ErrJoin es =>
      HJoin es ((fix go (es : list goerr) : Forall P es :=
                   match es with
                   | [] => Forall_nil_2 P
                   | e :: es' => Forall_cons_2 P e es' (goerr_ind' e) (go es')
                   end) es)
  | PathError op path e => HPath op path e (goerr_ind' e)
  | ReturnError => HReturn
  | ErrorStatus code => HStatus code
  end.
End goerr_induction.

(** [http.StatusText], for the codes [net/http] names. *)
Definition status_texts : list (Z * string) :=
  [(100, "Continue"); (101, "Switching Protocols"); (102, "Processing"); (103, "Early Hints");
   (200, "OK"); (201, "Created"); (202, "Accepted"); (203, "Non-Authoritative Information");
   (204, "No Content"); (205, "Reset Content"); (206, "Partial Content"); (207, "Multi-Status");
   (208, "Already Reported"); (226, "IM Used"); (300, "Multiple Choices");
   (301, "Moved Permanently"); (302, "Found"); (303, "See Other"); (304, "Not Modified");
   (305, "Use Proxy"); (307, "Temporary Redirect"); (308, "Permanent Redirect");
   (400, "Bad Request"); (401, "Unauthorized"); (402, "Payment Required"); (403, "Forbidden");
   (404, "Not Found"); (405, "Method Not Allowed"); (406, "Not Acceptable");
   (407, "Proxy Authentication Required"); (408, "Request Timeout"); (409, "Conflict");
   (410, "Gone"); (411, "Length Required"); (412, "Precondition Failed");
   (413, "Request Entity Too Large"); (414, "Request URI Too Long");
   (415, "Unsupported Media Type"); (416, "Requested Range Not Satisfiable");
   (417, "Expectation Failed"); (418, "I'm a teapot"); (421, "Misdirected Request");
   (422, "Unprocessable Entity"); (423, "Locked"); (424, "Failed Dependency");
   (425, "Too Early"); (426, "Upgrade Required"); (428, "Precondition Required");
   (429, "Too Many Requests"); (431, "Request Header Fields Too Large");
   (451, "Unavailable For Legal Reasons"); (500, "Internal Server Error");
   (501, "Not Implemented"); (502, "Bad Gateway"); (503, "Service Unavailable");
   (504, "Gateway Timeout"); (505, "HTTP Version Not Supported");
   (506, "Variant Also Negotiates"); (507, "Insufficient Storage"); (508, "Loop Detected");
   (510, "Not Extended"); (511, "Network Authentication Required")]%Z.

Definition StatusText (code : Z) : gostring :=
  match list_find (fun p => p.1 = code) status_texts with
  | Some (_, (_, t)) => gs t
  | None => []
  end.

(** The [Error] methods.  [ReturnError] is [ReturnError.Error] of
    dot_instance.go and [ErrorStatus] that of dot_resp.go. *)
Fixpoint Error (e : goerr) : gostring :=
  match e with
  | ErrText msg => msg
  | ErrWrap prefix e => prefix ++ Error e
  | ErrJoin es =>
      (fix go (es : list goerr) : gostring :=
         match es with
         | [] => []
         | [e] => Error e
         | e :: es' => Error e ++ NL :: go es'
         end) es
  | PathError op path e => op ++ gs " " ++ path ++ gs ": " ++ Error e
  | ReturnError => gs "returned"
  | ErrorStatus code => StatusText code
  end.

(** [errors.As]: a depth-first, pre-order walk of the error tree that stops at
    the first error [sel] accepts. *)
Fixpoint As {T} (sel : goerr -> option T) (e : goerr) : option T :=
  match sel e with
  | Some t => Some t
  | None =>
      match e with
      | ErrWrap _ e' | PathError _ _ e' => As sel e'
      | ErrJoin es =>
          (fix go (es : list goerr) : option T :=
             match es with
             | [] => None
             | e' :: es' => match As sel e' with Some t => Some t | None => go es' end
             end) es
      | _ => None
      end
  end.

Definition sel_return (e : goerr) : option unit :=
  match e with ReturnError => Some tt | _ => None end.
Definition sel_status (e : goerr) : option Z :=
  match e with ErrorStatus c => Some c | _ => None end.
Definition sel_path (e : goerr) : option (gostring * gostring * goerr) :=
  match e with PathError op path e => Some (op, path, e) | _ => None end.

Definition is_return (e : goerr) : bool :=
  match As sel_return e with Some _ => true | None => false end.

(** [errors.Join]: nil errors are dropped, and no error left gives nil. *)
Definition errors_Join (es : list (option goerr)) : option goerr :=
  match omap id es with
  | [] => None
  | es' => Some (ErrJoin es')
  end.

(** [e' ∈ subs e]: the errors [errors.As] visits, in its order. *)
Fixpoint subs (e : goerr) : list goerr :=
  e ::
  match e with
  | ErrWrap _ e' | PathError _ _ e' => subs e'
  | ErrJoin es =>
      (fix go (es : list goerr) : list goerr :=
         match es with
         | [] => []
         | e' :: es' => subs e' ++ go es'
         end) es
  | _ => []
  end.

(** [errors.As] is the first match of the visiting order. *)
Lemma As_subs {T} (sel : goerr -> option T) e : As sel e = head (omap sel (subs e)).
Proof.
  induction e as [msg|p e IH|es IH|op pa e IH| |c] using goerr_ind'; simpl.
  - by destruct (sel _).
  - destruct (sel _); [done|]. apply IH.
  - destruct (sel (ErrJoin es)); [done|]. induction IH as [|e es He _ IHes]; [done|].
    rewrite omap_app, He. destruct (omap sel (subs e)); simpl; [apply IHes|done].
  - destruct (sel _); [done|]. apply IH.
  - by destruct (sel _).
  - by destruct (sel _).
Qed.

Lemma As_None {T} (sel : goerr -> option T) e :
  As sel e = None <-> forall e', e' ∈ subs e -> sel e' = None.
Proof.
  rewrite As_subs. split.
  - intros H e' He'. destruct (sel e') eqn:E; [|done].
    assert (t ∈ omap sel (subs e)) as Hin by (apply list_elem_of_omap; eauto).
    destruct (omap sel (subs e)); [by apply not_elem_of_nil in Hin|done].
  - intros H. destruct (omap sel (subs e)) as [|t ts] eqn:E; [done|].
    assert (t ∈ omap sel (subs e)) as Hin by (rewrite E; apply list_elem_of_here).
    apply list_elem_of_omap in Hin as (e' & He' & Ht). by rewrite H in Ht.
Qed.

Lemma errors_Join_nil es : errors_Join es = None <-> Forall (fun e => e = None) es.
Proof.
  unfold errors_Join. induction es as [|[e|] es IH]; simpl; [by split; [constructor|]| |].
  - split; [done|]. intros H. inversion H. done.
  - rewrite Forall_cons. naive_solver.
Qed.
