(* ===== verification/Http.v ===== *)
(** * The parts of [net/http] the handlers use

    Header maps with canonical keys, the response writer of a connection, and
    [http.Error] and [http.NotFound].  The writer keeps what [net/http] keeps: the
    handler's header map, which stays changeable, and, once the header is written,
    its status, a snapshot of the map and the declared body length.  A request
    is reduced to what the program reads of it. *)

From S2P Require Import Prelude GoStrings GoErrors.

(** ** Headers *)

Abbreviation header := (gmap gostring (list gostring)).

Definition is_upper (c : ascii) : bool := in_range 65 90 c.
Definition is_lower (c : ascii) : bool := in_range 97 122 c.
Definition to_upper (c : ascii) : ascii := if is_lower c then ascii_of_N (byte_N c - 32) else c.
Definition to_lower (c : ascii) : ascii := if is_upper c then ascii_of_N (byte_N c + 32) else c.

(** The bytes of a token (RFC 7230). *)
Definition valid_header_byte (c : ascii) : bool :=
  is_upper c || is_lower c || in_range 48 57 c ||
  bool_decide (c ∈ gs "!#$%&'*+-.^_`|~").

Fixpoint canon_go (upper : bool) (s : gostring) : gostring :=
  match s with
  | [] => []
  | c :: s' =>
      (if upper then to_upper c else to_lower c) :: canon_go (bool_decide (c = "-"%char)) s'
  end.

(** [textproto.CanonicalMIMEHeaderKey]: a key that is no token is left alone. *)
Definition CanonicalKey (k : gostring) : gostring :=
  if forallb valid_header_byte k then canon_go true k else k.

Definition Header_Add (h : header) (key value : gostring) : header :=
  <[CanonicalKey key := default [] (h !! CanonicalKey key) ++ [value]]> h.

Definition Header_Set (h : header) (key value : gostring) : header :=
  <[CanonicalKey key := [value]]> h.

Definition Header_Del (h : header) (key : gostring) : header := delete (CanonicalKey key) h.

Definition Header_Get (h : header) (key : gostring) : gostring :=
  match h !! CanonicalKey key with
  | Some (v :: _) => v
  | _ => []
  end.

(** [maps.Copy(dst, src)] *)
Definition maps_Copy (dst src : header) : header := src ∪ dst.

(** ** The request *)

Record request := {
  r_method : gostring;
  r_path : gostring;               (* r.URL.Path *)
  r_query : list (gostring * gostring); (* r.URL.Query(), decoded pairs in order *)
  r_header : header
}.

(** [r.URL.Query().Get(key)]: the first value, "" when absent. *)
Definition Query_Get (r : request) (key : gostring) : gostring :=
  match list_find (fun p => p.1 = key) (r_query r) with
  | Some (_, (_, v)) => v
  | None => []
  end.

(** [r.Header[key]] *)
Definition Header_values (h : header) (key : gostring) : list gostring := default [] (h !! key).

(** ** The response writer *)

Record writer := {
  w_header : header;                       (* the map [Header()] returns *)
  w_sent : option (Z * header);            (* status and header snapshot once written *)
  w_body : gostring;                       (* the body bytes accepted *)
  w_limit : option N;                      (* Content-Length declared at WriteHeader *)
  w_head : bool;                           (* the request's method is HEAD *)
  w_flushes : nat
}.

Definition new_writer (head : bool) : writer :=
  {| w_header := ∅; w_sent := None; w_body := []; w_limit := None; w_head := head;
     w_flushes := 0 |}.

Definition set_header (w : writer) (h : header) : writer :=
  {| w_header := h; w_sent := w_sent w; w_body := w_body w; w_limit := w_limit w;
     w_head := w_head w; w_flushes := w_flushes w |}.

(** A decimal number, as [strconv.ParseInt(s, 10, 64)] reads a Content-Length
    that is not negative. *)
Definition parse_length (s : gostring) : option N :=
  match s with
  | [] => None
  | _ => foldl (fun acc c =>
           match acc with
           | Some n => if in_range 48 57 c then Some (n * 10 + (byte_N c - 48))%N else None
           | None => None
           end) (Some 0%N) s
  end.

(** [WriteHeader]: it panics for a code out of range, sends an informational
    response aside, and is ignored when the header is already written. *)
Definition WriteHeader (w : writer) (code : Z) : outcome writer :=
  match w_sent w with
  | Some _ => Ret w
  | None =>
      if (code <? 100)%Z || (999 <? code)%Z
      then Panic (gs "invalid WriteHeader code")
      else if (100 <=? code)%Z && (code <=? 199)%Z && negb (code =? 101)%Z then Ret w
      else
        let limit := parse_length (Header_Get (w_header w) (gs "Content-Length")) in
        Ret {| w_header := w_header w; w_sent := Some (code, w_header w); w_body := w_body w;
               w_limit := limit; w_head := w_head w; w_flushes := w_flushes w |}
  end.

Definition body_allowed (code : Z) : bool :=
  negb ((100 <=? code) && (code <=? 199) || (code =? 204) || (code =? 304))%Z.

(** [Write]: the header goes first, with status 200; bytes that the status or the
    declared length does not allow are refused, and after a write beyond that length,
    which counts as written, every later one; a HEAD response has no body. *)
Definition Write (w : writer) (b : gostring) : writer :=
  let w :=
    match w_sent w with
    | Some _ => w
    | None => match WriteHeader w 200 with Ret w' => w' | Panic _ => w end
    end in
  match w_sent w with
  | None => w
  | Some (code, _) =>
      if negb (body_allowed code) then w
      else if match w_limit w with
              | Some n => (n <? N.of_nat (length (w_body w) + length b))%N
              | None => false
              end then
        {| w_header := w_header w; w_sent := w_sent w; w_body := w_body w;
           w_limit := Some (N.of_nat (length (w_body w))); w_head := w_head w; w_flushes := w_flushes w |}
      else if w_head w then w
      else {| w_header := w_header w; w_sent := w_sent w; w_body := w_body w ++ b;
              w_limit := w_limit w; w_head := w_head w; w_flushes := w_flushes w |}
  end.

(** [Flush]: the header is written if it was not. *)
Definition writer_Flush (w : writer) : writer :=
  let w :=
    match w_sent w with
    | Some _ => w
    | None => match WriteHeader w 200 with Ret w' => w' | Panic _ => w end
    end in
  {| w_header := w_header w; w_sent := w_sent w; w_body := w_body w; w_limit := w_limit w;
     w_head := w_head w; w_flushes := S (w_flushes w) |}.

(** [http.Error] *)
Definition http_Error (w : writer) (msg : gostring) (code : Z) : outcome writer :=
  let h := Header_Del (w_header w) (gs "Content-Length") in
  let h := Header_Set h (gs "Content-Type") (gs "text/plain; charset=utf-8") in
  let h := Header_Set h (gs "X-Content-Type-Options") (gs "nosniff") in
  w ← WriteHeader (set_header w h) code;
  Ret (Write w (msg ++ [NL])).

(** [http.NotFound] *)
Definition http_NotFound (w : writer) : outcome writer :=
  http_Error w (gs "404 page not found") 404.

(** What the client sees as the status. *)
Definition status (w : writer) : option Z := fst <$> w_sent w.

(** ** Facts *)

(** A status the writer accepts and does not send as an informational response. *)
Definition final_code (code : Z) : Prop := (200 <= code <= 999)%Z.

Lemma WriteHeader_fresh w code :
  w_sent w = None -> final_code code ->
  WriteHeader w code =
  Ret {| w_header := w_header w; w_sent := Some (code, w_header w); w_body := w_body w;
         w_limit := parse_length (Header_Get (w_header w) (gs "Content-Length"));
         w_head := w_head w; w_flushes := w_flushes w |}.
Proof.
  intros Hs [H1 H2]. unfold WriteHeader. rewrite Hs.
  assert (((code <? 100)%Z || (999 <? code)%Z) = false) as -> by lia.
  by assert (((100 <=? code)%Z && (code <=? 199)%Z && negb (code =? 101)%Z) = false) as -> by lia.
Qed.

(** The first status wins. *)
Lemma WriteHeader_sent w code s : w_sent w = Some s -> WriteHeader w code = Ret w.
Proof. unfold WriteHeader. by intros ->. Qed.

Lemma Write_sent w b s : w_sent w = Some s -> w_sent (Write w b) = Some s.
Proof.
  intros Hs. unfold Write. rewrite Hs. cbn. rewrite Hs. destruct s as [code h].
  repeat case_match; done.
Qed.

Lemma canon_go_idem u s : canon_go u (canon_go u s) = canon_go u s.
Proof.
  revert u. induction s as [|c s IH]; intros u; [done|]. cbn [canon_go].
  assert (forall f, f = to_upper \/ f = to_lower ->
            f (f c) = f c /\ bool_decide (f c = "-"%char) = bool_decide (c = "-"%char)) as Hf.
  { intros f Hf. clear IH. destruct Hf as [-> | ->]; destruct c as [[] [] [] [] [] [] [] []];
      split; reflexivity. }
  destruct u; [destruct (Hf to_upper (or_introl eq_refl)) as [-> ->]|
               destruct (Hf to_lower (or_intror eq_refl)) as [-> ->]]; by rewrite IH.
Qed.

Lemma valid_canon_go u s :
  forallb valid_header_byte s = true -> forallb valid_header_byte (canon_go u s) = true.
Proof.
  revert u. induction s as [|c s IH]; intros u H; [done|]. cbn [canon_go forallb] in *.
  apply andb_true_iff in H as [Hc H]. rewrite IH by done. rewrite andb_true_r.
  assert (forall f, f = to_upper \/ f = to_lower -> valid_header_byte (f c) = true) as Hf.
  { intros f Hf. clear IH. destruct Hf as [-> | ->]; destruct c as [[] [] [] [] [] [] [] []];
      first [reflexivity | vm_compute in Hc; discriminate]. }
  destruct u; apply Hf; auto.
Qed.

Lemma CanonicalKey_idem k : CanonicalKey (CanonicalKey k) = CanonicalKey k.
Proof.
  unfold CanonicalKey. destruct (forallb valid_header_byte k) eqn:E; [|by rewrite E].
  by rewrite valid_canon_go, canon_go_idem.
Qed.

(** A write that the declared length does not allow. *)
Definition over_limit (w : writer) (b : gostring) : bool :=
  match w_limit w with
  | Some n => (n <? N.of_nat (length (w_body w) + length b))%N
  | None => false
  end.

(** A write after the header is all or nothing. *)
Lemma Write_after w code h b :
  w_sent w = Some (code, h) -> w_head w = false ->
  w_sent (Write w b) = Some (code, h) /\ w_header (Write w b) = w_header w /\
  w_body (Write w b) =
    if body_allowed code && negb (over_limit w b) then w_body w ++ b else w_body w.
Proof.
  intros Hs Hh. unfold Write, over_limit. rewrite Hs. cbn. rewrite Hs.
  destruct (body_allowed code); cbn; [|done]. destruct (w_limit w) as [n|]; [destruct (n <? _)%N|]; cbn;
    rewrite ?Hh; cbn; done.
Qed.

(** The writer after an implicit [WriteHeader(200)]. *)
Definition begun (w : writer) : writer :=
  {| w_header := w_header w; w_sent := Some (200%Z, w_header w); w_body := w_body w;
     w_limit := parse_length (Header_Get (w_header w) (gs "Content-Length"));
     w_head := w_head w; w_flushes := w_flushes w |}.

Lemma Write_fresh w b : w_sent w = None -> Write w b = Write (begun w) b.
Proof.
  intros Hs. unfold Write at 1. rewrite Hs. rewrite WriteHeader_fresh by (done || (split; lia)). done.
Qed.
