(* ===== verification/Config.v ===== *)
(** * Configuration (config.go and the options of the provider files)

    [Config] with its defaults and its functional options.  What the program only
    carries around (file systems, loggers, contexts, function maps, database
    handles, NATS objects, custom providers) is of abstract type; a Go pointer or
    interface that may be nil is an [option]. *)

From S2P Require Import Prelude GoStrings GoErrors.

Section config.
Context {FS Logger Ctx FuncMap DB TxOptions Provider : Type}.
Context {NatsServerOptions NatsOptions JetStreamOpt NatsConn NatsServer JetStream : Type}.

(** [slog.Default()] and [context.Background()]. *)
Context (slog_Default : Logger) (context_Background : Ctx).

Record DotDBConfig := {
  db_DB : option DB;
  db_TxOptions : option TxOptions;
  db_Name : gostring;
  db_Driver : gostring;
  db_Connstr : gostring;
  db_MaxOpenConns : Z
}.

Record DotFlagsConfig := {
  flags_Name : gostring;
  flags_Values : gmap gostring gostring
}.

Record DotDirConfig := {
  dir_Name : gostring;
  dir_FS : option FS;
  dir_Path : gostring
}.

Record NatsConfig := {
  InProcessServerOptions : option NatsServerOptions;
  ConnOptions : option NatsOptions;
  JetStreamOptions : list JetStreamOpt
}.

Record DotNatsConfig := {
  nats_Name : gostring;
  nats_Config : option NatsConfig;
  nats_Conn : option NatsConn;
  nats_server : option NatsServer;
  nats_js : option JetStream
}.

Record Config := {
  TemplatesDir : gostring;
  TemplatesFS : option FS;
  TemplateExtension : gostring;
  Minify : bool;
  Databases : list DotDBConfig;
  Flags : list DotFlagsConfig;
  Directories : list DotDirConfig;
  Nats : list DotNatsConfig;
  CustomProviders : list Provider;
  LDelim : gostring;
  RDelim : gostring;
  FuncMaps : list FuncMap;
  config_Ctx : option Ctx;
  config_Logger : option Logger
}.

(** [&Config{}] *)
Definition zero_config : Config :=
  {| TemplatesDir := []; TemplatesFS := None; TemplateExtension := []; Minify := false;
     Databases := []; Flags := []; Directories := []; Nats := []; CustomProviders := [];
     LDelim := []; RDelim := []; FuncMaps := []; config_Ctx := None; config_Logger := None |}.

Definition if_empty (s d : gostring) : gostring := if bool_decide (s = []) then d else s.

Definition Defaults (config : Config) : Config :=
  {| TemplatesDir := if_empty (TemplatesDir config) (gs "templates");
     TemplatesFS := TemplatesFS config;
     TemplateExtension := if_empty (TemplateExtension config) (gs ".html");
     Minify := Minify config;
     Databases := Databases config;
     Flags := Flags config;
     Directories := Directories config;
     Nats := Nats config;
     CustomProviders := CustomProviders config;
     LDelim := if_empty (LDelim config) (gs "{{");
     RDelim := if_empty (RDelim config) (gs "}}");
     FuncMaps := FuncMaps config;
     config_Ctx := Some (default context_Background (config_Ctx config));
     config_Logger := Some (default slog_Default (config_Logger config)) |}.

Definition New : Config := Defaults zero_config.

(** An option may change the configuration and then fail. *)
Definition Option_ : Type := Config -> Config * option goerr.

(** The configuration is changed in place, also by the option that fails. *)
Fixpoint Options (c : Config) (options : list Option_) : Config * option goerr :=
  match options with
  | [] => (c, None)
  | o :: options' =>
      match o c with
      | (c', Some err) => (c', Some (ErrWrap (gs "failed to apply xtemplate config option: ") err))
      | (c', None) => Options c' options'
      end
  end.

Definition WithTemplateFS (fs : option FS) : Option_ := fun c =>
  match fs with
  | None => (c, Some (ErrText (gs "nil fs")))
  | Some _ =>
      ({| TemplatesDir := TemplatesDir c; TemplatesFS := fs;
          TemplateExtension := TemplateExtension c; Minify := Minify c;
          Databases := Databases c; Flags := Flags c; Directories := Directories c;
          Nats := Nats c; CustomProviders := CustomProviders c; LDelim := LDelim c;
          RDelim := RDelim c; FuncMaps := FuncMaps c; config_Ctx := config_Ctx c;
          config_Logger := config_Logger c |}, None)
  end.

Definition WithLogger (logger : option Logger) : Option_ := fun c =>
  match logger with
  | None => (c, Some (ErrText (gs "nil logger")))
  | Some _ =>
      ({| TemplatesDir := TemplatesDir c; TemplatesFS := TemplatesFS c;
          TemplateExtension := TemplateExtension c; Minify := Minify c;
          Databases := Databases c; Flags := Flags c; Directories := Directories c;
          Nats := Nats c; CustomProviders := CustomProviders c; LDelim := LDelim c;
          RDelim := RDelim c; FuncMaps := FuncMaps c; config_Ctx := config_Ctx c;
          config_Logger := logger |}, None)
  end.

Definition WithFuncMaps (fm : list FuncMap) : Option_ := fun c =>
  ({| TemplatesDir := TemplatesDir c; TemplatesFS := TemplatesFS c;
      TemplateExtension := TemplateExtension c; Minify := Minify c;
      Databases := Databases c; Flags := Flags c; Directories := Directories c;
      Nats := Nats c; CustomProviders := CustomProviders c; LDelim := LDelim c;
      RDelim := RDelim c; FuncMaps := FuncMaps c ++ fm; config_Ctx := config_Ctx c;
      config_Logger := config_Logger c |}, None).

Definition WithProvider (p : Provider) : Option_ := fun c =>
  ({| TemplatesDir := TemplatesDir c; TemplatesFS := TemplatesFS c;
      TemplateExtension := TemplateExtension c; Minify := Minify c;
      Databases := Databases c; Flags := Flags c; Directories := Directories c;
      Nats := Nats c; CustomProviders := CustomProviders c ++ [p]; LDelim := LDelim c;
      RDelim := RDelim c; FuncMaps := FuncMaps c; config_Ctx := config_Ctx c;
      config_Logger := config_Logger c |}, None).

Definition WithDB (name : gostring) (db : option DB) (opt : option TxOptions) : Option_ := fun c =>
  match db with
  | None => (c, Some (ErrText (gs "cannot create database provider with nil sql.DB. name: " ++ name)))
  | Some _ =>
      ({| TemplatesDir := TemplatesDir c; TemplatesFS := TemplatesFS c;
          TemplateExtension := TemplateExtension c; Minify := Minify c;
          Databases := Databases c ++
            [{| db_DB := db; db_TxOptions := opt; db_Name := name; db_Driver := [];
                db_Connstr := []; db_MaxOpenConns := 0 |}];
          Flags := Flags c; Directories := Directories c; Nats := Nats c;
          CustomProviders := CustomProviders c; LDelim := LDelim c; RDelim := RDelim c;
          FuncMaps := FuncMaps c; config_Ctx := config_Ctx c; config_Logger := config_Logger c |},
       None)
  end.

Definition WithFlags (name : gostring) (flags : option (gmap gostring gostring)) : Option_ := fun c =>
  match flags with
  | None => (c, Some (ErrText (gs "cannot create DotKVProvider with null map with name " ++ name)))
  | Some values =>
      ({| TemplatesDir := TemplatesDir c; TemplatesFS := TemplatesFS c;
          TemplateExtension := TemplateExtension c; Minify := Minify c;
          Databases := Databases c;
          Flags := Flags c ++ [{| flags_Name := name; flags_Values := values |}];
          Directories := Directories c; Nats := Nats c; CustomProviders := CustomProviders c;
          LDelim := LDelim c; RDelim := RDelim c; FuncMaps := FuncMaps c;
          config_Ctx := config_Ctx c; config_Logger := config_Logger c |}, None)
  end.

Definition WithDir (name : gostring) (fs : option FS) : Option_ := fun c =>
  match fs with
  | None => (c, Some (ErrText (gs "cannot create DotFSProvider with null FS with name " ++ name)))
  | Some _ =>
      ({| TemplatesDir := TemplatesDir c; TemplatesFS := TemplatesFS c;
          TemplateExtension := TemplateExtension c; Minify := Minify c;
          Databases := Databases c; Flags := Flags c;
          Directories := Directories c ++ [{| dir_Name := name; dir_FS := fs; dir_Path := [] |}];
          Nats := Nats c; CustomProviders := CustomProviders c; LDelim := LDelim c;
          RDelim := RDelim c; FuncMaps := FuncMaps c; config_Ctx := config_Ctx c;
          config_Logger := config_Logger c |}, None)
  end.

Definition WithNats (name : gostring) (serverOpts : option NatsServerOptions)
    (connOpts : option NatsOptions) (jsOpts : list JetStreamOpt) : Option_ := fun c =>
  ({| TemplatesDir := TemplatesDir c; TemplatesFS := TemplatesFS c;
      TemplateExtension := TemplateExtension c; Minify := Minify c;
      Databases := Databases c; Flags := Flags c; Directories := Directories c;
      Nats := Nats c ++
        [{| nats_Name := name;
            nats_Config := Some {| InProcessServerOptions := serverOpts; ConnOptions := connOpts;
                                   JetStreamOptions := jsOpts |};
            nats_Conn := None; nats_server := None; nats_js := None |}];
      CustomProviders := CustomProviders c; LDelim := LDelim c; RDelim := RDelim c;
      FuncMaps := FuncMaps c; config_Ctx := config_Ctx c; config_Logger := config_Logger c |}, None).

(** ** Properties *)

Definition defaulted (c : Config) : Prop :=
  TemplatesDir c <> [] /\ TemplateExtension c <> [] /\ LDelim c <> [] /\ RDelim c <> [] /\
  is_Some (config_Ctx c) /\ is_Some (config_Logger c).

Lemma if_empty_nonempty s d : d <> [] -> if_empty s d <> [].
Proof. unfold if_empty. case_bool_decide; auto. Qed.

Lemma if_empty_id s d : s <> [] -> if_empty s d = s.
Proof. unfold if_empty. intros H. by rewrite bool_decide_false. Qed.

Lemma Defaults_defaulted c : defaulted (Defaults c).
Proof. unfold defaulted. simpl. split_and!; try (by apply if_empty_nonempty); by eexists. Qed.

Lemma Defaults_id c : defaulted c -> Defaults c = c.
Proof.
  intros (H1 & H2 & H3 & H4 & [ctx H5] & [log H6]). destruct c; simpl in *. subst.
  unfold Defaults. simpl. by rewrite !if_empty_id.
Qed.

Lemma Options_app c os1 os2 :
  Options c (os1 ++ os2) =
  match Options c os1 with
  | (c', Some e) => (c', Some e)
  | (c', None) => Options c' os2
  end.
Proof.
  revert c. induction os1 as [|o os1 IH]; intros c; simpl; [done|].
  destruct (o c) as [c' [e|]]; [done|]. apply IH.
Qed.
(** The options the package itself offers, as data. *)
Inductive builtin :=
| OTemplateFS (fs : option FS)
| OLogger (logger : option Logger)
| OFuncMaps (fm : list FuncMap)
| OProvider (p : Provider)
| ODB (name : gostring) (db : option DB) (opt : option TxOptions)
| OFlags (name : gostring) (flags : option (gmap gostring gostring))
| ODir (name : gostring) (fs : option FS)
| ONats (name : gostring) (so : option NatsServerOptions) (co : option NatsOptions)
    (js : list JetStreamOpt).

Definition apply (o : builtin) : Option_ :=
  match o with
  | OTemplateFS fs => WithTemplateFS fs
  | OLogger l => WithLogger l
  | OFuncMaps fm => WithFuncMaps fm
  | OProvider p => WithProvider p
  | ODB n db opt => WithDB n db opt
  | OFlags n f => WithFlags n f
  | ODir n fs => WithDir n fs
  | ONats n so co js => WithNats n so co js
  end.

(** An option that was not given a nil value. *)
Definition given (o : builtin) : bool :=
  match o with
  | OTemplateFS x => bool_decide (is_Some x)
  | OLogger x => bool_decide (is_Some x)
  | ODB _ x _ => bool_decide (is_Some x)
  | OFlags _ x => bool_decide (is_Some x)
  | ODir _ x => bool_decide (is_Some x)
  | _ => true
  end.

(** The names of the fields the options add, in the order of [Config.Instance]. *)
Definition field_names (c : Config) : list gostring :=
  (dir_Name <$> Directories c) ++ (db_Name <$> Databases c) ++
  (flags_Name <$> Flags c) ++ (nats_Name <$> Nats c).

Definition option_name (o : builtin) : list gostring :=
  match o with
  | ODB n _ _ | OFlags n _ | ODir n _ | ONats n _ _ _ => [n]
  | _ => []
  end.

Lemma apply_given o c :
  given o = true ->
  exists c', apply o c = (c', None) /\ (defaulted c -> defaulted c') /\
    Permutation (field_names c') (field_names c ++ option_name o).
Proof.
  unfold defaulted, field_names.
  destruct o as [[]|[]| | |? []|? []|? []|]; intros H; try discriminate;
    eexists; (split; [reflexivity|]);
    (split; [cbn; intros (?&?&?&?&?&?); split_and!; eauto|]);
    cbn; rewrite ?fmap_app, ?app_nil_r; cbn; solve_Permutation.
Qed.

Lemma apply_nil o c : given o = false -> exists err, apply o c = (c, Some err).
Proof. destruct o as [[]|[]| | |? []|? []|? []|]; intros H; try discriminate; by eexists. Qed.

(** Options that are given values all apply: the configuration keeps its
    defaults and gains exactly the named fields; the first option that is given a
    nil value makes [Options] fail, and the options after it are not applied. *)
Lemma Options_builtin c os :
  defaulted c ->
  exists k, k <= length os /\
    let '(c', err) := Options c (apply <$> os) in
    defaulted c' /\
    Permutation (field_names c') (field_names c ++ mjoin (option_name <$> take k os)) /\
    match err with
    | None => k = length os /\ forallb given os = true
    | Some _ => exists o, os !! k = Some o /\ given o = false /\ forallb given (take k os) = true
    end.
Proof.
  revert c. induction os as [|o os IH]; intros c Hc.
  { exists 0. cbn. by rewrite app_nil_r. }
  cbn [fmap list_fmap Options]. destruct (given o) eqn:Eo.
  - destruct (apply_given o c Eo) as (c1 & -> & Hd & Hp).
    destruct (IH c1 (Hd Hc)) as (k & Hk & H). exists (S k). split; [simpl; lia|].
    destruct (Options c1 (apply <$> os)) as [c' err]. destruct H as (H1 & H2 & H3).
    split; [done|]. split.
    + rewrite H2, Hp. cbn. by rewrite <- app_assoc.
    + destruct err as [e|].
      * destruct H3 as (o' & Ho & Hg & Hf). exists o'. cbn. by rewrite Eo.
      * destruct H3 as [-> H3]. cbn. by rewrite Eo.
  - destruct (apply_nil o c Eo) as [err ->]. exists 0. split; [lia|]. split; [done|].
    cbn. rewrite app_nil_r. split; [done|]. by exists o.
Qed.
End config.

(** An instance of the abstract types. *)
Definition example_config :
  @Config unit unit unit unit unit unit unit unit unit unit unit unit unit := New tt tt.

Definition example_options :
  list (@builtin unit unit unit unit unit unit unit unit unit) :=
  [ODir (gs "FS") (Some tt); ODB (gs "DB") None None].

Lemma Options_builtin_witness :
  exists k, k <= 2 /\
    let '(c', err) := Options example_config (apply <$> example_options) in
    defaulted c' /\
    Permutation (field_names c')
      (field_names example_config ++ mjoin (option_name <$> take k example_options)) /\
    match err with
    | None => k = 2 /\ forallb given example_options = true
    | Some _ => exists o, example_options !! k = Some o /\ given o = false /\
                  forallb given (take k example_options) = true
    end.
Proof. apply (Options_builtin example_config example_options). apply Defaults_defaulted. Defined.
