(* ===== verification/FrontMatter.v ===== *)
(** * Front matter (frontmatter.go)

    [extractFrontMatter] cuts a document into front matter and body.  The
    decoders it hands the front matter to ([yaml.v3], [BurntSushi/toml],
    [encoding/json]) are arguments of the model; nothing is assumed of them. *)

From S2P Require Import Prelude GoStrings GoErrors.

Section frontmatter.
(** [Meta] is [map[string]any]. *)
Context {Meta : Type}.
Context (yaml_Unmarshal toml_Unmarshal json_Unmarshal : gostring -> result Meta).

Definition yamlFrontMatter (input : gostring) : result Meta := yaml_Unmarshal input.

Definition tomlFrontMatter (input : gostring) : result Meta := toml_Unmarshal input.

Definition jsonFrontMatter (input : gostring) : result Meta :=
  let input := gs "{" ++ input in
  let input := input ++ gs "}" in
  json_Unmarshal input.

Record frontMatterType := {
  FenceOpen : gostring;
  FenceClose : list gostring;
  ParseFunc : gostring -> result Meta
}.

Definition supportedFrontMatterTypes : list frontMatterType :=
  [ {| FenceOpen := gs "---"; FenceClose := [gs "---"; gs "..."]; ParseFunc := yamlFrontMatter |};
    {| FenceOpen := gs "+++"; FenceClose := [gs "+++"]; ParseFunc := tomlFrontMatter |};
    {| FenceOpen := gs "{"; FenceClose := [gs "}"]; ParseFunc := jsonFrontMatter |} ].

(** The variables of the loop that looks for the first non-empty line. *)
Record line_scan := {
  firstLineStart : nat;
  firstLineEnd : nat;
  lineEmpty : bool
}.

(** The loop [for i, b := range input], with its [break] and [continue]. *)
Fixpoint scan_first_line (rs : list (nat * N)) (st : line_scan) : line_scan :=
  match rs with
  | [] => st
  | (i, b) :: rs' =>
      if (b =? 10)%N then
        let start := firstLineEnd st in
        let start := if bool_decide (0 < start) then start + 1 else start in
        let st' := {| firstLineStart := start; firstLineEnd := i; lineEmpty := lineEmpty st |} in
        if negb (lineEmpty st) then st' else scan_first_line rs' st'
      else
        scan_first_line rs'
          {| firstLineStart := firstLineStart st; firstLineEnd := firstLineEnd st;
             lineEmpty := lineEmpty st && IsSpace b |}
  end.

(** The loop over the supported types: the last match wins. *)
Definition select_type (firstLine : gostring) (types : list frontMatterType) :
    option frontMatterType :=
  foldl (fun acc t => if bool_decide (firstLine = FenceOpen t) then Some t else acc) None types.

(** The loop over the closing fences: the first one found in [rest] wins. *)
Fixpoint find_fence (rest : gostring) (fences : list gostring) : option (nat * gostring) :=
  match fences with
  | [] => None
  | fence :: fences' =>
      match Index rest (NL :: fence) with
      | Some index => Some (index, fence)
      | None => find_fence rest fences'
      end
  end.

Definition unterminated : goerr := ErrText (gs "unterminated front matter").

(** The metadata is [None] where the Go code returns a nil map. *)
Definition extractFrontMatter (input : gostring) : outcome (result (option Meta * gostring)) :=
  let st := scan_first_line (runes input)
              {| firstLineStart := 0; firstLineEnd := 0; lineEmpty := true |} in
  firstLine ← slice input (firstLineStart st) (firstLineEnd st);
  let firstLine := TrimSpace firstLine in
  match select_type firstLine supportedFrontMatterTypes with
  | None => Ret (Ok (None, input))
  | Some t =>
      rest ← slice input (firstLineEnd st) (length input);
      match find_fence rest (FenceClose t) with
      | None => Ret (Err unterminated)
      | Some (index, fmEndFence) =>
          let fmEndFenceStart := index + (firstLineEnd st + 1) in
          frontMatter ← slice input (firstLineEnd st) fmEndFenceStart;
          match ParseFunc t frontMatter with
          | Err e => Ret (Err e)
          | Ok fm =>
              body ← slice input (fmEndFenceStart + length fmEndFence) (length input);
              Ret (Ok (Some fm, body))
          end
      end
  end.

Record parsedMarkdownDoc := { Meta_ : option Meta; Body : gostring }.

(** [FuncSplitFrontMatter] of funcs.go, the template function [splitFrontMatter]. *)
Definition FuncSplitFrontMatter (input : gostring) : outcome (result parsedMarkdownDoc) :=
  r ← extractFrontMatter input;
  match r with
  | Err e => Ret (Err e)
  | Ok (meta, body) => Ret (Ok {| Meta_ := meta; Body := body |})
  end.

(** ** The bounds of the first line *)

Definition scan_ok (n : nat) (st : line_scan) : Prop :=
  firstLineStart st <= firstLineEnd st /\ firstLineEnd st <= n.

(** The offsets [range] visits are below the length, strictly increasing, and
    a newline rune stands for a newline byte. *)
Lemma runes_go_offsets skip off s :
  Forall (fun p => off <= p.1 /\ p.1 < off + length s) (runes_go skip off s).
Proof.
  revert skip off. induction s as [|c s IH]; intros skip off; [constructor|].
  cbn [runes_go]. destruct skip as [|k].
  - destruct (DecodeRune (c :: s)) as [r w]. constructor; [simpl; lia|].
    eapply Forall_impl; [apply IH|]. simpl. intros [i b]; simpl; lia.
  - eapply Forall_impl; [apply IH|]. simpl. intros [i b]; simpl; lia.
Qed.

Lemma runes_go_increasing skip off s :
  StronglySorted (fun p q => p.1 < q.1) (runes_go skip off s).
Proof.
  revert skip off. induction s as [|c s IH]; intros skip off; [constructor|].
  cbn [runes_go]. destruct skip as [|k]; [|apply IH].
  destruct (DecodeRune (c :: s)) as [r w]. constructor; [apply IH|].
  eapply Forall_impl; [apply runes_go_offsets|]. simpl. intros [i b]; simpl; lia.
Qed.

Lemma scan_first_line_ok n rs st :
  StronglySorted (fun p q => p.1 < q.1) rs ->
  Forall (fun p => p.1 < n /\ (firstLineEnd st < p.1 \/ firstLineEnd st = 0)) rs ->
  scan_ok n st -> scan_ok n (scan_first_line rs st).
Proof.
  revert st. induction rs as [|[i b] rs IH]; intros st Hs Hf [Hok1 Hok2]; [done|].
  cbn [scan_first_line]. inversion Hs as [|? ? Hs' Hlt]; subst.
  apply Forall_cons in Hf as [[Hi Hgt] Hf]; simpl in *.
  destruct (b =? 10)%N.
  - assert (scan_ok n {| firstLineStart :=
        (if bool_decide (0 < firstLineEnd st) then firstLineEnd st + 1 else firstLineEnd st);
        firstLineEnd := i; lineEmpty := lineEmpty st |}) as Hok'.
    { split; simpl; [case_bool_decide; lia|lia]. }
    destruct (negb (lineEmpty st)); [done|]. apply IH; [done| |done].
    simpl. rewrite Forall_forall in *. intros p Hp. split; [by apply Hf|]. left. by apply Hlt.
  - apply IH; [done|done|by split].
Qed.

Definition first_line (input : gostring) : line_scan :=
  scan_first_line (runes input) {| firstLineStart := 0; firstLineEnd := 0; lineEmpty := true |}.

Lemma first_line_ok input : scan_ok (length input) (first_line input).
Proof.
  apply scan_first_line_ok.
  - apply runes_go_increasing.
  - eapply Forall_impl; [apply (runes_go_offsets 0 0)|]. simpl. intros [i b]; simpl; lia.
  - split; simpl; lia.
Qed.

Lemma find_fence_Some rest fences index fence :
  find_fence rest fences = Some (index, fence) ->
  fence ∈ fences /\ Index rest (NL :: fence) = Some index.
Proof.
  induction fences as [|f fs IH]; simpl; [done|].
  destruct (Index rest (NL :: f)) eqn:E.
  - intros [= -> ->]. split; [apply list_elem_of_here|done].
  - intros [? ?]%IH. split; [by apply list_elem_of_further|done].
Qed.

Lemma find_fence_None rest fences :
  find_fence rest fences = None <-> forall f, f ∈ fences -> Index rest (NL :: f) = None.
Proof.
  induction fences as [|f fs IH]; simpl.
  - split; [|done]. intros _ f Hf. by apply not_elem_of_nil in Hf.
  - destruct (Index rest (NL :: f)) eqn:E.
    + split; [done|]. intros H. rewrite H in E; [done|apply list_elem_of_here].
    + rewrite IH. split.
      * intros H f' [->|Hf]%elem_of_cons; [done|by apply H].
      * intros H f' Hf. apply H. by apply list_elem_of_further.
Qed.

(** The fences tried before one that is not there do not matter. *)
Lemma find_fence_app rest fs fs' :
  (forall f, f ∈ fs -> Index rest (NL :: f) = None) -> find_fence rest (fs ++ fs') = find_fence rest fs'.
Proof.
  induction fs as [|f fs IH]; intros H; [done|]. cbn [app find_fence]. rewrite H by apply list_elem_of_here.
  apply IH. intros f' Hf. apply H. by apply list_elem_of_further.
Qed.

Lemma select_type_spec firstLine types t :
  select_type firstLine types = Some t -> t ∈ types /\ firstLine = FenceOpen t.
Proof.
  unfold select_type. assert (forall acc,
    foldl (fun acc t => if bool_decide (firstLine = FenceOpen t) then Some t else acc) acc types
      = Some t -> acc = Some t \/ t ∈ types /\ firstLine = FenceOpen t) as H.
  { induction types as [|u us IH]; intros acc; simpl; [by left|].
    intros [Ha|[Ht Ho]]%IH.
    - case_bool_decide; [|by left]. simplify_eq. right. split; [apply list_elem_of_here|done].
    - right. split; [by apply list_elem_of_further|done]. }
  intros [?|?]%H; done.
Qed.

(** What [extractFrontMatter] computes, by cases, with every slice in bounds. *)
Lemma extract_cases input :
  let st := first_line input in
  let firstLine := TrimSpace (take (firstLineEnd st - firstLineStart st) (drop (firstLineStart st) input)) in
  extractFrontMatter input =
  match select_type firstLine supportedFrontMatterTypes with
  | None => Ret (Ok (None, input))
  | Some t =>
      let rest := drop (firstLineEnd st) input in
      match find_fence rest (FenceClose t) with
      | None => Ret (Err unterminated)
      | Some (index, fence) =>
          match ParseFunc t (take (index + 1) rest) with
          | Err e => Ret (Err e)
          | Ok fm => Ret (Ok (Some fm, drop (index + 1 + length fence) rest))
          end
      end
  end.
Proof.
  intros st firstLine. unfold extractFrontMatter. cbv zeta.
  fold (first_line input). fold st.
  destruct (first_line_ok input) as [H1 H2]. fold st in H1, H2.
  rewrite (slice_Ret input (firstLineStart st)) by done. rewrite outcome_bind_ret. fold firstLine.
  destruct (select_type firstLine supportedFrontMatterTypes) as [t|]; [|done].
  rewrite (slice_end input (firstLineEnd st)), outcome_bind_ret by done.
  destruct (find_fence (drop (firstLineEnd st) input) (FenceClose t)) as [[index fence]|] eqn:E; [|done].
  apply find_fence_Some in E as [_ HI]. apply Index_bound in HI.
  rewrite length_drop in HI. simpl in HI.
  rewrite (slice_Ret input (firstLineEnd st)), outcome_bind_ret by lia.
  replace (index + (firstLineEnd st + 1) - firstLineEnd st) with (index + 1) by lia.
  destruct (ParseFunc t _) as [fm|e]; [|done].
  rewrite slice_end, outcome_bind_ret by lia. rewrite drop_drop.
  by replace (firstLineEnd st + (index + 1 + length fence))
    with (index + (firstLineEnd st + 1) + length fence) by lia.
Qed.

(** ** Nothing but white space is skipped before the opening fence *)

Lemma scan_nonempty_start rs st :
  lineEmpty st = false -> firstLineStart st <= firstLineEnd st ->
  let start := firstLineStart (scan_first_line rs st) in
  start <= firstLineEnd st \/ 0 < firstLineEnd st /\ start = firstLineEnd st + 1.
Proof.
  revert st. induction rs as [|[i b] rs IH]; intros st He Hle; simpl; [by left|].
  destruct (b =? 10)%N.
  - rewrite He. simpl. case_bool_decide; [by right|left; lia].
  - match goal with |- context [scan_first_line rs ?s] => apply (IH s) end; simpl; [by rewrite He|done].
Qed.

Lemma scan_skips_space rs st :
  StronglySorted (fun p q => p.1 < q.1) rs ->
  Forall (fun p => firstLineEnd st < p.1 \/ firstLineEnd st = 0) rs ->
  firstLineStart st <= firstLineEnd st ->
  Forall (fun p => p.1 < firstLineStart (scan_first_line rs st) -> IsSpace p.2 = true) rs.
Proof.
  revert st. induction rs as [|[i b] rs IH]; intros st Hs Hf Hle; [constructor|].
  inversion Hs as [|? ? Hs' Hlt]; subst. apply Forall_cons in Hf as [Hi Hf]. simpl in *.
  destruct (b =? 10)%N eqn:Eb.
  - apply N.eqb_eq in Eb as ->. destruct (lineEmpty st) eqn:El; simpl.
    + constructor; [done|]. apply IH; [done| |simpl; case_bool_decide; lia].
      rewrite Forall_forall in *. intros p Hp. left. by apply Hlt.
    + constructor; [done|]. rewrite Forall_forall in *. intros p Hp.
      specialize (Hlt p Hp). case_bool_decide; simpl in *; lia.
  - destruct (lineEmpty st && IsSpace b) eqn:El.
    + apply andb_true_iff in El as [El Esp]. constructor; [done|].
      apply IH; [done|done|done].
    + constructor; [|by apply IH]. simpl. intros Hlt'.
      match type of Hlt' with
      | _ < firstLineStart (scan_first_line rs ?s) =>
          destruct (scan_nonempty_start rs s) as [H|H]; [done|done|simpl in *; lia|simpl in *; lia]
      end.
Qed.

(** The line the scan stops at ends with a line break, unless none was found. *)
Lemma scan_first_line_end rs st :
  firstLineEnd (scan_first_line rs st) = firstLineEnd st \/
  (firstLineEnd (scan_first_line rs st), 10%N) ∈ rs.
Proof.
  revert st. induction rs as [|[i b] rs IH]; intros st; simpl; [by left|].
  destruct (b =? 10)%N eqn:Eb.
  - apply N.eqb_eq in Eb as ->. right. destruct (negb (lineEmpty st)); simpl.
    + apply list_elem_of_here.
    + match goal with |- context [scan_first_line rs ?s] => destruct (IH s) as [->|H] end;
        [apply list_elem_of_here|by apply list_elem_of_further].
  - match goal with |- context [scan_first_line rs ?s] => destruct (IH s) as [->|H] end;
      [by left|right; by apply list_elem_of_further].
Qed.

Lemma first_line_end input :
  firstLineEnd (first_line input) <> 0 ->
  exists rest, drop (firstLineEnd (first_line input)) input = NL :: rest.
Proof.
  intros Hne. unfold first_line in *.
  destruct (scan_first_line_end (runes input)
    {| firstLineStart := 0; firstLineEnd := 0; lineEmpty := true |}) as [H|H]; [done|].
  apply runes_go_newline in H as [_ H]. rewrite Nat.sub_0_r in H.
  eexists. by apply drop_S.
Qed.

(** ** Composing a document and taking it apart *)

(** No occurrence of a line break followed by [fence] starts in a line that does
    not begin with [fence]. *)
Lemma Index_skip_line (l fence x : gostring) :
  NL ∉ l -> NL ∉ fence -> fence <> [] -> ~ fence `prefix_of` l ->
  Index (NL :: l ++ NL :: x) (NL :: fence) = (fun i => S (length l) + i) <$> Index (NL :: x) (NL :: fence).
Proof.
  intros Hl Hf Hne Hp. remember (Index (NL :: x) (NL :: fence)) as R eqn:HR.
  assert (forall k, NL ∉ k ->
            Index (k ++ NL :: x) (NL :: fence) = (fun i => length k + i) <$> R) as Hskip.
  { induction k as [|c k IH]; intros Hk; cbn [app].
    - rewrite <- HR. by destruct R.
    - apply not_elem_of_cons in Hk as [Hc Hk]. cbn [Index].
      assert (HasPrefix (c :: k ++ NL :: x) (NL :: fence) = false) as ->.
      { cbn [HasPrefix]. by rewrite bool_decide_false. }
      rewrite IH by done. by destruct R. }
  cbn [Index].
  assert (HasPrefix (NL :: l ++ NL :: x) (NL :: fence) = false) as ->.
  { apply not_true_is_false. rewrite HasPrefix_spec. intros H%prefix_cons_inv_2.
    apply Hp. clear -Hf Hl H. revert l Hl H. induction fence as [|c f IH]; intros l Hl H.
    - apply prefix_nil.
    - apply not_elem_of_cons in Hf as [Hc Hf]. destruct l as [|d l]; simpl in H.
      + apply prefix_cons_inv_1 in H. congruence.
      + apply not_elem_of_cons in Hl as [Hd Hl].
        pose proof (prefix_cons_inv_1 _ _ _ _ H) as ->.
        apply prefix_cons, IH; [done|done|]. by eapply prefix_cons_inv_2. }
  rewrite Hskip by done. by destruct R.
Qed.

Lemma Index_after_lines_list (ls : list gostring) (fence body : gostring) :
  NL ∉ fence -> fence <> [] -> ls <> [] ->
  (forall l, l ∈ ls -> NL ∉ l) -> (forall l, l ∈ ls -> ~ fence `prefix_of` l) ->
  Index (NL :: Join ls NL ++ NL :: fence ++ body) (NL :: fence) = Some (S (length (Join ls NL))).
Proof.
  intros Hf Hne. induction ls as [|l ls IH]; intros Hn Hsep Hl; [done|].
  assert (Index (NL :: fence ++ body) (NL :: fence) = Some 0) as Hhere.
  { pose proof (HasPrefix_app (NL :: fence) body) as E. cbn [app] in E. cbn [Index]. by rewrite E. }
  pose proof (Hsep l (list_elem_of_here _ _)) as Hsepl.
  pose proof (Hl l (list_elem_of_here _ _)) as Hll.
  destruct ls as [|l' ls].
  - cbn [Join]. rewrite Index_skip_line by done. rewrite Hhere. simpl. f_equal. lia.
  - change (Join (l :: l' :: ls) NL) with (l ++ NL :: Join (l' :: ls) NL).
    rewrite <- app_assoc, <- app_comm_cons. rewrite Index_skip_line by done.
    rewrite IH; [|done| |].
    + rewrite length_app. simpl. f_equal.
    + intros k Hk. apply Hsep. by apply list_elem_of_further.
    + intros k Hk. apply Hl. by apply list_elem_of_further.
Qed.

Lemma Index_after_lines (content fence body : gostring) :
  NL ∉ fence -> fence <> [] ->
  (forall l, l ∈ Split content NL -> ~ fence `prefix_of` l) ->
  Index (NL :: content ++ NL :: fence ++ body) (NL :: fence) = Some (S (length content)).
Proof.
  intros Hf Hne Hl.
  pose proof (Index_after_lines_list (Split content NL) fence body Hf Hne) as H.
  rewrite Join_Split in H. apply H; [apply Split_not_nil|apply Split_no_sep|done].
Qed.

Lemma Index_no_line (content fence : gostring) :
  NL ∉ fence -> fence <> [] ->
  (forall l, l ∈ Split content NL -> ~ fence `prefix_of` l) ->
  Index (NL :: content) (NL :: fence) = None.
Proof.
  intros Hf Hne Hl. apply Index_None. intros j Hj Hp.
  assert (Index (NL :: content ++ NL :: fence ++ []) (NL :: fence) = Some (S (length content))) as HI
    by (by apply Index_after_lines).
  apply Index_Some in HI as (_ & _ & Hmin).
  destruct (decide (j <= length content)) as [Hle|].
  - apply (Hmin j); [lia|]. etrans; [exact Hp|].
    destruct j as [|j]; simpl; [by apply prefix_cons; eexists|].
    rewrite drop_app_le by lia. by eexists.
  - simpl in Hj. assert (j = S (length content)) as -> by lia. simpl in Hp.
    rewrite drop_all in Hp. by apply prefix_nil_not in Hp.
Qed.

(** The end of a line, as Windows and as Unix write it, without the line feed. *)
Definition carriage (windows : bool) : gostring := if windows then [CR] else [].

Lemma scan_newlines n off a b s :
  exists k, scan_first_line (runes_go 0 off (replicate n NL ++ s))
              {| firstLineStart := a; firstLineEnd := b; lineEmpty := true |} =
            scan_first_line (runes_go 0 (off + n) s)
              {| firstLineStart := k; firstLineEnd := (if n is 0 then b else off + n - 1);
                 lineEmpty := true |}.
Proof.
  revert off a b. induction n as [|n IH]; intros off a b.
  - exists a. by rewrite Nat.add_0_r.
  - cbn [replicate app]. 
    change (runes_go 0 off (NL :: replicate n NL ++ s))
      with ((off, 10%N) :: runes_go 0 (S off) (replicate n NL ++ s)).
    cbn [scan_first_line N.eqb Pos.eqb negb lineEmpty].
    match goal with |- context [{| firstLineStart := ?a'; firstLineEnd := off; lineEmpty := true |}] =>
      destruct (IH (S off) a' off) as [k Hk] end.
    exists k. rewrite Hk. replace (S off + n) with (off + S n) by lia.
    do 2 f_equal. destruct n; simpl; lia.
Qed.

Lemma FenceOpen_cases t :
  t ∈ supportedFrontMatterTypes ->
  FenceOpen t = gs "---" \/ FenceOpen t = gs "+++" \/ FenceOpen t = gs "{".
Proof.
  intros [->|[->|[->|H]%elem_of_cons]%elem_of_cons]%elem_of_cons; [by eauto..|].
  by apply not_elem_of_nil in H.
Qed.

Lemma TrimSpace_fence t windows :
  t ∈ supportedFrontMatterTypes ->
  TrimSpace (FenceOpen t ++ carriage windows) = FenceOpen t /\
  TrimSpace (NL :: FenceOpen t ++ carriage windows) = FenceOpen t.
Proof.
  intros Ht. destruct (FenceOpen_cases t Ht) as [-> | [-> | ->]];
    destruct windows; split; reflexivity.
Qed.

(** Scanning a line of ASCII characters up to its line break. *)
Lemma scan_ascii_line l off st rest :
  forallb (fun c => (byte_N c <? 128)%N && negb (byte_N c =? 10)%N) l = true ->
  scan_first_line (runes_go 0 off (l ++ NL :: rest)) st =
  scan_first_line ((off + length l, 10%N) :: runes_go 0 (S (off + length l)) rest)
    {| firstLineStart := firstLineStart st; firstLineEnd := firstLineEnd st;
       lineEmpty := lineEmpty st && forallb (fun c => IsSpace (byte_N c)) l |}.
Proof.
  revert off st. induction l as [|c l IH]; intros off st Hl.
  - cbn [app length forallb]. rewrite Nat.add_0_r, andb_true_r. by destruct st.
  - cbn [forallb] in Hl. apply andb_true_iff in Hl as [[Hc Hn]%andb_true_iff Hl].
    cbn [app runes_go DecodeRune]. rewrite Hc. cbn [scan_first_line Nat.sub].
    destruct (byte_N c =? 10)%N; [done|]. rewrite IH by done.
    cbn [firstLineStart firstLineEnd lineEmpty length forallb].
    replace (S off + length l) with (off + S (length l)) by lia.
    by rewrite <- andb_assoc.
Qed.

(** The first line of a document that starts with [n] line breaks and a fence. *)
Lemma first_line_fence t n windows rest :
  t ∈ supportedFrontMatterTypes ->
  let open := FenceOpen t ++ carriage windows in
  let st := first_line (replicate n NL ++ open ++ NL :: rest) in
  firstLineEnd st = n + length open /\
  firstLineStart st = (if n is 0 then 0 else if n is 1 then 0 else n).
Proof.
  intros Ht. unfold first_line, runes. cbv zeta.
  destruct (scan_newlines n 0 0 0 ((FenceOpen t ++ carriage windows) ++ NL :: rest)) as [k ->].
  rewrite scan_ascii_line by
    (destruct (FenceOpen_cases t Ht) as [-> | [-> | ->]]; by destruct windows).
  assert (forallb (fun c => IsSpace (byte_N c)) (FenceOpen t ++ carriage windows) = false) as ->
    by (destruct (FenceOpen_cases t Ht) as [-> | [-> | ->]]; by destruct windows).
  cbn [scan_first_line lineEmpty firstLineEnd firstLineStart N.eqb Pos.eqb andb negb].
  split; [lia|]. destruct n as [|[|n]]; [done|done|]. case_bool_decide; lia.
Qed.

Lemma first_line_text t n windows rest :
  t ∈ supportedFrontMatterTypes ->
  let open := FenceOpen t ++ carriage windows in
  let input := replicate n NL ++ open ++ NL :: rest in
  let st := first_line input in
  TrimSpace (take (firstLineEnd st - firstLineStart st) (drop (firstLineStart st) input))
  = FenceOpen t.
Proof.
  intros Ht open input st. destruct (first_line_fence t n windows rest Ht) as [He Hs].
  fold open input st in He, Hs. rewrite He, Hs.
  destruct (TrimSpace_fence t windows Ht) as [HT1 HT2]. fold open in HT1, HT2.
  destruct n as [|[|n]]; unfold input.
  - rewrite drop_0, Nat.sub_0_r, Nat.add_0_l. cbn [replicate app]. by rewrite take_app_length.
  - rewrite Nat.sub_0_r, drop_0, app_assoc. by rewrite take_app_length'.
  - rewrite drop_app_length' by (by rewrite length_replicate).
    by rewrite take_app_length' by lia.
Qed.

Lemma select_type_open t :
  t ∈ supportedFrontMatterTypes -> select_type (FenceOpen t) supportedFrontMatterTypes = Some t.
Proof.
  intros [->|[->|[->|H]%elem_of_cons]%elem_of_cons]%elem_of_cons; [reflexivity..|].
  by apply not_elem_of_nil in H.
Qed.

Lemma FenceClose_ok t fence :
  t ∈ supportedFrontMatterTypes -> fence ∈ FenceClose t -> (NL ∉ fence) /\ fence <> [].
Proof.
  intros Ht Hf.
  assert (fence ∈ [gs "---"; gs "..."; gs "+++"; gs "}"]) as Hin.
  { apply elem_of_cons in Ht as [->|[->|[->|H]%elem_of_cons]%elem_of_cons];
      [| | |by apply not_elem_of_nil in H]; simpl in Hf; set_solver. }
  repeat (apply elem_of_cons in Hin as [->|Hin];
    [split; [by apply (bool_decide_unpack _) | done]|]).
  by apply not_elem_of_nil in Hin.
Qed.

(** The behaviour on a document that opens with a fence, in terms of what follows. *)
Lemma extract_fenced t n windows rest :
  t ∈ supportedFrontMatterTypes ->
  extractFrontMatter (replicate n NL ++ (FenceOpen t ++ carriage windows) ++ NL :: rest) =
  match find_fence (NL :: rest) (FenceClose t) with
  | None => Ret (Err unterminated)
  | Some (index, fence) =>
      match ParseFunc t (take (index + 1) (NL :: rest)) with
      | Err e => Ret (Err e)
      | Ok fm => Ret (Ok (Some fm, drop (index + 1 + length fence) (NL :: rest)))
      end
  end.
Proof.
  intros Ht. rewrite extract_cases. cbv zeta.
  rewrite first_line_text, select_type_open by done.
  destruct (first_line_fence t n windows rest Ht) as [-> _].
  rewrite app_assoc, drop_app_length'; [done|].
  rewrite !length_app, length_replicate. lia.
Qed.

(** ** Properties *)

(** C23: [extractFrontMatter] never slices out of bounds, whatever the document,
    and what it returns partitions the document.  Without front matter the body
    is the document itself.  With front matter the document is white space, an
    opening fence line, the text given to the fence's own decoder (which starts
    and ends with a line break), a closing fence of that type, and the body. *)
Theorem extract_partition input :
  match extractFrontMatter input with
  | Ret (Ok (None, body)) => body = input
  | Ret (Ok (Some fm, body)) =>
      exists t lead open raw fence,
        t ∈ supportedFrontMatterTypes /\ fence ∈ FenceClose t /\
        input = lead ++ open ++ raw ++ fence ++ body /\
        (forall i r, (i, r) ∈ runes input -> i < length lead -> IsSpace r = true) /\
        TrimSpace open = FenceOpen t /\
        [NL] `prefix_of` raw /\ [NL] `suffix_of` raw /\
        ParseFunc t raw = Ok fm
  | Ret (Err e) =>
      e = unterminated \/ exists t raw, t ∈ supportedFrontMatterTypes /\ ParseFunc t raw = Err e
  | Panic _ => False
  end.
Proof.
  rewrite extract_cases. cbv zeta. set (st := first_line input).
  destruct (first_line_ok input) as [H1 H2]. fold st in H1, H2.
  destruct (select_type _ _) as [t|] eqn:Et; [|done].
  apply select_type_spec in Et as [Ht Ho].
  destruct (find_fence _ _) as [[index fence]|] eqn:Ef; [|by left].
  apply find_fence_Some in Ef as [Hf Hi].
  pose proof (Index_bound _ _ _ Hi) as Hb. rewrite length_drop in Hb. simpl in Hb.
  apply Index_Some in Hi as (Hpre & _ & _).
  destruct (ParseFunc t _) as [fm|e] eqn:Ep; [|by right; eauto].
  set (rest := drop (firstLineEnd st) input) in *.
  destruct Hpre as [body Hbody]. cbn [app] in Hbody.
  assert (rest = take index rest ++ NL :: fence ++ body) as Hrest
    by (rewrite <- Hbody; by rewrite take_drop).
  assert (length (take index rest) = index) as Hlen.
  { rewrite length_take. unfold rest. rewrite length_drop. lia. }
  exists t, (take (firstLineStart st) input),
    (take (firstLineEnd st - firstLineStart st) (drop (firstLineStart st) input)),
    (take (index + 1) rest), fence.
  assert (take (index + 1) rest = take index rest ++ [NL]) as Hraw.
  { rewrite Hrest at 1. rewrite take_app_ge by lia. by rewrite Hlen, Nat.add_comm, Nat.add_sub. }
  assert (drop (index + 1 + length fence) rest = body) as Hdrop.
  { rewrite Hrest. rewrite drop_app_ge by lia. rewrite Hlen.
    replace (index + 1 + length fence - index) with (S (length fence)) by lia.
    simpl. by rewrite drop_app_length. }
  split_and!; [done|done| | |done| | |done].
  - rewrite (take_drop_middle_cut input (firstLineStart st) (firstLineEnd st)) at 1 by done.
    do 2 f_equal. fold rest. rewrite Hraw, Hdrop, Hrest at 1. by rewrite <- app_assoc.
  - intros i r Hir Hlt. rewrite length_take in Hlt.
    pose proof (scan_skips_space (runes input)
      {| firstLineStart := 0; firstLineEnd := 0; lineEmpty := true |}) as Hsp.
    rewrite !Forall_forall in Hsp. apply (Hsp (runes_go_increasing _ _ _)) in Hir; simpl; auto.
    simpl. fold (first_line input). fold st. lia.
  - destruct (first_line_end input) as [rest' Hr'].
    { fold st. intros H0. rewrite H0 in Ho. destruct (FenceOpen_cases t Ht) as [E | [E | E]];
        rewrite E in Ho; done. }
    fold st rest in Hr'. rewrite Hr', Nat.add_1_r. eexists. reflexivity.
  - rewrite Hraw. by eexists.
Qed.

(** C24: a document composed of any number of line breaks, an opening fence (its
    line ended the Unix or the Windows way), front matter, a closing fence of the same
    type and a body is taken apart into the front matter, handed to the decoder of the
    type, and the body, provided that no line of the front matter starts with the closing
    fence and that no line after the opening one, in the body neither, starts with a
    fence of the type that is tried before it.  YAML front matter closed by [...] thus
    needs a body without a line that starts with [---]: otherwise, as the theorem says
    of [---], everything up to that line is taken for front matter. *)
Theorem extract_compose t n windows content before fence after body :
  t ∈ supportedFrontMatterTypes ->
  FenceClose t = before ++ fence :: after ->
  (forall l, l ∈ Split content NL -> ~ fence `prefix_of` l) ->
  (forall f l, f ∈ before -> l ∈ Split (content ++ NL :: fence ++ body) NL -> ~ f `prefix_of` l) ->
  extractFrontMatter
    (replicate n NL ++ (FenceOpen t ++ carriage windows) ++ NL :: content ++ NL :: fence ++ body) =
  match ParseFunc t (NL :: content ++ [NL]) with
  | Ok fm => Ret (Ok (Some fm, body))
  | Err e => Ret (Err e)
  end.
Proof.
  intros Ht Hh Hl Hb. rewrite extract_fenced by done. rewrite Hh.
  assert (forall f, f ∈ before ++ fence :: after -> (NL ∉ f) /\ f <> []) as Hok
    by (intros f Hf; apply (FenceClose_ok t f Ht); by rewrite Hh).
  destruct (Hok fence) as [Hnl Hne]; [apply elem_of_app; right; apply list_elem_of_here|].
  rewrite find_fence_app.
  2: { intros f Hf. destruct (Hok f) as [Hnl' Hne']; [apply elem_of_app; by left|].
       apply Index_no_line; [done|done|]. intros l Hin. by apply Hb. }
  cbn [find_fence]. rewrite Index_after_lines by done.
  assert (forall s : gostring, take (S (length content) + 1) (NL :: content ++ NL :: s) = NL :: content ++ [NL]) as ->.
  { intros s. rewrite Nat.add_1_r. simpl. f_equal. by rewrite take_app_ge, Nat.sub_succ_l,
      Nat.sub_diag by lia. }
  assert (drop (S (length content) + 1 + length fence) (NL :: content ++ NL :: fence ++ body) = body) as ->.
  { simpl. rewrite drop_app_ge by lia.
    replace (length content + 1 + length fence - length content) with (S (length fence)) by lia.
    simpl. by rewrite drop_app_length. }
  done.
Qed.

(** A document that opens with a fence and has no later line that starts with
    a closing fence of the same type is refused as unterminated. *)
Lemma extract_unterminated t n windows rest :
  t ∈ supportedFrontMatterTypes ->
  (forall fence l, fence ∈ FenceClose t -> l ∈ Split rest NL -> ~ fence `prefix_of` l) ->
  extractFrontMatter (replicate n NL ++ (FenceOpen t ++ carriage windows) ++ NL :: rest)
  = Ret (Err unterminated).
Proof.
  intros Ht Hl. rewrite extract_fenced by done.
  assert (find_fence (NL :: rest) (FenceClose t) = None) as ->; [|done].
  apply find_fence_None. intros f Hf. destruct (FenceClose_ok t f Ht Hf) as [Hnl Hne].
  apply Index_no_line; [done|done|]. intros l Hin. by apply Hl.
Qed.
End frontmatter.

(** ** Witnesses *)

(** Decoders that keep the text they are given. *)
Definition keep_text (s : gostring) : result gostring := Ok s.

Lemma extract_compose_witness :
  extractFrontMatter keep_text keep_text keep_text
    (replicate 2 NL ++ (gs "---" ++ [CR]) ++ NL :: gs "title: x" ++ NL :: gs "..." ++ gs " body")
  = Ret (Ok (Some (NL :: gs "title: x" ++ [NL]), gs " body")).
Proof.
  apply (extract_compose keep_text keep_text keep_text
    {| FenceOpen := gs "---"; FenceClose := [gs "---"; gs "..."];
       ParseFunc := yamlFrontMatter keep_text |} 2 true (gs "title: x") [gs "---"] (gs "...") [] (gs " body")).
  - apply list_elem_of_here.
  - reflexivity.
  - intros l Hl. apply list_elem_of_singleton in Hl as ->. rewrite <- HasPrefix_spec. vm_compute. done.
  - intros f l Hf Hl. apply list_elem_of_singleton in Hf as ->.
    change (l ∈ [gs "title: x"; gs "... body"]) in Hl. rewrite !elem_of_cons, elem_of_nil in Hl.
    rewrite <- HasPrefix_spec. destruct Hl as [->|[->|[]]]; vm_compute; done.
Defined.
