(* ===== verification/Negotiate.v ===== *)
(** * Content-encoding negotiation (handlers.go, [negiotiateEncoding])

    The choice between the encodings of a static file from the client's
    [Accept-Encoding] headers.  The q values are float64 numbers parsed and
    compared as the Go code does, rounding included. *)

From S2P Require Import Prelude GoStrings GoFloat GoErrors.
From Stdlib Require Import SpecFloat.

(** [encodingInfo] of build.go; the modification time is in nanoseconds. *)
Record encodingInfo := {
  encoding : gostring;
  path : gostring;
  size : Z;
  modtime : Z
}.

Definition identity : gostring := gs "identity".

(** The loops that look for an encoding by name: the first index wins. *)
Definition find_encoding (encodings : list encodingInfo) (name : gostring) : option nat :=
  fst <$> list_find (fun e => encoding e = name) encodings.

(** The loop over the parameters of an item; the default q is 1. *)
Fixpoint q_value (parts : list gostring) : float64 :=
  match parts with
  | [] => f1
  | part :: parts' =>
      let part := TrimSpace part in
      if HasPrefix part (gs "q=") then
        match ParseFloat (TrimSpace (TrimPrefix part (gs "q="))) with
        | Some parsed => parsed
        | None => q_value parts'
        end
      else q_value parts'
  end.

(** The test that replaces the selected encoding. *)
Definition prefer (q : float64) (requestedIdx : nat) (maxq : float64) (maxqIdx : nat) : bool :=
  flt f0_1 (fsub q maxq) ||
  (fle (fabs (fsub q maxq)) f0_1 && bool_decide (requestedIdx < maxqIdx)).

(** An item of a header: the q value and the index of an encoding we have. *)
Definition parse_item (encodings : list encodingInfo) (requestedEncoding : gostring) :
    option (float64 * nat) :=
  let requestedEncoding := TrimSpace requestedEncoding in
  if bool_decide (requestedEncoding = []) then None
  else
    let parts := Split requestedEncoding ";" in
    let encpart := TrimSpace (default [] (head parts)) in
    match find_encoding encodings encpart with
    | None => None
    | Some requestedIdx => Some (q_value (tail parts), requestedIdx)
    end.

(** The body of the inner loop on [(maxq, maxqIdx)]. *)
Definition neg_item (encodings : list encodingInfo) (st : float64 * nat)
    (requestedEncoding : gostring) : float64 * nat :=
  match parse_item encodings requestedEncoding with
  | None => st
  | Some (q, requestedIdx) =>
      if prefer q requestedIdx st.1 st.2 then (q, requestedIdx) else st
  end.

(** The body of the outer loop. *)
Definition neg_header (encodings : list encodingInfo) (st : float64 * nat)
    (header : gostring) : float64 * nat :=
  let header := TrimSpace header in
  if bool_decide (header = []) then st
  else foldl (neg_item encodings) st (Split header ",").

Definition err_no_encodings : goerr :=
  ErrText (gs "impossible condition, fileInfo contains no encodings").
Definition err_no_identity : goerr := ErrText (gs "identity encoding missing").

(** The pointer into the slice is given as its index. *)
Definition negiotiateEncoding (acceptHeaders : list gostring) (encodings : list encodingInfo) :
    outcome (option nat * option goerr) :=
  match encodings with
  | [] => Ret (None, Some err_no_encodings)
  | [e] =>
      Ret (Some 0, if bool_decide (encoding e = identity) then None else Some err_no_identity)
  | _ =>
      let '(maxqIdx, err) :=
        match find_encoding encodings identity with
        | Some i => (i, None)
        | None => (length encodings - 1, Some err_no_identity)
        end in
      let '(_, maxqIdx) := foldl (neg_header encodings) (f0, maxqIdx) acceptHeaders in
      _ ← index_at encodings maxqIdx;
      Ret (Some maxqIdx, err)
  end.

(** ** The requests a list of headers makes *)

(** The encodings we have among those the headers name, with their q values, in
    the order the loops meet them. *)
Definition requested (encodings : list encodingInfo) (acceptHeaders : list gostring) :
    list (float64 * nat) :=
  omap (parse_item encodings)
    (mjoin ((fun header => let header := TrimSpace header in
               if bool_decide (header = []) then [] else Split header ",") <$> acceptHeaders)).

Definition choose (st r : float64 * nat) : float64 * nat :=
  if prefer r.1 r.2 st.1 st.2 then r else st.

Lemma foldl_neg_item encodings st items :
  foldl (neg_item encodings) st items = foldl choose st (omap (parse_item encodings) items).
Proof.
  revert st. induction items as [|i items IH]; intros st; simpl; [done|].
  rewrite IH. unfold neg_item. by destruct (parse_item encodings i) as [[q k]|].
Qed.

Lemma foldl_neg_header encodings st headers :
  foldl (neg_header encodings) st headers = foldl choose st (requested encodings headers).
Proof.
  revert st. induction headers as [|h headers IH]; intros st; [done|].
  unfold requested in *. cbn [foldl fmap list_fmap mjoin list_join]. rewrite IH, omap_app, foldl_app.
  f_equal. unfold neg_header. case_bool_decide; [done|]. apply foldl_neg_item.
Qed.

Lemma find_encoding_Some encodings name i :
  find_encoding encodings name = Some i ->
  exists e, encodings !! i = Some e /\ encoding e = name.
Proof.
  unfold find_encoding. destruct (list_find _ encodings) as [[j e]|] eqn:E; intros ?; simplify_eq/=.
  apply list_find_Some in E as (H & He & _). eauto.
Qed.

Lemma find_encoding_None encodings name :
  find_encoding encodings name = None <-> ~ name ∈ encoding <$> encodings.
Proof.
  unfold find_encoding. rewrite fmap_None, list_find_None, Forall_forall.
  rewrite list_elem_of_fmap. naive_solver.
Qed.

Lemma requested_lookup encodings headers q i :
  (q, i) ∈ requested encodings headers -> is_Some (encodings !! i).
Proof.
  unfold requested. intros (item & _ & Hp)%list_elem_of_omap. unfold parse_item in Hp.
  repeat case_match; simplify_eq. apply find_encoding_Some in H0 as (e & He & _). by eexists.
Qed.

(** What an entry of [requested] stands for in the headers. *)
Lemma requested_named encodings headers q i :
  (q, i) ∈ requested encodings headers ->
  exists header item e,
    header ∈ headers /\ item ∈ Split (TrimSpace header) "," /\ encodings !! i = Some e /\
    encoding e = TrimSpace (default [] (head (Split (TrimSpace item) ";"))).
Proof.
  unfold requested. intros (item & Hi & Hp)%list_elem_of_omap.
  apply list_elem_of_join in Hi as (items & Hin & (header & -> & Hh)%list_elem_of_fmap).
  case_bool_decide; [by apply not_elem_of_nil in Hin|].
  unfold parse_item in Hp. repeat case_match; simplify_eq.
  apply find_encoding_Some in H1 as (e & He & Hn). by exists header, item, e.
Qed.

Lemma foldl_choose_in st rs : foldl choose st rs ∈ st :: rs.
Proof.
  revert st. induction rs as [|r rs IH]; intros st; simpl; [apply list_elem_of_here|].
  specialize (IH (choose st r)). apply elem_of_cons in IH as [->|IH]; [|by do 2 apply list_elem_of_further].
  unfold choose. destruct (prefer _ _ _ _); [apply list_elem_of_further|]; apply list_elem_of_here.
Qed.

(** A request preferred to all the others, and to the default, is chosen. *)
Definition strongly_preferred (r : float64 * nat) (rs : list (float64 * nat)) : Prop :=
  forall r', r' ∈ rs -> r' = r \/ flt f0_1 (fsub r.1 r'.1) = true.

Lemma choose_keeps r r' :
  r' = r \/ flt f0_1 (fsub r.1 r'.1) = true -> choose r r' = r.
Proof.
  intros [->|H]; [by unfold choose; destruct (prefer _ _ _ _)|].
  apply strong_preference_asym in H as [H1 H2]; [|done].
  unfold choose, prefer. by rewrite H1, H2.
Qed.

Lemma foldl_choose_keeps r rs : strongly_preferred r rs -> foldl choose r rs = r.
Proof.
  induction rs as [|r' rs IH]; intros H; simpl; [done|].
  rewrite choose_keeps by (apply H, list_elem_of_here).
  apply IH. intros x Hx. apply H. by apply list_elem_of_further.
Qed.

Lemma foldl_choose_strong r st rs :
  r ∈ rs -> strongly_preferred r (st :: rs) -> foldl choose st rs = r.
Proof.
  intros [l1 [l2 ->]]%list_elem_of_split Hr. rewrite foldl_app. simpl.
  assert (choose (foldl choose st l1) r = r) as ->.
  { assert (foldl choose st l1 ∈ st :: l1 ++ r :: l2) as Hin.
    { pose proof (foldl_choose_in st l1). set_solver. }
    revert Hin. generalize (foldl choose st l1) as x. intros x Hin.
    destruct (Hr _ Hin) as [->|Hp]; [by unfold choose; destruct (prefer _ _ _ _)|].
    unfold choose, prefer. by rewrite Hp. }
  apply foldl_choose_keeps. intros x Hx. apply Hr. set_solver.
Qed.

(** Requests of equal weight: the one listed first among our encodings wins. *)
Lemma foldl_choose_equal q j idxs :
  flt f0_1 (fsub q q) = false -> fle (fabs (fsub q q)) f0_1 = true ->
  foldl choose (q, j) ((fun i => (q, i)) <$> idxs) = (q, foldl Nat.min j idxs).
Proof.
  intros H1 H2. revert j. induction idxs as [|i idxs IH]; intros j; [done|]. cbn [fmap list_fmap foldl].
  assert (choose (q, j) (q, i) = (q, Nat.min j i)) as ->; [|apply IH].
  unfold choose, prefer. cbn [fst snd]. rewrite H1, H2. cbn [orb andb]. case_bool_decide; f_equal; lia.
Qed.

Lemma foldl_min_spec j idxs :
  foldl Nat.min j idxs ∈ j :: idxs /\ forall k, k ∈ j :: idxs -> foldl Nat.min j idxs <= k.
Proof.
  revert j. induction idxs as [|i idxs IH]; intros j; cbn [foldl].
  - split; [apply list_elem_of_here|]. intros k ->%list_elem_of_singleton. done.
  - destruct (IH (Nat.min j i)) as [H1 H2]. split.
    + apply elem_of_cons in H1 as [->|H1]; [|by do 2 apply list_elem_of_further].
      destruct (Nat.min_dec j i) as [-> | ->];
        [apply list_elem_of_here|apply list_elem_of_further, list_elem_of_here].
    + pose proof (H2 _ (list_elem_of_here _ _)) as Hm.
      intros k [->|[->|H]%elem_of_cons]%elem_of_cons; [lia|lia|].
      apply H2. by apply list_elem_of_further.
Qed.

(** The list the builder makes is sorted by size. *)
Lemma sorted_sizes encodings k j ek ej :
  StronglySorted (key_le size) encodings -> k <= j -> encodings !! k = Some ek -> encodings !! j = Some ej ->
  (size ek <= size ej)%Z.
Proof.
  intros Hs. revert k j. induction Hs as [|x l _ IH Hall]; intros k j Hle Hk Hj; [done|].
  destruct k as [|k], j as [|j]; cbn in Hk, Hj; simplify_eq; [lia| |lia|by apply (IH k j); [lia|..]].
  by eapply Forall_lookup_1 in Hj; [|exact Hall].
Qed.

(** ** Properties *)

(** With two encodings or more, the loops are a fold of [choose] over the
    requests, from the identity encoding (or the last) with q = 0. *)
Lemma negotiate_fold headers encodings :
  2 <= length encodings ->
  negiotiateEncoding headers encodings =
  Ret (Some (foldl choose (f0, default (length encodings - 1) (find_encoding encodings identity))
               (requested encodings headers)).2,
       if find_encoding encodings identity then None else Some err_no_identity).
Proof.
  intros Hlen. destruct encodings as [|e1 [|e2 es]]; [simpl in Hlen; lia..|].
  set (encs := e1 :: e2 :: es) in *.
  change (negiotiateEncoding headers encs) with
    (let '(maxqIdx, err) :=
        match find_encoding encs identity with
        | Some i => (i, None)
        | None => (length encs - 1, Some err_no_identity)
        end in
      let '(_, maxqIdx) := foldl (neg_header encs) (f0, maxqIdx) headers in
      _ ← index_at encs maxqIdx; Ret (Some maxqIdx, err)).
  assert (forall i0, is_Some (encs !! i0) ->
    is_Some (encs !! (foldl choose (f0, i0) (requested encs headers)).2)) as Hin.
  { intros i0 Hi0. pose proof (foldl_choose_in (f0, i0) (requested encs headers)) as H.
    destruct (foldl choose _ _) as [q i]. apply elem_of_cons in H as [[= _ ->]|H]; [done|].
    by eapply requested_lookup. }
  destruct (find_encoding encs identity) as [i|] eqn:Ei; rewrite foldl_neg_header.
  - apply find_encoding_Some in Ei as (e & He & _). specialize (Hin i (ex_intro _ e He)).
    cbn [from_option id]. destruct (foldl choose (f0, i) _) as [q k]. destruct Hin as [x Hx].
    unfold index_at. cbn [snd] in Hx |- *. by rewrite Hx.
  - specialize (Hin (length encs - 1)). cbn [from_option id].
    destruct (foldl choose (f0, length encs - 1) _) as [q k].
    destruct Hin as [x Hx]; [apply lookup_lt_is_Some; lia|].
    unfold index_at. cbn [snd] in Hx |- *. by rewrite Hx.
Qed.

(** Some encoding of the file is always selected. *)
Lemma negotiate_index headers encodings :
  encodings <> [] ->
  exists i e err, negiotiateEncoding headers encodings = Ret (Some i, err) /\ encodings !! i = Some e.
Proof.
  intros Hne. destruct (decide (2 <= length encodings)) as [Hlen|Hlen].
  - rewrite negotiate_fold by done.
    set (i0 := default (length encodings - 1) (find_encoding encodings identity)).
    pose proof (foldl_choose_in (f0, i0) (requested encodings headers)) as Hin.
    destruct (foldl choose _ _) as [q i]. cbn [snd].
    assert (is_Some (encodings !! i)) as [e He]; [|by eexists i, e, _].
    apply elem_of_cons in Hin as [[= -> ->]|Hin]; [|by eapply requested_lookup].
    unfold i0. destruct (find_encoding encodings identity) as [k|] eqn:Ek; cbn [from_option id].
    + apply find_encoding_Some in Ek as (e & He & _). by eexists.
    + apply lookup_lt_is_Some_2. lia.
  - destruct encodings as [|e [|e2 es]]; [done| |simpl in Hlen; lia]. by eexists 0, e, _.
Qed.

(** C25: [negiotiateEncoding] never indexes out of range.  It gives no encoding
    only for a file without encodings.  It reports an error exactly when the
    identity encoding is missing.  When several encodings exist and identity is
    among them, what it selects is identity or an encoding the client named. *)
Theorem negotiate_safe headers encodings :
  match negiotiateEncoding headers encodings with
  | Panic _ => False
  | Ret (None, err) => encodings = [] /\ err = Some err_no_encodings
  | Ret (Some i, err) =>
      exists e, encodings !! i = Some e /\
      (err = None <-> identity ∈ encoding <$> encodings) /\
      (err = None -> encoding e = identity \/
         exists header item, header ∈ headers /\ item ∈ Split (TrimSpace header) "," /\
           encoding e = TrimSpace (default [] (head (Split (TrimSpace item) ";"))))
  end.
Proof.
  destruct (decide (2 <= length encodings)) as [Hlen|Hlen].
  - rewrite negotiate_fold by done.
    set (i0 := default (length encodings - 1) (find_encoding encodings identity)).
    pose proof (foldl_choose_in (f0, i0) (requested encodings headers)) as Hin.
    destruct (foldl choose _ _) as [q i]. cbn [snd].
    apply elem_of_cons in Hin as [[= -> ->]|Hin].
    + unfold i0. destruct (find_encoding encodings identity) as [k|] eqn:Ek; cbn [from_option id].
      * apply find_encoding_Some in Ek as (e & He & Hid). exists e. split_and!; [done| |by left].
        split; [|done]. intros _. apply list_elem_of_fmap. exists e. split; [done|].
        by eapply list_elem_of_lookup_2.
      * destruct (lookup_lt_is_Some_2 encodings (length encodings - 1)) as [e He]; [lia|].
        exists e. split_and!; [done| |done]. split; [done|].
        intros H. by apply find_encoding_None in Ek.
    + pose proof (requested_named _ _ _ _ Hin) as (header & item & e & H1 & H2 & H3 & H4).
      exists e. split_and!; [done| |]; [|right; by exists header, item].
      destruct (find_encoding encodings identity) as [k|] eqn:Ek.
      * split; [|done]. intros _. apply find_encoding_Some in Ek as (e' & He' & Hid).
        apply list_elem_of_fmap. exists e'. split; [done|]. by eapply list_elem_of_lookup_2.
      * split; [done|]. intros H. by apply find_encoding_None in Ek.
  - destruct encodings as [|e [|e2 es]]; [done| |simpl in Hlen; lia].
    simpl. exists e. split_and!; [done| |].
    + case_bool_decide as E; [split; [by intros _; rewrite E; apply list_elem_of_here|done]|].
      split; [done|]. intros H%list_elem_of_singleton. by symmetry in H.
    + case_bool_decide; [by left|done].
Qed.

(** C26: an encoding the client prefers by more than 0.1 (in float64 arithmetic)
    to every other one it accepts and we have, and to nothing at all, is the one
    selected, whatever the order of the headers and of the file's encodings. *)
Theorem negotiate_strong_preference headers encodings q i :
  2 <= length encodings ->
  (q, i) ∈ requested encodings headers ->
  flt f0_1 (fsub q f0) = true ->
  (forall q' i', (q', i') ∈ requested encodings headers ->
     (q', i') = (q, i) \/ flt f0_1 (fsub q q') = true) ->
  exists err, negiotiateEncoding headers encodings = Ret (Some i, err).
Proof.
  intros Hlen Hin H0 Hall. rewrite negotiate_fold by done. eexists. do 2 f_equal.
  rewrite (foldl_choose_strong (q, i)); [done|done|].
  intros [q' i'] [[= -> ->]|H]%elem_of_cons; [by right|]. by apply Hall.
Qed.

(** C27: when the client gives no q value, the encoding selected is, among those it
    names, the one that comes first in the file's list; as the builder keeps that list
    ordered by size, the client gets the smallest representation it accepts. *)
Theorem negotiate_smallest headers encodings i idxs :
  2 <= length encodings ->
  requested encodings headers = (fun k => (f1, k)) <$> (i :: idxs) ->
  exists k err, negiotiateEncoding headers encodings = Ret (Some k, err) /\
    k ∈ i :: idxs /\ (forall j, j ∈ i :: idxs -> k <= j) /\
    (StronglySorted (key_le size) encodings ->
     forall j ek ej, j ∈ i :: idxs -> encodings !! k = Some ek -> encodings !! j = Some ej -> (size ek <= size ej)%Z).
Proof.
  intros Hlen Hreq. rewrite negotiate_fold, Hreq by done.
  cbn [fmap list_fmap foldl].
  match goal with |- context [choose (f0, ?d) (f1, i)] =>
    assert (choose (f0, d) (f1, i) = (f1, i)) as -> by done end.
  rewrite foldl_choose_equal by done. cbn [snd]. destruct (foldl_min_spec i idxs) as [H1 H2].
  eexists _, _. split_and!; [done|done|done|]. intros Hs j ek ej Hj Hk Hej.
  eapply (sorted_sizes encodings _ j); [done| |exact Hk|done]. by apply H2.
Qed.

(** C38: refusing encodings with [q=0] does not work.  When every encoding of the file
    that the client names carries [q=0], and one of them is smaller than the file
    itself, the smallest one the client refused is served, although the file itself
    would be acceptable: the test of the loop accepts q = 0 against the initial maximum
    of 0. *)
Theorem negotiate_q0_served headers encodings idxs i j ei ej :
  StronglySorted (key_le size) encodings ->
  requested encodings headers = (fun k => (f0, k)) <$> idxs ->
  find_encoding encodings identity = Some j -> encodings !! j = Some ej ->
  i ∈ idxs -> encodings !! i = Some ei -> (size ei < size ej)%Z ->
  exists k ek, negiotiateEncoding headers encodings = Ret (Some k, None) /\ encodings !! k = Some ek /\
    k ∈ idxs /\ encoding ek <> identity /\
    forall l el, l ∈ idxs -> encodings !! l = Some el -> (size ek <= size el)%Z.
Proof.
  intros Hs Hreq Hj Hej Hi Hei Hlt.
  assert (i < j) as Hij.
  { destruct (decide (i < j)) as [|Hge]; [done|].
    pose proof (sorted_sizes encodings j i ej ei Hs ltac:(lia) Hej Hei). lia. }
  rewrite negotiate_fold, Hj, Hreq by (apply lookup_lt_Some in Hej; lia). cbn [from_option id].
  rewrite foldl_choose_equal by done. cbn [snd]. destruct (foldl_min_spec j idxs) as [H1 H2].
  set (k := foldl Nat.min j idxs) in *. assert (k <= i) as Hk by (apply H2; by right).
  assert (k ∈ idxs) as Hin by (apply elem_of_cons in H1 as [->|?]; [lia|done]).
  destruct (lookup_lt_is_Some_2 encodings k) as [ek Hek]; [apply lookup_lt_Some in Hei; lia|].
  exists k, ek. split_and!; try done.
  - intros E. unfold find_encoding in Hj. destruct (list_find _ encodings) as [[j' e']|] eqn:El; [|done].
    injection Hj as ->. apply list_find_Some in El as (_ & _ & Hfirst). apply (Hfirst k ek); [done|lia|done].
  - intros l el Hl Hel. eapply (sorted_sizes encodings k l); [done| |done|done]. apply H2. by right.
Qed.

(** ** Witnesses: the files of the test suite *)

Definition enc (name : string) (sz : Z) : encodingInfo :=
  {| encoding := gs name; path := gs "assets/reset.css"; size := sz; modtime := 0 |}.

(** [reset.css] with its brotli and gzip copies, and [file.txt] with gzip. *)
Definition reset_css : list encodingInfo := [enc "br" 700; enc "gzip" 800; enc "identity" 2769].
Definition file_txt : list encodingInfo := [enc "identity" 7; enc "gzip" 36].

(** The negotiation cases of test/tests/assets.hurl. *)
Example assets_hurl :
  (fun h => negiotiateEncoding h file_txt) <$>
    [[]; [gs "gzip"]; [gs "gzip, identity"]; [gs "gzip;q=0.5, identity;q=0.41"];
     [gs "gzip;q=0.5, identity;q=0.39"]; [gs "br"]]
  = [Ret (Some 0, None); Ret (Some 1, None); Ret (Some 0, None); Ret (Some 0, None);
     Ret (Some 1, None); Ret (Some 0, None)] /\
  negiotiateEncoding [gs "gzip"] reset_css = Ret (Some 1, None) /\
  negiotiateEncoding [gs "gzip, br"] reset_css = Ret (Some 0, None).
Proof. vm_compute. tauto. Qed.

Lemma negotiate_strong_preference_witness :
  exists err, negiotiateEncoding [gs "identity;q=0.5, gzip;q=0.9, br;q=0.2"] reset_css = Ret (Some 1, err).
Proof.
  apply (negotiate_strong_preference [gs "identity;q=0.5, gzip;q=0.9, br;q=0.2"] reset_css
           (S754_finite false 8106479329266893 (-53)) 1).
  - simpl; lia.
  - apply list_elem_of_In. vm_compute. tauto.
  - reflexivity.
  - intros q' i' H%list_elem_of_In. vm_compute in H.
    destruct H as [[= <- <-]|[[= <- <-]|[[= <- <-]|[]]]]; [right|left|right]; reflexivity.
Defined.

Lemma reset_css_sorted : StronglySorted (key_le size) reset_css.
Proof. repeat constructor; unfold key_le; cbn; lia. Qed.

Lemma negotiate_smallest_witness :
  exists k err, negiotiateEncoding [gs "gzip, br"] reset_css = Ret (Some k, err) /\
    k ∈ [1; 0] /\ (forall j, j ∈ [1; 0] -> k <= j) /\
    (StronglySorted (key_le size) reset_css ->
     forall j ek ej, j ∈ [1; 0] -> reset_css !! k = Some ek -> reset_css !! j = Some ej -> (size ek <= size ej)%Z).
Proof.
  apply (negotiate_smallest [gs "gzip, br"] reset_css 1 [0]); [simpl; lia|].
  vm_compute. reflexivity.
Defined.

Lemma negotiate_q0_served_witness :
  exists k ek, negiotiateEncoding [gs "gzip;q=0, zstd"; gs "br;q=0"] reset_css = Ret (Some k, None) /\
    reset_css !! k = Some ek /\ k ∈ [1; 0] /\ encoding ek <> identity /\
    forall l el, l ∈ [1; 0] -> reset_css !! l = Some el -> (size ek <= size el)%Z.
Proof.
  apply (negotiate_q0_served [gs "gzip;q=0, zstd"; gs "br;q=0"] reset_css [1; 0] 1 2 (enc "gzip" 800) (enc "identity" 2769)).
  - exact reset_css_sorted.
  - vm_compute. reflexivity.
  - reflexivity.
  - reflexivity.
  - apply list_elem_of_here.
  - reflexivity.
  - reflexivity.
Defined.
