(* ===== verification/DotDB.v ===== *)
(** * The database field (dot_db.go and dot_db_config.go)

    A [DotDB] opens a transaction at its first statement and keeps it until
    [Commit], [Rollback] or the cleanup after the template.  The database behind
    [database/sql] is an argument: a [driver] answers every call as a function of
    the calls made before, so it may fail at any of them.  The calls that reach it
    are kept in a log, which the properties are about. *)

From S2P Require Import Prelude GoStrings GoErrors.

(** A call on the database, with the transaction it runs in and its outcome. *)
Inductive sql_event : Type :=
| EvBegin (id : nat)
| EvBeginFailed (e : goerr)
| EvExec (id : nat) (query : gostring) (e : option goerr)
| EvQuery (id : nat) (query : gostring) (e : option goerr)
| EvCommit (id : nat) (e : option goerr)
| EvRollback (id : nat) (e : option goerr).

Section dotdb.
(** [V] is the type of column values, [P] of parameters and [R] of [sql.Result]. *)
Context {V P R : Type}.

(** The rows of a query: [Columns] and each [Scan] may fail, and [Err] reports
    what stopped the iteration. *)
Record cursor := {
  Columns : result (list gostring);
  Rows : list (result (list V));
  Rows_Err : option goerr
}.

Record driver := {
  drv_Begin : list sql_event -> option goerr;
  drv_Exec : list sql_event -> gostring -> list P -> result R;
  drv_Query : list sql_event -> gostring -> list P -> result cursor;
  drv_Commit : list sql_event -> option goerr;
  drv_Rollback : list sql_event -> option goerr
}.

Context (drv : driver).

(** The object and the log of its database; the log has the last call last.  The
    transaction is known by the number of calls made when it began. *)
Record DotDB := {
  tx : option nat;
  db_log : list sql_event
}.

Definition log_event (d : DotDB) (ev : sql_event) : DotDB :=
  {| tx := tx d; db_log := db_log d ++ [ev] |}.

Definition makeTx (d : DotDB) : DotDB * option goerr :=
  match tx d with
  | Some _ => (d, None)
  | None =>
      match drv_Begin drv (db_log d) with
      | Some e => ({| tx := None; db_log := db_log d ++ [EvBeginFailed e] |}, Some e)
      | None =>
          let id := length (db_log d) in
          ({| tx := Some id; db_log := db_log d ++ [EvBegin id] |}, None)
      end
  end.

(** [c.tx.Exec] with [c.tx] set. *)
Definition DotDB_Exec (c : DotDB) (query : gostring) (params : list P) : DotDB * result R :=
  let '(c, err) := makeTx c in
  match err, tx c with
  | Some e, _ => (c, Err e)
  | None, Some id =>
      let r := drv_Exec drv (db_log c) query params in
      (log_event c (EvExec id query (match r with Ok _ => None | Err e => Some e end)), r)
  | None, None => (c, Err (ErrText (gs "nil transaction")))
  end.

Definition wrong_columns (n m : nat) : goerr :=
  ErrText (gs "sql: expected " ++ itoa n ++ gs " destination arguments in Scan, not " ++ itoa m).

(** The loop [for result.Next()]: the rows so far, and the error that ends it. *)
Fixpoint scan_rows (columns : list gostring) (rows : list (result (list V)))
    (acc : list (gmap gostring V)) : result (list (gmap gostring V)) :=
  match rows with
  | [] => Ok acc
  | Err e :: _ => Err e
  | Ok out :: rows' =>
      if bool_decide (length out = length columns) then
        let row := foldl (fun m cv => <[cv.1 := cv.2]> m) ∅ (zip columns out) in
        scan_rows columns rows' (acc ++ [row])
      else Err (wrong_columns (length out) (length columns))
  end.

(** The rows come with an error when the iteration was cut short, so both halves
    of the Go result are kept. *)
Definition DotDB_QueryRows (c : DotDB) (query : gostring) (params : list P) :
    DotDB * (list (gmap gostring V) * option goerr) :=
  let '(c, err) := makeTx c in
  match err, tx c with
  | Some e, _ => (c, ([], Some e))
  | None, Some id =>
      match drv_Query drv (db_log c) query params with
      | Err e =>
          (log_event c (EvQuery id query (Some e)),
           ([], Some (ErrWrap (gs "failed to execute query: ") e)))
      | Ok result =>
          let c := log_event c (EvQuery id query None) in
          match Columns result with
          | Err e => (c, ([], Some e))
          | Ok columns =>
              match scan_rows columns (Rows result) [] with
              | Err e => (c, ([], Some e))
              | Ok rows => (c, (rows, Rows_Err result))
              end
          end
      end
  | None, None => (c, ([], Some (ErrText (gs "nil transaction"))))
  end.

Definition not_one_row (n : nat) : goerr :=
  ErrText (gs "query returned " ++ itoa n ++ gs " rows, expected exactly 1 row").
Definition not_one_column (n : nat) : goerr :=
  ErrText (gs "query returned " ++ itoa n ++ gs " columns, expected 1").

Definition DotDB_QueryRow (c : DotDB) (query : gostring) (params : list P) :
    DotDB * result (gmap gostring V) :=
  let '(c, (rows, err)) := DotDB_QueryRows c query params in
  match err with
  | Some e => (c, Err e)
  | None =>
      match rows with
      | [row] => (c, Ok row)
      | _ => (c, Err (not_one_row (length rows)))
      end
  end.

(** The range over the map returns its only value. *)
Definition DotDB_QueryVal (c : DotDB) (query : gostring) (params : list P) :
    DotDB * outcome (result V) :=
  let '(c, r) := DotDB_QueryRow c query params in
  match r with
  | Err e => (c, Ret (Err e))
  | Ok row =>
      if bool_decide (size row = 1) then
        match map_to_list row with
        | (_, v) :: _ => (c, Ret (Ok v))
        | [] => (c, Panic (gs "impossible condition"))
        end
      else (c, Ret (Err (not_one_column (size row))))
  end.

Definition commit (c : DotDB) : DotDB * option goerr :=
  match tx c with
  | Some id =>
      let err := drv_Commit drv (db_log c) in
      ({| tx := None; db_log := db_log c ++ [EvCommit id err] |}, err)
  | None => (c, None)
  end.

Definition rollback (c : DotDB) : DotDB * option goerr :=
  match tx c with
  | Some id =>
      let err := drv_Rollback drv (db_log c) in
      ({| tx := None; db_log := db_log c ++ [EvRollback id err] |}, err)
  | None => (c, None)
  end.

Definition DotDB_Commit (c : DotDB) : DotDB * result gostring :=
  let '(c, err) := commit c in
  (c, match err with None => Ok [] | Some e => Err e end).

Definition DotDB_Rollback (c : DotDB) : DotDB * result gostring :=
  let '(c, err) := rollback c in
  (c, match err with None => Ok [] | Some e => Err e end).

(** [DotDBConfig.Value]: a fresh object without transaction. *)
Definition DotDBConfig_Value (log : list sql_event) : DotDB := {| tx := None; db_log := log |}.

(** [DotDBConfig.Cleanup] *)
Definition DotDBConfig_Cleanup (d : DotDB) (err : option goerr) : DotDB * option goerr :=
  match err with
  | Some _ => let '(d, e) := rollback d in (d, errors_Join [err; e])
  | None => let '(d, e) := commit d in (d, errors_Join [err; e])
  end.

(** What a template does with the field, one call at a time. *)
Inductive db_call : Type :=
| CallExec (query : gostring) (params : list P)
| CallQueryRows (query : gostring) (params : list P)
| CallQueryRow (query : gostring) (params : list P)
| CallQueryVal (query : gostring) (params : list P)
| CallCommit
| CallRollback.

Definition db_step (c : DotDB) (op : db_call) : DotDB :=
  match op with
  | CallExec q ps => (DotDB_Exec c q ps).1
  | CallQueryRows q ps => (DotDB_QueryRows c q ps).1
  | CallQueryRow q ps => (DotDB_QueryRow c q ps).1
  | CallQueryVal q ps => (DotDB_QueryVal c q ps).1
  | CallCommit => (DotDB_Commit c).1
  | CallRollback => (DotDB_Rollback c).1
  end.

(** ** The transaction protocol *)

(** The specification: at most one transaction is open, statements run in the
    open one, and [Commit] and [Rollback] close it.  [None] is a violation. *)
Definition protocol_step (open : option (option nat)) (ev : sql_event) : option (option nat) :=
  match open, ev with
  | Some None, EvBegin id => Some (Some id)
  | Some None, EvBeginFailed _ => Some None
  | Some (Some id), EvExec id' _ _ | Some (Some id), EvQuery id' _ _ =>
      if bool_decide (id = id') then Some (Some id) else None
  | Some (Some id), EvCommit id' _ | Some (Some id), EvRollback id' _ =>
      if bool_decide (id = id') then Some None else None
  | _, _ => None
  end.

Definition protocol (log : list sql_event) : option (option nat) :=
  foldl protocol_step (Some None) log.

(** The object and the log agree: the log follows the protocol, and the
    transaction it leaves open is the one the object holds. *)
Definition db_ok (d : DotDB) : Prop := protocol (db_log d) = Some (tx d).

Lemma protocol_snoc log ev : protocol (log ++ [ev]) = protocol_step (protocol log) ev.
Proof. unfold protocol. by rewrite foldl_app. Qed.

Lemma makeTx_spec d :
  db_ok d ->
  let '(d', err) := makeTx d in
  db_ok d' /\ match err with Some _ => tx d' = None | None => is_Some (tx d') end.
Proof.
  unfold db_ok. intros Hd. unfold makeTx. destruct (tx d) as [id|] eqn:Et.
  - rewrite Et. eauto.
  - destruct (drv_Begin drv (db_log d)); simpl; rewrite protocol_snoc, Hd; eauto.
Qed.

Lemma log_exec_ok d id q e : db_ok d -> tx d = Some id -> db_ok (log_event d (EvExec id q e)).
Proof.
  unfold db_ok. intros Hd Ht. simpl. rewrite protocol_snoc, Hd, Ht. simpl. by rewrite bool_decide_true.
Qed.

Lemma log_query_ok d id q e : db_ok d -> tx d = Some id -> db_ok (log_event d (EvQuery id q e)).
Proof.
  unfold db_ok. intros Hd Ht. simpl. rewrite protocol_snoc, Hd, Ht. simpl. by rewrite bool_decide_true.
Qed.

Lemma Exec_ok d q ps : db_ok d -> db_ok (DotDB_Exec d q ps).1.
Proof.
  intros Hd%makeTx_spec. unfold DotDB_Exec. destruct (makeTx d) as [d' [e|]]; [by destruct Hd|].
  destruct Hd as [Hd [id Ht]]. rewrite Ht. by apply log_exec_ok.
Qed.

Lemma QueryRows_ok d q ps : db_ok d -> db_ok (DotDB_QueryRows d q ps).1.
Proof.
  intros Hd%makeTx_spec. unfold DotDB_QueryRows.
  destruct (makeTx d) as [d' [e|]]; [by destruct Hd|]. destruct Hd as [Hd [id Ht]]. rewrite Ht.
  repeat case_match; simplify_eq/=; by apply log_query_ok.
Qed.

Lemma QueryRow_log d q ps : (DotDB_QueryRow d q ps).1 = (DotDB_QueryRows d q ps).1.
Proof.
  unfold DotDB_QueryRow. destruct (DotDB_QueryRows d q ps) as [d' [rows [e|]]]; [done|].
  by destruct rows as [|r [|]].
Qed.

Lemma QueryVal_log d q ps : (DotDB_QueryVal d q ps).1 = (DotDB_QueryRows d q ps).1.
Proof.
  rewrite <- QueryRow_log. unfold DotDB_QueryVal.
  destruct (DotDB_QueryRow d q ps) as [d' [row|e]]; [|done].
  case_bool_decide; [|done]. by destruct (map_to_list row) as [|[]].
Qed.

Lemma commit_ok d : db_ok d -> db_ok (commit d).1 /\ tx (commit d).1 = None.
Proof.
  unfold db_ok, commit. intros Hd. destruct (tx d) as [id|] eqn:Et; simpl; [|by rewrite Et].
  rewrite protocol_snoc, Hd. simpl. by rewrite bool_decide_true.
Qed.

Lemma rollback_ok d : db_ok d -> db_ok (rollback d).1 /\ tx (rollback d).1 = None.
Proof.
  unfold db_ok, rollback. intros Hd. destruct (tx d) as [id|] eqn:Et; simpl; [|by rewrite Et].
  rewrite protocol_snoc, Hd. simpl. by rewrite bool_decide_true.
Qed.

Lemma db_step_ok d op : db_ok d -> db_ok (db_step d op).
Proof.
  intros Hd. destruct op; simpl.
  - by apply Exec_ok.
  - by apply QueryRows_ok.
  - rewrite QueryRow_log. by apply QueryRows_ok.
  - rewrite QueryVal_log. by apply QueryRows_ok.
  - unfold DotDB_Commit. destruct (commit_ok d Hd). by destruct (commit d).
  - unfold DotDB_Rollback. destruct (rollback_ok d Hd). by destruct (rollback d).
Qed.

Lemma Cleanup_ok d err :
  db_ok d -> db_ok (DotDBConfig_Cleanup d err).1 /\ tx (DotDBConfig_Cleanup d err).1 = None.
Proof.
  intros Hd. destruct err; simpl.
  - destruct (rollback_ok d Hd). by destruct (rollback d).
  - destruct (commit_ok d Hd). by destruct (commit d).
Qed.

(** ** What the database is left with *)

(** The statements committed so far, and those of the open transaction. *)
Definition commit_step (st : list gostring * list gostring) (ev : sql_event) :
    list gostring * list gostring :=
  match ev with
  | EvBegin _ => (st.1, [])
  | EvExec _ q None => (st.1, st.2 ++ [q])
  | EvCommit _ None => (st.1 ++ st.2, [])
  | EvCommit _ (Some _) | EvRollback _ _ => (st.1, [])
  | _ => st
  end.

Definition commit_state (log : list sql_event) : list gostring * list gostring :=
  foldl commit_step ([], []) log.

Definition committed (log : list sql_event) : list gostring := (commit_state log).1.

(** The statements of a log that were executed without error. *)
Definition executed (log : list sql_event) : list gostring :=
  omap (fun ev => match ev with EvExec _ q None => Some q | _ => None end) log.

Lemma commit_state_snoc log ev : commit_state (log ++ [ev]) = commit_step (commit_state log) ev.
Proof. unfold commit_state. by rewrite foldl_app. Qed.

Lemma executed_snoc log ev : executed (log ++ [ev]) = executed log ++ executed [ev].
Proof. unfold executed. by rewrite omap_app. Qed.

Definition is_statement (op : db_call) : Prop :=
  match op with CallCommit | CallRollback => False | _ => True end.

(** During statements nothing is committed, and what was executed is pending. *)
Definition pending_inv (log : list sql_event) (d : DotDB) : Prop :=
  exists new, db_log d = log ++ new /\ committed (db_log d) = committed log /\
    match tx d with
    | None => executed new = []
    | Some _ => (commit_state (db_log d)).2 = executed new
    end.

Lemma makeTx_pending log d : pending_inv log d -> pending_inv log (makeTx d).1.
Proof.
  intros (new & Hl & Hc & Ht). unfold makeTx. destruct (tx d) as [id|] eqn:Et.
  { exists new. simpl. by rewrite Et. }
  unfold pending_inv, committed in *.
  destruct (drv_Begin drv (db_log d)) as [e|].
  - exists (new ++ [EvBeginFailed e]). simpl. rewrite commit_state_snoc, executed_snoc, Ht.
    split_and!; [by rewrite Hl, app_assoc|done|done].
  - exists (new ++ [EvBegin (length (db_log d))]). simpl.
    rewrite commit_state_snoc, executed_snoc, Ht.
    split_and!; [by rewrite Hl, app_assoc|done|done].
Qed.

Lemma log_event_pending log d ev id :
  pending_inv log d -> tx d = Some id ->
  (exists q e, ev = EvExec id q e \/ ev = EvQuery id q e) -> pending_inv log (log_event d ev).
Proof.
  intros (new & Hl & Hc & Ht) Et (q & e & Hev). rewrite Et in Ht. exists (new ++ [ev]).
  unfold pending_inv, log_event, committed in *. simpl. rewrite Et, commit_state_snoc, executed_snoc.
  split_and!; [by rewrite Hl, app_assoc| |]; destruct Hev as [-> | ->]; destruct e; simpl;
    by rewrite ?Ht, ?app_nil_r.
Qed.

Lemma statement_pending log d op :
  pending_inv log d -> is_statement op -> db_ok d -> pending_inv log (db_step d op).
Proof.
  intros Hp%makeTx_pending Hop Hd%makeTx_spec.
  assert (forall q ps, pending_inv log (DotDB_QueryRows d q ps).1) as Hq.
  { intros q ps. unfold DotDB_QueryRows. destruct (makeTx d) as [d' [e|]]; [done|].
    destruct Hd as [_ [id Ht]]. rewrite Ht.
    repeat case_match; simplify_eq/=; (eapply log_event_pending; [done|done|eauto]). }
  destruct op; simpl; try done; rewrite ?QueryRow_log, ?QueryVal_log; try apply Hq.
  unfold DotDB_Exec. destruct (makeTx d) as [d' [e|]]; [done|].
  destruct Hd as [_ [id Ht]]. rewrite Ht. simpl. eapply log_event_pending; [done|done|eauto].
Qed.

Lemma statements_pending log d ops :
  pending_inv log d -> db_ok d -> Forall is_statement ops ->
  pending_inv log (foldl db_step d ops) /\ db_ok (foldl db_step d ops).
Proof.
  revert d. induction ops as [|op ops IH]; intros d Hp Hd Hops; [done|].
  apply Forall_cons in Hops as [Hop Hops]. simpl.
  apply IH; [by apply statement_pending|by apply db_step_ok|done].
Qed.

(** What the cleanup makes of the pending statements. *)
Lemma Cleanup_committed log d err :
  pending_inv log d ->
  let '(d', err') := DotDBConfig_Cleanup d err in
  exists new, db_log d = log ++ new /\
  match err' with
  | None => err = None /\ committed (db_log d') = committed log ++ executed new
  | Some _ => committed (db_log d') = committed log
  end.
Proof.
  intros (new & Hl & Hc & Ht). unfold committed in *.
  destruct err as [e|]; simpl; unfold rollback, commit; destruct (tx d) as [id|] eqn:Et; simpl;
    try (exists new; split; [done|]; rewrite ?commit_state_snoc; simpl; done).
  - destruct (drv_Commit drv (db_log d)) as [ce|]; simpl; exists new; (split; [done|]);
      rewrite commit_state_snoc; simpl; [done|]. split; [done|]. by rewrite Hc, Ht.
  - exists new. split; [done|]. split; [done|]. by rewrite Ht, app_nil_r.
Qed.

Lemma Cleanup_fails d err e :
  (DotDBConfig_Cleanup d err).2 = Some e -> err <> None \/ is_Some (drv_Commit drv (db_log d)).
Proof.
  destruct err as [e'|]; [by left|]. right. cbn in *. unfold commit in *. destruct (tx d); [|done]. cbn in *.
  by destruct (drv_Commit drv (db_log d)).
Qed.

(** ** Properties *)

(** C15: whatever the database answers and whatever a template calls on the field,
    in any order, the calls that reach the database follow the transaction
    protocol, and after the cleanup no transaction is left open. *)
Theorem db_protocol_followed log ops err :
  protocol log = Some None ->
  let d := foldl db_step (DotDBConfig_Value log) ops in
  let d' := (DotDBConfig_Cleanup d err).1 in
  protocol (db_log d) = Some (tx d) /\ protocol (db_log d') = Some None /\ tx d' = None.
Proof.
  intros Hlog d d'.
  assert (db_ok d) as Hd.
  { apply (Forall_foldl_inv db_ok); [done|]. intros; by apply db_step_ok. }
  destruct (Cleanup_ok d err Hd) as [Hok Ht]. fold d' in Hok, Ht. unfold db_ok in *.
  by rewrite <- Ht.
Qed.

(** C14: the statements of a template that neither commits nor rolls back by hand
    are applied as a whole or not at all.  They are all committed, in order, when
    the cleanup reports no error.  When the template failed, or the commit did,
    none is, and the error is reported. *)
Theorem db_all_or_nothing log ops err :
  protocol log = Some None -> Forall is_statement ops ->
  let d := foldl db_step (DotDBConfig_Value log) ops in
  let '(d', err') := DotDBConfig_Cleanup d err in
  exists new, db_log d = log ++ new /\
  match err' with
  | None => err = None /\ committed (db_log d') = committed log ++ executed new
  | Some _ => committed (db_log d') = committed log
  end.
Proof.
  intros Hlog Hops d.
  destruct (statements_pending log (DotDBConfig_Value log) ops) as [Hp _]; [|done|done|].
  { exists []. simpl. by rewrite app_nil_r. }
  by apply Cleanup_committed.
Qed.

(** The cleanup rolls back after an error and commits otherwise; it never
    turns an error into success, it keeps the template's error visible to
    [errors.As], and without an error it reports exactly the commit's. *)
Lemma db_cleanup_outcome d err :
  let '(d', err') := DotDBConfig_Cleanup d err in
  match err with
  | Some e =>
      (exists e', err' = Some e' /\ e ∈ subs e') /\
      db_log d' = db_log d ++
        (if tx d is Some id then [EvRollback id (drv_Rollback drv (db_log d))] else [])
  | None =>
      (err' = None <-> tx d = None \/ drv_Commit drv (db_log d) = None) /\
      db_log d' = db_log d ++
        (if tx d is Some id then [EvCommit id (drv_Commit drv (db_log d))] else [])
  end.
Proof.
  destruct err as [e|]; simpl; unfold rollback, commit; destruct (tx d) as [id|]; simpl;
    rewrite ?app_nil_r.
  - split; [|done]. destruct (drv_Rollback drv (db_log d)); simpl; eexists; (split; [done|]);
      simpl; apply list_elem_of_further, elem_of_app; left; destruct e; apply list_elem_of_here.
  - split; [|done]. eexists; (split; [done|]). simpl. apply list_elem_of_further, elem_of_app.
    left. destruct e; apply list_elem_of_here.
  - split; [|done]. destruct (drv_Commit drv (db_log d)); naive_solver.
  - split; [|done]. naive_solver.
Qed.

(** C31: [QueryVal] never reaches its panic, and a value it returns is the only
    entry of the only row. *)
Theorem QueryVal_single d q ps :
  match (DotDB_QueryVal d q ps).2 with
  | Panic _ => False
  | Ret (Err _) => True
  | Ret (Ok v) => exists c, (DotDB_QueryRows d q ps).2 = ([{[ c := v ]}], None)
  end.
Proof.
  unfold DotDB_QueryVal, DotDB_QueryRow.
  destruct (DotDB_QueryRows d q ps) as [d' [rows [e|]]]; [done|].
  destruct rows as [|row [|row2 rows]]; [done| |done].
  case_bool_decide as Hs; [|done].
  destruct (map_to_list row) as [|[c v] l] eqn:E.
  - apply map_to_list_empty_iff in E as ->. done.
  - simpl. exists c. assert (l = []) as ->.
    { pose proof (length_map_to_list row) as Hlen. rewrite E, Hs in Hlen. by destruct l. }
    apply (f_equal (list_to_map (M := gmap gostring V))) in E.
    rewrite list_to_map_to_list in E. by rewrite E.
Qed.

(** A query that returns two columns of the same name passes for one column:
    [QueryVal] returns the second value, although its documentation asks for a
    row with one column. *)
Lemma QueryVal_duplicate_column d q ps c v1 v2 id :
  tx d = Some id ->
  drv_Query drv (db_log d) q ps =
    Ok {| Columns := Ok [c; c]; Rows := [Ok [v1; v2]]; Rows_Err := None |} ->
  (DotDB_QueryVal d q ps).2 = Ret (Ok v2).
Proof.
  intros Ht Hq. unfold DotDB_QueryVal, DotDB_QueryRow, DotDB_QueryRows, makeTx. rewrite Ht.
  cbn [fst snd]. rewrite Ht, Hq. cbn [Columns Rows Rows_Err scan_rows].
  rewrite bool_decide_true by done. cbn [zip zip_with foldl fst snd app].
  rewrite insert_insert_eq, insert_empty.
  rewrite map_size_singleton, bool_decide_true, map_to_list_singleton by done. done.
Qed.
End dotdb.

Arguments driver : clear implicits.

(** ** Witnesses *)

(** A database that accepts everything but the statement ["bad"] and answers
    every query with two columns of the same name. *)
Definition demo_driver : driver nat unit unit :=
  {| drv_Begin := fun _ => None;
     drv_Exec := fun _ q _ => if bool_decide (q = gs "bad") then Err (ErrText (gs "syntax")) else Ok tt;
     drv_Query := fun _ _ _ =>
       Ok {| Columns := Ok [gs "a"; gs "a"]; Rows := [Ok [1; 2]]; Rows_Err := None |};
     drv_Commit := fun _ => None;
     drv_Rollback := fun _ => None |}.

Lemma db_protocol_followed_witness :
  let d := foldl (db_step demo_driver) (DotDBConfig_Value [])
             [CallExec (gs "a") []; CallCommit; CallCommit; CallExec (gs "bad") []] in
  let d' := (DotDBConfig_Cleanup demo_driver d (Some ReturnError)).1 in
  protocol (db_log d) = Some (tx d) /\ protocol (db_log d') = Some None /\ tx d' = None.
Proof.
  apply (db_protocol_followed demo_driver [] [CallExec (gs "a") []; CallCommit; CallCommit;
           CallExec (gs "bad") []] (Some ReturnError)). reflexivity.
Defined.

Lemma db_all_or_nothing_witness :
  let d := foldl (db_step demo_driver) (DotDBConfig_Value [])
             [CallExec (gs "a") []; CallExec (gs "bad") []; CallExec (gs "b") []] in
  let '(d', err') := DotDBConfig_Cleanup demo_driver d None in
  exists new, db_log d = [] ++ new /\
  match err' with
  | None => @None goerr = None /\ committed (db_log d') = committed [] ++ executed new
  | Some _ => committed (db_log d') = committed []
  end.
Proof.
  apply (db_all_or_nothing demo_driver [] [CallExec (gs "a") []; CallExec (gs "bad") [];
           CallExec (gs "b") []] None); [reflexivity|]. repeat constructor.
Defined.

(** The statements that succeeded are committed in order. *)
Example db_commit_example :
  let d := foldl (db_step demo_driver) (DotDBConfig_Value [])
             [CallExec (gs "a") []; CallExec (gs "bad") []; CallExec (gs "b") []] in
  committed (db_log (DotDBConfig_Cleanup demo_driver d None).1) = [gs "a"; gs "b"] /\
  committed (db_log (DotDBConfig_Cleanup demo_driver d (Some (ErrorStatus 404))).1) = [].
Proof. vm_compute. done. Qed.
