(* ===== verification/DotFlush.v ===== *)
(** * The flush field of SSE handlers (dot_flush.go)

    [SendSSE] writes a server-sent event to the response writer.  Its
    specification is the event-stream parser of a client (WHATWG HTML, section
    9.2.6): what was sent is what the client dispatches.  [Repeat], [Sleep] and
    [WaitForServerStop] block in a [select], which is modelled by the case that
    fires. *)

From S2P Require Import Prelude GoStrings GoErrors Http.

(** ** SendSSE *)

Definition first_line_of (s : gostring) : gostring := default [] (head (SplitN2 s NL)).

(** The strings [fmt.Fprintf] is called with, in order; each is one [Write]. *)
Definition sse_event (event : gostring) : list gostring :=
  if bool_decide (event = []) then [] else [gs "event: " ++ first_line_of event ++ [NL]].

Definition sse_data (data : gostring) : list gostring :=
  if bool_decide (data = []) then []
  else (fun line => gs "data: " ++ line ++ [NL]) <$> Split data NL.

Definition sse_id (id : gostring) : list gostring :=
  if bool_decide (id = []) then [] else [gs "id: " ++ first_line_of id ++ [NL]].

Definition sse_retry (retry : gostring) : list gostring :=
  if bool_decide (retry = []) then [] else [gs "retry: " ++ first_line_of retry ++ [NL]].

(** The fall-through switch on the number of arguments. *)
Definition sse_args (args : list gostring) : option (gostring * gostring * gostring * gostring) :=
  match args with
  | [event; data; id; retry] => Some (event, data, id, retry)
  | [event; data; id] => Some (event, data, id, [])
  | [event; data] => Some (event, data, [], [])
  | [event] => Some (event, [], [], [])
  | _ => None
  end.

Definition sse_writes (event data id retry : gostring) : list gostring :=
  sse_event event ++ sse_data data ++ sse_id id ++ sse_retry retry.

Definition SendSSE (w : writer) (args : list gostring) : writer * option goerr :=
  match sse_args args with
  | None =>
      (w, Some (ErrText (gs "wrong number of args provided. got " ++ itoa (length args)
                           ++ gs ", need 1-4")))
  | Some (event, data, id, retry) =>
      let writes := sse_writes event data id retry in
      let w := foldl Write w writes in
      match writes with
      | [] => (w, None)
      | _ => (writer_Flush (Write w [NL; NL]), None)
      end
  end.

(** [DotFlush.Flush] *)
Definition DotFlush_Flush (w : writer) : writer * gostring := (writer_Flush w, []).

(** The provider: [Value] fails for a writer that cannot flush, and [Cleanup]
    flushes after a template that did not fail. *)
Definition dotFlushProvider_Value (can_flush : bool) : option goerr :=
  if can_flush then None
  else Some (ErrText (gs "response writer could not cast to http.Flusher")).

Definition dotFlushProvider_Cleanup (w : writer) (err : option goerr) : writer * option goerr :=
  match err with
  | None => (writer_Flush w, err)
  | Some _ => (w, err)
  end.

(** ** The client *)

(** Lines end with CR LF, LF or CR. *)
Fixpoint sse_lines_go (s cur : gostring) (cr : bool) : list gostring :=
  match s with
  | [] => []                       (* an unfinished last line is discarded *)
  | c :: s' =>
      if bool_decide (c = NL) then
        if cr then sse_lines_go s' [] false else cur :: sse_lines_go s' [] false
      else if bool_decide (c = CR) then cur :: sse_lines_go s' [] true
      else sse_lines_go s' (cur ++ [c]) false
  end.

Definition sse_lines (s : gostring) : list gostring := sse_lines_go s [] false.

Record sse_message := { m_type : gostring; m_data : gostring; m_lastid : gostring }.

Record client := {
  c_type : gostring; c_data : list gostring; c_lastid : gostring; c_out : list sse_message
}.

Definition new_client : client := {| c_type := []; c_data := []; c_lastid := []; c_out := [] |}.

(** The name and the value of a field line; one space after the colon is dropped. *)
Definition parse_field (line : gostring) : gostring * gostring :=
  match SplitN2 line ":" with
  | [name; value] => (name, TrimPrefix value (gs " "))
  | _ => (line, [])
  end.

Definition NUL : ascii := "000"%char.

(** An event without data is not dispatched, and an id with a NUL is ignored. *)
Definition client_line (c : client) (line : gostring) : client :=
  match line with
  | [] =>
      match c_data c with
      | [] => {| c_type := []; c_data := []; c_lastid := c_lastid c; c_out := c_out c |}
      | ds =>
          {| c_type := []; c_data := []; c_lastid := c_lastid c;
             c_out := c_out c ++
               [{| m_type := if bool_decide (c_type c = []) then gs "message" else c_type c;
                   m_data := Join ds NL; m_lastid := c_lastid c |}] |}
      end
  | _ =>
      let '(name, value) := parse_field line in
      if bool_decide (name = gs "event") then
        {| c_type := value; c_data := c_data c; c_lastid := c_lastid c; c_out := c_out c |}
      else if bool_decide (name = gs "data") then
        {| c_type := c_type c; c_data := c_data c ++ [value]; c_lastid := c_lastid c;
           c_out := c_out c |}
      else if bool_decide (name = gs "id") then
        if bool_decide (NUL ∈ value) then c
        else {| c_type := c_type c; c_data := c_data c; c_lastid := value; c_out := c_out c |}
      else c
  end.

Definition client_read (c : client) (s : gostring) : client := foldl client_line c (sse_lines s).

(** ** Repeat, Sleep, WaitForServerStop *)

Definition MaxInt64 : Z := 9223372036854775807.

(** Two's complement wrap-around of a 64-bit integer. *)
Definition wrap64 (z : Z) : Z := ((z + 2 ^ 63) mod 2 ^ 64 - 2 ^ 63)%Z.

Inductive repeat_state := Running (i : Z) | Closed.

(** The goroutine of [Repeat]: an iteration sends [i] or sees a context done. *)
Inductive repeat_step (max : Z) : repeat_state -> option Z -> repeat_state -> Prop :=
| repeat_done i : repeat_step max (Running i) None Closed
| repeat_last i : (max <= i)%Z -> repeat_step max (Running i) (Some i) Closed
| repeat_next i : (i < max)%Z -> repeat_step max (Running i) (Some i) (Running (wrap64 (i + 1))).

Definition repeat_max (max_ : list Z) : Z := match max_ with m :: _ => m | [] => MaxInt64 end.

(** The values sent along a run. *)
Inductive repeat_run (max : Z) : repeat_state -> list Z -> repeat_state -> Prop :=
| run_nil s : repeat_run max s [] s
| run_done s s' vs s'' :
    repeat_step max s None s' -> repeat_run max s' vs s'' -> repeat_run max s vs s''
| run_send s v s' vs s'' :
    repeat_step max s (Some v) s' -> repeat_run max s' vs s'' -> repeat_run max s (v :: vs) s''.

(** The case a [select] takes. *)
Inductive stopped := RequestDone | ServerDone.
Inductive fired := Timer | Stopped (by_ : stopped).

(** The duration [Sleep] waits for, in nanoseconds. *)
Definition sleep_duration (ms : Z) : Z := wrap64 (ms * 1000000).

Definition Sleep (f : fired) : result gostring :=
  match f with
  | Timer => Ok []
  | Stopped _ => Err ReturnError
  end.

(** Its [select] has no timer case: it waits until one of the contexts is done. *)
Definition WaitForServerStop (by_ : stopped) : result gostring :=
  match by_ with
  | RequestDone => Err ReturnError
  | ServerDone => Ok []
  end.

(** ** Properties of the stream *)

Lemma first_line_of_no_nl s : NL ∉ first_line_of s.
Proof.
  unfold first_line_of. destruct (SplitN2_head s NL) as (l & ls & -> & H & _). done.
Qed.

Lemma first_line_of_incl s c : c ∈ first_line_of s -> c ∈ s.
Proof.
  unfold first_line_of. destruct (SplitN2_head s NL) as (l & ls & -> & _ & [k ->]). simpl.
  intros. apply elem_of_app. by left.
Qed.

(** Reading a complete line without line terminators inside. *)
Lemma sse_lines_line l s cur :
  NL ∉ l -> CR ∉ l -> sse_lines_go (l ++ NL :: s) cur false = (cur ++ l) :: sse_lines_go s [] false.
Proof.
  revert cur. induction l as [|c l IH]; intros cur Hn Hc; cbn [app sse_lines_go].
  - rewrite bool_decide_true by done. by rewrite app_nil_r.
  - apply not_elem_of_cons in Hn as [Hn1 Hn2]. apply not_elem_of_cons in Hc as [Hc1 Hc2].
    rewrite !bool_decide_false by done. rewrite IH by done. by rewrite <- app_assoc.
Qed.

(** The text of a list of lines. *)
Fixpoint text_of (ls : list gostring) : gostring :=
  match ls with
  | [] => []
  | l :: ls' => l ++ NL :: text_of ls'
  end.

Lemma sse_lines_text ls s :
  (forall l, l ∈ ls -> (NL ∉ l) /\ (CR ∉ l)) -> sse_lines (text_of ls ++ s) = ls ++ sse_lines s.
Proof.
  unfold sse_lines. induction ls as [|l ls IH]; intros H; [done|].
  cbn [text_of]. rewrite <- app_assoc. cbn [app].
  destruct (H l (list_elem_of_here _ _)) as [H1 H2]. rewrite sse_lines_line by done.
  rewrite IH; [done|]. intros k Hk. apply H. by apply list_elem_of_further.
Qed.

Lemma client_read_text c ls s :
  (forall l, l ∈ ls -> (NL ∉ l) /\ (CR ∉ l)) ->
  client_read c (text_of ls ++ s) = client_read (foldl client_line c ls) s.
Proof. intros H. unfold client_read. by rewrite sse_lines_text, foldl_app. Qed.

Lemma SplitN2_sep n s : (":"%char ∉ n) -> SplitN2 (n ++ ":"%char :: s) ":" = [n; s].
Proof.
  induction n as [|c n IH]; intros H; cbn [app SplitN2].
  - by rewrite bool_decide_true.
  - apply not_elem_of_cons in H as [H1 H2]. rewrite bool_decide_false by done. by rewrite IH.
Qed.

Lemma parse_field_spec n v : (":"%char ∉ n) -> parse_field (n ++ gs ": " ++ v) = (n, v).
Proof.
  intros H. unfold parse_field. change (gs ": " ++ v) with (":"%char :: gs " " ++ v).
  rewrite SplitN2_sep by done. by rewrite TrimPrefix_app.
Qed.

Definition set_type (c : client) (t : gostring) : client :=
  {| c_type := t; c_data := c_data c; c_lastid := c_lastid c; c_out := c_out c |}.
Definition add_data (c : client) (d : gostring) : client :=
  {| c_type := c_type c; c_data := c_data c ++ [d]; c_lastid := c_lastid c; c_out := c_out c |}.
(** The last event id after the field [id]. *)
Definition new_lastid (old i : gostring) : gostring := if bool_decide (NUL ∈ i) then old else i.
Definition set_lastid (c : client) (i : gostring) : client :=
  {| c_type := c_type c; c_data := c_data c; c_lastid := new_lastid (c_lastid c) i; c_out := c_out c |}.

(** What each kind of line does to the client. *)
Lemma client_field_lines c v :
  client_line c (gs "event: " ++ v) = set_type c v /\
  client_line c (gs "data: " ++ v) = add_data c v /\
  client_line c (gs "id: " ++ v) = set_lastid c v /\
  client_line c (gs "retry: " ++ v) = c.
Proof.
  assert (forall n, (":"%char ∉ n) -> n <> [] ->
    client_line c (n ++ gs ": " ++ v) =
      if bool_decide (n = gs "event") then set_type c v
      else if bool_decide (n = gs "data") then add_data c v
      else if bool_decide (n = gs "id") then set_lastid c v else c) as H.
  { intros n Hn Hne. unfold client_line. rewrite parse_field_spec by done.
    destruct n as [|x n]; [done|]. unfold set_lastid, new_lastid.
    repeat case_bool_decide; try reflexivity; by destruct c. }
  assert (forall n : gostring, bool_decide (":"%char ∉ n) = true -> (":"%char ∉ n)) as Hb
    by (intros n; apply bool_decide_eq_true_1).
  split_and!.
  - exact (H (gs "event") (Hb (gs "event") eq_refl) ltac:(done)).
  - exact (H (gs "data") (Hb (gs "data") eq_refl) ltac:(done)).
  - exact (H (gs "id") (Hb (gs "id") eq_refl) ltac:(done)).
  - exact (H (gs "retry") (Hb (gs "retry") eq_refl) ltac:(done)).
Qed.

(** The lines [SendSSE] writes, without their line breaks, and the blank lines. *)
Definition sse_field_lines (event data id retry : gostring) : list gostring :=
  (if bool_decide (event = []) then [] else [gs "event: " ++ first_line_of event]) ++
  (if bool_decide (data = []) then [] else (fun l => gs "data: " ++ l) <$> Split data NL) ++
  (if bool_decide (id = []) then [] else [gs "id: " ++ first_line_of id]) ++
  (if bool_decide (retry = []) then [] else [gs "retry: " ++ first_line_of retry]).

Lemma sse_writes_lines event data id retry :
  sse_writes event data id retry = (fun l => l ++ [NL]) <$> sse_field_lines event data id retry.
Proof.
  unfold sse_writes, sse_field_lines, sse_event, sse_data, sse_id, sse_retry.
  rewrite !fmap_app. repeat f_equal; case_bool_decide; try done.
  rewrite <- list_fmap_compose. apply list_fmap_ext. intros i l _. reflexivity.
Qed.

(** A writer that takes everything: no declared length, a status with a body. *)
Definition open_writer (w : writer) : Prop :=
  w_limit w = None /\ w_head w = false /\
  match w_sent w with
  | Some (code, _) => body_allowed code = true
  | None => parse_length (Header_Get (w_header w) (gs "Content-Length")) = None
  end.

Lemma Write_open w b :
  open_writer w -> open_writer (Write w b) /\ w_body (Write w b) = w_body w ++ b /\
    w_header (Write w b) = w_header w /\ is_Some (w_sent (Write w b)).
Proof.
  intros (Hl & Hh & Hs). unfold Write. destruct (w_sent w) as [[code h]|] eqn:Es.
  - cbn. rewrite Es, Hs, Hl, Hh. unfold open_writer. simpl. eauto 10.
  - rewrite WriteHeader_fresh by (done || (split; lia)). cbn [w_sent w_limit w_head].
    rewrite Hs, Hh. unfold open_writer. simpl. eauto 10.
Qed.

Lemma writes_open w bs :
  open_writer w -> open_writer (foldl Write w bs) /\ w_body (foldl Write w bs) = w_body w ++ mjoin bs.
Proof.
  revert w. induction bs as [|b bs IH]; intros w Hw; simpl; [by rewrite app_nil_r|].
  destruct (Write_open w b Hw) as (Hw' & Hb & _). destruct (IH _ Hw') as [H1 H2].
  split; [done|]. by rewrite H2, Hb, app_assoc.
Qed.

Lemma Flush_open w :
  open_writer w -> open_writer (writer_Flush w) /\ w_body (writer_Flush w) = w_body w.
Proof.
  intros (Hl & Hh & Hs). unfold writer_Flush. destruct (w_sent w) as [[code h]|] eqn:Es.
  - unfold open_writer. simpl. rewrite Es, Hl, Hh. eauto.
  - rewrite WriteHeader_fresh by (done || (split; lia)). unfold open_writer. simpl. eauto.
Qed.

Lemma mjoin_text ls : mjoin ((fun l => l ++ [NL]) <$> ls) = text_of ls.
Proof. induction ls as [|l ls IH]; [done|]. cbn [text_of]. rewrite <- IH. simpl. by rewrite <- app_assoc. Qed.

(** What [SendSSE] adds to the body: the field lines and two blank lines. *)
Lemma SendSSE_body w event data id retry :
  open_writer w -> (event, data, id, retry) <> ([], [], [], []) ->
  let w' := (SendSSE w [event; data; id; retry]).1 in
  open_writer w' /\
  w_body w' = w_body w ++ text_of (sse_field_lines event data id retry ++ [[]; []]).
Proof.
  intros Hw Hne. unfold SendSSE. cbn [sse_args].
  rewrite sse_writes_lines. set (ls := sse_field_lines event data id retry).
  assert (ls <> []) as Hls.
  { unfold ls, sse_field_lines. intros E. apply app_nil in E as [E1 [E2 [E3 E4]%app_nil]%app_nil].
    repeat case_bool_decide; simplify_eq/=.
    pose proof (Split_not_nil data NL) as Hs. by destruct (Split data NL). }
  destruct (writes_open w ((fun l => l ++ [NL]) <$> ls) Hw) as [H1 H2].
  destruct (Write_open _ [NL; NL] H1) as (H3 & H4 & _).
  destruct (Flush_open _ H3) as [H5 H6].
  destruct ((fun l => l ++ [NL]) <$> ls) as [|b bs] eqn:E; [by apply fmap_nil_inv in E|].
  cbn [fst]. split; [done|]. rewrite H6, H4, H2, <- E, mjoin_text, <- app_assoc. f_equal.
  assert (forall k, text_of ls ++ text_of k = text_of (ls ++ k)) as Happ.
  { intros k. clear. induction ls as [|l ls IH]; [done|]. simpl. rewrite <- IH. by rewrite <- app_assoc. }
  by rewrite <- Happ.
Qed.

(** The client after the field lines of an event. *)
Lemma client_fields c event data id retry :
  c_data c = [] -> c_type c = [] ->
  foldl client_line c (sse_field_lines event data id retry) =
  {| c_type := first_line_of event;
     c_data := if bool_decide (data = []) then [] else Split data NL;
     c_lastid := if bool_decide (id = []) then c_lastid c else new_lastid (c_lastid c) (first_line_of id);
     c_out := c_out c |}.
Proof.
  intros Hd Ht. destruct c as [t d l o]. simpl in *. subst. unfold sse_field_lines.
  rewrite !foldl_app.
  assert (forall c ds, foldl client_line c ((fun l => gs "data: " ++ l) <$> ds) =
    {| c_type := c_type c; c_data := c_data c ++ ds; c_lastid := c_lastid c; c_out := c_out c |}) as Hds.
  { intros c ds. revert c. induction ds as [|x ds IH]; intros c; [by destruct c; rewrite app_nil_r|].
    cbn [fmap list_fmap foldl]. rewrite (proj1 (proj2 (client_field_lines c x))), IH.
    unfold add_data. simpl. by rewrite <- app_assoc. }
  assert (foldl client_line {| c_type := []; c_data := []; c_lastid := l; c_out := o |}
    (if bool_decide (event = []) then [] else [gs "event: " ++ first_line_of event]) =
    {| c_type := first_line_of event; c_data := []; c_lastid := l; c_out := o |}) as ->.
  { case_bool_decide; [by subst|]. cbn [foldl]. by rewrite (proj1 (client_field_lines _ _)). }
  destruct (bool_decide (data = [])); [cbn [foldl]|rewrite Hds; cbn [c_data app]];
    (destruct (bool_decide (id = [])); cbn [foldl];
      [|rewrite (proj1 (proj2 (proj2 (client_field_lines _ _))))]);
    (destruct (bool_decide (retry = [])); cbn [foldl];
      [done|by rewrite (proj2 (proj2 (proj2 (client_field_lines _ _))))]).
Qed.

(** ** Properties *)

Definition message_args : Type := gostring * gostring * gostring * gostring.

Definition no_cr (m : message_args) : Prop :=
  let '(event, data, id, retry) := m in
  (CR ∉ event) /\ (CR ∉ data) /\ (CR ∉ id) /\ (CR ∉ retry).

(** A template that sends several events. *)
Definition send_all (w : writer) (argss : list (list gostring)) : writer :=
  foldl (fun w args => (SendSSE w args).1) w argss.

(** The specification: what the client makes of each event.  Only those with data are
    dispatched. *)
Definition deliver (c : client) (m : message_args) : client :=
  let '(event, data, id, retry) := m in
  let lastid := if bool_decide (id = []) then c_lastid c else new_lastid (c_lastid c) (first_line_of id) in
  {| c_type := []; c_data := []; c_lastid := lastid;
     c_out := c_out c ++
       if bool_decide (data = []) then []
       else [{| m_type := if bool_decide (first_line_of event = []) then gs "message"
                          else first_line_of event;
                m_data := data; m_lastid := lastid |}] |}.

Definition idle (c : client) : Prop := c_type c = [] /\ c_data c = [].

Lemma no_break_line (p l : gostring) :
  (NL ∉ p) -> (CR ∉ p) -> (NL ∉ l) -> (CR ∉ l) -> (NL ∉ p ++ l) /\ (CR ∉ p ++ l).
Proof. intros. rewrite !not_elem_of_app. tauto. Qed.

Lemma sse_field_lines_ok event data id retry l :
  no_cr (event, data, id, retry) -> l ∈ sse_field_lines event data id retry ++ [[]; []] ->
  (NL ∉ l) /\ (CR ∉ l).
Proof.
  intros (H1 & H2 & H3 & H4).
  assert (forall s, (CR ∉ s) -> CR ∉ first_line_of s) as Hf
    by (intros s Hs Hc%first_line_of_incl; done).
  unfold sse_field_lines. rewrite !elem_of_app.
  assert (forall p : gostring, bool_decide ((NL ∉ p) /\ (CR ∉ p)) = true -> forall x,
    (NL ∉ x) -> (CR ∉ x) -> (NL ∉ p ++ x) /\ (CR ∉ p ++ x)) as Hp.
  { intros p [? ?]%bool_decide_eq_true_1 x ? ?. by apply no_break_line. }
  intros [[H|[H|[H|H]]]|H].
  - case_bool_decide; [by apply not_elem_of_nil in H|]. apply list_elem_of_singleton in H as ->.
    apply (Hp (gs "event: ") eq_refl); [apply first_line_of_no_nl|by apply Hf].
  - case_bool_decide; [by apply not_elem_of_nil in H|].
    apply list_elem_of_fmap in H as (d & -> & Hd).
    apply (Hp (gs "data: ") eq_refl); [by eapply Split_no_sep|]. intros Hc. apply H2.
    rewrite <- (Join_Split data NL). clear -Hd Hc.
    induction (Split data NL) as [|x xs IH]; [by apply not_elem_of_nil in Hd|].
    apply elem_of_cons in Hd as [->|Hd].
    + destruct xs; simpl; [done|]. apply elem_of_app. by left.
    + destruct xs as [|y ys]; [by apply not_elem_of_nil in Hd|]. cbn [Join].
      apply elem_of_app. right. apply list_elem_of_further. by apply IH.
  - case_bool_decide; [by apply not_elem_of_nil in H|]. apply list_elem_of_singleton in H as ->.
    apply (Hp (gs "id: ") eq_refl); [apply first_line_of_no_nl|by apply Hf].
  - case_bool_decide; [by apply not_elem_of_nil in H|]. apply list_elem_of_singleton in H as ->.
    apply (Hp (gs "retry: ") eq_refl); [apply first_line_of_no_nl|by apply Hf].
  - assert (l = []) as ->
      by (apply elem_of_cons in H as [->|H]; [done|by apply list_elem_of_singleton in H]).
    split; apply not_elem_of_nil.
Qed.

Lemma client_event c event data id retry :
  idle c ->
  foldl client_line c (sse_field_lines event data id retry ++ [[]; []]) =
  deliver c (event, data, id, retry).
Proof.
  intros [Ht Hd]. rewrite foldl_app, client_fields by done. unfold deliver.
  cbn [foldl client_line c_data c_type c_lastid c_out].
  case_bool_decide as E; [by rewrite app_nil_r|].
  pose proof (Split_not_nil data NL) as Hs. pose proof (Join_Split data NL) as Hj.
  destruct (Split data NL) as [|x xs]; [done|]. cbn [c_data c_type c_lastid c_out].
  by rewrite Hj.
Qed.

(** C28: a client that reads the stream [SendSSE] writes dispatches, in order, exactly
    one event for each call with data, with that data intact line for line, and nothing
    for a call without data; the last event id is the one sent last, one that holds a
    NUL apart; and nothing can be smuggled in through the event, id or retry arguments,
    of which only the first line is sent.  The arguments, of which there are one to
    four, hold no carriage returns. *)
Theorem SendSSE_delivers w argss ms :
  open_writer w -> Forall2 (fun args m => sse_args args = Some m) argss ms -> Forall no_cr ms ->
  exists bytes, w_body (send_all w argss) = w_body w ++ bytes /\
    forall c, idle c -> client_read c bytes = foldl deliver c ms.
Proof.
  intros Hw Ha. revert w Hw. induction Ha as [|args [[[event data] id] retry] argss ms Hargs _ IH]; intros w Hw Hms.
  { exists []. split; [by rewrite app_nil_r|done]. }
  apply Forall_cons in Hms as [Hm Hms]. cbn [send_all foldl].
  assert (SendSSE w args = SendSSE w [event; data; id; retry]) as -> by (unfold SendSSE; by rewrite Hargs).
  destruct (decide ((event, data, id, retry) = ([], [], [], []))) as [E|E].
  - injection E as -> -> -> ->. destruct (IH w Hw Hms) as (bytes & Hb & Hc).
    exists bytes. split; [done|]. intros c [Ht Hd]. rewrite Hc by done. f_equal.
    destruct c. simpl in *. subst. by rewrite app_nil_r.
  - destruct (SendSSE_body w event data id retry Hw E) as [Hw' Hb'].
    destruct (IH _ Hw' Hms) as (bytes & Hb & Hc).
    exists (text_of (sse_field_lines event data id retry ++ [[]; []]) ++ bytes). split.
    + unfold send_all in Hb. rewrite Hb, Hb'. by rewrite <- app_assoc.
    + intros c Hi. rewrite client_read_text by (intros l; by apply sse_field_lines_ok).
      rewrite client_event by done. by apply Hc.
Qed.

(** C39: a carriage return is not removed, and clients end lines at it: an event
    name that contains one makes the client dispatch a message of its own. *)
Theorem SendSSE_carriage_return p :
  (NL ∉ p) -> (CR ∉ p) ->
  let event := gs "x" ++ CR :: gs "data: " ++ p ++ [CR; CR] in
  let w := (SendSSE (new_writer false) [event]).1 in
  c_out (client_read new_client (w_body w)) =
  [{| m_type := gs "x"; m_data := p; m_lastid := [] |}].
Proof.
  intros Hn Hc event w.
  assert (first_line_of event = event) as Hfl.
  { unfold first_line_of, event. rewrite SplitN2_id; [done|].
    rewrite !not_elem_of_app, !not_elem_of_cons, !not_elem_of_app.
    split_and!; try done; by apply (bool_decide_unpack _). }
  assert (w_body w = gs "event: x" ++ CR :: gs "data: " ++ p ++ CR :: CR :: NL :: NL :: NL :: []) as ->.
  { unfold w, SendSSE. cbn [sse_args]. unfold sse_writes, sse_event, sse_data, sse_id, sse_retry.
    rewrite bool_decide_false by done. rewrite !bool_decide_true by done. rewrite Hfl.
    cbn [app foldl]. unfold event.
    destruct (Write_open (new_writer false) (gs "event: " ++ (gs "x" ++ CR :: gs "data: " ++ p ++ [CR; CR]) ++ [NL]))
      as (H1 & H2 & _); [done|].
    destruct (Write_open _ [NL; NL] H1) as (H3 & H4 & _). destruct (Flush_open _ H3) as [_ H6].
    cbn [fst]. rewrite H6, H4, H2. cbn [w_body new_writer app gs String.list_ascii_of_string].
    by rewrite <- !app_assoc. }
  unfold client_read.
  assert (forall l s cur, (NL ∉ l) -> (CR ∉ l) ->
    sse_lines_go (l ++ CR :: s) cur false = (cur ++ l) :: sse_lines_go s [] true) as Hcr.
  { induction l as [|x l IH]; intros s cur H1 H2; cbn [app sse_lines_go].
    - by rewrite app_nil_r.
    - apply not_elem_of_cons in H1 as [? ?]. apply not_elem_of_cons in H2 as [? ?].
      rewrite !bool_decide_false by done. rewrite IH by done. by rewrite <- app_assoc. }
  unfold sse_lines.
  rewrite (Hcr (gs "event: x")) by (by apply (bool_decide_unpack _)).
  assert (forall s, sse_lines_go (gs "data: " ++ s) [] true = sse_lines_go (gs "data: " ++ s) [] false) as ->
    by done.
  rewrite app_assoc, (Hcr (gs "data: " ++ p)) by
    (rewrite not_elem_of_app; split; [by apply (bool_decide_unpack _)|done]).
  cbn [sse_lines_go]. rewrite bool_decide_false, bool_decide_true by done.
  cbn [foldl].
  change ([] ++ gs "event: x") with (gs "event: " ++ gs "x").
  rewrite (proj1 (client_field_lines new_client (gs "x"))).
  change ([] ++ gs "data: " ++ p) with (gs "data: " ++ p).
  rewrite (proj1 (proj2 (client_field_lines _ p))). reflexivity.
Qed.

Lemma wrap64_id z : (- 2 ^ 63 <= z < 2 ^ 63)%Z -> wrap64 z = z.
Proof. intros H. unfold wrap64. rewrite Z.mod_small by lia. lia. Qed.

Lemma repeat_run_values max i vs s :
  (0 <= i <= Z.max 0 max)%Z -> (max <= MaxInt64)%Z -> repeat_run max (Running i) vs s ->
  vs = seqZ i (Z.of_nat (length vs)) /\ (i + Z.of_nat (length vs) <= Z.max 0 max + 1)%Z.
Proof.
  intros Hi Hm Hr. remember (Running i) as st eqn:E. revert i Hi E.
  induction Hr as [st|st st' vs st'' Hs Hr IH|st v st' vs st'' Hs Hr IH]; intros i Hi ->.
  - simpl. split; [done|lia].
  - inversion Hs; subst. inversion Hr as [| ? ? ? ? Hs'|? ? ? ? ? Hs']; subst; try by inversion Hs'.
    simpl. split; [done|lia].
  - inversion Hs as [|? Hge|? Hlt]; subst.
    + inversion Hr as [| ? ? ? ? Hs'|? ? ? ? ? Hs']; subst; try by inversion Hs'.
      simpl. split; [done|lia].
    + unfold MaxInt64 in Hm. rewrite wrap64_id in * by lia.
      destruct (IH (v + 1)%Z) as [H1 H2]; [lia|done|].
      cbn [length]. rewrite Nat2Z.inj_succ. split; [|lia].
      rewrite seqZ_cons by lia. f_equal. rewrite H1 at 1. f_equal; lia.
Qed.

Lemma repeat_run_complete max i (n : nat) :
  (0 <= i)%Z -> (max <= MaxInt64)%Z -> (i + Z.of_nat n = Z.max 0 max)%Z ->
  repeat_run max (Running i) (seqZ i (Z.of_nat n + 1)) Closed.
Proof.
  intros Hi Hm. revert i Hi. induction n as [|n IH]; intros i Hi Hn.
  - simpl. eapply run_send; [|constructor]. apply repeat_last. lia.
  - rewrite seqZ_cons by lia. replace (Z.pred (Z.of_nat (S n) + 1)) with (Z.of_nat n + 1)%Z by lia.
    eapply run_send; [apply repeat_next; lia|].
    unfold MaxInt64 in Hm. rewrite wrap64_id by lia. apply IH; lia.
Qed.

(** C33: the channel [Repeat] returns yields 0, 1, 2, ... in order and without
    gaps, at most [max] included (only 0 when [max] is negative), the counter
    never overflows, and when nothing is cancelled all of them arrive and the
    channel is closed. *)
Theorem Repeat_values max_ :
  let max := repeat_max max_ in
  (max <= MaxInt64)%Z ->
  (forall vs s, repeat_run max (Running 0) vs s ->
     vs = seqZ 0 (Z.of_nat (length vs)) /\ (Z.of_nat (length vs) <= Z.max 0 max + 1)%Z) /\
  repeat_run max (Running 0) (seqZ 0 (Z.max 0 max + 1)) Closed.
Proof.
  intros max Hm. split.
  - intros vs s Hr. apply repeat_run_values in Hr; [|lia|done]. rewrite Z.add_0_l in Hr. done.
  - pose proof (repeat_run_complete max 0 (Z.to_nat (Z.max 0 max))) as H.
    rewrite Z2Nat.id in H by lia. apply H; lia.
Qed.

(** ** Witnesses *)

Lemma SendSSE_delivers_witness :
  exists bytes,
    w_body (send_all (new_writer false) [[gs "tick"; gs "a" ++ NL :: gs "b"; gs "7"]; [gs "tock"]])
      = [] ++ bytes /\
    forall c, idle c -> client_read c bytes =
      foldl deliver c [(gs "tick", gs "a" ++ NL :: gs "b", gs "7", []); (gs "tock", [], [], [])].
Proof.
  apply (SendSSE_delivers (new_writer false) [[gs "tick"; gs "a" ++ NL :: gs "b"; gs "7"]; [gs "tock"]]
           [(gs "tick", gs "a" ++ NL :: gs "b", gs "7", []); (gs "tock", [], [], [])]).
  - repeat split.
  - constructor; [reflexivity|]. constructor; [reflexivity|constructor].
  - constructor; [by apply (bool_decide_unpack _)|]. constructor; [by apply (bool_decide_unpack _)|constructor].
Defined.

Lemma SendSSE_carriage_return_witness :
  let event := gs "x" ++ CR :: gs "data: " ++ gs "forged" ++ [CR; CR] in
  let w := (SendSSE (new_writer false) [event]).1 in
  c_out (client_read new_client (w_body w)) =
  [{| m_type := gs "x"; m_data := gs "forged"; m_lastid := [] |}].
Proof. apply (SendSSE_carriage_return (gs "forged")); by apply (bool_decide_unpack _). Defined.

Lemma Repeat_values_witness :
  (forall vs s, repeat_run 2 (Running 0) vs s ->
     vs = seqZ 0 (Z.of_nat (length vs)) /\ (Z.of_nat (length vs) <= Z.max 0 2 + 1)%Z) /\
  repeat_run 2 (Running 0) (seqZ 0 (Z.max 0 2 + 1)) Closed.
Proof. apply (Repeat_values [2%Z]). unfold MaxInt64. simpl. lia. Defined.
