(* ===== verification/ServeContent.v ===== *)
(** * http.ServeContent

    What [http.ServeContent] does to the response writer, for the static file
    handler and [DotResp.ServeContent]: conditional requests by entity tag and by
    date, byte ranges, and the full content.  Times are nanoseconds since the Unix
    epoch.  The date format of HTTP, the table of MIME types, content sniffing and
    the multipart rendering of several ranges are arguments. *)

From S2P Require Import Prelude GoStrings GoErrors GoPath Http.

(** [textproto.TrimString] *)
Definition is_ascii_space (c : ascii) : bool :=
  bool_decide (c ∈ [" "%char; "009"%char; NL; CR]).

Fixpoint drop_space (s : gostring) : gostring :=
  match s with
  | c :: s' => if is_ascii_space c then drop_space s' else s
  | [] => []
  end.

Definition TrimString (s : gostring) : gostring := rev (drop_space (rev (drop_space s))).

Definition QUOTE : ascii := "034"%char.

(** ** Entity tags *)

(** A byte that may stand between the quotes of an entity tag. *)
Definition etag_byte (c : ascii) : bool :=
  (byte_N c =? 0x21)%N || ((0x23 <=? byte_N c) && (byte_N c <=? 0x7E))%N || (0x80 <=? byte_N c)%N.

(** The text up to and including the closing quote, and the rest. *)
Fixpoint scan_quoted (s : gostring) : option (gostring * gostring) :=
  match s with
  | [] => None
  | c :: s' =>
      if etag_byte c then
        match scan_quoted s' with
        | Some (a, b) => Some (c :: a, b)
        | None => None
        end
      else if bool_decide (c = QUOTE) then Some ([c], s')
      else None
  end.

Definition scanETag (s : gostring) : gostring * gostring :=
  let s := TrimString s in
  let weak := HasPrefix s (gs "W/") in
  let '(p, t) := if weak then (gs "W/", drop 2 s) else ([], s) in
  match t with
  | q :: t' =>
      if bool_decide (q = QUOTE) then
        match scan_quoted t' with
        | Some (a, b) => (p ++ q :: a, b)
        | None => ([], [])
        end
      else ([], [])
  | [] => ([], [])
  end.

Definition etagStrongMatch (a b : gostring) : bool :=
  bool_decide (a = b) && match a with c :: _ => bool_decide (c = QUOTE) | [] => false end.

Definition etagWeakMatch (a b : gostring) : bool :=
  bool_decide (TrimPrefix a (gs "W/") = TrimPrefix b (gs "W/")).

(** The loop over a list of entity tags; [true] when a [*] or a matching tag is
    met.  Every round consumes a byte, so the length of the list is enough fuel. *)
Fixpoint etag_list (fuel : nat) (matches : gostring -> bool) (s : gostring) : bool :=
  match fuel with
  | 0 => false
  | S fuel =>
      match TrimString s with
      | [] => false
      | c :: s' =>
          if bool_decide (c = ","%char) then etag_list fuel matches s'
          else if bool_decide (c = "*"%char) then true
          else
            let '(etag, remain) := scanETag (c :: s') in
            if bool_decide (etag = []) then false
            else if matches etag then true
            else etag_list fuel matches remain
      end
  end.

(** ** Ranges *)

Record httpRange := { ra_start : Z; ra_length : Z }.

(** [strconv.ParseInt(s, 10, 64)]; underscores are only accepted for base 0. *)
Definition parse_digits (s : gostring) : option Z :=
  match s with
  | [] => None
  | _ => foldl (fun acc c =>
           match acc with
           | Some n => if in_range 48 57 c then Some (n * 10 + Z.of_N (byte_N c - 48))%Z else None
           | None => None
           end) (Some 0%Z) s
  end.

Definition ParseInt64 (s : gostring) : option Z :=
  let check (z : Z) := if ((- 2 ^ 63 <=? z) && (z <? 2 ^ 63))%Z then Some z else None in
  match s with
  | c :: s' =>
      if bool_decide (c = "-"%char) then n ← parse_digits s'; check (- n)%Z
      else if bool_decide (c = "+"%char) then n ← parse_digits s'; check n
      else n ← parse_digits s; check n
  | [] => None
  end.

(** One range: [None] is invalid, [Some None] lies behind the end. *)
Definition parse_one_range (ra : gostring) (size : Z) : option (option httpRange) :=
  match SplitN2 ra "-" with
  | [start; end_] =>
      let start := TrimString start in
      let end_ := TrimString end_ in
      match start with
      | [] =>
          match end_ with
          | [] => None
          | c :: _ =>
              if bool_decide (c = "-"%char) then None
              else
                i ← ParseInt64 end_;
                if (i <? 0)%Z then None
                else
                  let i := Z.min i size in
                  Some (Some {| ra_start := size - i; ra_length := size - (size - i) |})%Z
          end
      | _ =>
          i ← ParseInt64 start;
          if (i <? 0)%Z then None
          else if (size <=? i)%Z then Some None
          else
            match end_ with
            | [] => Some (Some {| ra_start := i; ra_length := size - i |})%Z
            | _ =>
                j ← ParseInt64 end_;
                if (j <? i)%Z then None
                else
                  let j := if (size <=? j)%Z then (size - 1)%Z else j in
                  Some (Some {| ra_start := i; ra_length := j - i + 1 |})%Z
            end
      end
  | _ => None
  end.

Fixpoint parse_ranges (ras : list gostring) (size : Z) (acc : list httpRange) (noOverlap : bool) :
    option (list httpRange * bool) :=
  match ras with
  | [] => Some (acc, noOverlap)
  | ra :: ras' =>
      match TrimString ra with
      | [] => parse_ranges ras' size acc noOverlap
      | ra =>
          match parse_one_range ra size with
          | None => None
          | Some None => parse_ranges ras' size acc true
          | Some (Some r) => parse_ranges ras' size (acc ++ [r]) noOverlap
          end
      end
  end.

Inductive range_result :=
| RangeOk (ranges : list httpRange)
| RangeNoOverlap
| RangeInvalid.

Definition parseRange (s : gostring) (size : Z) : range_result :=
  match s with
  | [] => RangeOk []
  | _ =>
      if HasPrefix s (gs "bytes=") then
        match parse_ranges (Split (drop 6 s) ",") size [] false with
        | None => RangeInvalid
        | Some ([], true) => RangeNoOverlap
        | Some (ranges, _) => RangeOk ranges
        end
      else RangeInvalid
  end.

Definition sumRangesSize (ranges : list httpRange) : Z :=
  foldl (fun n r => n + ra_length r)%Z 0%Z ranges.

(** [%d] of a 64-bit integer. *)
Definition itoaZ (z : Z) : gostring := gs (pretty z).

Definition contentRange (r : httpRange) (size : Z) : gostring :=
  gs "bytes " ++ itoaZ (ra_start r) ++ gs "-" ++ itoaZ (ra_start r + ra_length r - 1)
    ++ gs "/" ++ itoaZ size.

(** ** The procedure *)

Record mime_env := {
  ParseTime : gostring -> option Z;                   (* http.ParseTime *)
  FormatTime : Z -> gostring;                         (* t.UTC().Format(http.TimeFormat) *)
  TypeByExtension : gostring -> gostring;             (* mime.TypeByExtension *)
  DetectContentType : gostring -> gostring;           (* http.DetectContentType *)
  MultipartRanges : list httpRange -> gostring -> gostring * gostring
    (* the body and the content type of a multipart/byteranges response *)
}.

(** The zero [time.Time], year 1. *)
Definition zero_time : Z := (-62135596800 * 1000000000)%Z.

Section serve_content.
Context (env : mime_env).

Definition isZeroModTime (t : Z) : bool := bool_decide (t = zero_time) || bool_decide (t = 0%Z).

Definition truncate_second (t : Z) : Z := (t / 1000000000 * 1000000000)%Z.

Inductive condResult := condNone | condTrue | condFalse.

Definition checkIfMatch (w : writer) (r : request) : condResult :=
  match Header_Get (r_header r) (gs "If-Match") with
  | [] => condNone
  | im =>
      if etag_list (S (length im))
           (fun etag => etagStrongMatch etag (Header_Get (w_header w) (gs "Etag"))) im
      then condTrue else condFalse
  end.

Definition checkIfUnmodifiedSince (r : request) (modtime : Z) : condResult :=
  match Header_Get (r_header r) (gs "If-Unmodified-Since") with
  | [] => condNone
  | ius =>
      if isZeroModTime modtime then condNone
      else
        match ParseTime env ius with
        | None => condNone
        | Some t => if (truncate_second modtime <=? t)%Z then condTrue else condFalse
        end
  end.

Definition checkIfNoneMatch (w : writer) (r : request) : condResult :=
  match Header_Get (r_header r) (gs "If-None-Match") with
  | [] => condNone
  | inm =>
      if etag_list (S (length inm))
           (fun etag => etagWeakMatch etag (Header_Get (w_header w) (gs "Etag"))) inm
      then condFalse else condTrue
  end.

Definition get_or_head (r : request) : bool :=
  bool_decide (r_method r = gs "GET") || bool_decide (r_method r = gs "HEAD").

Definition checkIfModifiedSince (r : request) (modtime : Z) : condResult :=
  if negb (get_or_head r) then condNone
  else
    match Header_Get (r_header r) (gs "If-Modified-Since") with
    | [] => condNone
    | ims =>
        if isZeroModTime modtime then condNone
        else
          match ParseTime env ims with
          | None => condNone
          | Some t => if (truncate_second modtime <=? t)%Z then condFalse else condTrue
          end
    end.

Definition checkIfRange (w : writer) (r : request) (modtime : Z) : condResult :=
  if negb (get_or_head r) then condNone
  else
    match Header_Get (r_header r) (gs "If-Range") with
    | [] => condNone
    | ir =>
        match scanETag ir with
        | ([], _) =>
            if bool_decide (modtime = zero_time) then condFalse
            else
              match ParseTime env ir with
              | None => condFalse
              | Some t =>
                  if bool_decide (truncate_second t = truncate_second modtime)
                  then condTrue else condFalse
              end
        | (etag, _) =>
            if etagStrongMatch etag (Header_Get (w_header w) (gs "Etag"))
            then condTrue else condFalse
        end
    end.

Definition writeNotModified (w : writer) : outcome writer :=
  let h := delete (gs "Content-Encoding")
             (delete (gs "Content-Length") (delete (gs "Content-Type") (w_header w))) in
  let h := if bool_decide (Header_Get h (gs "Etag") = []) then h else delete (gs "Last-Modified") h in
  WriteHeader (set_header w h) 304.

(** [inl w] when the request is answered, otherwise the range header to honour. *)
Definition checkPreconditions (w : writer) (r : request) (modtime : Z) :
    outcome (writer + gostring) :=
  let ch := match checkIfMatch w r with
            | condNone => checkIfUnmodifiedSince r modtime
            | ch => ch
            end in
  match ch with
  | condFalse => w ← WriteHeader w 412; Ret (inl w)
  | _ =>
      let continue :=
        let rangeHeader := Header_Get (r_header r) (gs "Range") in
        match rangeHeader, checkIfRange w r modtime with
        | [], _ => Ret (inr [])
        | _, condFalse => Ret (inr [])
        | _, _ => Ret (inr rangeHeader)
        end in
      match checkIfNoneMatch w r with
      | condFalse =>
          if get_or_head r then w ← writeNotModified w; Ret (inl w)
          else w ← WriteHeader w 412; Ret (inl w)
      | condNone =>
          match checkIfModifiedSince r modtime with
          | condFalse => w ← writeNotModified w; Ret (inl w)
          | _ => continue
          end
      | condTrue => continue
      end
  end.

Definition setLastModified (w : writer) (modtime : Z) : writer :=
  if isZeroModTime modtime then w
  else set_header w (Header_Set (w_header w) (gs "Last-Modified") (FormatTime env modtime)).

(** [serveError]: the headers that describe the content go. *)
Definition serveError (w : writer) (msg : gostring) (code : Z) : outcome writer :=
  let h := foldl Header_Del (w_header w)
             [gs "Cache-Control"; gs "Content-Encoding"; gs "Etag"; gs "Last-Modified"] in
  http_Error (set_header w h) msg code.

Definition send_content (w : writer) (r : request) (code : Z) (ranged : bool) (body : gostring) :
    outcome writer :=
  let h := Header_Set (w_header w) (gs "Accept-Ranges") (gs "bytes") in
  let h := if ranged || bool_decide (Header_Get h (gs "Content-Encoding") = [])
           then Header_Set h (gs "Content-Length") (itoa (length body)) else h in
  w ← WriteHeader (set_header w h) code;
  if bool_decide (r_method r = gs "HEAD") then Ret w else Ret (Write w body).

Definition sniff_type (w : writer) (name content : gostring) : writer :=
  match w_header w !! gs "Content-Type" with
  | Some _ => w
  | None =>
      let ctype := TypeByExtension env (Ext name) in
      let ctype := if bool_decide (ctype = []) then DetectContentType env (take 512 content)
                   else ctype in
      set_header w (Header_Set (w_header w) (gs "Content-Type") ctype)
  end.

Definition serveContent (w : writer) (r : request) (name : gostring) (modtime : Z)
    (content : gostring) : outcome writer :=
  let w := setLastModified w modtime in
  pre ← checkPreconditions w r modtime;
  match pre with
  | inl w => Ret w
  | inr rangeReq =>
      let w := sniff_type w name content in
      let size := Z.of_nat (length content) in
      let serve (ranges : list httpRange) :=
        match (if (size <? sumRangesSize ranges)%Z then [] else ranges) with
        | [] => send_content w r 200 false content
        | [ra] =>
            let h := Header_Set (w_header w) (gs "Content-Range") (contentRange ra size) in
            send_content (set_header w h) r 206 true
              (take (Z.to_nat (ra_length ra)) (drop (Z.to_nat (ra_start ra)) content))
        | ranges =>
            let '(body, ctype) := MultipartRanges env ranges content in
            let h := Header_Set (w_header w) (gs "Content-Type") ctype in
            send_content (set_header w h) r 206 true body
        end in
      match parseRange rangeReq size with
      | RangeOk ranges => serve ranges
      | RangeNoOverlap =>
          if (size =? 0)%Z then serve []
          else
            let h := Header_Set (w_header w) (gs "Content-Range") (gs "bytes */" ++ itoaZ size) in
            serveError (set_header w h) (gs "invalid range: failed to overlap") 416
      | RangeInvalid => serveError w (gs "invalid range") 416
      end
  end.
End serve_content.

(** ** The header is always written *)

Definition commits (m : outcome writer) : Prop := exists w, m = Ret w /\ is_Some (w_sent w).

Lemma WriteHeader_commits w code : final_code code -> commits (WriteHeader w code).
Proof.
  intros Hc. destruct (w_sent w) as [s|] eqn:Hs.
  - exists w. rewrite (WriteHeader_sent w code s Hs), Hs. eauto.
  - rewrite WriteHeader_fresh by done. eexists. split; [done|]. by eexists.
Qed.

Lemma Write_is_sent w b : is_Some (w_sent w) -> is_Some (w_sent (Write w b)).
Proof. intros [s Hs]. rewrite (Write_sent w b s Hs). by eexists. Qed.

Lemma http_Error_commits w msg code : final_code code -> commits (http_Error w msg code).
Proof.
  intros Hc. unfold http_Error.
  match goal with |- context [WriteHeader ?w' code] =>
    destruct (WriteHeader_commits w' code Hc) as (w1 & -> & Hs) end.
  exists (Write w1 (msg ++ [NL])). split; [done|]. by apply Write_is_sent.
Qed.

Lemma send_content_commits w r code ranged body :
  final_code code -> commits (send_content w r code ranged body).
Proof.
  intros Hc. unfold send_content.
  match goal with |- context [WriteHeader ?w' code] =>
    destruct (WriteHeader_commits w' code Hc) as (w1 & -> & Hs) end.
  cbn [mbind outcome_bind]. case_bool_decide; eexists; (split; [done|]); [done|].
  by apply Write_is_sent.
Qed.

Lemma checkPreconditions_commits env w r modtime :
  (exists w', checkPreconditions env w r modtime = Ret (inl w') /\ is_Some (w_sent w')) \/
  (exists s, checkPreconditions env w r modtime = Ret (inr s)).
Proof.
  unfold checkPreconditions, writeNotModified.
  destruct (WriteHeader_commits w 412) as (w1 & -> & Hs); [split; lia|].
  match goal with |- context [WriteHeader ?w' 304] =>
    destruct (WriteHeader_commits w' 304) as (w2 & -> & Hs2); [split; lia|] end.
  cbn [mbind outcome_bind].
  repeat case_match; simplify_eq; first [left; by eauto | right; by eauto].
Qed.

Lemma serveContent_commits env w r name modtime content :
  commits (serveContent env w r name modtime content).
Proof.
  unfold serveContent.
  destruct (checkPreconditions_commits env (setLastModified env w modtime) r modtime)
    as [(w' & -> & Hs)|(s & ->)]; cbn [mbind outcome_bind]; [by exists w'|].
  assert (final_code 200 /\ final_code 206 /\ final_code 416) as (H1 & H2 & H3)
    by (unfold final_code; lia).
  repeat case_match; simplify_eq;
    first [by apply send_content_commits | by apply http_Error_commits].
Qed.

(** ** Ranges lie within the content *)

Definition range_in (size : Z) (r : httpRange) : Prop :=
  (0 <= ra_start r /\ 0 <= ra_length r /\ ra_start r + ra_length r <= size)%Z.

Lemma parse_one_range_in ra size r :
  (0 <= size)%Z -> parse_one_range ra size = Some (Some r) -> range_in size r.
Proof.
  intros Hs. unfold parse_one_range, range_in.
  destruct (SplitN2 ra "-") as [|st [|en [|]]]; try done.
  destruct (TrimString st) as [|c st']; destruct (TrimString en) as [|d en']; try done.
  - destruct (bool_decide _); [done|]. destruct (ParseInt64 _) as [i|]; [|done].
    cbn [mbind option_bind]. destruct (Z.ltb_spec i 0); intros; simplify_eq/=. lia.
  - destruct (ParseInt64 _) as [i|]; [|done]. cbn [mbind option_bind].
    destruct (Z.ltb_spec i 0); [done|]. destruct (Z.leb_spec size i); intros; simplify_eq/=. lia.
  - destruct (ParseInt64 (c :: st')) as [i|]; [|done]. cbn [mbind option_bind].
    destruct (Z.ltb_spec i 0); [done|]. destruct (Z.leb_spec size i); [done|].
    destruct (ParseInt64 (d :: en')) as [j|]; [|done]. cbn [mbind option_bind].
    destruct (Z.ltb_spec j i); [done|].
    destruct (Z.leb_spec size j); intros; simplify_eq/=; lia.
Qed.

Lemma parse_ranges_in ras size acc no res :
  (0 <= size)%Z -> Forall (range_in size) acc ->
  parse_ranges ras size acc no = Some res -> Forall (range_in size) res.1.
Proof.
  intros Hs. revert acc no. induction ras as [|ra ras IH]; intros acc no Hacc; cbn [parse_ranges].
  { intros; by simplify_eq. }
  destruct (TrimString ra) as [|c s]; [by apply IH|].
  destruct (parse_one_range (c :: s) size) as [[r|]|] eqn:E; [|by apply IH|done].
  apply IH. apply Forall_app. split; [done|]. constructor; [|constructor].
  by eapply parse_one_range_in.
Qed.

Lemma parseRange_in s size ranges :
  (0 <= size)%Z -> parseRange s size = RangeOk ranges -> Forall (range_in size) ranges.
Proof.
  intros Hs. unfold parseRange. destruct s as [|c s]; [intros; simplify_eq; constructor|].
  destruct (HasPrefix _ _); [|done].
  destruct (parse_ranges _ _ _ _) as [[rs no]|] eqn:E; [|done].
  apply parse_ranges_in in E; [|done|constructor].
  destruct rs as [|r rs]; [destruct no|]; intros; by simplify_eq.
Qed.

(** ** Entity tags *)

Lemma scan_quoted_spec t s :
  forallb etag_byte t = true -> scan_quoted (t ++ QUOTE :: s) = Some (t ++ [QUOTE], s).
Proof.
  induction t as [|c t IH]; intros H; [done|]. cbn [app scan_quoted forallb] in *.
  apply andb_true_iff in H as [-> H]. by rewrite IH.
Qed.

Lemma drop_space_id c s : is_ascii_space c = false -> drop_space (c :: s) = c :: s.
Proof. intros H. cbn [drop_space]. by rewrite H. Qed.

Lemma TrimString_quoted t : TrimString (QUOTE :: t ++ [QUOTE]) = QUOTE :: t ++ [QUOTE].
Proof.
  unfold TrimString. rewrite drop_space_id by done.
  change (QUOTE :: t ++ [QUOTE]) with ((QUOTE :: t) ++ [QUOTE]). rewrite rev_app_distr.
  cbn [rev app]. rewrite drop_space_id by done. cbn [rev]. rewrite rev_app_distr.
  cbn [rev app]. by rewrite rev_involutive.
Qed.

(** A quoted tag is recognised as itself. *)
Lemma scanETag_quoted t :
  forallb etag_byte t = true -> scanETag (QUOTE :: t ++ [QUOTE]) = (QUOTE :: t ++ [QUOTE], []).
Proof.
  intros H. unfold scanETag. rewrite TrimString_quoted.
  assert (HasPrefix (QUOTE :: t ++ [QUOTE]) (gs "W/") = false) as -> by done.
  rewrite bool_decide_true by done. by rewrite scan_quoted_spec.
Qed.

Lemma etag_list_quoted t matches :
  forallb etag_byte t = true -> matches (QUOTE :: t ++ [QUOTE]) = true ->
  etag_list (S (length (QUOTE :: t ++ [QUOTE]))) matches (QUOTE :: t ++ [QUOTE]) = true.
Proof.
  intros H Hm. cbn [etag_list]. rewrite TrimString_quoted.
  rewrite !bool_decide_false by done. rewrite scanETag_quoted by done.
  by rewrite bool_decide_false, Hm.
Qed.

(** ** The declared length *)

Definition digit_step (acc : option N) (c : ascii) : option N :=
  match acc with
  | Some n => if in_range 48 57 c then Some (n * 10 + (byte_N c - 48))%N else None
  | None => None
  end.

Lemma digit_step_char x d :
  (d < 10)%N -> digit_step (Some x) (pretty_N_char d) = Some (x * 10 + d)%N.
Proof.
  intros H. assert (d ∈ [0;1;2;3;4;5;6;7;8;9]%N) as Hd by (rewrite !elem_of_cons; lia).
  rewrite !elem_of_cons in Hd. destruct_or?; subst; try done. by apply not_elem_of_nil in Hd.
Qed.

Lemma digits_pretty x s :
  foldl digit_step (Some 0%N) (gs (pretty_N_go x s)) = foldl digit_step (Some x) (gs s).
Proof.
  revert s. induction (N.lt_wf_0 x) as [x _ IH]; intros s.
  destruct (decide (0 < x)%N) as [Hx|Hx].
  - rewrite pretty_N_go_step by done. rewrite IH by (apply N.div_lt; lia).
    change (gs (String ?c ?s)) with (c :: gs s).
    cbn [foldl]. rewrite digit_step_char by (apply N.mod_lt; lia).
    do 2 f_equal. rewrite (N.div_mod x 10) at 3 by lia. lia.
  - assert (x = 0)%N as -> by lia. by rewrite pretty_N_go_0.
Qed.

(** Printing a length and reading it back. *)
Lemma parse_length_itoa n : parse_length (itoa n) = Some (N.of_nat n).
Proof.
  unfold itoa, pretty, pretty_nat, pretty, pretty_N.
  destruct (decide _) as [E|E]; [by rewrite E|].
  pose proof (digits_pretty (N.of_nat n) "") as H. unfold parse_length.
  destruct (gs _); [|exact H]. exfalso. apply E. simpl in H. by simplify_eq.
Qed.

(** ** Header lookups *)

Lemma Header_Get_Set h k v : Header_Get (Header_Set h k v) k = v.
Proof. unfold Header_Get, Header_Set. by rewrite lookup_insert_eq. Qed.

Lemma Header_Get_Set_ne h k k' v :
  CanonicalKey k <> CanonicalKey k' -> Header_Get (Header_Set h k v) k' = Header_Get h k'.
Proof. intros H. unfold Header_Get, Header_Set. by rewrite lookup_insert_ne. Qed.

(** ** The three ways to answer *)

(** A request without conditions and without ranges. *)
Definition plain_request (r : request) : Prop :=
  Forall (fun k => Header_Get (r_header r) k = [])
    [gs "If-Match"; gs "If-Unmodified-Since"; gs "If-None-Match"; gs "If-Modified-Since";
     gs "Range"].

Lemma checkPreconditions_plain env w r modtime :
  plain_request r -> checkPreconditions env w r modtime = Ret (inr []).
Proof.
  unfold plain_request. rewrite !Forall_cons. intros (H1 & H2 & H3 & H4 & H5 & _).
  unfold checkPreconditions, checkIfMatch, checkIfUnmodifiedSince, checkIfNoneMatch,
    checkIfModifiedSince. rewrite H1, H2, H3, H4, H5. by destruct (negb (get_or_head r)).
Qed.

(** The header map when the full content is sent. *)
Definition full_header (env : mime_env) (w : writer) (name : gostring) (modtime : Z)
    (content : gostring) : header :=
  let w := sniff_type env (setLastModified env w modtime) name content in
  let h := Header_Set (w_header w) (gs "Accept-Ranges") (gs "bytes") in
  if bool_decide (Header_Get h (gs "Content-Encoding") = [])
  then Header_Set h (gs "Content-Length") (itoa (length content)) else h.

(** The response a client that is not HEAD gets. *)
Definition sent_full (w w' : writer) (h : header) (code : Z) (body : gostring) : Prop :=
  w_sent w' = Some (code, h) /\ w_body w' = w_body w ++ body /\ w_header w' = h.

Lemma sniff_type_frame env w name content :
  let w' := sniff_type env w name content in
  w_sent w' = w_sent w /\ w_body w' = w_body w /\ w_limit w' = w_limit w /\ w_head w' = w_head w.
Proof. unfold sniff_type. by case_match. Qed.

Lemma setLastModified_frame env w t :
  let w' := setLastModified env w t in
  w_sent w' = w_sent w /\ w_body w' = w_body w /\ w_limit w' = w_limit w /\ w_head w' = w_head w.
Proof. unfold setLastModified. by case_match. Qed.

Lemma send_content_fresh w r code ranged body :
  w_sent w = None -> w_body w = [] -> w_head w = false ->
  r_method r <> gs "HEAD" -> final_code code -> body_allowed code = true ->
  (ranged = false -> Header_Get (w_header w) (gs "Content-Encoding") <> [] ->
   parse_length (Header_Get (w_header w) (gs "Content-Length")) = None) ->
  let h := Header_Set (w_header w) (gs "Accept-Ranges") (gs "bytes") in
  let h := if ranged || bool_decide (Header_Get h (gs "Content-Encoding") = [])
           then Header_Set h (gs "Content-Length") (itoa (length body)) else h in
  exists w', send_content w r code ranged body = Ret w' /\ sent_full w w' h code body.
Proof.
  intros Hs Hb Hh Hm Hc Hba Hl h0 h. unfold send_content. fold h0. fold h.
  rewrite WriteHeader_fresh by done. cbn [mbind outcome_bind]. rewrite bool_decide_false by done.
  eexists. split; [reflexivity|].
  assert (match parse_length (Header_Get h (gs "Content-Length")) with
          | Some n => (n <? N.of_nat (length (w_body w) + length body))%N
          | None => false
          end = false) as Hlim.
  { unfold h. destruct (ranged || _) eqn:E.
    - rewrite Header_Get_Set, parse_length_itoa, Hb. apply N.ltb_ge. simpl. lia.
    - apply orb_false_iff in E as [-> E]. apply bool_decide_eq_false_1 in E. unfold h0 in *.
      rewrite Header_Get_Set_ne in E |- * by (by intros ?%(f_equal (take 1))).
      by rewrite Hl. }
  unfold Write. cbn [w_sent w_limit w_body w_head set_header w_header]. rewrite Hba, Hlim, Hh.
  unfold sent_full. cbn. done.
Qed.

(** The full content goes out. *)
Lemma serveContent_full env w r name modtime content :
  plain_request r -> w_sent w = None -> w_body w = [] -> w_head w = false ->
  r_method r <> gs "HEAD" ->
  parse_length (Header_Get (w_header w) (gs "Content-Length")) = None ->
  exists w', serveContent env w r name modtime content = Ret w' /\
    sent_full w w' (full_header env w name modtime content) 200 content.
Proof.
  intros Hr Hs Hb Hh Hm Hl. unfold serveContent. rewrite checkPreconditions_plain by done.
  cbn [mbind outcome_bind parseRange]. change (sumRangesSize []) with 0%Z.
  destruct (Z.ltb_spec (Z.of_nat (length content)) 0); [lia|].
  set (w1 := setLastModified env w modtime).
  destruct (setLastModified_frame env w modtime) as (L1 & L2 & L3 & L4). fold w1 in L1, L2, L3, L4.
  destruct (sniff_type_frame env w1 name content) as (N1 & N2 & N3 & N4).
  assert (Header_Get (w_header (sniff_type env w1 name content)) (gs "Content-Length") =
          Header_Get (w_header w) (gs "Content-Length")) as Hcl.
  { assert (Header_Get (w_header w1) (gs "Content-Length") =
            Header_Get (w_header w) (gs "Content-Length")) as <-.
    { unfold w1, setLastModified. case_match; [done|]. cbn. by rewrite Header_Get_Set_ne. }
    unfold sniff_type. case_match; [done|]. cbn. by rewrite Header_Get_Set_ne. }
  destruct (send_content_fresh (sniff_type env w1 name content) r 200 false content)
    as (w' & -> & H1 & H2 & H3); try (congruence || done || (split; lia)).
  exists w'. split; [done|]. unfold sent_full. unfold full_header. fold w1.
  rewrite H1, H2, H3. rewrite N2, L2. done.
Qed.

Definition no_header (r : request) (ks : list gostring) : Prop :=
  Forall (fun k => Header_Get (r_header r) k = []) ks.

Lemma Header_Get_lastmod env w modtime k :
  CanonicalKey (gs "Last-Modified") <> CanonicalKey k ->
  Header_Get (w_header (setLastModified env w modtime)) k = Header_Get (w_header w) k.
Proof. intros H. unfold setLastModified. case_match; [done|]. cbn. by rewrite Header_Get_Set_ne. Qed.

(** A client that presents the current entity tag is told that nothing changed. *)
Lemma serveContent_not_modified env w r name modtime content t :
  forallb etag_byte t = true ->
  Header_Get (w_header w) (gs "Etag") = QUOTE :: t ++ [QUOTE] ->
  Header_Get (r_header r) (gs "If-None-Match") = QUOTE :: t ++ [QUOTE] ->
  no_header r [gs "If-Match"; gs "If-Unmodified-Since"] ->
  get_or_head r = true -> w_sent w = None ->
  exists w', serveContent env w r name modtime content = Ret w' /\
    status w' = Some 304%Z /\ w_body w' = w_body w.
Proof.
  intros Ht He Hi Hn Hg Hs. unfold no_header in Hn. rewrite !Forall_cons in Hn.
  destruct Hn as (H1 & H2 & _).
  unfold serveContent. destruct (setLastModified_frame env w modtime) as (L1 & L2 & _).
  assert (Header_Get (w_header (setLastModified env w modtime)) (gs "Etag") = QUOTE :: t ++ [QUOTE])
    as He' by (by rewrite Header_Get_lastmod).
  set (w1 := setLastModified env w modtime) in *.
  unfold checkPreconditions, checkIfMatch, checkIfUnmodifiedSince, checkIfNoneMatch.
  rewrite H1, H2, Hi, He'. rewrite etag_list_quoted; [|done|].
  2: { unfold etagWeakMatch. by rewrite bool_decide_true. }
  rewrite Hg. unfold writeNotModified. rewrite WriteHeader_fresh; [|cbn; congruence|split; lia].
  cbn. eexists. split; [done|]. by rewrite L2.
Qed.

(** A single range is answered with exactly those bytes. *)
Lemma serveContent_range env w r name modtime content ra :
  no_header r [gs "If-Match"; gs "If-Unmodified-Since"; gs "If-None-Match";
               gs "If-Modified-Since"; gs "If-Range"] ->
  parseRange (Header_Get (r_header r) (gs "Range")) (Z.of_nat (length content)) = RangeOk [ra] ->
  w_sent w = None -> w_body w = [] -> w_head w = false -> r_method r <> gs "HEAD" ->
  exists w', serveContent env w r name modtime content = Ret w' /\ status w' = Some 206%Z /\
    w_body w' = take (Z.to_nat (ra_length ra)) (drop (Z.to_nat (ra_start ra)) content) /\
    range_in (Z.of_nat (length content)) ra.
Proof.
  intros Hn Hp Hs Hb Hh Hm. unfold no_header in Hn. rewrite !Forall_cons in Hn.
  destruct Hn as (H1 & H2 & H3 & H4 & H5 & _).
  assert (range_in (Z.of_nat (length content)) ra) as Hin.
  { apply parseRange_in in Hp; [|lia]. by apply Forall_cons in Hp as [? _]. }
  unfold serveContent. destruct (setLastModified_frame env w modtime) as (L1 & L2 & L3 & L4).
  set (w1 := setLastModified env w modtime) in *.
  assert (checkPreconditions env w1 r modtime =
          Ret (inr (Header_Get (r_header r) (gs "Range")))) as ->.
  { unfold checkPreconditions, checkIfMatch, checkIfUnmodifiedSince, checkIfNoneMatch,
      checkIfModifiedSince, checkIfRange. rewrite H1, H2, H3, H4, H5.
    destruct (negb (get_or_head r)); destruct (Header_Get _ (gs "Range")); done. }
  cbn [mbind outcome_bind]. rewrite Hp. change (sumRangesSize [ra]) with (0 + ra_length ra)%Z.
  destruct Hin as (R1 & R2 & R3). destruct (Z.ltb_spec (Z.of_nat (length content)) (0 + ra_length ra)); [lia|].
  destruct (sniff_type_frame env w1 name content) as (N1 & N2 & N3 & N4).
  match goal with |- context [send_content ?w' r 206 true ?b] =>
    destruct (send_content_fresh w' r 206 true b) as (w2 & -> & E1 & E2 & E3);
      try (cbn; congruence || done || (split; lia)) end.
  exists w2. unfold status. rewrite E1, E2. cbn [w_body set_header]. rewrite N2, L2, Hb. done.
Qed.
