(* ===== verification/DotResp.v ===== *)
(** * The response field of buffered templates (dot_resp.go)

    A template collects headers and a status in its [DotResp]; they reach the
    response writer in [Cleanup], after the template has finished.  [ServeContent]
    answers the request itself. *)

From S2P Require Import Prelude GoStrings GoErrors GoPath Http ServeContent.

Record DotResp := { resp_Header : header; resp_status : Z }.

(** [dotRespProvider.Value] *)
Definition dotRespProvider_Value : DotResp := {| resp_Header := ∅; resp_status := 200 |}.

(** [dotRespProvider.Cleanup] *)
Definition dotRespProvider_Cleanup (d : DotResp) (w : writer) (err : option goerr) :
    outcome (writer * option goerr) :=
  match err ≫= As sel_status with
  | Some errSt => w ← WriteHeader w errSt; Ret (w, err)
  | None =>
      match err with
      | None =>
          let w := set_header w (maps_Copy (w_header w) (resp_Header d)) in
          w ← WriteHeader w (resp_status d); Ret (w, err)
      | Some _ => Ret (w, err)
      end
  end.

(** The dynamic type of [content]: a string, a reader, here with what it reads, or
    anything else, which leaves the reader nil. *)
Inductive content := ContentString (s : gostring) | ContentReader (s : gostring) | ContentOther.

(** [http.ServeContent] with a nil reader: the preconditions may answer the request,
    otherwise the first use of the reader panics. *)
Definition serve_nil (env : mime_env) (w : writer) (r : request) (name : gostring) (modtime : Z) :
    writer * outcome unit :=
  let w := setLastModified env w modtime in
  match checkPreconditions env w r modtime with
  | Ret (inl w) => (w, Ret tt)
  | _ =>
      let w := match w_header w !! gs "Content-Type", TypeByExtension env (Ext name) with
               | None, _ :: _ => sniff_type env w name []
               | _, _ => w
               end in
      (w, Panic (gs "invalid memory address or nil pointer dereference"))
  end.

(** The writer as it is when the method returns or panics. *)
Definition DotResp_ServeContent (env : mime_env) (d : DotResp) (w : writer) (r : request)
    (path_ : gostring) (modtime : Z) (c : content) : writer * outcome (result gostring) :=
  let path_ := Clean path_ in
  let w := set_header w (maps_Copy (w_header w) (resp_Header d)) in
  match c with
  | ContentString s | ContentReader s =>
      match serveContent env w r path_ modtime s with
      | Ret w => (w, Ret (Err ReturnError))
      | Panic msg => (w, Panic msg)
      end
  | ContentOther =>
      match serve_nil env w r path_ modtime with
      | (w, Ret _) => (w, Ret (Err ReturnError))
      | (w, Panic msg) => (w, Panic msg)
      end
  end.

Definition DotResp_AddHeader (d : DotResp) (field val : gostring) : DotResp * gostring :=
  ({| resp_Header := Header_Add (resp_Header d) field val; resp_status := resp_status d |}, []).

Definition DotResp_SetHeader (d : DotResp) (field val : gostring) : DotResp * gostring :=
  ({| resp_Header := Header_Set (resp_Header d) field val; resp_status := resp_status d |}, []).

Definition DotResp_DelHeader (d : DotResp) (field : gostring) : DotResp * gostring :=
  ({| resp_Header := Header_Del (resp_Header d) field; resp_status := resp_status d |}, []).

Definition DotResp_SetStatus (d : DotResp) (status : Z) : DotResp * gostring :=
  ({| resp_Header := resp_Header d; resp_status := status |}, []).

Definition DotResp_ReturnStatus (d : DotResp) (status : Z) : DotResp * result gostring :=
  ({| resp_Header := resp_Header d; resp_status := status |}, Err ReturnError).

(** The calls a template makes on the field that only change the object. *)
Inductive resp_call :=
| RAdd (field val : gostring)
| RSet (field val : gostring)
| RDel (field : gostring)
| RStatus (status : Z)
| RReturn (status : Z).

Definition resp_step (d : DotResp) (c : resp_call) : DotResp :=
  match c with
  | RAdd f v => (DotResp_AddHeader d f v).1
  | RSet f v => (DotResp_SetHeader d f v).1
  | RDel f => (DotResp_DelHeader d f).1
  | RStatus s => (DotResp_SetStatus d s).1
  | RReturn s => (DotResp_ReturnStatus d s).1
  end.

(** ** Properties *)

(** The specification of the status: the last one set. *)
Definition last_status (cs : list resp_call) : Z :=
  foldl (fun s c => match c with RStatus s' | RReturn s' => s' | _ => s end) 200%Z cs.

(** The specification of a header: the calls on its canonical name, in order. *)
Definition header_values (k : gostring) (cs : list resp_call) : option (list gostring) :=
  foldl (fun vs c =>
    match c with
    | RAdd f v => if bool_decide (CanonicalKey f = k) then Some (default [] vs ++ [v]) else vs
    | RSet f v => if bool_decide (CanonicalKey f = k) then Some [v] else vs
    | RDel f => if bool_decide (CanonicalKey f = k) then None else vs
    | _ => vs
    end) None cs.

Lemma resp_steps cs :
  let d := foldl resp_step dotRespProvider_Value cs in
  resp_status d = last_status cs /\ forall k, resp_Header d !! k = header_values k cs.
Proof.
  unfold last_status, header_values.
  induction cs as [|c cs [IH1 IH2]] using rev_ind; [by split|].
  rewrite !foldl_snoc.
  split.
  - rewrite <- IH1. by destruct c.
  - intros k. rewrite foldl_snoc, <- IH2.
    destruct c as [f v|f v|f|s|s];
      cbn [resp_step fst DotResp_AddHeader DotResp_SetHeader DotResp_DelHeader resp_Header];
      try done; unfold Header_Add, Header_Set, Header_Del; case_bool_decide as E; try subst k.
    + by rewrite lookup_insert_eq.
    + by rewrite lookup_insert_ne.
    + by rewrite lookup_insert_eq.
    + by rewrite lookup_insert_ne.
    + by rewrite lookup_delete_eq.
    + by rewrite lookup_delete_ne.
Qed.

(** C32: after a template that did not fail the response carries the last status
    the template set, the headers it built, call by call, and the headers the
    writer had under other names; the body is untouched. *)
Theorem Resp_cleanup_response cs w :
  w_sent w = None -> final_code (last_status cs) ->
  exists w' h, dotRespProvider_Cleanup (foldl resp_step dotRespProvider_Value cs) w None
      = Ret (w', None) /\
    w_sent w' = Some (last_status cs, h) /\ w_body w' = w_body w /\
    forall k, h !! k = match header_values k cs with Some vs => Some vs | None => w_header w !! k end.
Proof.
  intros Hs Hc. destruct (resp_steps cs) as [H1 H2].
  unfold dotRespProvider_Cleanup. cbn [mbind option_bind].
  rewrite WriteHeader_fresh by (cbn; rewrite ?H1; done). cbn [mbind outcome_bind].
  eexists _, _. split; [done|]. cbn. rewrite H1. split_and!; [done|done|].
  intros k. unfold maps_Copy. rewrite lookup_union, H2. by destruct (header_values k cs), (w_header w !! k).
Qed.

(** A template that failed leaves no header of its own behind; only an
    [ErrorStatus] among the errors sets a status, and the error is passed on. *)
Lemma Resp_cleanup_error d w e :
  (forall code, As sel_status e = Some code -> final_code code) ->
  exists w', dotRespProvider_Cleanup d w (Some e) = Ret (w', Some e) /\
    w_header w' = w_header w /\ w_body w' = w_body w /\
    w_sent w' = match w_sent w, As sel_status e with
                | None, Some code => Some (code, w_header w)
                | s, _ => s
                end.
Proof.
  intros H. unfold dotRespProvider_Cleanup. cbn [mbind option_bind].
  destruct (As sel_status e) as [code|] eqn:E.
  - specialize (H code eq_refl). destruct (w_sent w) as [s|] eqn:Es.
    + rewrite (WriteHeader_sent w code s Es). cbn. exists w. by rewrite Es.
    + rewrite WriteHeader_fresh by done. cbn. by eexists.
  - exists w. by destruct (w_sent w).
Qed.

Lemma Resp_cleanup_response_witness :
  exists w' h, dotRespProvider_Cleanup
      (foldl resp_step dotRespProvider_Value [RAdd (gs "x-a") (gs "1"); RReturn 404]) (new_writer false) None
      = Ret (w', None) /\
    w_sent w' = Some (404%Z, h) /\ w_body w' = [] /\
    forall k, h !! k = match header_values k [RAdd (gs "x-a") (gs "1"); RReturn 404] with
                       | Some vs => Some vs | None => (∅ : header) !! k end.
Proof.
  apply (Resp_cleanup_response [RAdd (gs "x-a") (gs "1"); RReturn 404] (new_writer false)).
  - reflexivity.
  - split; cbn; lia.
Defined.
