(* ===== verification/DotFS.v ===== *)
(** * The directory field (dot_fs.go and dot_fs_config.go)

    A [Dir] gives templates read access to an [fs.FS].  The file system is an
    argument that answers every [Open] and [ReadDir] as a function of the calls
    made before.  The files it hands out are numbered handles, which are open
    until they are closed; a request's [dotFS] tracks handles to close them in its
    cleanup. *)

From S2P Require Import Prelude GoStrings GoErrors GoPath.

Section dotfs.
(** [Info] is what [fs.FileInfo] tells besides [IsDir]; [Entry] is [fs.DirEntry]. *)
Context {Info Entry : Type}.

(** An open file: what [Stat] answers, the bytes [Read] yields before the error
    that stops it, and the errors of the first and of any later [Close]. *)
Record fnode := {
  fn_stat : result (bool * Info);
  fn_data : gostring;
  fn_read_err : option goerr;
  fn_close : option goerr;
  fn_reclose : option goerr
}.

Record handle := { h_path : gostring; h_node : fnode; h_open : bool }.

(** [log] has every path the file system was asked for, in order. *)
Record dotFS := {
  handles : list handle;
  opened : gset nat;
  fs_log : list gostring
}.

Record FS := {
  fs_open : list gostring -> gostring -> result fnode;
  fs_readdir : list gostring -> gostring -> result (list Entry)
}.

Context (fs : FS).

(** [d.dot.fs.Open(name)] *)
Definition fs_Open (d : dotFS) (name : gostring) : dotFS * result nat :=
  let log := fs_log d ++ [name] in
  match fs_open fs (fs_log d) name with
  | Err e => ({| handles := handles d; opened := opened d; fs_log := log |}, Err e)
  | Ok n =>
      ({| handles := handles d ++ [{| h_path := name; h_node := n; h_open := true |}];
          opened := opened d; fs_log := log |}, Ok (length (handles d)))
  end.

Definition close_handle (h : handle) : handle :=
  {| h_path := h_path h; h_node := h_node h; h_open := false |}.

(** [file.Close()] *)
Definition file_Close (d : dotFS) (h : nat) : dotFS * option goerr :=
  match handles d !! h with
  | Some f =>
      ({| handles := alter close_handle h (handles d); opened := opened d; fs_log := fs_log d |},
       if h_open f then fn_close (h_node f) else fn_reclose (h_node f))
  | None => (d, None)
  end.

(** A [Dir] is its path; the [dotFS] it points to is shared. *)
Definition Dir_join (path name : gostring) : gostring := path_Join [path; Clean name].

Definition Dir_Stat (d : dotFS) (path name : gostring) : dotFS * result (bool * Info) :=
  let name := Dir_join path name in
  let '(d, r) := fs_Open d name in
  match r with
  | Err e => (d, Err e)
  | Ok file =>
      let st := match handles d !! file with
                | Some f => fn_stat (h_node f)
                | None => Err (ErrText (gs "no such handle"))
                end in
      let '(d, _) := file_Close d file in
      (d, st)
  end.

Definition Dir_Dir (d : dotFS) (path name : gostring) : dotFS * result gostring :=
  let name := Clean name in
  let '(d, st) := Dir_Stat d path name in
  match st with
  | Err e => (d, Err e)
  | Ok (isdir, _) =>
      if negb isdir then (d, Err (ErrText (gs "not a directory: " ++ name)))
      else (d, Ok (path_Join [path; name]))
  end.

Definition Dir_List (d : dotFS) (path name : gostring) : dotFS * result (list Entry) :=
  let name := Dir_join path name in
  ({| handles := handles d; opened := opened d; fs_log := fs_log d ++ [name] |},
   fs_readdir fs (fs_log d) name).

Definition Dir_Read (d : dotFS) (path name : gostring) : dotFS * result gostring :=
  let name := Dir_join path name in
  let '(d, r) := fs_Open d name in
  match r with
  | Err e => (d, Err e)
  | Ok file =>
      let out := match handles d !! file with
                 | Some f => match fn_read_err (h_node f) with
                             | Some e => Err e
                             | None => Ok (fn_data (h_node f))
                             end
                 | None => Err (ErrText (gs "no such handle"))
                 end in
      let '(d, _) := file_Close d file in
      (d, out)
  end.

Definition Dir_Open (d : dotFS) (path name : gostring) : dotFS * result nat :=
  let name := Dir_join path name in
  let '(d, r) := fs_Open d name in
  match r with
  | Err e => (d, Err (ErrWrap (gs "failed to open file at path '" ++ name ++ gs "': ") e))
  | Ok file =>
      let d := {| handles := handles d; opened := {[file]} ∪ opened d; fs_log := fs_log d |} in
      fs_Open d name
  end.

Definition Dir_Exists (d : dotFS) (path name : gostring) : dotFS * bool :=
  let name := Dir_join path name in
  let '(d, r) := Dir_Open d path name in
  match r with
  | Ok file => let '(d, _) := file_Close d file in (d, true)
  | Err _ => (d, false)
  end.

(** [DotDirConfig.Value]: nothing opened, and the path "." *)
Definition DotDirConfig_Value : dotFS * gostring :=
  ({| handles := []; opened := ∅; fs_log := [] |}, dot).

(** The error of a file the template has closed itself is ignored. *)
Definition ignored_close (e : goerr) : bool :=
  match As sel_path e with
  | Some (op, _, e') =>
      bool_decide (op = gs "close") && bool_decide (Error e' = gs "file already closed")
  | None => false
  end.

(** [DotDirConfig.Cleanup]: the new state, the errors that are logged, and the
    error that is passed on. *)
Definition close_one (s : dotFS * list goerr) (file : nat) : dotFS * list goerr :=
  let '(d, errs) := s in
  match file_Close d file with
  | (d, Some e) => (d, if ignored_close e then errs else errs ++ [e])
  | (d, None) => (d, errs)
  end.

Definition close_all (d : dotFS) (files : list nat) : dotFS * list goerr :=
  foldl close_one (d, []) files.

Definition DotDirConfig_Cleanup (d : dotFS) (err : option goerr) : dotFS * list goerr * option goerr :=
  let '(d, errs) := close_all d (elements (opened d)) in
  (d, errs, err).

(** ** What a template does with the field

    It holds directories, the first being the field itself, and files it has
    opened; it names them by their position. *)
Record fs_env := {
  env_fs : dotFS;
  env_dirs : list gostring;
  env_files : list nat;
  env_closed : list nat
}.

Inductive fs_call :=
| FDir (i : nat) (name : gostring)
| FList (i : nat) (name : gostring)
| FExists (i : nat) (name : gostring)
| FStat (i : nat) (name : gostring)
| FRead (i : nat) (name : gostring)
| FOpen (i : nat) (name : gostring)
| FClose (j : nat).

Definition with_fs (s : fs_env) (d : dotFS) : fs_env :=
  {| env_fs := d; env_dirs := env_dirs s; env_files := env_files s; env_closed := env_closed s |}.

Definition on_dir (s : fs_env) (i : nat) (f : gostring -> fs_env) : fs_env :=
  match env_dirs s !! i with Some path => f path | None => s end.

Definition fs_step (s : fs_env) (c : fs_call) : fs_env :=
  match c with
  | FDir i name => on_dir s i (fun path =>
      match Dir_Dir (env_fs s) path name with
      | (d, Ok p) => {| env_fs := d; env_dirs := env_dirs s ++ [p]; env_files := env_files s;
                        env_closed := env_closed s |}
      | (d, Err _) => with_fs s d
      end)
  | FList i name => on_dir s i (fun path => with_fs s (Dir_List (env_fs s) path name).1)
  | FExists i name => on_dir s i (fun path => with_fs s (Dir_Exists (env_fs s) path name).1)
  | FStat i name => on_dir s i (fun path => with_fs s (Dir_Stat (env_fs s) path name).1)
  | FRead i name => on_dir s i (fun path => with_fs s (Dir_Read (env_fs s) path name).1)
  | FOpen i name => on_dir s i (fun path =>
      match Dir_Open (env_fs s) path name with
      | (d, Ok h) => {| env_fs := d; env_dirs := env_dirs s; env_files := env_files s ++ [h];
                        env_closed := env_closed s |}
      | (d, Err _) => with_fs s d
      end)
  | FClose j =>
      match env_files s !! j with
      | Some h => {| env_fs := (file_Close (env_fs s) h).1; env_dirs := env_dirs s;
                     env_files := env_files s; env_closed := env_closed s ++ [h] |}
      | None => s
      end
  end.

Definition fs_start : fs_env :=
  {| env_fs := DotDirConfig_Value.1; env_dirs := [DotDirConfig_Value.2]; env_files := [];
     env_closed := [] |}.

Definition fs_run (cs : list fs_call) : fs_env := foldl fs_step fs_start cs.

(** ** How the operations extend the state *)

Definition is_open (d : dotFS) (h : nat) : Prop :=
  exists f, handles d !! h = Some f /\ h_open f = true.

(** A file the file system really handed out, under a normal relative path. *)
Definition genuine (f : handle) : Prop :=
  relative_normal (h_path f) /\ exists log, fs_open fs log (h_path f) = Ok (h_node f).

(** [d'] has more handles than [d]; of the new ones those are open that are
    tracked and the one that is returned, which is not tracked. *)
Definition extends (d d' : dotFS) (ret : option nat) : Prop :=
  exists new names,
    handles d' = handles d ++ new /\ Forall genuine new /\
    fs_log d' = fs_log d ++ names /\ Forall relative_normal names /\
    (forall h, h ∈ opened d' <-> h ∈ opened d \/
       (length (handles d) <= h < length (handles d') /\ h ∈ opened d')) /\
    (forall h, length (handles d) <= h ->
       is_open d' h <-> h < length (handles d') /\ (h ∈ opened d' \/ ret = Some h)) /\
    (forall h, ret = Some h -> length (handles d) <= h < length (handles d') /\ (h ∉ opened d')).

Definition tracked_old (d : dotFS) : Prop := forall h, h ∈ opened d -> h < length (handles d).

Lemma is_open_alter d h d' :
  handles d' = alter close_handle h (handles d) ->
  forall k, is_open d' k <-> is_open d k /\ k <> h.
Proof.
  intros E k. unfold is_open. rewrite E. destruct (decide (k = h)) as [->|Hne].
  - rewrite list_lookup_alter_eq. split; [|by intros [_ ?]].
    intros (f & Hf & Ho). apply fmap_Some in Hf as (f' & _ & ->). done.
  - rewrite list_lookup_alter_ne by done. split; [by intros ?; split|by intros [? _]].
Qed.

Lemma file_Close_open d h k :
  is_open (file_Close d h).1 k <-> is_open d k /\ k <> h.
Proof.
  unfold file_Close. destruct (handles d !! h) as [f|] eqn:E; [by apply is_open_alter|].
  split; [|by intros [? _]]. intros Hk. split; [done|]. intros ->.
  destruct Hk as (g & Hg & _). cbn in Hg. congruence.
Qed.

Lemma file_Close_frame d h :
  let d' := (file_Close d h).1 in
  length (handles d') = length (handles d) /\ opened d' = opened d /\ fs_log d' = fs_log d.
Proof. unfold file_Close. case_match; cbn; [by rewrite length_alter|done]. Qed.

Lemma genuine_close f : genuine f -> genuine (close_handle f).
Proof. done. Qed.

(** Closing a handle that was just returned. *)
Lemma extends_close d d' h :
  tracked_old d -> extends d d' (Some h) -> extends d (file_Close d' h).1 None.
Proof.
  intros Ht (new & names & Hh & Hg & Hl & Hn & Ho & Hi & Hr).
  destruct (Hr h eq_refl) as [Hlt Hnt].
  destruct (file_Close_frame d' h) as (F1 & F2 & F3).
  exists (alter close_handle (h - length (handles d)) new), names.
  rewrite F1, F2, F3. split_and!; try done.
  - unfold file_Close. destruct (handles d' !! h) as [f|] eqn:E.
    + cbn. rewrite Hh. rewrite alter_app_r_alt by lia. done.
    + apply lookup_ge_None in E. lia.
  - apply Forall_alter; [done|]. intros f Hf Hgf. by apply genuine_close.
  - intros k Hk. rewrite file_Close_open, Hi by done.
    split; [intros [[? [?|[= <-]]] ?]; [by split; [|left]|done]|].
    intros [? [?|?]]; [|done]. split; [by split; [|left]|]. by intros ->.
Qed.

Lemma is_open_snoc hs f d h :
  handles d = hs ++ [f] -> h_open f = true ->
  length hs <= h -> (is_open d h <-> h = length hs).
Proof.
  intros E Hf Hle. unfold is_open. rewrite E. split.
  - intros (g & Hg & _). apply lookup_lt_Some in Hg. rewrite length_app in Hg. simpl in Hg. lia.
  - intros ->. rewrite lookup_last_app. eauto.
Qed.

Lemma fs_Open_extends d name :
  tracked_old d -> relative_normal name ->
  let '(d', r) := fs_Open d name in
  opened d' = opened d /\ extends d d' (match r with Ok h => Some h | Err _ => None end) /\
  match r with
  | Ok h => h = length (handles d) /\ length (handles d') = S (length (handles d))
  | Err _ => handles d' = handles d
  end.
Proof.
  intros Ht Hn. unfold fs_Open. destruct (fs_open fs (fs_log d) name) as [n|e] eqn:E; cbn.
  - split_and!; try done; [|by rewrite length_app; simpl; lia].
    exists [{| h_path := name; h_node := n; h_open := true |}], [name].
    cbn. rewrite length_app. simpl. split_and!; try done.
    + constructor; [|constructor]. split; [done|]. by exists (fs_log d).
    + by constructor; [|constructor].
    + intros h. split; [by left|]. by intros [?|[_ ?]].
    + intros h Hh. rewrite is_open_snoc; [|done|done|done].
      split; [intros ->; split; [lia|by right]|]. intros [_ [Hin|[= ->]]]; [|done].
      apply Ht in Hin. lia.
    + intros h [= <-]. split; [lia|]. intros Hin%Ht. lia.
  - split_and!; try done. exists [], [name]. cbn. rewrite app_nil_r. split_and!; try done.
    + by constructor; [|constructor].
    + intros h. split; [by left|]. by intros [?|[_ ?]].
    + intros h Hh. split; [|intros [? _]; lia].
      intros (f & Hf & _). apply lookup_lt_Some in Hf. cbn in Hf. lia.
Qed.

Lemma extends_tracked d d' ret : extends d d' ret -> tracked_old d -> tracked_old d'.
Proof.
  intros (new & names & Hh & _ & _ & _ & Ho & _) Ht h Hin.
  rewrite Hh, length_app. apply Ho in Hin as [Hin|[Hin _]].
  - apply Ht in Hin. lia.
  - rewrite Hh, length_app in Hin. lia.
Qed.

Lemma is_open_app d d' new h :
  handles d' = handles d ++ new -> h < length (handles d) -> (is_open d' h <-> is_open d h).
Proof. intros E Hlt. unfold is_open. rewrite E. by rewrite lookup_app_l. Qed.

Lemma extends_trans d d1 d2 ret :
  tracked_old d -> extends d d1 None -> extends d1 d2 ret -> extends d d2 ret.
Proof.
  intros Ht H1 H2. pose proof (extends_tracked _ _ _ H1 Ht) as Ht1.
  destruct H1 as (n1 & l1 & Hh1 & Hg1 & Hl1 & Hn1 & Ho1 & Hi1 & _).
  destruct H2 as (n2 & l2 & Hh2 & Hg2 & Hl2 & Hn2 & Ho2 & Hi2 & Hr2).
  assert (length (handles d1) = length (handles d) + length n1) as E1 by (by rewrite Hh1, length_app).
  assert (length (handles d2) = length (handles d1) + length n2) as E2 by (by rewrite Hh2, length_app).
  exists (n1 ++ n2), (l1 ++ l2). split_and!; try by apply Forall_app.
  - by rewrite Hh2, Hh1, app_assoc.
  - by rewrite Hl2, Hl1, app_assoc.
  - intros h. split; [|by intros [?|[_ ?]]; [apply Ho2; left; apply Ho1; left|]].
    intros Hin. destruct (proj1 (Ho2 h) Hin) as [H|[? _]]; [|right; split; [lia|done]].
    destruct (proj1 (Ho1 h) H) as [?|[? _]]; [by left|right; split; [lia|done]].
  - intros h Hle. destruct (decide (h < length (handles d1))) as [Hlt|Hge]; [|rewrite Hi2 by lia; done].
    rewrite (is_open_app d1 d2 n2 h), Hi1 by done.
    split; [intros [? [?|?]]; [|done]; split; [lia|]; left; apply Ho2; by left|].
    intros [? [Hin|Hin]].
    + split; [done|]. left. apply Ho2 in Hin as [?|[? _]]; [done|lia].
    + apply Hr2 in Hin as [? _]. lia.
  - intros h Hh. apply Hr2 in Hh as [? ?]. split; [lia|done].
Qed.

(** Tracking the handle that was just opened. *)
Lemma extends_track d d' h :
  extends d d' (Some h) -> opened d' = opened d -> tracked_old d ->
  extends d {| handles := handles d'; opened := {[h]} ∪ opened d'; fs_log := fs_log d' |} None.
Proof.
  intros (new & names & Hh & Hg & Hl & Hn & Ho & Hi & Hr) E Ht.
  destruct (Hr h eq_refl) as [Hlt Hnt]. exists new, names. cbn. split_and!; try done.
  - intros k. rewrite E. set_solver.
  - intros k Hk. unfold is_open. cbn. fold (is_open d' k). rewrite Hi by done.
    rewrite elem_of_union, elem_of_singleton. naive_solver.
Qed.

Definition dir_ok (path : gostring) : Prop := path <> [] /\ relative_normal path.

Lemma Dir_join_ok path name : dir_ok path -> dir_ok (Dir_join path name).
Proof.
  intros [H1 [H2 _]]. split; [apply path_Join_nonempty|by apply path_Join_relative].
Qed.

Lemma Dir_Open_extends d path name :
  tracked_old d -> dir_ok path ->
  let '(d', r) := Dir_Open d path name in
  extends d d' (match r with Ok h => Some h | Err _ => None end).
Proof.
  intros Ht Hp. destruct (Dir_join_ok path name Hp) as [_ Hn]. unfold Dir_Open.
  pose proof (fs_Open_extends d (Dir_join path name) Ht Hn) as H.
  destruct (fs_Open d (Dir_join path name)) as [d1 [h|e]]; destruct H as (E & H & _); [|done].
  pose proof (extends_track d d1 h H E Ht) as H1.
  pose proof (extends_tracked _ _ _ H1 Ht) as Ht1.
  pose proof (fs_Open_extends _ (Dir_join path name) Ht1 Hn) as H2.
  destruct (fs_Open _ (Dir_join path name)) as [d2 r]. destruct H2 as (_ & H2 & _).
  by eapply extends_trans.
Qed.

Lemma Dir_Exists_extends d path name :
  tracked_old d -> dir_ok path -> extends d (Dir_Exists d path name).1 None.
Proof.
  intros Ht Hp. unfold Dir_Exists.
  pose proof (Dir_Open_extends d path (Dir_join path name) Ht Hp) as H.
  destruct (Dir_Open d path (Dir_join path name)) as [d1 [h|e]]; [|done].
  pose proof (extends_close d d1 h Ht H) as Hc. by destruct (file_Close d1 h).
Qed.

Lemma Dir_Stat_extends d path name :
  tracked_old d -> dir_ok path -> extends d (Dir_Stat d path name).1 None.
Proof.
  intros Ht Hp. destruct (Dir_join_ok path name Hp) as [_ Hn]. unfold Dir_Stat.
  pose proof (fs_Open_extends d (Dir_join path name) Ht Hn) as H.
  destruct (fs_Open d (Dir_join path name)) as [d1 [h|e]]; destruct H as (_ & H & _); [|done].
  pose proof (extends_close d d1 h Ht H) as Hc. by destruct (file_Close d1 h).
Qed.

Lemma Dir_Read_extends d path name :
  tracked_old d -> dir_ok path -> extends d (Dir_Read d path name).1 None.
Proof.
  intros Ht Hp. destruct (Dir_join_ok path name Hp) as [_ Hn]. unfold Dir_Read.
  pose proof (fs_Open_extends d (Dir_join path name) Ht Hn) as H.
  destruct (fs_Open d (Dir_join path name)) as [d1 [h|e]]; destruct H as (_ & H & _); [|done].
  pose proof (extends_close d d1 h Ht H) as Hc. by destruct (file_Close d1 h).
Qed.

Lemma Dir_Dir_extends d path name :
  tracked_old d -> dir_ok path ->
  let '(d', r) := Dir_Dir d path name in
  extends d d' None /\ (forall p, r = Ok p -> dir_ok p).
Proof.
  intros Ht Hp. unfold Dir_Dir. pose proof (Dir_Stat_extends d path (Clean name) Ht Hp) as H.
  destruct (Dir_Stat d path (Clean name)) as [d1 [[isdir i]|e]]; [|by split].
  destruct (negb isdir); (split; [done|]); [done|]. intros p [= <-].
  by apply (Dir_join_ok path name).
Qed.

Lemma Dir_List_extends d path name :
  dir_ok path -> extends d (Dir_List d path name).1 None.
Proof.
  intros Hp. destruct (Dir_join_ok path name Hp) as [_ Hn].
  exists [], [Dir_join path name]. cbn. rewrite app_nil_r. split_and!; try done.
  - by constructor; [|constructor].
  - intros h. split; [by left|by intros [?|[_ ?]]].
  - intros h Hh. split; [|intros [? _]; lia].
    intros (f & Hf & _). apply lookup_lt_Some in Hf. cbn in Hf. lia.
Qed.

(** ** The invariant of a template run *)

Record fs_inv (s : fs_env) : Prop := {
  inv_dirs : Forall dir_ok (env_dirs s);
  inv_log : Forall relative_normal (fs_log (env_fs s));
  inv_genuine : Forall genuine (handles (env_fs s));
  inv_tracked : tracked_old (env_fs s);
  inv_files : forall h, h ∈ env_files s -> h < length (handles (env_fs s)) /\ (h ∉ opened (env_fs s));
  inv_closed : forall h, h ∈ env_closed s -> h ∈ env_files s;
  inv_open : forall h, is_open (env_fs s) h <->
    h ∈ opened (env_fs s) \/ (h ∈ env_files s /\ (h ∉ env_closed s))
}.

Lemma inv_extends s d' ret dirs :
  fs_inv s -> extends (env_fs s) d' ret -> Forall dir_ok dirs ->
  fs_inv {| env_fs := d'; env_dirs := dirs;
            env_files := env_files s ++ option_list ret; env_closed := env_closed s |}.
Proof.
  intros [I1 I2 I3 I4 I5 I6 I7] He Hd. pose proof (extends_tracked _ _ _ He I4) as Ht.
  destruct He as (new & names & Hh & Hg & Hl & Hn & Ho & Hi & Hr).
  assert (length (handles d') = length (handles (env_fs s)) + length new) as E by (by rewrite Hh, length_app).
  assert (forall h, h ∈ env_files s -> h ∉ opened d') as Hfo.
  { intros h Hf Hin. destruct (I5 h Hf). apply Ho in Hin as [?|[? _]]; [done|lia]. }
  assert (forall h, h ∈ option_list ret <-> ret = Some h) as Hret.
  { intros h. destruct ret; cbn; rewrite ?list_elem_of_singleton, ?elem_of_nil; naive_solver. }
  constructor; cbn; try done.
  - rewrite Hl. by apply Forall_app.
  - rewrite Hh. by apply Forall_app.
  - intros h. rewrite elem_of_app, Hret. intros [Hf|Hf].
    + split; [|by apply Hfo]. apply I5 in Hf as [? _]. lia.
    + apply Hr in Hf as [? ?]. split; [lia|done].
  - intros h Hc. apply elem_of_app. left. by apply I6.
  - intros h. rewrite elem_of_app, Hret.
    destruct (decide (h < length (handles (env_fs s)))) as [Hlt|Hge].
    + rewrite (is_open_app _ _ new h), I7 by done. rewrite (Ho h).
      assert (ret = Some h -> False) by (intros Hx; apply Hr in Hx; lia).
      split; [naive_solver|]. intros [[?|[? _]]|?]; [tauto|lia|tauto].
    + rewrite Hi by lia.
      assert (h ∉ env_files s) as Hnf by (intros Hf; apply I5 in Hf; lia).
      assert (h ∉ env_closed s) as Hnc by (intros Hf; by apply I6 in Hf).
      assert (ret = Some h -> h < length (handles d')) by (intros Hx; apply Hr in Hx; lia).
      split; [naive_solver|]. intros [Hin|[[?|?] ?]]; [|tauto|tauto].
      split; [by apply Ht|by left].
Qed.

Lemma inv_quiet s d' : fs_inv s -> extends (env_fs s) d' None -> fs_inv (with_fs s d').
Proof.
  intros Hi He. pose proof (inv_extends s d' None (env_dirs s) Hi He (inv_dirs s Hi)) as H.
  cbn in H. by rewrite app_nil_r in H.
Qed.

Lemma on_dir_inv s i f :
  fs_inv s -> (forall path, dir_ok path -> fs_inv (f path)) -> fs_inv (on_dir s i f).
Proof.
  intros Hi Hf. unfold on_dir. destruct (env_dirs s !! i) as [path|] eqn:E; [|done].
  apply Hf. by eapply Forall_lookup_1 in E; [|apply Hi].
Qed.

Lemma fs_step_inv s c : fs_inv s -> fs_inv (fs_step s c).
Proof.
  intros Hi. pose proof (inv_tracked s Hi) as Ht.
  destruct c as [i n|i n|i n|i n|i n|i n|j]; cbn [fs_step];
    try (apply on_dir_inv; [done|]; intros path Hp).
  - pose proof (Dir_Dir_extends _ path n Ht Hp) as H.
    destruct (Dir_Dir (env_fs s) path n) as [d' [p|e]]; destruct H as [H Hok]; [|by apply inv_quiet].
    pose proof (inv_extends s d' None (env_dirs s ++ [p]) Hi H) as H'. cbn in H'.
    rewrite app_nil_r in H'. apply H'. apply Forall_app. split; [apply Hi|].
    constructor; [by apply Hok|constructor].
  - by apply inv_quiet, Dir_List_extends.
  - by apply inv_quiet, Dir_Exists_extends.
  - by apply inv_quiet, Dir_Stat_extends.
  - by apply inv_quiet, Dir_Read_extends.
  - pose proof (Dir_Open_extends _ path n Ht Hp) as H.
    destruct (Dir_Open (env_fs s) path n) as [d' [h|e]]; [|by apply inv_quiet].
    by apply (inv_extends s d' (Some h) (env_dirs s) Hi H), Hi.
  - destruct (env_files s !! j) as [h|] eqn:E; [|done]. apply list_elem_of_lookup_2 in E.
    destruct Hi as [I1 I2 I3 I4 I5 I6 I7].
    destruct (file_Close_frame (env_fs s) h) as (F1 & F2 & F3).
    constructor; cbn; rewrite ?F1, ?F2, ?F3; try done.
    + unfold file_Close. case_match; [|done]. cbn. apply Forall_alter; [done|]. done.
    + intros k Hk. unfold tracked_old in I4. rewrite F1. apply I4. by rewrite <- F2.
    + intros k. rewrite elem_of_app, list_elem_of_singleton. intros [?| ->]; [by apply I6|done].
    + intros k. rewrite file_Close_open, I7, elem_of_app, list_elem_of_singleton.
      destruct (I5 h E) as [_ Hn]. naive_solver.
Qed.

Lemma fs_run_inv cs : fs_inv (fs_run cs).
Proof.
  unfold fs_run. apply (Forall_foldl_inv fs_inv); [|intros s c Hs _; by apply fs_step_inv].
  constructor; cbn; try done.
  - constructor; [|constructor]. split; [done|]. split_and!; [done|done|by left].
  - intros h Hh. by apply not_elem_of_nil in Hh.
  - intros h. split; [by intros (f & Hf & _)|].
    intros [Hh|[Hh _]]; [by apply not_elem_of_empty in Hh|by apply not_elem_of_nil in Hh].
Qed.

Lemma close_all_open files d h :
  is_open (close_all d files).1 h <-> is_open d h /\ (h ∉ files).
Proof.
  unfold close_all.
  cut (forall errs, is_open (foldl close_one (d, errs) files).1 h <-> is_open d h /\ (h ∉ files));
    [intros H; apply H|].
  revert d. induction files as [|f files IH]; intros d errs; cbn [foldl].
  { split; [|by intros [? _]]. intros ?. split; [done|apply not_elem_of_nil]. }
  pose proof (file_Close_open d f h) as Hc.
  unfold close_one at 2.
  destruct (file_Close d f) as [d' [e|]]; cbn in Hc; rewrite IH, Hc, not_elem_of_cons; tauto.
Qed.

(** C30: after the cleanup of a request every file is closed, those a template
    only looked at, tested or read included, except the files [Open] returned to
    the template, which stay open unless the template closed them: the handle
    that is tracked is not the one that is returned.  Errors pass through. *)
Theorem Dir_cleanup_open cs err :
  let s := fs_run cs in
  let '(d', _, err') := DotDirConfig_Cleanup (env_fs s) err in
  err' = err /\ forall h, is_open d' h <-> h ∈ env_files s /\ (h ∉ env_closed s).
Proof.
  intros s. unfold DotDirConfig_Cleanup.
  pose proof (close_all_open (elements (opened (env_fs s))) (env_fs s)) as H.
  destruct (close_all (env_fs s) (elements (opened (env_fs s)))) as [d' errs]. cbn in H.
  split; [done|]. intros h. rewrite H, elem_of_elements.
  destruct (fs_run_inv cs) as [_ _ _ _ I5 _ I7]. fold s in I5, I7. rewrite I7.
  split; [naive_solver|]. intros [Hf Hc]. split; [by right|]. by apply I5.
Qed.

(** ** Where names lead *)










End dotfs.

(** ** A small file system *)

Definition text_node (s : gostring) : fnode :=
  {| fn_stat := Ok (false, tt); fn_data := s; fn_read_err := None; fn_close := None;
     fn_reclose := Some (PathError (gs "close") [] (ErrText (gs "file already closed"))) |}.
Definition dir_node : fnode :=
  {| fn_stat := Ok (true, tt); fn_data := [];
     fn_read_err := Some (PathError (gs "read") [] (ErrText (gs "is a directory")));
     fn_close := None;
     fn_reclose := Some (PathError (gs "close") [] (ErrText (gs "file already closed"))) |}.

(** A directory [sub] with a file [a]. *)
Definition small_fs : @FS unit unit :=
  {| fs_open := fun _ p =>
       if bool_decide (p = gs "sub") then Ok dir_node
       else if bool_decide (p = gs "sub/a") then Ok (text_node (gs "hello"))
       else Err (PathError (gs "open") p (ErrText (gs "file does not exist")));
     fs_readdir := fun _ p => Ok [] |}.

(** In a directory other than the root [Exists] joins the path of the directory
    twice: a file that can be read there is reported missing. *)
Lemma Dir_Exists_subdirectory :
  let d := (DotDirConfig_Value (Info := unit)).1 in
  (Dir_Dir small_fs d dot (gs "sub")).2 = Ok (gs "sub") /\
  (Dir_Read small_fs d (gs "sub") (gs "a")).2 = Ok (gs "hello") /\
  (Dir_Exists small_fs d (gs "sub") (gs "a")).2 = false /\
  fs_log (Dir_Exists small_fs d (gs "sub") (gs "a")).1 = [gs "sub/sub/a"].
Proof. by vm_compute. Qed.


