(* ===== verification/Dot.v ===== *)
(** * Assembling the dot value (dot.go)

    The value a template is executed with is a struct with one field per dot
    provider.  Its type is built once per instance from the values the providers
    give for a mock request; its values come from a pool and are filled by the
    providers for each request.  A provider is a record of its methods; [World] is
    the state they can change (the response writer and what providers reach
    outside), [Val] the dynamic values and [T] their dynamic types.  A Go [any]
    that may be nil is an [option Val], and [None] in a field is the zero value. *)

From S2P Require Import Prelude GoStrings GoErrors Http.

Section dot.
Context {World Val T : Type} `{EqDecision T} (typeOf : Val -> T).

(** Unicode letters and digits beyond ASCII, for the names of struct fields. *)
Context (unicode_IsLetter unicode_IsDigit : N -> bool).

(** [DotConfig], and [CleanupDotProvider] when [Cleanup] is given. *)
Record DotConfig := {
  FieldName : gostring;
  printed : gostring;              (* what [%v] prints of the provider *)
  Value : World -> request -> outcome (World * option Val * option goerr);
  Cleanup : option (World -> Val -> option goerr -> outcome (World * option goerr))
}.

(** A struct value: its fields. *)
Abbreviation struct := (list (option Val)).

Record cleanup_ := { cl_idx : nat; cl_Cleanup : World -> Val -> option goerr -> outcome (World * option goerr) }.

Record dot := {
  dps : list DotConfig;
  cleanups : list cleanup_;
  typ : list (gostring * T)
}.

(** ** makeDot *)

Definition is_letter (c : N) : bool :=
  ((97 <=? c) && (c <=? 122) || (65 <=? c) && (c <=? 90) || (c =? 95) ||
   (128 <=? c) && unicode_IsLetter c)%N.

Definition is_digit (c : N) : bool :=
  ((48 <=? c) && (c <=? 57) || (128 <=? c) && unicode_IsDigit c)%N.

(** [reflect.isValidFieldName] *)
Definition isValidFieldName (name : gostring) : bool :=
  match snd <$> runes name with
  | [] => false
  | c :: cs => is_letter c && forallb (fun c => is_letter c || is_digit c) cs
  end.

(** The field names [reflect.StructOf] accepts; it panics on others and on a name
    used twice. *)
Definition lower_start (name : gostring) : bool :=
  match name with
  | c :: _ => in_range 97 122 c || bool_decide (c = "_"%char)
  | [] => false
  end.

Fixpoint struct_check (names seen : list gostring) : outcome unit :=
  match names with
  | [] => Ret tt
  | name :: names' =>
      if bool_decide (name = []) then Panic (gs "reflect.StructOf: field has no name")
      else if negb (isValidFieldName name) then
        Panic (gs "reflect.StructOf: field has invalid name")
      else if lower_start name then
        Panic (gs "reflect.StructOf: field is unexported but missing PkgPath")
      else if bool_decide (name ∈ seen) then
        Panic (gs "reflect.StructOf: duplicate field " ++ name)
      else struct_check names' (name :: seen)
  end.

Definition StructOf (fields : list (gostring * T)) : outcome (list (gostring * T)) :=
  _ ← struct_check fields.*1 []; Ret fields.

(** The loop over the providers: the fields and the cleanups. *)
Fixpoint make_fields (mock : World) (r : request) (i : nat) (ps : list DotConfig) :
    outcome (World * list (gostring * T) * list cleanup_) :=
  match ps with
  | [] => Ret (mock, [], [])
  | dp :: ps' =>
      '(mock, a, _) ← Value dp mock r;
      match a with
      | None => Panic (gs "invalid memory address or nil pointer dereference")
      | Some v =>
          '(mock, fields, cls) ← make_fields mock r (S i) ps';
          Ret (mock, (FieldName dp, typeOf v) :: fields,
               match Cleanup dp with
               | Some c => {| cl_idx := i; cl_Cleanup := c |} :: cls
               | None => cls
               end)
      end
  end.

Definition makeDot (mock : World) (r : request) (ps : list DotConfig) : outcome (World * dot) :=
  '(mock, fields, cls) ← make_fields mock r 0 ps;
  typ ← StructOf fields;
  Ret (mock, {| dps := ps; cleanups := cls; typ := typ |}).

(** ** The pool

    [sync.Pool.Get] gives any pooled value, or a new one; which is not specified,
    so the choice is an argument. *)
Definition zero_struct (d : dot) : struct := replicate (length (typ d)) None.

Definition pool_Get (d : dot) (pool : list struct) (choice : nat) : struct * list struct :=
  match pool !! choice with
  | Some v => (v, take choice pool ++ drop (S choice) pool)
  | None => (zero_struct d, pool)
  end.

Definition SetZero (v : struct) : struct := (fun _ => None) <$> v.

(** ** value *)

Inductive filled :=
| Filled (v : struct)
| NotFilled (e : goerr).

(** [val.Field(i).Set(reflect.ValueOf(a))] *)
Definition set_field (d : dot) (v : struct) (i : nat) (a : option Val) : outcome struct :=
  match a, typ d !! i with
  | Some x, Some (_, t) =>
      if bool_decide (typeOf x = t) then Ret (<[i := Some x]> v)
      else Panic (gs "reflect.Set: value is not assignable to the type of the field")
  | None, _ => Panic (gs "reflect: call of reflect.Value.Set on zero Value")
  | _, None => Panic (gs "reflect: Field index out of range")
  end.

Definition value_error (dp : DotConfig) (e : goerr) : goerr :=
  ErrWrap (gs "failed to construct dot value for " ++ FieldName dp ++ gs " (" ++
           printed dp ++ gs "): ") e.

Fixpoint fill (d : dot) (world : World) (r : request) (i : nat) (ps : list DotConfig) (v : struct) :
    outcome (World * filled) :=
  match ps with
  | [] => Ret (world, Filled v)
  | dp :: ps' =>
      '(world, a, err) ← Value dp world r;
      match err with
      | Some e => Ret (world, NotFilled (value_error dp e))
      | None => v ← set_field d v i a; fill d world r (S i) ps' v
      end
  end.

(** [dot.value]: the struct, or the error after the struct was put back. *)
Definition dot_value (d : dot) (pool : list struct) (choice : nat) (world : World) (r : request) :
    outcome (World * list struct * result struct) :=
  let '(val, pool) := pool_Get d pool choice in
  let val := SetZero val in
  '(world, res) ← fill d world r 0 (dps d) val;
  match res with
  | Filled v => Ret (world, pool, Ok v)
  | NotFilled e => Ret (world, SetZero val :: pool, Err e)
  end.

(** ** cleanup *)

Fixpoint run_cleanups (cls : list cleanup_) (world : World) (v : struct) (err : option goerr) :
    outcome (World * option goerr) :=
  match cls with
  | [] => Ret (world, err)
  | c :: cls' =>
      match v !! cl_idx c with
      | Some (Some x) =>
          '(world, err) ← cl_Cleanup c world x err;
          run_cleanups cls' world v err
      | _ => Panic (gs "interface conversion: interface is nil")
      end
  end.

Definition dot_cleanup (d : dot) (pool : list struct) (world : World) (v : struct)
    (err : option goerr) : outcome (World * list struct * option goerr) :=
  '(world, err) ← run_cleanups (cleanups d) world v err;
  Ret (world, SetZero v :: pool, err).

(** ** Properties *)

(** What the providers give one after the other: the values, or the first error. *)
Fixpoint values (world : World) (r : request) (ps : list DotConfig) :
    outcome (World * result (list Val)) :=
  match ps with
  | [] => Ret (world, Ok [])
  | dp :: ps' =>
      '(world, a, err) ← Value dp world r;
      match err, a with
      | Some e, _ => Ret (world, Err (value_error dp e))
      | None, None => Panic (gs "reflect: call of reflect.Value.Set on zero Value")
      | None, Some x =>
          '(world, res) ← values world r ps';
          Ret (world, x' ← res; Ok (x :: x'))
      end
  end.

(** The dynamic type a provider gives does not change from call to call. *)
Definition stable (dp : DotConfig) : Prop :=
  exists t, forall world r world' x err, Value dp world r = Ret (world', Some x, err) -> typeOf x = t.

(** The struct type fits the providers. *)
Definition dot_wf (d : dot) : Prop :=
  length (typ d) = length (dps d) /\
  (forall i dp name t, dps d !! i = Some dp -> typ d !! i = Some (name, t) ->
     name = FieldName dp /\
     forall world r world' x err, Value dp world r = Ret (world', Some x, err) -> typeOf x = t) /\
  cleanups d = omap (fun p => match Cleanup p.2 with
                              | Some c => Some {| cl_idx := p.1; cl_Cleanup := c |}
                              | None => None
                              end) (imap pair (dps d)).

Definition pool_ok (d : dot) (pool : list struct) : Prop := Forall (fun v => v = zero_struct d) pool.

Lemma SetZero_zero d v : length v = length (typ d) -> SetZero v = zero_struct d.
Proof.
  intros H. unfold SetZero, zero_struct. rewrite <- H. clear H.
  induction v as [|x v IH]; [done|]. simpl. f_equal. exact IH.
Qed.

Lemma pool_Get_ok d pool choice v pool' :
  pool_ok d pool -> pool_Get d pool choice = (v, pool') -> v = zero_struct d /\ pool_ok d pool'.
Proof.
  unfold pool_Get, pool_ok. intros Hp. destruct (pool !! choice) as [x|] eqn:E; intros [= <- <-].
  - split; [by eapply Forall_lookup_1 in E; [|exact Hp]|].
    apply Forall_app. split; [by apply Forall_take|by apply Forall_drop].
  - done.
Qed.

(** [fill] sets the fields from [i] on to the values of the providers. *)
Lemma fill_values d world r i ps v :
  dot_wf d -> ps = drop i (dps d) -> length v = length (typ d) -> i <= length v ->
  fill d world r i ps v =
  '(world', res) ← values world r ps;
  Ret (world', match res with
               | Ok xs => Filled (take i v ++ (Some <$> xs))
               | Err e => NotFilled e
               end).
Proof.
  intros Hwf. pose proof Hwf as (Hlen & Htyp & _). revert world i v.
  induction ps as [|dp ps IH]; intros world i v Hps Hv Hi; cbn [fill values].
  - cbn. assert (length (dps d) <= i) by (symmetry in Hps; by apply drop_nil_inv in Hps).
    rewrite take_ge by lia. by rewrite app_nil_r.
  - assert (dps d !! i = Some dp) as Hdp.
    { rewrite <- (Nat.add_0_r i), <- lookup_drop, <- Hps. done. }
    assert (i < length (typ d)) as Hlt by (apply lookup_lt_Some in Hdp; lia).
    destruct (Value dp world r) as [[[world' a] err]|msg] eqn:E; [|done].
    cbn [mbind outcome_bind]. destruct err as [e|]; [done|].
    unfold set_field. destruct a as [x|]; [|done].
    destruct (lookup_lt_is_Some_2 _ _ Hlt) as [[name t] Ht]. rewrite Ht.
    destruct (Htyp i dp name t Hdp Ht) as [_ Htx].
    rewrite bool_decide_true by (by eapply Htx). cbn [mbind outcome_bind].
    rewrite IH; [|by rewrite <- Nat.add_1_r, <- drop_drop, <- Hps
      |by rewrite length_insert|rewrite length_insert; lia].
    destruct (values world' r ps) as [[w2 [xs|e]]|msg]; [|done|done].
    cbn [mbind outcome_bind result_bind]. do 3 f_equal.
    rewrite (take_S_r _ i (Some x)) by (apply list_lookup_insert_eq; lia).
    rewrite take_insert_ge by lia. cbn. by rewrite <- app_assoc.
Qed.

(** The struct type [makeDot] builds. *)
Lemma make_fields_spec mock r i ps mock' fields cls :
  Forall stable ps -> make_fields mock r i ps = Ret (mock', fields, cls) ->
  length fields = length ps /\
  (forall j dp name t, ps !! j = Some dp -> fields !! j = Some (name, t) ->
     name = FieldName dp /\
     forall world r world' x err, Value dp world r = Ret (world', Some x, err) -> typeOf x = t) /\
  cls = omap (fun p => match Cleanup p.2 with
                       | Some c => Some {| cl_idx := p.1; cl_Cleanup := c |}
                       | None => None
                       end) (imap (fun j dp => (i + j, dp)) ps).
Proof.
  revert mock i mock' fields cls. induction ps as [|dp ps IH]; intros mock i mock' fields cls Hst H.
  { cbn in H. by simplify_eq. }
  apply Forall_cons in Hst as [[t Hdp] Hst]. cbn [make_fields] in H.
  destruct (Value dp mock r) as [[[m1 a] e]|msg] eqn:E; [|done]. cbn [mbind outcome_bind] in H.
  destruct a as [x|]; [|done].
  destruct (make_fields m1 r (S i) ps) as [[[m2 fs] cs]|msg] eqn:E2; [|done].
  cbn [mbind outcome_bind] in H. injection H as <- <- <-.
  destruct (IH m1 (S i) m2 fs cs Hst E2) as (H1 & H2 & H3). split_and!.
  - cbn. by rewrite H1.
  - intros [|j] dp' name t'; cbn; [|apply H2]. intros [= <-] [= <- <-].
    split; [done|]. rewrite (Hdp _ _ _ _ _ E). exact Hdp.
  - rewrite imap_cons. cbn. rewrite Nat.add_0_r.
    assert (imap ((fun j (dp0 : DotConfig) => (i + j, dp0)) ∘ S) ps =
            imap (fun j dp0 => (S i + j, dp0)) ps) as ->.
    { apply imap_ext. intros j x' _. cbn. f_equal. lia. }
    rewrite <- H3. by destruct (Cleanup dp).
Qed.

(** The names [StructOf] accepts are distinct and exported. *)
Definition exported (name : gostring) : Prop :=
  isValidFieldName name = true /\ lower_start name = false.

Lemma struct_check_names names seen :
  struct_check names seen = Ret tt <->
  NoDup names /\ Forall exported names /\ Forall (fun n => n ∉ seen) names.
Proof.
  revert seen. induction names as [|n names IH]; intros seen; cbn [struct_check].
  { split; [|done]. intros _. split_and!; constructor. }
  rewrite NoDup_cons, !Forall_cons. unfold exported at 1.
  destruct (bool_decide_reflect (n = [])) as [->|Hn].
  { split; [done|]. by intros (_ & [[? _] _] & _). }
  destruct (isValidFieldName n) eqn:E2; cbn; [|by split; [|intros (_ & [[? _] _] & _)]].
  destruct (lower_start n) eqn:E3; [by split; [|intros (_ & [[_ ?] _] & _)]|].
  destruct (bool_decide_reflect (n ∈ seen)) as [Hs|Hs]; [by split; [|intros (_ & _ & [? _])]|].
  rewrite IH. assert (Forall (fun n' => n' ∉ n :: seen) names <->
    (n ∉ names) /\ Forall (fun n' => n' ∉ seen) names) as ->.
  { rewrite !Forall_forall. set_solver. }
  tauto.
Qed.

Lemma StructOf_names fields res :
  StructOf fields = Ret res -> res = fields /\ NoDup fields.*1 /\ Forall exported fields.*1.
Proof.
  unfold StructOf. intros H. apply outcome_bind_Ret_inv in H as ([] & H & [= <-]).
  apply struct_check_names in H. tauto.
Qed.

Lemma makeDot_wf mock r ps mock' d :
  Forall stable ps -> makeDot mock r ps = Ret (mock', d) ->
  dot_wf d /\ dps d = ps /\ (typ d).*1 = FieldName <$> ps.
Proof.
  intros Hst. unfold makeDot.
  destruct (make_fields mock r 0 ps) as [[[m fields] cls]|msg] eqn:E; [|done].
  cbn [mbind outcome_bind]. destruct (StructOf fields) as [ty|msg] eqn:Es; [|done].
  cbn [mbind outcome_bind]. intros [= <- <-].
  destruct (StructOf_names fields ty Es) as (-> & _).
  destruct (make_fields_spec mock r 0 ps m fields cls Hst E) as (H1 & H2 & H3).
  split; [by split_and!|]. split; [done|].
  cbn. clear -H1 H2. apply list_eq_same_length with (n := length ps); [by rewrite length_fmap|by rewrite length_fmap|].
  intros i x y Hi Hx Hy. apply list_lookup_fmap_Some in Hx as ([n t] & -> & Hx).
  apply list_lookup_fmap_Some in Hy as (dp & -> & Hy). by destruct (H2 i dp n t Hy Hx) as [? _].
Qed.

(** The outcome of [dot_value] when the struct type fits the providers. *)
Definition value_outcome (d : dot) (pool' : list struct) (m : outcome (World * result (list Val))) :
    outcome (World * list struct * result struct) :=
  match m with
  | Ret (world', Ok xs) => Ret (world', pool', Ok (Some <$> xs))
  | Ret (world', Err e) => Ret (world', zero_struct d :: pool', Err e)
  | Panic msg => Panic msg
  end.

Lemma dot_value_wf d pool choice world r :
  dot_wf d -> pool_ok d pool ->
  exists pool', pool_ok d pool' /\
    dot_value d pool choice world r = value_outcome d pool' (values world r (dps d)).
Proof.
  intros Hwf Hp. unfold dot_value. destruct (pool_Get d pool choice) as [v pool'] eqn:E.
  apply pool_Get_ok in E as [-> Hp']; [|done]. exists pool'. split; [done|].
  assert (length (zero_struct d) = length (typ d)) as Hl by (unfold zero_struct; by rewrite length_replicate).
  rewrite !(SetZero_zero d (zero_struct d) Hl).
  rewrite (fill_values d world r 0 (dps d) (zero_struct d)); [|done|done|done|lia].
  destruct (values world r (dps d)) as [[w' [xs|e]]|msg]; done.
Qed.

(** Filling a pooled struct gives the values of the providers, one field per
    provider in their order, or the first error; the outcome does not depend on
    which struct the pool hands out, and what stays in the pool holds no value of
    any request. *)
Lemma dot_value_fresh mock r0 ps mock' d pool choice world r :
  Forall stable ps -> makeDot mock r0 ps = Ret (mock', d) -> pool_ok d pool ->
  exists pool', pool_ok d pool' /\
    dot_value d pool choice world r = value_outcome d pool' (values world r ps).
Proof.
  intros Hst Hd Hp. destruct (makeDot_wf _ _ _ _ _ Hst Hd) as (Hwf & <- & _).
  by apply dot_value_wf.
Qed.

Lemma values_app world r ps1 ps2 :
  values world r (ps1 ++ ps2) =
  match values world r ps1 with
  | Ret (w1, Ok xs) =>
      match values w1 r ps2 with
      | Ret (w2, Ok ys) => Ret (w2, Ok (xs ++ ys))
      | m => m
      end
  | m => m
  end.
Proof.
  revert world. induction ps1 as [|dp ps1 IH]; intros world; cbn [app values].
  { by destruct (values world r ps2) as [[? [|]]|]. }
  destruct (Value dp world r) as [[[w a] [e|]]|msg]; cbn [mbind outcome_bind]; [done| |done].
  destruct a as [x|]; [|done]. rewrite IH.
  destruct (values w r ps1) as [[w1 [xs|e]]|msg]; cbn [mbind outcome_bind result_bind]; [|done|done].
  by destruct (values w1 r ps2) as [[w2 [ys|e]]|msg].
Qed.

(** The cleanup of one provider on its value. *)
Definition cleanup_step (m : outcome (World * option goerr)) (p : DotConfig * Val) :
    outcome (World * option goerr) :=
  '(world, err) ← m;
  match Cleanup p.1 with
  | Some c => c world p.2 err
  | None => Ret (world, err)
  end.

Definition cleanups_from (k : nat) (ps : list DotConfig) : list cleanup_ :=
  omap (fun p => match Cleanup p.2 with
                 | Some c => Some {| cl_idx := p.1; cl_Cleanup := c |}
                 | None => None
                 end) (imap (fun j dp => (k + j, dp)) ps).

Lemma cleanup_step_panic msg l : foldl cleanup_step (Panic msg) l = Panic msg.
Proof. by induction l. Qed.

Lemma cleanups_from_cons k dp ps :
  cleanups_from k (dp :: ps) =
  match Cleanup dp with
  | Some c => {| cl_idx := k; cl_Cleanup := c |} :: cleanups_from (S k) ps
  | None => cleanups_from (S k) ps
  end.
Proof.
  unfold cleanups_from. rewrite imap_cons. cbn. rewrite Nat.add_0_r.
  assert (imap ((fun j (dp0 : DotConfig) => (k + j, dp0)) ∘ S) ps =
          imap (fun j dp0 => (S k + j, dp0)) ps) as ->.
  { apply imap_ext. intros j x' _. cbn. f_equal. lia. }
  by destruct (Cleanup dp).
Qed.

Lemma run_cleanups_fold k ps ys xs world err :
  length ys = length ps -> drop k xs = ys ->
  run_cleanups (cleanups_from k ps) world (Some <$> xs) err =
  foldl cleanup_step (Ret (world, err)) (zip ps ys).
Proof.
  revert k ys world err. induction ps as [|dp ps IH]; intros k ys world err Hl Hy.
  { by destruct ys. }
  destruct ys as [|y ys]; [done|]. rewrite cleanups_from_cons.
  assert (xs !! k = Some y) as Hk by (rewrite <- (Nat.add_0_r k), <- lookup_drop, Hy; done).
  assert (drop (S k) xs = ys) as Hs by (rewrite <- Nat.add_1_r, <- drop_drop, Hy; done).
  cbn [zip zip_with foldl cleanup_step fst snd mbind outcome_bind].
  destruct (Cleanup dp) as [c|]; cbn [run_cleanups cl_idx cl_Cleanup]; [|apply IH; [simpl in Hl; lia|done]].
  rewrite list_lookup_fmap, Hk. cbn [fmap option_fmap option_map].
  destruct (c world y err) as [[w' e']|msg]; cbn [mbind outcome_bind].
  - apply IH; [simpl in Hl; lia|done].
  - by rewrite cleanup_step_panic.
Qed.

Lemma dot_cleanup_wf d pool world xs err :
  dot_wf d -> length xs = length (dps d) ->
  dot_cleanup d pool world (Some <$> xs) err =
  match foldl cleanup_step (Ret (world, err)) (zip (dps d) xs) with
  | Ret (world', err') => Ret (world', zero_struct d :: pool, err')
  | Panic msg => Panic msg
  end.
Proof.
  intros (Hlen & _ & Hcl) Hl. unfold dot_cleanup. rewrite Hcl.
  rewrite (SetZero_zero d) by (rewrite length_fmap; lia).
  by rewrite <- (run_cleanups_fold 0 (dps d) xs xs).
Qed.

(** Cleanup runs the cleanups in the order of the providers, each on its own
    field with the error the previous ones left, and gives back a struct that
    holds no value of the request. *)
Lemma dot_cleanup_order mock r0 ps mock' d pool world xs err :
  Forall stable ps -> makeDot mock r0 ps = Ret (mock', d) -> length xs = length ps ->
  dot_cleanup d pool world (Some <$> xs) err =
  match foldl cleanup_step (Ret (world, err)) (zip ps xs) with
  | Ret (world', err') => Ret (world', zero_struct d :: pool, err')
  | Panic msg => Panic msg
  end.
Proof.
  intros Hst Hd Hl. destruct (makeDot_wf _ _ _ _ _ Hst Hd) as (Hwf & <- & _).
  by apply dot_cleanup_wf.
Qed.
End dot.

(** A request for examples. *)
Definition any_request : request :=
  {| r_method := gs "GET"; r_path := gs "/"; r_query := []; r_header := ∅ |}.
