(* ===== verification/Init.v ===== *)
(** * Initialization of the configured fields (the [Init] methods)

    [DotDBConfig.Init] opens and pings a database, [DotDirConfig.Init] opens a
    directory, [DotNatsConfig.Init] starts a server and connects to it.  What these
    libraries do is an argument; what they were asked to do is recorded, in order,
    so that resources that are not released can be seen. *)

From S2P Require Import Prelude GoStrings GoErrors Config.

Section init.
Context {FS Info DB TxOptions : Type}.
Context {NatsServerOptions NatsOptions JetStreamOpt NatsConn NatsServer JetStream : Type}.

Abbreviation DotDBConfig := (DotDBConfig (DB := DB) (TxOptions := TxOptions)).
Abbreviation DotDirConfig := (DotDirConfig (FS := FS)).
Abbreviation DotNatsConfig :=
  (DotNatsConfig (NatsServerOptions := NatsServerOptions) (NatsOptions := NatsOptions)
     (JetStreamOpt := JetStreamOpt) (NatsConn := NatsConn) (NatsServer := NatsServer)
     (JetStream := JetStream)).

(** What was opened or started. *)
Inductive resource :=
| OpenedDB (db : DB)
| StartedServer (s : NatsServer)
| ShutdownOnDone (s : NatsServer)          (* when the context is done *)
| Connected (c : NatsConn).

(** ** Databases *)

Context (sql_Open : gostring -> gostring -> result DB).
Context (SetMaxOpenConns : DB -> Z -> DB).
Context (Ping : DB -> option goerr).

Definition set_DB (d : DotDBConfig) (db : DB) : DotDBConfig :=
  {| db_DB := Some db; db_TxOptions := db_TxOptions d; db_Name := db_Name d; db_Driver := db_Driver d;
     db_Connstr := db_Connstr d; db_MaxOpenConns := db_MaxOpenConns d |}.

Definition DotDBConfig_Init (d : DotDBConfig) : DotDBConfig * list resource * option goerr :=
  match db_DB d with
  | Some _ => (d, [], None)
  | None =>
      match sql_Open (db_Driver d) (db_Connstr d) with
      | Err e =>
          (d, [], Some (ErrWrap (gs "failed to open database with driver name '" ++ db_Driver d ++ gs "': ") e))
      | Ok db =>
          let db := SetMaxOpenConns db (db_MaxOpenConns d) in
          match Ping db with
          | Some e => (d, [OpenedDB db], Some (ErrWrap (gs "failed to ping database on open: ") e))
          | None => (set_DB d db, [OpenedDB db], None)
          end
      end
  end.

(** ** Directories *)

Context (os_DirFS : gostring -> FS).
Context (fs_Stat : FS -> gostring -> result Info).

Definition DotDirConfig_Init (p : DotDirConfig) : DotDirConfig * option goerr :=
  match dir_FS p with
  | Some _ => (p, None)
  | None =>
      let newfs := os_DirFS (dir_Path p) in
      match fs_Stat newfs (gs ".") with
      | Err e => (p, Some (ErrWrap (gs "failed to stat fs current directory '" ++ dir_Path p ++ gs "': ") e))
      | Ok _ => ({| dir_Name := dir_Name p; dir_FS := Some newfs; dir_Path := dir_Path p |}, None)
      end
  end.

(** ** NATS *)

Context (jetstream_New : NatsConn -> list JetStreamOpt -> result JetStream).
Context (GetDefaultOptions : NatsOptions).
Context (NewServer : NatsServerOptions -> result NatsServer).
Context (InProcessServer : NatsServer -> NatsOptions -> NatsOptions).
Context (Connect : NatsOptions -> result NatsConn).

Definition set_nats (d : DotNatsConfig) (conn : option NatsConn) (server : option NatsServer)
    (js : option JetStream) : DotNatsConfig :=
  {| nats_Name := nats_Name d; nats_Config := nats_Config d; nats_Conn := conn; nats_server := server;
     nats_js := js |}.

(** [d.js, err = jetstream.New(d.Conn, opts...)]; the context is nil on error. *)
Definition new_jetstream (d : DotNatsConfig) (conn : NatsConn) (opts : list JetStreamOpt) :
    DotNatsConfig * option goerr :=
  match jetstream_New conn opts with
  | Ok js => (set_nats d (Some conn) (nats_server d) (Some js), None)
  | Err e => (set_nats d (Some conn) (nats_server d) None, Some e)
  end.

(** The in-process server, with what it does to the options of the connection; a
    context that can be done ([has_done]) shuts it down. *)
Definition start_server (has_done : bool) (d : DotNatsConfig) (opts : option NatsServerOptions)
    (connOpt : NatsOptions) : DotNatsConfig * list resource * result NatsOptions :=
  match opts with
  | None => (d, [], Ok connOpt)
  | Some o =>
      match NewServer o with
      | Err e => (set_nats d (nats_Conn d) None (nats_js d), [],
                  Err (ErrWrap (gs "failed to start in-process nats server: ") e))
      | Ok s =>
          (set_nats d (nats_Conn d) (Some s) (nats_js d),
           StartedServer s :: (if has_done then [ShutdownOnDone s] else []), Ok (InProcessServer s connOpt))
      end
  end.

Definition DotNatsConfig_Init (has_done : bool) (d : DotNatsConfig) :
    DotNatsConfig * list resource * option goerr :=
  match nats_Conn d with
  | Some conn =>
      match nats_js d with
      | Some _ => (d, [], None)
      | None =>
          let jsOpts := match nats_Config d with Some c => JetStreamOptions c | None => [] end in
          let '(d, err) := new_jetstream d conn jsOpts in (d, [], err)
      end
  | None =>
      match nats_Config d with
      | None => (d, [], Some (ErrText (gs "no nats client and no config provided to initialzie nats client")))
      | Some c =>
          let connOpt := default GetDefaultOptions (ConnOptions c) in
          let '(d, rs, r) := start_server has_done d (InProcessServerOptions c) connOpt in
          match r with
          | Err e => (d, rs, Some e)
          | Ok connOpt =>
              match Connect connOpt with
              | Err e => (d, rs, Some (ErrWrap (gs "failed to connect to in-process server: ") e))
              | Ok conn =>
                  let '(d, err) := new_jetstream d conn (JetStreamOptions c) in
                  (d, rs ++ [Connected conn], err)
              end
          end
      end
  end.

(** ** Facts *)

(** A field that was initialized has what its values need. *)
Lemma DotDBConfig_Init_ok d d' rs :
  DotDBConfig_Init d = (d', rs, None) -> is_Some (db_DB d') /\ db_Name d' = db_Name d.
Proof. unfold DotDBConfig_Init. intros H. repeat case_match; simplify_eq; cbn; eauto. Qed.

Lemma DotDirConfig_Init_ok p p' :
  DotDirConfig_Init p = (p', None) -> is_Some (dir_FS p') /\ dir_Name p' = dir_Name p.
Proof. unfold DotDirConfig_Init. intros H. repeat case_match; simplify_eq; cbn; eauto. Qed.

Lemma DotNatsConfig_Init_ok hd d d' rs :
  DotNatsConfig_Init hd d = (d', rs, None) ->
  is_Some (nats_Conn d') /\ is_Some (nats_js d') /\ nats_Name d' = nats_Name d.
Proof.
  unfold DotNatsConfig_Init, new_jetstream, start_server. intros H.
  repeat case_match; simplify_eq; cbn; eauto.
Qed.

(** The server [Init] started is the one it arranged to shut down. *)
Lemma DotNatsConfig_Init_shutdown d s rs :
  (DotNatsConfig_Init true d).1.2 = rs -> StartedServer s ∈ rs -> ShutdownOnDone s ∈ rs.
Proof.
  unfold DotNatsConfig_Init, new_jetstream, start_server.
  intros <-. repeat case_match; simplify_eq; cbn; set_solver.
Qed.
End init.
