(* ===== verification/DotNats.v ===== *)
(** * NATS fields at work (dot_nats.go, dot_kv.go)

    The methods of [DotNats] and [DotKV].  The NATS client is not under src/: its
    operations are parameters, and what the code relies on is that it stops sending
    to a channel once the subscription was cancelled, and that a bucket is a log of
    puts, deletes and purges of which [Get] sees the last one of its key. *)

From S2P Require Import Prelude GoStrings GoErrors.

(** ** Publish and Request *)

Section messages.
Context {Msg : Type}.
Context (Conn_Publish : gostring -> gostring -> option goerr).
Context (Conn_Request : gostring -> gostring -> Z -> result Msg).

Definition DotNats_Publish (subject message : gostring) : option goerr := Conn_Publish subject message.

(** [time.Second] is 10^9 nanoseconds. *)
Definition DotNats_Request (subject data : gostring) (timeout_ : list Z) : result Msg :=
  match timeout_ with
  | [] => Conn_Request subject data (5 * 1000000000)
  | [timeout] => Conn_Request subject data timeout
  | _ => Err (ErrText (gs "too many timeout args"))
  end.
End messages.

(** ** Subscribe

    [Subscribe] gives the template an unbuffered channel and starts a goroutine that
    waits for the end of the request.  The template ranges over the channel. *)

Section subscribe.
Context {Msg : Type}.

Inductive waiter := Waiting | Unsubscribed | Finished.
Inductive reader := Busy | Ready | Ended.

#[export] Instance reader_eq : EqDecision reader.
Proof. solve_decision. Defined.

Record subscription := {
  su_active : bool;            (* NATS sends messages to the channel *)
  su_closed : bool;            (* the channel is closed *)
  su_waiter : waiter;          (* the goroutine *)
  su_cancellable : bool;       (* the context of the request has a Done channel *)
  su_done : bool;              (* and it is closed *)
  su_reader : reader;          (* the template *)
  su_sent : list Msg;          (* what came in for the subject *)
  su_got : list Msg;           (* what the template received *)
  su_panicked : bool
}.

(** [Subscribe], when [ChanSubscribe] succeeds. *)
Definition subscribed (cancellable : bool) : subscription :=
  {| su_active := true; su_closed := false; su_waiter := Waiting; su_cancellable := cancellable; su_done := false;
     su_reader := Busy; su_sent := []; su_got := []; su_panicked := false |}.

Definition DotNats_Subscribe (ChanSubscribe : gostring -> option goerr) (cancellable : bool) (subject : gostring) :
    result subscription :=
  match ChanSubscribe subject with
  | Some err => Err err
  | None => Ok (subscribed cancellable)
  end.

Inductive moment :=
| Message (m : Msg)           (* the client has a message for the subject *)
| Cancel                      (* the request ends *)
| Goroutine                   (* a step of the goroutine *)
| Receive                     (* the template asks for the next message, or is woken *)
| Leave.                      (* the template leaves its loop, by a break or an error *)

(** The goroutine: [<-done], [sub.Unsubscribe()], [close(ch)]. *)
Definition goroutine (s : subscription) : option subscription :=
  match su_waiter s with
  | Waiting =>
      if su_cancellable s && su_done s then
        Some {| su_active := false; su_closed := su_closed s; su_waiter := Unsubscribed;
                su_cancellable := su_cancellable s; su_done := su_done s; su_reader := su_reader s;
                su_sent := su_sent s; su_got := su_got s; su_panicked := su_panicked s |}
      else None
  | Unsubscribed =>
      Some {| su_active := su_active s; su_closed := true; su_waiter := Finished;
              su_cancellable := su_cancellable s; su_done := su_done s; su_reader := su_reader s;
              su_sent := su_sent s; su_got := su_got s; su_panicked := su_panicked s || su_closed s |}
  | Finished => None
  end.

(** The client offers the message to the channel: a template that waits gets it, one
    that does not misses it; on a closed channel the send panics. *)
Definition message (s : subscription) (m : Msg) : option subscription :=
  if negb (su_active s) then None
  else
    let taken := negb (su_closed s) && match su_reader s with Ready => true | _ => false end in
    Some {| su_active := su_active s; su_closed := su_closed s; su_waiter := su_waiter s;
            su_cancellable := su_cancellable s; su_done := su_done s;
            su_reader := if taken then Busy else su_reader s;
            su_sent := su_sent s ++ [m]; su_got := if taken then su_got s ++ [m] else su_got s;
            su_panicked := su_panicked s || su_closed s |}.

Definition set_reader (s : subscription) (r : reader) : subscription :=
  {| su_active := su_active s; su_closed := su_closed s; su_waiter := su_waiter s; su_cancellable := su_cancellable s;
     su_done := su_done s; su_reader := r; su_sent := su_sent s; su_got := su_got s; su_panicked := su_panicked s |}.

(** [range ch]: ends when the channel is closed. *)
Definition receive (s : subscription) : option subscription :=
  match su_reader s with
  | Ended => None
  | Busy => Some (set_reader s (if su_closed s then Ended else Ready))
  | Ready => if su_closed s then Some (set_reader s Ended) else None
  end.

Definition moment_step (s : subscription) (e : moment) : option subscription :=
  match e with
  | Message m => message s m
  | Cancel => Some {| su_active := su_active s; su_closed := su_closed s; su_waiter := su_waiter s;
                      su_cancellable := su_cancellable s; su_done := true; su_reader := su_reader s;
                      su_sent := su_sent s; su_got := su_got s; su_panicked := su_panicked s |}
  | Goroutine => goroutine s
  | Receive => receive s
  | Leave => match su_reader s with Busy => Some (set_reader s Ended) | _ => None end
  end.

Inductive sub_reachable (cancellable : bool) : subscription -> Prop :=
| sub_start : sub_reachable cancellable (subscribed cancellable)
| sub_step s e s' : sub_reachable cancellable s -> moment_step s e = Some s' -> sub_reachable cancellable s'.

Definition run_moments (s : subscription) (es : list moment) : option subscription := run_steps moment_step s es.

Lemma run_moments_reachable c s es s' : sub_reachable c s -> run_moments s es = Some s' -> sub_reachable c s'.
Proof. apply run_steps_ind, sub_step. Qed.

(** How far the goroutine is tells whether messages come and the channel is open. *)
Record sub_inv (cancellable : bool) (s : subscription) : Prop := {
  sui_cancellable : su_cancellable s = cancellable;
  sui_active : su_active s = match su_waiter s with Waiting => true | _ => false end;
  sui_closed : su_closed s = match su_waiter s with Finished => true | _ => false end;
  sui_panicked : su_panicked s = false;
  sui_got : su_got s `sublist_of` su_sent s;
  sui_done : su_waiter s <> Waiting -> su_done s = true
}.

Lemma sub_reachable_inv c s : sub_reachable c s -> sub_inv c s.
Proof.
  induction 1 as [|s e s' _ [I1 I2 I3 I4 I6 I7] Hs]; [split; cbn; done || apply sublist_nil_l|].
  destruct e as [m| | | |]; cbn in Hs.
  - unfold message in Hs. destruct (su_active s) eqn:Ea; [|done]. cbn in Hs. injection Hs as <-.
    destruct (su_waiter s) eqn:Ew; try done. rewrite I3. cbn. split; cbn; try done.
    + by rewrite I4.
    + destruct (su_reader s); cbn; first [by apply sublist_app|by apply sublist_inserts_r].
  - injection Hs as <-. by split.
  - unfold goroutine in Hs. destruct (su_waiter s) eqn:Ew; [|injection Hs as <-; split; cbn; try done|done].
    + destruct (su_cancellable s && su_done s) eqn:Ed; [|done]. injection Hs as <-.
      apply andb_true_iff in Ed as [_ Ed]. by split.
    + by rewrite I4, I3.
    + intros _. by apply I7.
  - unfold receive in Hs. destruct (su_reader s) eqn:Er; [|destruct (su_closed s) eqn:Ec|done]; simplify_eq; split; cbn; first [done|by rewrite Ec].
  - destruct (su_reader s); [|done..]. simplify_eq. by split.
Qed.

(** C22: a subscription ends with its request: the channel is closed once, after the
    subscription was cancelled, so that no message is ever sent on the closed
    channel; what the template received came in, in that order; and when the
    request is over, the goroutine closes the channel and the template's loop ends,
    whatever happened before. *)
Theorem Subscribe_ends s :
  sub_reachable true s ->
  su_panicked s = false /\ (su_got s `sublist_of` su_sent s) /\
  exists n s', run_moments s (Cancel :: replicate n Goroutine ++
                              (if decide (su_reader s = Ended) then [] else [Receive])) = Some s' /\
    su_waiter s' = Finished /\ su_active s' = false /\ su_closed s' = true /\ su_reader s' = Ended /\
    su_panicked s' = false.
Proof.
  intros Hr. destruct (sub_reachable_inv _ _ Hr) as [I1 I2 I3 I4 I6 I7]. split_and!; [done|done|].
  destruct s as [act clo wai can don rea sent got pan]. cbn in *. subst.
  exists (match wai with Waiting => 2 | Unsubscribed => 1 | Finished => 0 end).
  unfold run_moments. destruct wai, rea; cbn; eexists; by split_and!.
Qed.
End subscribe.

(** A template that is busy when a message comes misses it. *)
Definition missed_message : option (subscription (Msg := nat)) :=
  run_moments (subscribed true) [Receive; Message 1; Message 2; Receive; Message 3].

Lemma Subscribe_ends_witness :
  exists s, missed_message = Some s /\ su_sent s = [1; 2; 3] /\ su_got s = [1; 3] /\
  exists n s', run_moments s (Cancel :: replicate n Goroutine ++ [Receive]) = Some s' /\ su_reader s' = Ended.
Proof.
  destruct missed_message as [s|] eqn:E; [|vm_compute in E; discriminate].
  assert (sub_reachable true s) as Hr by (by eapply run_moments_reachable; [apply sub_start|exact E]).
  destruct (Subscribe_ends s Hr) as (_ & _ & n & s' & H & _ & _ & _ & He & _).
  exists s. vm_compute in E. injection E as <-. split_and!; try reflexivity. by exists n, s'.
Defined.

(** ** Key-value buckets *)

Inductive kv_op := KVPut (value : gostring) | KVDelete | KVPurge.

(** The operations of [jetstream.KeyValue] that the code calls, on the log of a
    bucket.  A call fails when the request's context is done or the server does not
    answer in time; the server may have taken the operation all the same. *)
Record kv_store (S : Type) := {
  kv_log : S -> list (gostring * kv_op);
  kv_PutString : S -> gostring -> gostring -> S * result N;
  kv_Get : S -> gostring -> result gostring;
  kv_Delete : S -> gostring -> S * option goerr;
  kv_Purge : S -> gostring -> S * option goerr
}.
Arguments kv_log {S}.
Arguments kv_PutString {S}.
Arguments kv_Get {S}.
Arguments kv_Delete {S}.
Arguments kv_Purge {S}.

(** The last operation on a key. *)
Definition last_op (log : list (gostring * kv_op)) (key : gostring) : option kv_op :=
  last (omap (fun e => if bool_decide (e.1 = key) then Some e.2 else None) log).

(** The logs an operation may leave: with its entry when it succeeded, with or without
    it when it reported an error. *)
Definition logged (log : list (gostring * kv_op)) (e : gostring * kv_op) (err : option goerr)
    (log' : list (gostring * kv_op)) : Prop :=
  log' = log ++ [e] \/ (err <> None /\ log' = log).

(** What the JetStream documentation says of a bucket. *)
Class KVLaws {S} (kv : kv_store S) : Prop := {
  law_put : forall s k v s' r, kv_PutString kv s k v = (s', r) ->
    logged (kv_log kv s) (k, KVPut v) (match r with Ok _ => None | Err err => Some err end) (kv_log kv s');
  law_delete : forall s k s' err, kv_Delete kv s k = (s', err) -> logged (kv_log kv s) (k, KVDelete) err (kv_log kv s');
  law_purge : forall s k s' err, kv_Purge kv s k = (s', err) -> logged (kv_log kv s) (k, KVPurge) err (kv_log kv s');
  law_get : forall s k v, kv_Get kv s k = Ok v -> last_op (kv_log kv s) k = Some (KVPut v)
}.

Section kv.
Context {S : Type} (kv : kv_store S).

Definition DotKV_Put (s : S) (key value : gostring) : S * option goerr :=
  let '(s, r) := kv_PutString kv s key value in
  (s, match r with Ok _ => None | Err err => Some err end).

Definition DotKV_Get (s : S) (key : gostring) : gostring * option goerr :=
  match kv_Get kv s key with
  | Err err => ([], Some err)
  | Ok e => (e, None)
  end.

Definition DotKV_Delete (s : S) (key : gostring) : S * option goerr := kv_Delete kv s key.

Definition DotKV_Purge (s : S) (key : gostring) : S * option goerr := kv_Purge kv s key.

(** Calls of a template. *)
Inductive kv_call := CPut (k v : gostring) | CDelete (k : gostring) | CPurge (k : gostring).

Definition kv_do (s : S) (c : kv_call) : S * option goerr :=
  match c with
  | CPut k v => DotKV_Put s k v
  | CDelete k => DotKV_Delete s k
  | CPurge k => DotKV_Purge s k
  end.

Fixpoint kv_run (s : S) (cs : list kv_call) : S * list (option goerr) :=
  match cs with
  | [] => (s, [])
  | c :: cs =>
      let '(s, err) := kv_do s c in
      let '(s, errs) := kv_run s cs in (s, err :: errs)
  end.

(** The same calls on a map; one that reports an error may have been done or not. *)
Definition map_do (m : gmap gostring gostring) (c : kv_call) : gmap gostring gostring :=
  match c with
  | CPut k v => <[k := v]> m
  | CDelete k | CPurge k => delete k m
  end.

Inductive map_run : gmap gostring gostring -> list kv_call -> list (option goerr) -> gmap gostring gostring -> Prop :=
| map_nil m : map_run m [] [] m
| map_done m c cs err errs m' : map_run (map_do m c) cs errs m' -> map_run m (c :: cs) (err :: errs) m'
| map_lost m c cs err errs m' : map_run m cs errs m' -> map_run m (c :: cs) (Some err :: errs) m'.

(** The map a log stands for. *)
Definition abstracts (log : list (gostring * kv_op)) (m : gmap gostring gostring) : Prop :=
  forall k, m !! k = match last_op log k with Some (KVPut v) => Some v | _ => None end.

Lemma last_op_snoc log k o k' :
  last_op (log ++ [(k, o)]) k' = if decide (k' = k) then Some o else last_op log k'.
Proof.
  unfold last_op. rewrite omap_app. cbn. destruct (decide (k' = k)) as [->|Hne].
  - rewrite bool_decide_true by done. by rewrite last_snoc.
  - rewrite bool_decide_false by done. by rewrite app_nil_r.
Qed.

Definition logs (c : kv_call) : gostring * kv_op :=
  match c with CPut k v => (k, KVPut v) | CDelete k => (k, KVDelete) | CPurge k => (k, KVPurge) end.

Lemma abstracts_snoc log m c : abstracts log m -> abstracts (log ++ [logs c]) (map_do m c).
Proof.
  intros H k'. destruct c as [k v|k|k]; cbn; rewrite last_op_snoc; destruct (decide (k' = k)) as [->|Hne].
  1: by rewrite lookup_insert_eq.
  1: by rewrite lookup_insert_ne.
  all: first [by rewrite lookup_delete_eq|by rewrite lookup_delete_ne].
Qed.

Lemma kv_do_logs `{!KVLaws kv} s c s' err : kv_do s c = (s', err) -> logged (kv_log kv s) (logs c) err (kv_log kv s').
Proof.
  destruct c as [k v|k|k]; cbn; [|apply law_delete|apply law_purge].
  unfold DotKV_Put. destruct (kv_PutString kv s k v) as [s1 r] eqn:E. intros [= <- <-]. by apply law_put in E.
Qed.

(** A bucket behaves like a map: whatever puts, deletes and purges were called and
    whatever errors they reported, the bucket stands for a map on which those that
    reported none were all done, in their order, and those that failed were done or
    had no effect; a [Get] that succeeds gives the value this map has. *)
Lemma KV_refines_map `{!KVLaws kv} s m cs s' errs :
  abstracts (kv_log kv s) m -> kv_run s cs = (s', errs) ->
  exists m', map_run m cs errs m' /\ abstracts (kv_log kv s') m' /\
    forall k v, DotKV_Get s' k = (v, None) -> m' !! k = Some v.
Proof.
  revert s m errs. induction cs as [|c cs IH]; intros s m errs Ha; cbn [kv_run].
  - intros [= <- <-]. exists m. split_and!; [constructor|done|]. intros k v. unfold DotKV_Get.
    destruct (kv_Get kv s k) as [x|e] eqn:E; [|done]. intros [= <-]. apply law_get in E. by rewrite Ha, E.
  - destruct (kv_do s c) as [s1 err] eqn:E, (kv_run s1 cs) as [s2 errs1] eqn:E1. intros [= <- <-].
    destruct (kv_do_logs _ _ _ _ E) as [Hl|[He Hl]].
    + destruct (IH s1 (map_do m c) errs1) as (m' & H & H'); [by rewrite Hl; apply abstracts_snoc|done|].
      exists m'. split; [by constructor|done].
    + destruct (IH s1 m errs1) as (m' & H & H'); [by rewrite Hl|done|].
      exists m'. split; [|done]. destruct err; [by apply map_lost|done].
Qed.

(** [Watch] hands out the watcher's channel of updates. *)
Definition DotKV_Watch {W C : Type} (Watch : gostring -> result W) (Updates : W -> C) (keys : gostring) : result C :=
  match Watch keys with
  | Err err => Err err
  | Ok watcher => Ok (Updates watcher)
  end.
End kv.

(** A bucket in memory. *)
Definition log_store : kv_store (list (gostring * kv_op)) := {|
  kv_log := id;
  kv_PutString := fun s k v => (s ++ [(k, KVPut v)], Ok (N.of_nat (S (length s))));
  kv_Get := fun s k => match last_op s k with Some (KVPut v) => Ok v | _ => Err (ErrText (gs "nats: key not found")) end;
  kv_Delete := fun s k => (s ++ [(k, KVDelete)], None);
  kv_Purge := fun s k => (s ++ [(k, KVPurge)], None)
|}.

#[export] Instance log_store_laws : KVLaws log_store.
Proof.
  split; cbn; try (intros; simplify_eq; by left).
  intros s k v. by destruct (last_op s k) as [[]|]; intros; simplify_eq.
Qed.
