(* ===== verification/Template.v ===== *)
(** * Templates and the fields they are executed with

    The field values of all providers, the providers as [DotConfig] records, and
    the execution of a template.  A template is a program: text to write, failures
    of its own, and calls on its fields whose answers decide how it goes on.
    [text/template] stops at the first call that returns an error, and turns a
    panic in a call into an error; [FuncTry] (funcs.go) hands the error to the
    template instead. *)

From S2P Require Import Prelude GoStrings GoErrors Http ServeContent.
From S2P Require Import DotDB DotFlush DotResp DotFS Dot.

Section template.
(** Column values, parameters and results of SQL; file information and directory
    entries; values, types, calls and outside state of custom providers. *)
Context {V P R Info Entry CVal CType CCall Ext : Type} `{EqDecision CType}.
Context (env : mime_env).
Context (custom_type : CVal -> CType).

Abbreviation sql_driver := (driver V P R).
Abbreviation file_system := (FS (Info := Info) (Entry := Entry)).

(** ** The world of a request

    The response writer and whether it is a [http.Flusher], the calls that reached
    each database, and what custom providers change outside. *)
Record World := {
  world_w : writer;
  world_flusher : bool;
  world_dbs : gmap nat (list sql_event);
  world_ext : Ext
}.

Definition set_w (wd : World) (w : writer) : World :=
  {| world_w := w; world_flusher := world_flusher wd; world_dbs := world_dbs wd;
     world_ext := world_ext wd |}.
Definition set_log (wd : World) (k : nat) (log : list sql_event) : World :=
  {| world_w := world_w wd; world_flusher := world_flusher wd;
     world_dbs := <[k := log]> (world_dbs wd); world_ext := world_ext wd |}.
Definition get_log (wd : World) (k : nat) : list sql_event := default [] (world_dbs wd !! k).

(** ** Field values *)

Inductive field :=
| FX
| FReq (r : request)
| FDB (k : nat) (drv : sql_driver) (tx : option nat)
| FFlags (m : gmap gostring gostring)
| FDirs (fs : file_system) (e : fs_env (Info := Info))
| FNats
| FResp (d : DotResp)
| FFlush
| FCustom (c : CVal).

Inductive ftype := TX | TReq | TDB | TFlags | TDir | TNats | TResp | TFlush | TCustom (t : CType).

#[local] Instance ftype_eq : EqDecision ftype.
Proof. solve_decision. Defined.

Definition typeOf (f : field) : ftype :=
  match f with
  | FX => TX | FReq _ => TReq | FDB _ _ _ => TDB | FFlags _ => TFlags | FDirs _ _ => TDir
  | FNats => TNats | FResp _ => TResp | FFlush => TFlush | FCustom c => TCustom (custom_type c)
  end.

(** ** The providers *)

Abbreviation provider := (DotConfig (World := World) (Val := field)).

(** [dotXProvider] (dot_instance.go) *)
Definition dotXProvider_Cleanup (err : option goerr) : option goerr :=
  match err with
  | Some e => if is_return e then None else err
  | None => None
  end.

Definition dotXProvider : provider :=
  {| FieldName := gs "X"; printed := [];
     Value := fun wd _ => Ret (wd, Some FX, None);
     Cleanup := Some (fun wd _ err => Ret (wd, dotXProvider_Cleanup err)) |}.

(** [dotReqProvider] (dot_req.go) *)
Definition dotReqProvider : provider :=
  {| FieldName := gs "Req"; printed := [];
     Value := fun wd r => Ret (wd, Some (FReq r), None); Cleanup := None |}.

Definition bad_cast : gostring := gs "interface conversion".

(** [dotRespProvider] (dot_resp.go) *)
Definition dotRespProvider : provider :=
  {| FieldName := gs "Resp"; printed := [];
     Value := fun wd _ => Ret (wd, Some (FResp dotRespProvider_Value), None);
     Cleanup := Some (fun wd f err =>
       match f with
       | FResp d => '(w, err) ← dotRespProvider_Cleanup d (world_w wd) err; Ret (set_w wd w, err)
       | _ => Panic bad_cast
       end) |}.

(** [dotFlushProvider] (dot_flush.go): a value is returned along with the error. *)
Definition dotFlushProvider : provider :=
  {| FieldName := gs "Flush"; printed := [];
     Value := fun wd _ => Ret (wd, Some FFlush, dotFlushProvider_Value (world_flusher wd));
     Cleanup := Some (fun wd f err =>
       match f with
       | FFlush => let '(w, err) := dotFlushProvider_Cleanup (world_w wd) err in Ret (set_w wd w, err)
       | _ => Panic bad_cast
       end) |}.

(** [DotDBConfig] (dot_db_config.go), for the database with number [k]. *)
Definition dbProvider (name : gostring) (k : nat) (drv : sql_driver) : provider :=
  {| FieldName := name; printed := [];
     Value := fun wd _ => Ret (wd, Some (FDB k drv (tx (DotDBConfig_Value (get_log wd k)))), None);
     Cleanup := Some (fun wd f err =>
       match f with
       | FDB k drv tx =>
           let '(d, err) := DotDBConfig_Cleanup drv {| tx := tx; db_log := get_log wd k |} err in
           Ret (set_log wd k (db_log d), err)
       | _ => Panic bad_cast
       end) |}.

(** [DotFlagsConfig] (dot_flags.go) *)
Definition flagsProvider (name : gostring) (m : gmap gostring gostring) : provider :=
  {| FieldName := name; printed := [];
     Value := fun wd _ => Ret (wd, Some (FFlags m), None); Cleanup := None |}.

(** [DotFlags.Value]: "" for a missing key. *)
Definition DotFlags_Value (m : gmap gostring gostring) (key : gostring) : gostring :=
  default [] (m !! key).

(** [DotDirConfig] (dot_fs_config.go) *)
Definition dirProvider (name : gostring) (fs : file_system) : provider :=
  {| FieldName := name; printed := [];
     Value := fun wd _ => Ret (wd, Some (FDirs fs fs_start), None);
     Cleanup := Some (fun wd f err =>
       match f with
       | FDirs fs e => let '(_, _, err) := DotDirConfig_Cleanup (env_fs e) err in Ret (wd, err)
       | _ => Panic bad_cast
       end) |}.

(** [DotNatsConfig] (dot_nats_config.go): its value has no state of its own. *)
Definition natsProvider (name : gostring) : provider :=
  {| FieldName := name; printed := [];
     Value := fun wd _ => Ret (wd, Some FNats, None); Cleanup := None |}.

(** ** Calls on the fields *)

Inductive answer :=
| AString (s : gostring)
| AResult (r : R)
| ARows (rows : list (gmap gostring V))
| ARow (row : gmap gostring V)
| AVal (v : V)
| ABool (b : bool)
| AInfo (isdir : bool) (i : Info)
| AEntries (es : list Entry)
| AFile (h : nat)
| ACustom (c : CVal)
| ANil.

Definition answer_of {A} (f : A -> answer) (r : result A) : result answer :=
  match r with Ok a => Ok (f a) | Err e => Err e end.

(** Whether and how a method answers; a panic is recovered by [text/template]. *)
Definition recovered {A} (f : A -> answer) (m : outcome (result A)) : result answer :=
  match m with Ret r => answer_of f r | Panic msg => Err (ErrText msg) end.

Definition db_answer (drv : sql_driver) (d : DotDB) (op : db_call (P := P)) : DotDB * result answer :=
  match op with
  | CallExec q ps => let '(d, r) := DotDB_Exec drv d q ps in (d, answer_of AResult r)
  | CallQueryRows q ps =>
      let '(d, (rows, err)) := DotDB_QueryRows drv d q ps in
      (d, match err with Some e => Err e | None => Ok (ARows rows) end)
  | CallQueryRow q ps => let '(d, r) := DotDB_QueryRow drv d q ps in (d, answer_of ARow r)
  | CallQueryVal q ps => let '(d, r) := DotDB_QueryVal drv d q ps in (d, recovered AVal r)
  | CallCommit => let '(d, r) := DotDB_Commit drv d in (d, answer_of AString r)
  | CallRollback => let '(d, r) := DotDB_Rollback drv d in (d, answer_of AString r)
  end.

Definition fs_answer (fs : file_system) (e : fs_env) (op : fs_call) : result answer :=
  let on i (f : gostring -> result answer) :=
    match env_dirs e !! i with
    | Some path => f path
    | None => Err (ErrText (gs "undefined variable"))
    end in
  match op with
  | FDir i name => on i (fun path => answer_of AString (Dir_Dir fs (env_fs e) path name).2)
  | FList i name => on i (fun path => answer_of AEntries (Dir_List fs (env_fs e) path name).2)
  | FExists i name => on i (fun path => Ok (ABool (Dir_Exists fs (env_fs e) path name).2))
  | FStat i name => on i (fun path =>
      answer_of (fun p => AInfo p.1 p.2) (Dir_Stat fs (env_fs e) path name).2)
  | FRead i name => on i (fun path => answer_of AString (Dir_Read fs (env_fs e) path name).2)
  | FOpen i name => on i (fun path => answer_of AFile (Dir_Open fs (env_fs e) path name).2)
  | FClose j => Ok ANil
  end.

Inductive call :=
| CallDB (op : db_call (P := P))
| CallDir (op : fs_call)
| CallFlags (key : gostring)
| CallResp (op : resp_call)
| CallServeContent (path_ : gostring) (modtime : Z) (c : content)
| CallSendSSE (args : list gostring)
| CallFlush
| CallSleep (f : fired)
| CallWaitForServerStop (by_ : stopped)
| CallCustom (c : CCall).

(** What the methods of a custom value do. *)
Context (custom_call : CVal -> CCall -> World -> CVal * World * outcome (result CVal)).

Definition no_method : result answer := Err (ErrText (gs "can't evaluate field")).

(** A method call on a field value. *)
Definition do_call (c : call) (f : field) (wd : World) (r : request) : field * World * result answer :=
  match c, f with
  | CallDB op, FDB k drv tx =>
      let '(d, ans) := db_answer drv {| tx := tx; db_log := get_log wd k |} op in
      (FDB k drv (DotDB.tx d), set_log wd k (db_log d), ans)
  | CallDir op, FDirs fs e => (FDirs fs (fs_step fs e op), wd, fs_answer fs e op)
  | CallFlags key, FFlags m => (f, wd, Ok (AString (DotFlags_Value m key)))
  | CallResp op, FResp d =>
      (FResp (resp_step d op), wd,
       match op with RReturn _ => Err ReturnError | _ => Ok (AString []) end)
  | CallServeContent path_ modtime c, FResp d =>
      let '(w, res) := DotResp_ServeContent env d (world_w wd) r path_ modtime c in
      (f, set_w wd w, recovered AString res)
  | CallSendSSE args, FFlush =>
      let '(w, err) := SendSSE (world_w wd) args in
      (f, set_w wd w, match err with None => Ok ANil | Some e => Err e end)
  | CallFlush, FFlush =>
      let '(w, s) := DotFlush_Flush (world_w wd) in (f, set_w wd w, Ok (AString s))
  | CallSleep fd, FFlush => (f, wd, answer_of AString (Sleep fd))
  | CallWaitForServerStop by_, FFlush => (f, wd, answer_of AString (WaitForServerStop by_))
  | CallCustom cc, FCustom v =>
      let '(v, wd, res) := custom_call v cc wd in (FCustom v, wd, recovered ACustom res)
  | _, _ => (f, wd, no_method)
  end.

(** [FuncTry] finds the methods of pointers and interfaces, not those that a struct
    stored by value has on its pointer. *)
Definition tryable (f : field) : bool :=
  match f with FDB _ _ _ | FFlush | FDirs _ _ | FFlags _ | FCustom _ => true | _ => false end.

(** ** Programs

    [TNested] is a call of [DotX.Template] for a template that exists, with its program;
    for a name without template the call is known to fail and the program goes on, or
    fails, with that error. *)

Inductive tprog :=
| TEnd
| TText (s : gostring) (k : tprog)
| TFail (e : goerr)
| TCall (try : bool) (i : nat) (c : call) (k : result answer -> tprog)
| TNested (try : bool) (name : gostring) (p : tprog) (k : result answer -> tprog).

(** The [ExecError] that [Execute] returns. *)
Definition exec_error (e : goerr) : goerr := ErrWrap (gs "template: ") e.

(** The error of [DotX.Template] when the template it runs fails. *)
Definition template_failed (name : gostring) (e : goerr) : goerr :=
  ErrWrap (gs "failed to execute template '" ++ name ++ gs "': ") e.

(** The state of an execution: the struct, the world and the buffer the output goes
    to, when it does not go to the response directly. *)
Record exec_state := {
  ex_fields : list (option field);
  ex_world : World;
  ex_buf : gostring
}.

Definition emit (direct : bool) (s : exec_state) (t : gostring) : exec_state :=
  if direct then
    {| ex_fields := ex_fields s; ex_world := set_w (ex_world s) (Write (world_w (ex_world s)) t);
       ex_buf := ex_buf s |}
  else {| ex_fields := ex_fields s; ex_world := ex_world s; ex_buf := ex_buf s ++ t |}.

(** A call on field [i] as [text/template] makes it: [addr] tells whether the struct is
    addressable.  The handlers execute templates with the struct itself; [DotX.Template]
    takes it as an [any], a copy, on which methods of pointers to fields are missing. *)
Definition call_field_at (addr : bool) (s : exec_state) (r : request) (try : bool) (i : nat) (c : call) :
    exec_state * result answer :=
  match ex_fields s !! i with
  | Some (Some f) =>
      if try && negb (tryable f) then (s, Err (ErrText (gs "not callable (method not found)")))
      else if negb addr && negb (tryable f) then (s, no_method)
      else
        let '(f, wd, ans) := do_call c f (ex_world s) r in
        ({| ex_fields := <[i := Some f]> (ex_fields s); ex_world := wd; ex_buf := ex_buf s |}, ans)
  | _ => (s, no_method)
  end.

Definition call_field := call_field_at true.

(** [tmpl.Execute]; a nested template ([DotX.Template]) is executed into a buffer
    of its own. *)
Fixpoint exec_at (addr direct : bool) (r : request) (p : tprog) (s : exec_state) : exec_state * option goerr :=
  match p with
  | TEnd => (s, None)
  | TText t k => exec_at addr direct r k (emit direct s t)
  | TFail e => (s, Some (exec_error e))
  | TCall try i c k =>
      let '(s, ans) := call_field_at addr s r try i c in
      match ans with
      | Ok _ => exec_at addr direct r (k ans) s
      | Err e => if try then exec_at addr direct r (k ans) s else (s, Some (exec_error e))
      end
  | TNested try name p k =>
      let s0 := {| ex_fields := ex_fields s; ex_world := ex_world s; ex_buf := [] |} in
      let '(s1, err) := exec_at false false r p s0 in
      let s := {| ex_fields := ex_fields s1; ex_world := ex_world s1; ex_buf := ex_buf s |} in
      match err with
      | None => exec_at addr direct r (k (Ok (AString (ex_buf s1)))) s
      | Some e =>
          let e := template_failed name e in
          if try then exec_at addr direct r (k (Err e)) s else (s, Some (exec_error e))
      end
  end.

Definition exec := exec_at true.

(** ** Invariants of executions *)

(** All calls a program can make satisfy [ok]. *)
Fixpoint calls_ok (ok : call -> Prop) (p : tprog) : Prop :=
  match p with
  | TEnd | TFail _ => True
  | TText _ k => calls_ok ok k
  | TCall _ _ c k => ok c /\ forall ans, calls_ok ok (k ans)
  | TNested _ _ p k => calls_ok ok p /\ forall ans, calls_ok ok (k ans)
  end.

Lemma calls_ok_weaken (ok1 ok2 : call -> Prop) p :
  (forall c, ok1 c -> ok2 c) -> calls_ok ok1 p -> calls_ok ok2 p.
Proof. intros H. induction p; cbn; naive_solver. Qed.

Definition with_buf (s : exec_state) (b : gostring) : exec_state :=
  {| ex_fields := ex_fields s; ex_world := ex_world s; ex_buf := b |}.

(** A copy of the struct offers fewer methods, not others. *)
Lemma call_field_copy addr s r try i c :
  (call_field_at addr s r try i c).1 = s \/ call_field_at addr s r try i c = call_field s r try i c.
Proof.
  unfold call_field, call_field_at. destruct (ex_fields s !! i) as [[f|]|]; [|by left..].
  destruct (try && negb (tryable f)); [by left|]. destruct (negb addr && negb (tryable f)); [by left|by right].
Qed.

(** What every call and every write of output preserves, an execution does. *)
Lemma exec_inv (I : exec_state -> Prop) (ok : call -> Prop) direct r p s s' err :
  (forall s try i c s' ans, I s -> ok c -> call_field s r try i c = (s', ans) -> I s') ->
  (forall s b, I s -> I (with_buf s b)) ->
  (direct = true -> forall s t, I s -> I (emit true s t)) ->
  calls_ok ok p -> I s -> exec direct r p s = (s', err) -> I s'.
Proof.
  intros Hc Hb. unfold exec. generalize true at 3. intros addr. revert addr direct s s' err.
  induction p as [|t k IH|e|try i c k IH|try name p IHp k IH]; intros addr direct s s' err Hd Hok Hs; cbn [exec_at].
  - intros [= <- _]. done.
  - apply IH; [done|done|]. destruct direct; [by apply Hd|]. by apply (Hb s (ex_buf s ++ t)).
  - intros [= <- _]. done.
  - destruct Hok as [Hok1 Hok2]. destruct (call_field_at addr s r try i c) as [s1 ans] eqn:E.
    assert (I s1) as Hs1.
    { destruct (call_field_copy addr s r try i c) as [Hcp|Hcp]; rewrite E in Hcp; [by cbn in Hcp; subst|].
      by eapply Hc. }
    destruct ans as [a|e]; [by apply IH|]. destruct try; [by apply IH|].
    by intros [= <- _].
  - destruct Hok as [Hok1 Hok2].
    destruct (exec_at false false r p _) as [s1 e1] eqn:E. apply IHp in E; [|done|done|by apply (Hb s [])].
    pose proof (Hb s1 (ex_buf s) E) as Hs1. unfold with_buf in Hs1.
    destruct e1 as [e|]; [destruct try|]; [by apply IH| |by apply IH].
    by intros [= <- _].
Qed.
End template.
