(* ===== verification/StaticFile.v ===== *)
(** * Serving static files (handlers.go, [staticFileHandler])

    The file system is an argument: a path opens to a file with its content, or
    fails.  Whether the file changed since the instance was built is only logged. *)

From S2P Require Import Prelude GoStrings GoErrors GoPath Http ServeContent Negotiate.

(** [fileInfo] of build.go *)
Record fileInfo := {
  identityPath : gostring;
  hash : gostring;
  contentType : gostring;
  encodings : list encodingInfo
}.

(** An open file: its content, and whether it is an [io.ReadSeeker]. *)
Record static_file := { sf_content : gostring; sf_seeker : bool }.

Definition add_header (w : writer) (k v : gostring) : writer :=
  set_header w (Header_Add (w_header w) k v).

Definition etag (f : fileInfo) : gostring := QUOTE :: hash f ++ [QUOTE].

(** The headers set before the content is served. *)
Definition static_headers (w : writer) (fileinfo : fileInfo) (e : encodingInfo) (hashed : bool) : writer :=
  let w := add_header w (gs "Etag") (etag fileinfo) in
  let w := add_header w (gs "Content-Type") (contentType fileinfo) in
  let w := add_header w (gs "Content-Encoding") (encoding e) in
  let w := add_header w (gs "Vary") (gs "Accept-Encoding") in
  if hashed then set_header w (Header_Set (w_header w) (gs "Cache-Control")
                                 (gs "public, max-age=31536000, immutable"))
  else w.

Definition staticFileHandler (env : mime_env) (fs : gostring -> result static_file)
    (fileinfo : fileInfo) (w : writer) (r : request) : outcome writer :=
  let urlpath := Clean (r_path r) in
  if negb (bool_decide (urlpath = identityPath fileinfo)) then http_NotFound w
  else
    let queryhash := Query_Get r (gs "hash") in
    if negb (bool_decide (queryhash = [])) && negb (bool_decide (queryhash = hash fileinfo))
    then http_NotFound w
    else
      '(enc, _) ← negiotiateEncoding (Header_values (r_header r) (gs "Accept-Encoding"))
                    (encodings fileinfo);
      match enc ≫= (fun i => encodings fileinfo !! i) with
      | None => http_Error w (gs "internal server error") 500
      | Some e =>
          match fs (path e) with
          | Err _ => http_Error w (gs "internal server error") 500
          | Ok file =>
              let w := static_headers w fileinfo e (negb (bool_decide (queryhash = []))) in
              if sf_seeker file then serveContent env w r (path e) (modtime e) (sf_content file)
              else Panic (gs "interface conversion: missing method Seek")
          end
      end.

(** ** Properties *)

(** The hash query parameter is absent or right. *)
Definition hash_ok (f : fileInfo) (r : request) : Prop :=
  Query_Get r (gs "hash") = [] \/ Query_Get r (gs "hash") = hash f.

Definition hashed (r : request) : bool := negb (bool_decide (Query_Get r (gs "hash") = [])).

(** The files of all encodings can be opened. *)
Definition files_present (fs : gostring -> result static_file) (f : fileInfo) : Prop :=
  forall e, e ∈ encodings f -> exists c, fs (path e) = Ok {| sf_content := c; sf_seeker := true |}.

(** The handler comes down to serving the content of the negotiated file. *)
Lemma static_negotiated env fs f w r :
  Clean (r_path r) = identityPath f -> hash_ok f r -> encodings f <> [] -> files_present fs f ->
  exists i e err c,
    negiotiateEncoding (Header_values (r_header r) (gs "Accept-Encoding")) (encodings f)
      = Ret (Some i, err) /\ encodings f !! i = Some e /\
    fs (path e) = Ok {| sf_content := c; sf_seeker := true |} /\
    staticFileHandler env fs f w r =
      serveContent env (static_headers w f e (hashed r)) r (path e) (modtime e) c.
Proof.
  intros Hp Hh Hne Hfs.
  destruct (negotiate_index (Header_values (r_header r) (gs "Accept-Encoding")) (encodings f) Hne)
    as (i & e & err & Hn & He).
  destruct (Hfs e) as [c Hc]; [by eapply list_elem_of_lookup_2|].
  exists i, e, err, c. split_and!; [done..|]. unfold staticFileHandler.
  rewrite bool_decide_true by done. cbn [negb].
  assert (negb (bool_decide (Query_Get r (gs "hash") = [])) &&
          negb (bool_decide (Query_Get r (gs "hash") = hash f)) = false) as ->.
  { destruct Hh as [-> | ->]; [done|]. rewrite (bool_decide_true (hash f = hash f)) by done.
    by rewrite andb_false_r. }
  rewrite Hn. cbn [mbind outcome_bind option_bind]. rewrite He, Hc. done.
Qed.

(** The headers of a response that started from a new writer. *)
Definition static_header_map (f : fileInfo) (e : encodingInfo) (hashed : bool) : header :=
  w_header (static_headers (new_writer false) f e hashed).

Lemma static_header_lookup f e b :
  let h := static_header_map f e b in
  h !! gs "Etag" = Some [etag f] /\ h !! gs "Content-Type" = Some [contentType f] /\
  h !! gs "Content-Encoding" = Some [encoding e] /\
  h !! gs "Vary" = Some [gs "Accept-Encoding"] /\
  h !! gs "Cache-Control" =
    (if b then Some [gs "public, max-age=31536000, immutable"] else None) /\
  h !! gs "Content-Length" = None.
Proof. destruct b; vm_compute; split_and!; reflexivity. Qed.

Lemma Header_Get_lookup (h : header) k vs :
  CanonicalKey k = k -> h !! k = vs ->
  Header_Get h k = match vs with Some (v :: _) => v | _ => [] end.
Proof. intros Hk Hv. unfold Header_Get. by rewrite Hk, Hv. Qed.

Lemma lookup_Set_ne (h : header) k v k' :
  CanonicalKey k <> k' -> Header_Set h k v !! k' = h !! k'.
Proof. intros H. unfold Header_Set. by rewrite lookup_insert_ne. Qed.

(** The headers [serveContent] adds do not replace those of the handler. *)
Lemma full_header_keeps env f e b name modtime content k :
  k ∈ [gs "Etag"; gs "Content-Type"; gs "Content-Encoding"; gs "Vary"; gs "Cache-Control"] ->
  full_header env (static_headers (new_writer false) f e b) name modtime content !! k =
  static_header_map f e b !! k.
Proof.
  intros Hk. destruct (static_header_lookup f e b) as (_ & Hct & _).
  unfold full_header, sniff_type, setLastModified.
  assert (forall k', k' ∈ [gs "Last-Modified"; gs "Accept-Ranges"; gs "Content-Length"] ->
            CanonicalKey k' <> k) as Hne.
  { intros k' Hk'.
    repeat (apply elem_of_cons in Hk as [->|Hk]); [..|by apply not_elem_of_nil in Hk];
      repeat (apply elem_of_cons in Hk' as [->|Hk']);
      first [by apply not_elem_of_nil in Hk' | by apply (bool_decide_unpack _)]. }
  assert (forall h : header, h !! k = static_header_map f e b !! k ->
    (if bool_decide (Header_Get (Header_Set h (gs "Accept-Ranges") (gs "bytes")) (gs "Content-Encoding") = [])
     then Header_Set (Header_Set h (gs "Accept-Ranges") (gs "bytes")) (gs "Content-Length") (itoa (length content))
     else Header_Set h (gs "Accept-Ranges") (gs "bytes")) !! k = static_header_map f e b !! k) as Hh.
  { intros h <-. case_bool_decide; rewrite ?lookup_Set_ne; try done; apply Hne; set_solver. }
  destruct (isZeroModTime modtime); cbn [w_header set_header].
  - fold (static_header_map f e b). rewrite Hct. by apply Hh.
  - fold (static_header_map f e b). rewrite lookup_Set_ne by done. rewrite Hct. apply Hh. cbn [w_header set_header].
    rewrite lookup_Set_ne; [done|]. apply Hne. set_solver.
Qed.

(** A request for the file, without conditions or ranges, is answered with
    status 200, the content of the negotiated encoding unchanged, its encoding
    named, the hash as entity tag, and the immutable cache policy exactly when the
    request carried the right hash. *)
Lemma static_served env fs f r :
  Clean (r_path r) = identityPath f -> hash_ok f r -> encodings f <> [] -> files_present fs f ->
  plain_request r -> r_method r <> gs "HEAD" ->
  exists i e err c w' h,
    negiotiateEncoding (Header_values (r_header r) (gs "Accept-Encoding")) (encodings f)
      = Ret (Some i, err) /\ encodings f !! i = Some e /\
    fs (path e) = Ok {| sf_content := c; sf_seeker := true |} /\
    staticFileHandler env fs f (new_writer false) r = Ret w' /\
    w_sent w' = Some (200%Z, h) /\ w_body w' = c /\
    h !! gs "Etag" = Some [etag f] /\ h !! gs "Content-Type" = Some [contentType f] /\
    h !! gs "Content-Encoding" = Some [encoding e] /\
    h !! gs "Cache-Control" =
      (if hashed r then Some [gs "public, max-age=31536000, immutable"] else None).
Proof.
  intros Hp Hh Hne Hfs Hr Hm.
  destruct (static_negotiated env fs f (new_writer false) r Hp Hh Hne Hfs) as (i & e & err & c & Hn & He & Hc & ->).
  destruct (static_header_lookup f e (hashed r)) as (L1 & L2 & L3 & L4 & L5 & L6).
  destruct (serveContent_full env (static_headers (new_writer false) f e (hashed r)) r (path e) (modtime e) c)
    as (w' & Hw & Hs & Hb & _); try done; try (unfold static_headers; by destruct (hashed r)).
  exists i, e, err, c, w', (full_header env (static_headers (new_writer false) f e (hashed r)) (path e) (modtime e) c).
  split_and!; try done.
  - rewrite Hb. unfold static_headers. by destruct (hashed r).
  - rewrite full_header_keeps by set_solver. done.
  - rewrite full_header_keeps by set_solver. done.
  - rewrite full_header_keeps by set_solver. done.
  - rewrite full_header_keeps by set_solver. done.
Qed.

(** A client that comes back with the entity tag it was given is told that the
    file did not change, whichever encoding it would get, and no body is sent. *)
Lemma static_revalidated env fs f r :
  Clean (r_path r) = identityPath f -> hash_ok f r -> encodings f <> [] -> files_present fs f ->
  forallb etag_byte (hash f) = true ->
  Header_Get (r_header r) (gs "If-None-Match") = etag f ->
  no_header r [gs "If-Match"; gs "If-Unmodified-Since"] -> get_or_head r = true ->
  exists w', staticFileHandler env fs f (new_writer false) r = Ret w' /\
    status w' = Some 304%Z /\ w_body w' = [].
Proof.
  intros Hp Hh Hne Hfs Ht Hi Hn Hg.
  destruct (static_negotiated env fs f (new_writer false) r Hp Hh Hne Hfs) as (i & e & err & c & _ & _ & _ & ->).
  destruct (static_header_lookup f e (hashed r)) as (L1 & _).
  destruct (serveContent_not_modified env (static_headers (new_writer false) f e (hashed r)) r (path e)
              (modtime e) c (hash f)) as (w' & -> & Hs & Hb); try done.
  - by rewrite (Header_Get_lookup _ (gs "Etag") (Some [etag f])).
  - unfold static_headers. by destruct (hashed r).
  - exists w'. split_and!; [done..|]. rewrite Hb. unfold static_headers. by destruct (hashed r).
Qed.

(** A wrong path or a wrong hash is answered with 404, and nothing of the file,
    not even its headers, is sent. *)
Lemma static_not_found env fs f r :
  Clean (r_path r) <> identityPath f \/ (Query_Get r (gs "hash") <> [] /\ Query_Get r (gs "hash") <> hash f) ->
  staticFileHandler env fs f (new_writer false) r = http_NotFound (new_writer false).
Proof.
  intros [H|[H1 H2]]; unfold staticFileHandler.
  - by rewrite bool_decide_false.
  - case_bool_decide; [|done]. cbn [negb]. by rewrite !bool_decide_false.
Qed.

(** ** An environment for examples *)

Definition no_env : mime_env :=
  {| ParseTime := fun _ => None; FormatTime := fun _ => gs "now"; TypeByExtension := fun _ => [];
     DetectContentType := fun _ => gs "application/octet-stream";
     MultipartRanges := fun _ _ => ([], []) |}.
