(* ===== verification/Funcs.v ===== *)
(** * Template functions (funcs.go)

    The functions every template can call.  Sanitizing, markdown, the printing of
    sizes and times, and reflection on values of unknown type are arguments; the
    tables of policies and configurations are state. *)

From S2P Require Import Prelude GoStrings GoErrors Http ServeContent.

(** ** Sanitizing and markdown *)

Section tables.
Context {Policy Markdown : Type}.
Context (Sanitize : Policy -> gostring -> gostring).
Context (Convert : Markdown -> gostring -> result gostring).
Context (Sprint : list gostring -> gostring).             (* [%v] of a slice *)

(** [AddBlueMondayPolicy]; the message ends with the old policy. *)
Definition AddBlueMondayPolicy (show : Policy -> gostring) (policies : gmap gostring Policy) (name : gostring)
    (policy : Policy) : outcome (gmap gostring Policy) :=
  match policies !! name with
  | Some old => Panic (gs "bluemonday policy with name " ++ name ++ gs " already exists: " ++ show old)
  | None => Ret (<[name := policy]> policies)
  end.

Definition FuncSanitizeHtml (policies : gmap gostring Policy) (policyName html : gostring) : result gostring :=
  match policies !! policyName with
  | None => Err (ErrText (gs "failed to find policy name '" ++ policyName ++ gs "'"))
  | Some policy => Ok (Sanitize policy html)
  end.

Definition AddMarkdownConifg (show : Markdown -> gostring) (configs : gmap gostring Markdown) (name : gostring)
    (md : Markdown) : outcome (gmap gostring Markdown) :=
  match configs !! name with
  | Some old => Panic (gs "markdown policy with name " ++ name ++ gs " already exists: " ++ show old)
  | None => Ret (<[name := md]> configs)
  end.

Definition FuncMarkdown (configs : gmap gostring Markdown) (input : gostring) (configName : list gostring) :
    result gostring :=
  let go config :=
    match configs !! config with
    | None => Err (ErrText (gs "unknown markdown config name: " ++ config))
    | Some md => Convert md input
    end in
  match configName with
  | [] => go (gs "default")
  | [config] => go config
  | _ => Err (ErrText (gs "too many configName arguments provided: " ++ Sprint configName))
  end.

(** The policies and the configurations a program starts with; bluemonday and goldmark
    make them. *)
Context (StrictPolicy UGCPolicy : Policy).
Context (AddTargetBlankToFullyQualifiedLinks AllowRelativeURLs : Policy -> bool -> Policy).

Definition blueMondayPolicies : gmap gostring Policy :=
  {[ gs "strict" := StrictPolicy;
     gs "ugc" := UGCPolicy;
     gs "externalugc" := AllowRelativeURLs (AddTargetBlankToFullyQualifiedLinks UGCPolicy true) false ]}.

Context {Extension HlOption FormatOption MdOption ParserOption RendererOption : Type}.
Context (WithExtensions : list Extension -> MdOption) (GFM Footnote : Extension).
Context (NewHighlighting : list HlOption -> Extension) (WithFormatOptions : list FormatOption -> HlOption).
Context (WithClasses : bool -> FormatOption).
Context (WithParserOptions : list ParserOption -> MdOption) (WithAutoHeadingID : ParserOption).
Context (WithRendererOptions : list RendererOption -> MdOption) (WithUnsafe : RendererOption).
Context (goldmark_New : list MdOption -> Markdown).

Definition mdOpts : list MdOption :=
  [WithExtensions [GFM; Footnote; NewHighlighting [WithFormatOptions [WithClasses true]]];
   WithParserOptions [WithAutoHeadingID]].

Definition markdownConfigs : gmap gostring Markdown :=
  {[ gs "default" := goldmark_New mdOpts;
     gs "unsafe" := goldmark_New (mdOpts ++ [WithRendererOptions [WithUnsafe]]) ]}.

(** Adding configurations never changes one that is there, [markdown]'s own included:
    a program that tries panics. *)
Lemma AddMarkdownConifg_keeps show configs added configs' name md :
  foldl (fun m nc => m ← m; AddMarkdownConifg show m nc.1 nc.2) (Ret configs) added = Ret configs' ->
  configs !! name = Some md -> configs' !! name = Some md.
Proof.
  revert configs. induction added as [|[n c] added IH]; intros configs; cbn [foldl]; [by intros [= <-]|].
  cbn [mbind outcome_bind fst snd]. unfold AddMarkdownConifg at 2. destruct (configs !! n) as [old|] eqn:E.
  - assert (forall msg, foldl (fun m (nc : gostring * Markdown) => m ← m; AddMarkdownConifg show m nc.1 nc.2)
              (Panic msg) added = Panic msg) as -> by (intros; clear; by induction added). done.
  - intros H Hm. apply (IH _ H). rewrite lookup_insert_ne by congruence. done.
Qed.
End tables.

(** ** Leaving a template, and trusted strings *)

Definition FuncReturn : result gostring := Err ReturnError.

(** [Errorf] formats a value with [fmt]. *)
Definition FuncFailf {Any : Type} (Errorf : gostring -> list Any -> goerr) (format : gostring) (args : list Any) :
    result gostring := Err (Errorf format args).

Inductive trusted :=
| HTML (s : gostring) | HTMLAttr (s : gostring) | JS (s : gostring) | JSStr (s : gostring) | Srcset (s : gostring).

Definition FuncTrustHtml (s : gostring) : trusted := HTML s.
Definition FuncTrustAttr (s : gostring) : trusted := HTMLAttr s.
Definition FuncTrustJS (s : gostring) : trusted := JS s.
Definition FuncTrustJSStr (s : gostring) : trusted := JSStr s.
Definition FuncTrustSrcSet (s : gostring) : trusted := Srcset s.

(** ** humanize *)

Definition MaxUint64 : N := 18446744073709551615.

Inductive num_error := ErrSyntax | ErrRange.

(** [strconv.ParseUint(s, 10, 64)]: the digits from the left, until one is none or
    the number does not fit. *)
Fixpoint parse_uint (n : N) (s : gostring) : num_error + N :=
  match s with
  | [] => inr n
  | c :: s' =>
      if in_range 48 57 c then
        let n := (n * 10 + (byte_N c - 48))%N in
        if (MaxUint64 <? n)%N then inl ErrRange else parse_uint n s'
      else inl ErrSyntax
  end.

Definition ParseUint (s : gostring) : num_error + N :=
  match s with [] => inl ErrSyntax | _ => parse_uint 0 s end.

Section humanize.
Context {Time : Type}.
Context (humanize_Bytes : N -> gostring) (humanize_Time : Time -> gostring).
Context (time_Parse : gostring -> gostring -> result Time).
Context (Quote : gostring -> gostring).                   (* strconv.Quote *)

Definition RFC1123Z : gostring := gs "Mon, 02 Jan 2006 15:04:05 -0700".

Definition num_error_text (data : gostring) (e : num_error) : gostring :=
  gs "strconv.ParseUint: parsing " ++ Quote data ++ gs ": " ++
  match e with ErrSyntax => gs "invalid syntax" | ErrRange => gs "value out of range" end.

Definition FuncHumanize (formatType data : gostring) : result gostring :=
  let parts := Split formatType ":"%char in
  let part0 := default [] (head parts) in
  if bool_decide (part0 = gs "size") then
    match ParseUint data with
    | inl e => Err (ErrText (gs "humanize: size cannot be parsed: " ++ num_error_text data e))
    | inr dataint => Ok (humanize_Bytes dataint)
    end
  else if bool_decide (part0 = gs "time") then
    let timelayout := if bool_decide (1 < length parts) then drop (length part0 + 1) formatType else RFC1123Z in
    match time_Parse timelayout data with
    | Err e => Err (ErrText (gs "humanize: time cannot be parsed: " ++ Error e))
    | Ok t => Ok (humanize_Time t)
    end
  else Err (ErrText (gs "no know function was given")).

(** The digits read from the left grow; what does not fit is refused. *)
Lemma parse_uint_spec n s :
  (n <= MaxUint64)%N ->
  match foldl digit_step (Some n) s with
  | Some m => (n <= m)%N /\ parse_uint n s = if (MaxUint64 <? m)%N then inl ErrRange else inr m
  | None => exists e, parse_uint n s = inl e
  end.
Proof.
  revert n. induction s as [|c s IH]; intros n Hn; cbn [foldl parse_uint].
  { split; [done|]. destruct (N.ltb_spec MaxUint64 n); [lia|done]. }
  unfold digit_step at 2. destruct (in_range 48 57 c) eqn:Ec.
  - set (n' := (n * 10 + (byte_N c - 48))%N). destruct (N.ltb_spec MaxUint64 n') as [Hbig|Hsmall].
    + assert (forall s m, (MaxUint64 < m)%N ->
        match foldl digit_step (Some m) s with Some m' => (m <= m')%N | None => True end) as Hmono.
      { clear. induction s as [|c s IH]; intros m Hm; cbn [foldl]; [done|]. unfold digit_step at 2.
        destruct (in_range 48 57 c).
        - specialize (IH (m * 10 + (byte_N c - 48))%N). destruct (foldl _ _ s); [|done].
          assert (MaxUint64 < m * 10 + (byte_N c - 48))%N by lia. specialize (IH H). lia.
        - assert (foldl digit_step None s = None) as -> by (clear; induction s; done). done. }
      specialize (Hmono s n' Hbig). destruct (foldl digit_step (Some n') s) as [m|]; [|by eexists].
      split; [lia|]. destruct (N.ltb_spec MaxUint64 m); [done|lia].
    + specialize (IH n' Hsmall). destruct (foldl digit_step (Some n') s) as [m|]; [|done].
      destruct IH as [? IH]. split; [lia|done].
  - assert (foldl digit_step None s = None) as -> by (clear; induction s; done). by eexists.
Qed.

Lemma ParseUint_itoa n :
  ParseUint (itoa n) = if (MaxUint64 <? N.of_nat n)%N then inl ErrRange else inr (N.of_nat n).
Proof.
  pose proof (parse_length_itoa n) as H. unfold parse_length in H.
  destruct (itoa n) as [|c s] eqn:E; [done|]. unfold ParseUint.
  change (foldl digit_step (Some 0%N) (c :: s) = Some (N.of_nat n)) in H.
  pose proof (parse_uint_spec 0 (c :: s)) as Hs. rewrite H in Hs. by apply Hs.
Qed.

(** [humanize] takes the decimal form of every 64-bit number of bytes and
    refuses larger ones; and the time layout after the first colon reaches the
    parser unchanged, the colons of the layout included. *)
Lemma FuncHumanize_args :
  (forall n, FuncHumanize (gs "size") (itoa n) =
     if (MaxUint64 <? N.of_nat n)%N
     then Err (ErrText (gs "humanize: size cannot be parsed: " ++ num_error_text (itoa n) ErrRange))
     else Ok (humanize_Bytes (N.of_nat n))) /\
  (forall layout data t, time_Parse layout data = Ok t ->
     FuncHumanize (gs "time:" ++ layout) data = Ok (humanize_Time t)) /\
  (forall data t, time_Parse RFC1123Z data = Ok t -> FuncHumanize (gs "time") data = Ok (humanize_Time t)).
Proof.
  split_and!.
  - intros n. unfold FuncHumanize. change (default [] (head (Split (gs "size") ":"%char))) with (gs "size").
    rewrite bool_decide_true by done. rewrite ParseUint_itoa. by destruct (MaxUint64 <? _)%N.
  - intros layout data t Ht. unfold FuncHumanize.
    assert (Split (gs "time:" ++ layout) ":"%char = gs "time" :: Split layout ":"%char) as ->.
    { apply (Split_app (gs "time") layout). by apply (bool_decide_unpack _). }
    cbn [head default]. rewrite (bool_decide_false (gs "time" = gs "size")) by done.
    rewrite (bool_decide_true (gs "time" = gs "time")) by done.
    rewrite bool_decide_true by (cbn; pose proof (Split_not_nil layout ":"%char); destruct (Split layout _); cbn; lia || done).
    match goal with |- context [time_Parse ?l data] => change l with layout end. by rewrite Ht.
  - intros data t Ht. unfold FuncHumanize. change (Split (gs "time") ":"%char) with [gs "time"].
    cbn [head default length]. rewrite (bool_decide_false (gs "time" = gs "size")) by done.
    rewrite (bool_decide_true (gs "time" = gs "time")) by done. rewrite bool_decide_false by lia. by rewrite Ht.
Qed.
End humanize.

(** ** idx *)

Section idx.
Context {Any : Type}.

(** [reflect.Value.Index], on slices, arrays and strings. *)
Definition FuncIdx (kind_indexable : bool) (idx : Z) (arr : list Any) : outcome Any :=
  if negb kind_indexable then Panic (gs "reflect: call of reflect.Value.Index on a value that is no list")
  else if (idx <? 0)%Z then Panic (gs "reflect: slice index out of range")
  else match arr !! Z.to_nat idx with
       | Some x => Ret x
       | None => Panic (gs "reflect: slice index out of range")
       end.
End idx.

(** ** try *)

Section try.
(** Values, with nil as [None], and types with their zero values. *)
Context {Any Ty : Type} (zero : Ty -> Any) (as_string : Any -> option gostring).

(** A function value: the types of its parameters, the number of its results,
    whether the last one is an error, and the call, which [reflect] checks. *)
Record gofunc := {
  fn_in : list Ty;
  fn_numOut : nat;
  fn_last_error : bool;
  fn_call : list Any -> outcome (option Any * option goerr)
}.

Inductive callee := NilFunc | IsFunc (f : gofunc) | HasMethods (method : gostring -> option gofunc).

(** [result] *)
Record try_result := { try_Value : option Any; try_Error : option goerr }.

Definition result_OK (r : try_result) : bool := bool_decide (try_Error r = None).

(** The arguments for [reflect]: a nil one becomes the zero value of its type. *)
Fixpoint reflect_args (f : gofunc) (i : nat) (args : list (option Any)) : outcome (list Any) :=
  match args with
  | [] => Ret []
  | Some a :: args' => rest ← reflect_args f (S i) args'; Ret (a :: rest)
  | None :: args' =>
      match fn_in f !! i with
      | Some ty => rest ← reflect_args f (S i) args'; Ret (zero ty :: rest)
      | None => Panic (gs "reflect: Func index out of bounds")
      end
  end.

(** The function to call and its arguments. *)
Definition resolve (fn : callee) (args : list (option Any)) : result (gofunc * list (option Any)) :=
  match fn with
  | NilFunc => Err (ErrText (gs "nil func"))
  | IsFunc f => Ok (f, args)
  | HasMethods method =>
      match args with
      | [] => Err (ErrText (gs "not callable (no method name provided)"))
      | a :: args' =>
          match a ≫= as_string with
          | None => Err (ErrText (gs "not callable (non-string method name)"))
          | Some methodName =>
              match method methodName with
              | Some f => Ok (f, args')
              | None => Err (ErrText (gs "not callable (method not found)"))
              end
          end
      end
  end.

Definition FuncTry (fn : callee) (args : list (option Any)) : outcome (result try_result) :=
  match resolve fn args with
  | Err e => Ret (Err e)
  | Ok (f, args) =>
      let n := fn_numOut f in
      if negb (bool_decide (n = 1)) && negb (bool_decide (n = 2)) then
        Ret (Err (ErrText (gs "cannot call func that has " ++ itoa n ++ gs " outputs")))
      else if negb (fn_last_error f) then
        Ret (Err (ErrText (gs "cannot call func whose last arg is not error")))
      else
        reflectArgs ← reflect_args f 0 args;
        '(v, err) ← fn_call f reflectArgs;
        Ret (Ok {| try_Value := if bool_decide (1 < n) then v else None; try_Error := err |})
  end.

(** A function that can fail is called with the arguments given, and its error is
    handed to the template; [try] itself only fails for what cannot be called. *)
Lemma FuncTry_calls f args v err :
  (fn_numOut f = 1 \/ fn_numOut f = 2) -> fn_last_error f = true -> fn_call f args = Ret (v, err) ->
  FuncTry (IsFunc f) (Some <$> args) =
    Ret (Ok {| try_Value := if bool_decide (fn_numOut f = 2) then v else None; try_Error := err |}).
Proof.
  intros Hn He Hc. unfold FuncTry. cbn [resolve].
  assert (forall i, reflect_args f i (Some <$> args) = Ret args) as Hargs.
  { clear. induction args as [|a args IH]; intros i; [done|]. cbn. by rewrite IH. }
  destruct Hn as [Hn|Hn]; rewrite Hn, He; cbn [negb andb]; rewrite Hargs; cbn [mbind outcome_bind]; by rewrite Hc.
Qed.
End try.

(** ** The tables of functions *)

(** The functions of this package, by the name of the Go function. *)
Inductive xfunc :=
| XSanitizeHtml | XMarkdown | XSplitFrontMatter | XReturn | XFailf | XHumanize
| XTrustHtml | XTrustAttr | XTrustJS | XTrustJSStr | XTrustSrcSet | XIdx | XTry.

Definition xtemplateFuncs : gmap gostring xfunc :=
  list_to_map [(gs "sanitizeHtml", XSanitizeHtml); (gs "markdown", XMarkdown);
    (gs "splitFrontMatter", XSplitFrontMatter); (gs "return", XReturn); (gs "failf", XFailf);
    (gs "humanize", XHumanize); (gs "trustHtml", XTrustHtml); (gs "trustAttr", XTrustAttr); (gs "trustJS", XTrustJS);
    (gs "trustJSStr", XTrustJSStr); (gs "trustSrcSet", XTrustSrcSet); (gs "idx", XIdx); (gs "try", XTry)].

(** The signature of a skeleton: parameters before the variadic one, whether there is
    one, and results. *)
Record skeleton := { sk_in : nat; sk_variadic : bool; sk_out : nat }.

Definition sk (i : nat) (v : bool) (o : nat) : skeleton := {| sk_in := i; sk_variadic := v; sk_out := o |}.

Definition buliltinsSkeleton : gmap gostring skeleton :=
  list_to_map [(gs "and", sk 1 true 1); (gs "call", sk 1 true 2); (gs "html", sk 0 true 1); (gs "index", sk 1 true 2);
    (gs "slice", sk 1 true 2); (gs "js", sk 0 true 1); (gs "len", sk 1 false 2); (gs "not", sk 1 false 1);
    (gs "or", sk 1 true 1); (gs "print", sk 0 true 1); (gs "printf", sk 1 true 1); (gs "println", sk 0 true 1);
    (gs "urlquery", sk 0 true 1);
    (gs "eq", sk 1 true 2); (gs "ge", sk 1 true 2); (gs "gt", sk 1 true 2); (gs "le", sk 1 true 2);
    (gs "lt", sk 1 true 2); (gs "ne", sk 1 true 2)].

(** No function of this package hides a function of the template language. *)
Lemma functions_disjoint : map_Forall (fun name _ => buliltinsSkeleton !! name = None) xtemplateFuncs.
Proof. apply (bool_decide_unpack _). vm_compute. exact I. Qed.
