(* ===== verification/Mux.v ===== *)
(** * http.ServeMux

    The request multiplexer of [net/http] as the builder uses it: parsing of
    patterns with wildcards, the conflict test of registration, which makes
    [HandleFunc] panic, and the choice of the handler.  Patterns are compared as
    [net/http] does, on methods and segments. *)

From S2P Require Import Prelude GoStrings GoErrors GoPath Http.

(** ** Patterns *)

(** A literal segment ([{$}] is the literal "/"), a wildcard, or a wildcard that
    takes the rest of the path (also a trailing slash, which has no name). *)
Inductive segment :=
| Lit (s : gostring)
| Wild (name : gostring)
| Multi (name : gostring).

Record pattern := { pat_method : gostring; pat_host : gostring; pat_segs : list segment }.

#[export] Instance segment_eq : EqDecision segment.
Proof. solve_decision. Defined.
#[export] Instance pattern_eq : EqDecision pattern.
Proof. solve_decision. Defined.

Definition hex_value (c : ascii) : option N :=
  if in_range 48 57 c then Some (byte_N c - 48)%N
  else if in_range 97 102 c then Some (byte_N c - 87)%N
  else if in_range 65 70 c then Some (byte_N c - 55)%N
  else None.

(** [url.PathUnescape]; [None] for a malformed escape. *)
Fixpoint PathUnescape (s : gostring) : option gostring :=
  match s with
  | [] => Some []
  | c :: s' =>
      if bool_decide (c = "%"%char) then
        match s' with
        | a :: b :: s'' =>
            match hex_value a, hex_value b with
            | Some x, Some y => cons (ascii_of_N (x * 16 + y)) <$> PathUnescape s''
            | _, _ => None
            end
        | _ => None
        end
      else cons c <$> PathUnescape s'
  end.

Definition pathUnescape (s : gostring) : gostring := default s (PathUnescape s).

(** [cleanPath] of net/http: like [path.Clean], keeping a trailing slash. *)
Definition cleanPath (p : gostring) : gostring :=
  match p with
  | [] => [SLASH]
  | _ =>
      let p := if HasPrefix p [SLASH] then p else SLASH :: p in
      let np := Clean p in
      if HasSuffix p [SLASH] && negb (bool_decide (np = [SLASH])) then np ++ [SLASH] else np
  end.

(** The method token before the first blank. *)
Definition is_blank (c : ascii) : bool := bool_decide (c = " "%char) || bool_decide (c = "009"%char).

Fixpoint cut_blank (s : gostring) : option (gostring * gostring) :=
  match s with
  | [] => None
  | c :: s' =>
      if is_blank c then Some ([], s')
      else '(a, b) ← cut_blank s'; Some (c :: a, b)
  end.

Fixpoint trim_blanks (s : gostring) : gostring :=
  match s with
  | c :: s' => if is_blank c then trim_blanks s' else s
  | [] => []
  end.

Section parse.
(** Letters and digits beyond ASCII, for wildcard names. *)
Context (unicode_IsLetter unicode_IsDigit : N -> bool).

Definition wild_letter (c : N) : bool :=
  ((97 <=? c) && (c <=? 122) || (65 <=? c) && (c <=? 90) || (c =? 95) ||
   (128 <=? c) && unicode_IsLetter c)%N.

Definition wild_digit (c : N) : bool :=
  ((48 <=? c) && (c <=? 57) || (128 <=? c) && unicode_IsDigit c)%N.

Definition isValidWildcardName (s : gostring) : bool :=
  match snd <$> runes s with
  | [] => false
  | c :: cs => wild_letter c && forallb (fun c => wild_letter c || wild_digit c) cs
  end.

(** One segment; [last] tells whether the path ends after it. *)
Definition parse_segment (seg : gostring) (last : bool) (seen : list gostring) :
    gostring + segment :=
  if bool_decide ("{"%char ∈ seg) then
    if negb (HasPrefix seg (gs "{")) then inl (gs "bad wildcard segment (must start with '{')")
    else if negb (HasSuffix seg (gs "}")) then inl (gs "bad wildcard segment (must end with '}')")
    else
      let name := take (length seg - 2) (drop 1 seg) in
      if bool_decide (name = gs "$") then
        if last then inr (Lit [SLASH]) else inl (gs "{$} not at end")
      else
        let multi := HasSuffix name (gs "...") in
        let name := TrimSuffix name (gs "...") in
        if multi && negb last then inl (gs "{...} wildcard not at end")
        else if bool_decide (name = []) then inl (gs "empty wildcard")
        else if negb (isValidWildcardName name) then inl (gs "bad wildcard name")
        else if bool_decide (name ∈ seen) then inl (gs "duplicate wildcard name")
        else inr (if multi then Multi name else Wild name)
  else inr (Lit (pathUnescape seg)).

Definition seg_name (s : segment) : list gostring :=
  match s with Lit _ => [] | Wild n | Multi n => [n] end.

(** The segments of a path, given its elements after the leading slash. *)
Fixpoint parse_segments (es : list gostring) (seen : list gostring) : gostring + list segment :=
  match es with
  | [] => inr []
  | e :: es' =>
      let last := bool_decide (es' = []) in
      if bool_decide (e = []) && last then inr [Multi []]
      else
        match parse_segment e last seen with
        | inl err => inl err
        | inr s =>
            match parse_segments es' (seg_name s ++ seen) with
            | inl err => inl err
            | inr ss => inr (s :: ss)
            end
        end
  end.

(** A method is a token. *)
Definition validMethod (m : gostring) : bool :=
  negb (bool_decide (m = [])) && forallb valid_header_byte m.

Definition parsePattern (s : gostring) : gostring + pattern :=
  match s with
  | [] => inl (gs "empty pattern")
  | _ =>
      let '(method, rest) :=
        match cut_blank s with
        | Some (m, rest) => (m, trim_blanks rest)
        | None => ([], s)
        end in
      if negb (bool_decide (method = [])) && negb (validMethod method) then inl (gs "invalid method")
      else
        match Index rest [SLASH] with
        | None => inl (gs "host/path missing /")
        | Some i =>
            let host := take i rest in
            let path := drop i rest in
            if bool_decide ("{"%char ∈ host) then inl (gs "host contains '{' (missing initial '/'?)")
            else if negb (bool_decide (method = [])) && negb (bool_decide (method = gs "CONNECT")) &&
                    negb (bool_decide (cleanPath path = path))
            then inl (gs "non-CONNECT pattern with unclean path can never match")
            else
              match parse_segments (Split (drop 1 path) SLASH) [] with
              | inl err => inl err
              | inr segs => inr {| pat_method := method; pat_host := host; pat_segs := segs |}
              end
        end
  end.
End parse.

(** ** Comparing patterns *)

Inductive relationship := equivalent | moreGeneral | moreSpecific | disjoint | overlaps.

#[export] Instance relationship_eq : EqDecision relationship.
Proof. solve_decision. Defined.

Definition inverseRelationship (r : relationship) : relationship :=
  match r with moreGeneral => moreSpecific | moreSpecific => moreGeneral | r => r end.

Definition combineRelationships (r1 r2 : relationship) : relationship :=
  match r1 with
  | equivalent => r2
  | disjoint => disjoint
  | overlaps => match r2 with disjoint => disjoint | _ => overlaps end
  | moreGeneral | moreSpecific =>
      if bool_decide (r2 = equivalent) then r1
      else if bool_decide (r2 = inverseRelationship r1) then overlaps
      else r2
  end.

Definition compareMethods (m1 m2 : gostring) : relationship :=
  if bool_decide (m1 = m2) then equivalent
  else if bool_decide (m1 = []) then moreGeneral
  else if bool_decide (m2 = []) then moreSpecific
  else if bool_decide (m1 = gs "GET") && bool_decide (m2 = gs "HEAD") then moreGeneral
  else if bool_decide (m2 = gs "GET") && bool_decide (m1 = gs "HEAD") then moreSpecific
  else disjoint.

Definition compareSegments (s1 s2 : segment) : relationship :=
  match s1, s2 with
  | Multi _, Multi _ => equivalent
  | Multi _, _ => moreGeneral
  | _, Multi _ => moreSpecific
  | Wild _, Wild _ => equivalent
  | Wild _, Lit s => if bool_decide (s = [SLASH]) then disjoint else moreGeneral
  | Lit s, Wild _ => if bool_decide (s = [SLASH]) then disjoint else moreSpecific
  | Lit a, Lit b => if bool_decide (a = b) then equivalent else disjoint
  end.

Definition is_multi (s : segment) : bool := match s with Multi _ => true | _ => false end.

Definition last_multi (segs : list segment) : bool :=
  match last segs with Some s => is_multi s | None => false end.

(** The loop of [comparePaths] and what follows it; [m1] and [m2] tell whether the
    whole patterns end in a multi wildcard. *)
Fixpoint compare_segs (m1 m2 : bool) (segs1 segs2 : list segment) (rel : relationship) : relationship :=
  match segs1, segs2 with
  | [], [] => rel
  | [], _ :: _ => if m1 then combineRelationships rel moreGeneral else disjoint
  | _ :: _, [] => if m2 then combineRelationships rel moreSpecific else disjoint
  | s1 :: segs1', s2 :: segs2' =>
      let rel := combineRelationships rel (compareSegments s1 s2) in
      if bool_decide (rel = disjoint) then disjoint else compare_segs m1 m2 segs1' segs2' rel
  end.

Definition comparePaths (segs1 segs2 : list segment) : relationship :=
  if negb (bool_decide (length segs1 = length segs2)) && negb (last_multi segs1) && negb (last_multi segs2)
  then disjoint
  else compare_segs (last_multi segs1) (last_multi segs2) segs1 segs2 equivalent.

Definition comparePathsAndMethods (p1 p2 : pattern) : relationship :=
  let mrel := compareMethods (pat_method p1) (pat_method p2) in
  if bool_decide (mrel = disjoint) then disjoint
  else combineRelationships mrel (comparePaths (pat_segs p1) (pat_segs p2)).

(** Patterns for different hosts do not conflict; a pattern for one host and one
    for all hosts do not either. *)
Definition conflictsWith (p1 p2 : pattern) : bool :=
  bool_decide (pat_host p1 = pat_host p2) &&
  (let rel := comparePathsAndMethods p1 p2 in
   bool_decide (rel = equivalent) || bool_decide (rel = overlaps)).

(** ** Registration *)

(** A multiplexer: the patterns and what they lead to, in the order of
    registration. *)
Abbreviation mux A := (list (pattern * A)).

(** [HandleFunc]: it panics for a bad pattern and for one that conflicts with a
    registered one. *)
Definition HandleFunc {A} (letter digit : N -> bool) (m : mux A) (pat : gostring) (h : A) :
    outcome (mux A) :=
  match parsePattern letter digit pat with
  | inl err => Panic (gs "parsing " ++ pat ++ gs ": " ++ err)
  | inr p =>
      if existsb (fun q => conflictsWith p q.1) m
      then Panic (gs "pattern " ++ pat ++ gs " conflicts with a registered pattern")
      else Ret (m ++ [(p, h)])
  end.

(** ** Matching *)

(** The segments of a request path; a trailing slash is a segment "/". *)
Fixpoint unescape_elems (es : list gostring) : list gostring :=
  match es with
  | [] => []
  | [[]] => [[SLASH]]
  | e :: es' => pathUnescape e :: unescape_elems es'
  end.

Definition path_segments (p : gostring) : list gostring := unescape_elems (Split (drop 1 p) SLASH).

Fixpoint match_segs (segs : list segment) (path : list gostring) : bool :=
  match segs, path with
  | [], [] => true
  | Multi _ :: _, _ :: _ => true
  | Wild _ :: segs', e :: path' => negb (bool_decide (e = [SLASH])) && match_segs segs' path'
  | Lit s :: segs', e :: path' => bool_decide (s = e) && match_segs segs' path'
  | _, _ => false
  end.

Definition match_method (pm m : gostring) : bool :=
  bool_decide (pm = []) || bool_decide (pm = m) ||
  (bool_decide (pm = gs "GET") && bool_decide (m = gs "HEAD")).

Definition matches_at (host : gostring) (p : pattern) (method : gostring) (path : list gostring) : bool :=
  bool_decide (pat_host p = host) && match_method (pat_method p) method && match_segs (pat_segs p) path.

(** Patterns without a host match on any. *)
Definition matches : pattern -> gostring -> list gostring -> bool := matches_at [].

(** The most specific pattern that matches. *)
Definition better {A} (best : option (pattern * A)) (q : pattern * A) : option (pattern * A) :=
  match best with
  | None => Some q
  | Some b => if bool_decide (comparePathsAndMethods q.1 b.1 = moreSpecific) then Some q else best
  end.

Definition mux_Handler {A} (m : mux A) (method : gostring) (path : gostring) : option (pattern * A) :=
  foldl better None (filter (fun q => matches q.1 method (path_segments path)) m).

(** Patterns with the host of the request come first. *)
Definition mux_match {A} (m : mux A) (host method path : gostring) : option (pattern * A) :=
  let at_host := foldl better None (filter (fun q => matches_at host q.1 method (path_segments path)) m) in
  match (if bool_decide (host = []) then None else at_host) with
  | Some q => Some q
  | None => mux_Handler m method path
  end.

(** ** Dispatch *)

(** A match that is not owed to a trailing slash or wildcard. *)
Definition exactMatch {A} (n : option (pattern * A)) (path : gostring) : bool :=
  match n with
  | None => false
  | Some (p, _) =>
      negb (last_multi (pat_segs p)) ||
      (HasSuffix path [SLASH] &&
       bool_decide (length (pat_segs p) = length (filter (fun c => c = SLASH) path)))
  end.

(** The match, or the path to redirect to, with a slash at its end. *)
Definition matchOrRedirect {A} (m : mux A) (host method path urlpath : gostring) :
    option (pattern * A) + gostring :=
  let n := mux_match m host method path in
  if negb (exactMatch n path) && negb (HasSuffix path [SLASH]) &&
     exactMatch (mux_match m host method (path ++ [SLASH])) (path ++ [SLASH])
  then inr (cleanPath urlpath ++ [SLASH])
  else inl n.

(** Byte-wise order of strings. *)
Fixpoint string_less (a b : gostring) : bool :=
  match a, b with
  | [], [] => false
  | [], _ :: _ => true
  | _ :: _, [] => false
  | x :: a', y :: b' => (byte_N x <? byte_N y)%N || (bool_decide (x = y) && string_less a' b')
  end.

(** The methods some pattern has for this path. *)
Definition matching_methods {A} (m : mux A) (host path : gostring) : list gostring :=
  let fits h p := bool_decide (pat_host p = h) && match_segs (pat_segs p) (path_segments path) in
  pat_method <$> filter (fun p => (negb (bool_decide (host = [])) && fits host p || fits [] p) &&
                                  negb (bool_decide (pat_method p = []))) m.*1.

Definition matchingMethods {A} (m : mux A) (host path : gostring) : list gostring :=
  let ms := matching_methods m host path ++
            (if HasSuffix path [SLASH] then [] else matching_methods m host (path ++ [SLASH])) in
  let ms := if bool_decide (gs "GET" ∈ ms) then gs "HEAD" :: ms else ms in
  sort_slice string_less (remove_dups ms).

(** What the multiplexer does with a request: [escaped] is the escaped form of the
    path [urlpath]. *)
Inductive routed (A : Type) :=
| Found (p : pattern) (h : A)
| RedirectTo (path : gostring)
| NotAllowed (methods : list gostring)
| NotFound.

Arguments Found {A}.
Arguments RedirectTo {A}.
Arguments NotAllowed {A}.
Arguments NotFound {A}.

Definition findHandler {A} (m : mux A) (host method escaped urlpath : gostring) : routed A :=
  let connect := bool_decide (method = gs "CONNECT") in
  let path := if connect then escaped else cleanPath escaped in
  match matchOrRedirect m host method path urlpath with
  | inr u => RedirectTo u
  | inl n =>
      if negb connect && negb (bool_decide (path = escaped)) then RedirectTo path
      else
        match n with
        | Some (p, h) => Found p h
        | None =>
            match matchingMethods m host path with
            | [] => NotFound
            | ms => NotAllowed ms
            end
        end
  end.

(** ** Facts *)

Lemma compareSegments_refl s : compareSegments s s = equivalent.
Proof. destruct s; cbn; [by rewrite bool_decide_true|done|done]. Qed.

Lemma compare_segs_refl m segs : compare_segs m m segs segs equivalent = equivalent.
Proof.
  induction segs as [|s segs IH]; [done|]. cbn [compare_segs]. rewrite compareSegments_refl.
  cbn [combineRelationships]. by rewrite bool_decide_false.
Qed.

Lemma compare_refl p : comparePathsAndMethods p p = equivalent.
Proof.
  unfold comparePathsAndMethods, compareMethods, comparePaths. 
  rewrite (bool_decide_true (pat_method p = _)) by done.
  rewrite (bool_decide_false (equivalent = disjoint)) by done.
  rewrite (bool_decide_true (length _ = _)) by done. cbn [negb andb combineRelationships].
  apply compare_segs_refl.
Qed.

(** A pattern conflicts with itself: a second registration fails. *)
Lemma conflictsWith_refl p : conflictsWith p p = true.
Proof.
  unfold conflictsWith. rewrite compare_refl, (bool_decide_true (pat_host p = _)) by done. done.
Qed.

Section mux.
Context {A : Type} (letter digit : N -> bool).
Implicit Types m : mux A.

(** Registered patterns do not conflict. *)
Definition mux_ok (m : mux A) : Prop :=
  forall i j p q, i < j -> m !! i = Some p -> m !! j = Some q -> conflictsWith q.1 p.1 = false.

Lemma HandleFunc_Ret m pat h m' :
  HandleFunc letter digit m pat h = Ret m' ->
  exists p, parsePattern letter digit pat = inr p /\ m' = m ++ [(p, h)] /\
    Forall (fun q => conflictsWith p q.1 = false) m.
Proof.
  unfold HandleFunc. destruct (parsePattern letter digit pat) as [err|p]; [done|].
  destruct (existsb _ m) eqn:E; [done|]. intros [= <-]. exists p. split_and!; [done..|].
  apply Forall_forall. intros q Hq%list_elem_of_In.
  destruct (conflictsWith p q.1) eqn:Ec; [|done].
  assert (existsb (fun q => conflictsWith p q.1) m = true) by (apply existsb_exists; eauto). congruence.
Qed.

Lemma HandleFunc_ok m pat h m' : mux_ok m -> HandleFunc letter digit m pat h = Ret m' -> mux_ok m'.
Proof.
  intros Hm (p & _ & -> & Hf)%HandleFunc_Ret i j x y Hij Hx Hy.
  assert (j <= length m) as Hj by (apply lookup_lt_Some in Hy; rewrite length_app in Hy; simpl in Hy; lia).
  rewrite lookup_app_l in Hx by lia. destruct (decide (j = length m)) as [->|Hne].
  - rewrite lookup_last_app in Hy. injection Hy as <-. cbn. by eapply Forall_lookup_1 in Hx; [|exact Hf].
  - rewrite lookup_app_l in Hy by lia. by eapply Hm.
Qed.

(** Registering the pattern of a registered handler panics. *)
Lemma HandleFunc_twice m pat h p h' :
  parsePattern letter digit pat = inr p -> (p, h') ∈ m ->
  exists msg, HandleFunc letter digit m pat h = Panic msg.
Proof.
  intros Hp Hin. unfold HandleFunc. rewrite Hp.
  assert (existsb (fun q => conflictsWith p q.1) m = true) as ->; [|by eexists].
  apply existsb_exists. exists (p, h'). split; [by apply list_elem_of_In|]. apply conflictsWith_refl.
Qed.
End mux.

(** ** Literal patterns win *)

(** A multi wildcard only stands at the end. *)
Fixpoint wf_segs (segs : list segment) : bool :=
  match segs with
  | [] => true
  | [_] => true
  | s :: segs' => negb (is_multi s) && wf_segs segs'
  end.

Lemma wf_segs_cons s segs : wf_segs (s :: segs) = true -> wf_segs segs = true /\ (is_multi s = true -> segs = []).
Proof.
  destruct segs as [|s' segs]; [done|]. cbn. intros [H1 H2]%andb_true_iff. split; [done|].
  intros H. by rewrite H in H1.
Qed.

Lemma last_multi_cons s segs : segs <> [] -> last_multi (s :: segs) = last_multi segs.
Proof. unfold last_multi. by destruct segs. Qed.

Lemma last_multi_lits (es : list gostring) : last_multi (Lit <$> es) = false.
Proof. unfold last_multi. rewrite fmap_last. by destruct (last es). Qed.

Lemma match_length segs es :
  wf_segs segs = true -> match_segs segs es = true -> last_multi segs = false -> length segs = length es.
Proof.
  revert es. induction segs as [|s segs IH]; intros es Hwf Hm Hl; [by destruct es|].
  apply wf_segs_cons in Hwf as [Hwf Hmul]. destruct (decide (segs = [])) as [->|Hne].
  - destruct s; cbn in Hm, Hl; destruct es as [|e es]; try done; apply andb_true_iff in Hm as [_ Hm]; by destruct es.
  - rewrite last_multi_cons in Hl by done.
    destruct s; cbn in Hm; destruct es as [|e es]; try done.
    + apply andb_true_iff in Hm as [_ Hm]. cbn. by rewrite (IH es).
    + apply andb_true_iff in Hm as [_ Hm]. cbn. by rewrite (IH es).
    + by specialize (Hmul eq_refl).
Qed.

(** The relation of a literal path to a pattern that matches it, from the left and
    from the right. *)
Lemma compare_segs_lits segs es rel m2 :
  wf_segs segs = true -> match_segs segs es = true -> (segs <> [] -> m2 = last_multi segs) ->
  (rel = equivalent \/ rel = moreSpecific) ->
  let r := compare_segs false m2 (Lit <$> es) segs rel in r = equivalent \/ r = moreSpecific.
Proof.
  revert es rel. induction segs as [|s segs IH]; intros es rel Hwf Hm Hl Hrel.
  { destruct es; [by destruct Hrel as [-> | ->]; auto|done]. }
  apply wf_segs_cons in Hwf as [Hwf Hmul].
  assert (segs <> [] -> m2 = last_multi segs) as Hl'.
  { intros Hne. rewrite Hl by done. by apply last_multi_cons. }
  destruct es as [|e es]; [by destruct s|].
  destruct s as [l|n|n]; cbn in Hm.
  - apply andb_true_iff in Hm as [E%bool_decide_eq_true_1 Hm]. subst l.
    cbn [fmap list_fmap compare_segs]. rewrite compareSegments_refl.
    assert (combineRelationships rel equivalent = rel) as -> by (by destruct Hrel as [-> | ->]).
    rewrite bool_decide_false by (by destruct Hrel as [-> | ->]). by apply IH.
  - apply andb_true_iff in Hm as [E Hm]. cbn [fmap list_fmap compare_segs compareSegments].
    apply negb_true_iff in E. rewrite E.
    assert (combineRelationships rel moreSpecific = moreSpecific) as -> by (by destruct Hrel as [-> | ->]).
    rewrite bool_decide_false by done. apply IH; auto.
  - cbn [fmap list_fmap compare_segs compareSegments].
    assert (combineRelationships rel moreSpecific = moreSpecific) as -> by (by destruct Hrel as [-> | ->]).
    rewrite bool_decide_false by done. rewrite (Hmul eq_refl) in *.
    destruct es as [|e' es]; cbn; [auto|]. rewrite Hl by done. cbn. auto.
Qed.

Lemma compare_lits_segs segs es rel m1 :
  wf_segs segs = true -> match_segs segs es = true -> (segs <> [] -> m1 = last_multi segs) ->
  (rel = equivalent \/ rel = moreGeneral) ->
  let r := compare_segs m1 false segs (Lit <$> es) rel in r = equivalent \/ r = moreGeneral.
Proof.
  revert es rel. induction segs as [|s segs IH]; intros es rel Hwf Hm Hl Hrel.
  { destruct es; [by destruct Hrel as [-> | ->]; auto|done]. }
  apply wf_segs_cons in Hwf as [Hwf Hmul].
  assert (segs <> [] -> m1 = last_multi segs) as Hl'.
  { intros Hne. rewrite Hl by done. by apply last_multi_cons. }
  destruct es as [|e es]; [by destruct s|].
  destruct s as [l|n|n]; cbn in Hm.
  - apply andb_true_iff in Hm as [E%bool_decide_eq_true_1 Hm]. subst l.
    cbn [fmap list_fmap compare_segs]. rewrite compareSegments_refl.
    assert (combineRelationships rel equivalent = rel) as -> by (by destruct Hrel as [-> | ->]).
    rewrite bool_decide_false by (by destruct Hrel as [-> | ->]). by apply IH.
  - apply andb_true_iff in Hm as [E Hm]. cbn [fmap list_fmap compare_segs compareSegments].
    apply negb_true_iff in E. rewrite E.
    assert (combineRelationships rel moreGeneral = moreGeneral) as -> by (by destruct Hrel as [-> | ->]).
    rewrite bool_decide_false by done. apply IH; auto.
  - cbn [fmap list_fmap compare_segs compareSegments].
    assert (combineRelationships rel moreGeneral = moreGeneral) as -> by (by destruct Hrel as [-> | ->]).
    rewrite bool_decide_false by done. rewrite (Hmul eq_refl) in *.
    destruct es as [|e' es]; cbn; [auto|]. rewrite Hl by done. cbn. auto.
Qed.

(** The pattern of a literal path. *)
Definition literal (method : gostring) (es : list gostring) : pattern :=
  {| pat_method := method; pat_host := []; pat_segs := Lit <$> es |}.

Lemma comparePaths_lits segs es :
  wf_segs segs = true -> match_segs segs es = true ->
  (comparePaths (Lit <$> es) segs = equivalent \/ comparePaths (Lit <$> es) segs = moreSpecific) /\
  (comparePaths segs (Lit <$> es) = equivalent \/ comparePaths segs (Lit <$> es) = moreGeneral).
Proof.
  intros Hwf Hm. unfold comparePaths. rewrite last_multi_lits, length_fmap. cbn [negb].
  assert (forall b, (b = true -> last_multi segs = true) -> b && negb (last_multi segs) = false) as Hb.
  { intros []; cbn; [|done]. intros H. by rewrite H. }
  split.
  - rewrite andb_true_r, Hb; [by apply compare_segs_lits; auto|].
    intros E%negb_true_iff%bool_decide_eq_false_1. destruct (last_multi segs) eqn:El; [done|].
    by apply (match_length segs es) in El.
  - rewrite andb_true_r, Hb; [by apply compare_lits_segs; auto|].
    intros E%negb_true_iff%bool_decide_eq_false_1. destruct (last_multi segs) eqn:El; [done|].
    by apply (match_length segs es) in El.
Qed.

Lemma literal_specific method es q :
  method <> [] -> wf_segs (pat_segs q) = true -> matches q method es = true ->
  (comparePathsAndMethods (literal method es) q = equivalent \/
   comparePathsAndMethods (literal method es) q = moreSpecific) /\
  comparePathsAndMethods q (literal method es) <> moreSpecific.
Proof.
  intros Hne Hwf Hm. unfold matches, matches_at in Hm. rewrite !andb_true_iff in Hm. destruct Hm as [[_ Hmm] Hms].
  destruct (comparePaths_lits (pat_segs q) es Hwf Hms) as [H1 H2].
  unfold comparePathsAndMethods. cbn [pat_method pat_segs literal].
  assert ((compareMethods method (pat_method q) = equivalent \/ compareMethods method (pat_method q) = moreSpecific) /\
          (compareMethods (pat_method q) method = equivalent \/ compareMethods (pat_method q) method = moreGeneral))
    as [M1 M2].
  { unfold match_method in Hmm. rewrite !orb_true_iff, andb_true_iff, !bool_decide_eq_true in Hmm.
    unfold compareMethods. destruct Hmm as [[E|E]|[E1 E2]].
    - rewrite E. rewrite !(bool_decide_false (method = [])) by done.
      rewrite (bool_decide_false ([] = method)) by done. rewrite !(bool_decide_true ([] = [])) by done. auto.
    - rewrite E. rewrite !bool_decide_true by done. auto.
    - rewrite E1, E2. cbn. auto. }
  split.
  - destruct M1 as [-> | ->], H1 as [-> | ->]; cbn; auto.
  - destruct M2 as [-> | ->], H2 as [-> | ->]; cbn; done.
Qed.

Lemma better_in {A} (l : list (pattern * A)) best b :
  foldl better best l = Some b -> best = Some b \/ b ∈ l.
Proof.
  revert best. induction l as [|q l IH]; intros best H; [by left|]. cbn in H.
  apply IH in H as [H|H]; [|right; by apply list_elem_of_further].
  destruct best as [b0|]; cbn in H; [case_bool_decide|]; simplify_eq; auto;
    right; apply list_elem_of_here.
Qed.

Lemma better_stays {A} (l : list (pattern * A)) b :
  Forall (fun q => comparePathsAndMethods q.1 b.1 <> moreSpecific) l ->
  foldl better (Some b) l = Some b.
Proof. induction 1 as [|q l Hq _ IH]; [done|]. cbn. by rewrite bool_decide_false. Qed.

Lemma match_lits es : match_segs (Lit <$> es) es = true.
Proof. induction es as [|e es IH]; [done|]. cbn. by rewrite bool_decide_true. Qed.

Lemma matches_literal method es : matches (literal method es) method es = true.
Proof.
  unfold matches, matches_at, match_method. cbn. rewrite match_lits, (bool_decide_true (method = method)) by done.
  by rewrite orb_true_r.
Qed.

(** ** The most specific pattern wins *)

Lemma combine_inverse a b :
  combineRelationships (inverseRelationship a) (inverseRelationship b) = inverseRelationship (combineRelationships a b).
Proof. by destruct a, b. Qed.

Lemma combine_not_disjoint a b : a <> disjoint -> b <> disjoint -> combineRelationships a b <> disjoint.
Proof. by destruct a, b. Qed.

Lemma compareSegments_sym s1 s2 : compareSegments s2 s1 = inverseRelationship (compareSegments s1 s2).
Proof.
  destruct s1, s2; cbn; try case_bool_decide; try done; case_bool_decide; by subst.
Qed.

Lemma compareMethods_sym m1 m2 : compareMethods m2 m1 = inverseRelationship (compareMethods m1 m2).
Proof. unfold compareMethods. repeat case_bool_decide; subst; done. Qed.

Lemma compare_segs_sym m1 m2 segs1 segs2 rel :
  compare_segs m2 m1 segs2 segs1 (inverseRelationship rel) = inverseRelationship (compare_segs m1 m2 segs1 segs2 rel).
Proof.
  revert segs2 rel. induction segs1 as [|s1 segs1 IH]; intros [|s2 segs2] rel; cbn [compare_segs].
  - done.
  - destruct m1; [|done]. by rewrite <- combine_inverse.
  - destruct m2; [|done]. by rewrite <- combine_inverse.
  - rewrite (compareSegments_sym s1 s2), combine_inverse.
    destruct (bool_decide_reflect (combineRelationships rel (compareSegments s1 s2) = disjoint)) as [->|Hd]; [done|].
    rewrite bool_decide_false; [apply IH|]. by destruct (combineRelationships rel (compareSegments s1 s2)).
Qed.

Lemma compare_sym p q : comparePathsAndMethods q p = inverseRelationship (comparePathsAndMethods p q).
Proof.
  unfold comparePathsAndMethods. rewrite (compareMethods_sym (pat_method p)).
  assert (comparePaths (pat_segs q) (pat_segs p) = inverseRelationship (comparePaths (pat_segs p) (pat_segs q))) as ->.
  { unfold comparePaths.
    rewrite (bool_decide_ext (length (pat_segs q) = length (pat_segs p)) (length (pat_segs p) = length (pat_segs q))) by (split; congruence).
    rewrite <- !andb_assoc, (andb_comm (negb (last_multi (pat_segs q)))).
    destruct (negb _ && (negb _ && _)); [done|]. apply (compare_segs_sym _ _ _ _ equivalent). }
  rewrite combine_inverse. by destruct (compareMethods (pat_method p) (pat_method q)).
Qed.

(** Patterns that match the same path are not disjoint. *)
Lemma compare_segs_common segs1 segs2 es rel m1 m2 :
  wf_segs segs1 = true -> wf_segs segs2 = true -> match_segs segs1 es = true -> match_segs segs2 es = true ->
  (segs1 <> [] -> m1 = last_multi segs1) -> (segs2 <> [] -> m2 = last_multi segs2) -> rel <> disjoint ->
  compare_segs m1 m2 segs1 segs2 rel <> disjoint.
Proof.
  revert segs2 es rel. induction segs1 as [|s1 segs1 IH]; intros segs2 es rel W1 W2 M1 M2 L1 L2 Hr.
  { destruct es; [|done]. by destruct segs2 as [|[]]. }
  destruct segs2 as [|s2 segs2]; [by destruct es; [destruct s1|]|].
  destruct es as [|e es]; [by destruct s1|].
  apply wf_segs_cons in W1 as [W1 U1]. apply wf_segs_cons in W2 as [W2 U2].
  assert (segs1 <> [] -> m1 = last_multi segs1) as L1'
    by (intros Hne; rewrite L1 by done; by apply last_multi_cons).
  assert (segs2 <> [] -> m2 = last_multi segs2) as L2'
    by (intros Hne; rewrite L2 by done; by apply last_multi_cons).
  assert (compareSegments s1 s2 <> disjoint) as Hs.
  { destruct s1, s2; cbn in M1, M2 |- *; try done; rewrite ?andb_true_iff in M1, M2.
    - destruct M1 as [->%bool_decide_eq_true_1 _], M2 as [->%bool_decide_eq_true_1 _]. by rewrite bool_decide_true.
    - destruct M1 as [->%bool_decide_eq_true_1 _], M2 as [->%negb_true_iff _]. done.
    - destruct M2 as [->%bool_decide_eq_true_1 _], M1 as [->%negb_true_iff _]. done. }
  cbn [compare_segs]. pose proof (combine_not_disjoint rel _ Hr Hs) as Hc. rewrite bool_decide_false by done.
  destruct (is_multi s1) eqn:E1.
  { rewrite (U1 eq_refl) in *. rewrite L1 by done. cbn [compare_segs]. unfold last_multi. cbn. rewrite E1.
    destruct segs2; [done|]. by apply combine_not_disjoint. }
  destruct (is_multi s2) eqn:E2.
  { rewrite (U2 eq_refl) in *. rewrite L2 by done. unfold last_multi. cbn [last]. rewrite E2.
    destruct segs1; [done|]. cbn [compare_segs]. by apply combine_not_disjoint. }
  apply (IH segs2 es); try done.
  - destruct s1; cbn in M1; try done; by apply andb_true_iff in M1 as [_ ?].
  - destruct s2; cbn in M2; try done; by apply andb_true_iff in M2 as [_ ?].
Qed.

Lemma compare_common p q method es :
  wf_segs (pat_segs p) = true -> wf_segs (pat_segs q) = true ->
  matches p method es = true -> matches q method es = true -> comparePathsAndMethods p q <> disjoint.
Proof.
  intros W1 W2 M1 M2. unfold matches, matches_at in M1, M2. rewrite !andb_true_iff in M1, M2.
  destruct M1 as [[_ H1] S1], M2 as [[_ H2] S2]. unfold comparePathsAndMethods.
  assert (compareMethods (pat_method p) (pat_method q) <> disjoint) as Hm.
  { unfold match_method in H1, H2. rewrite !orb_true_iff, !andb_true_iff, !bool_decide_eq_true in H1, H2.
    unfold compareMethods. destruct H1 as [[-> | ->]|[-> E]], H2 as [[-> | ->]|[-> E']]; try (by subst);
      repeat case_bool_decide; subst; cbn; done. }
  rewrite bool_decide_false by done. apply combine_not_disjoint; [done|]. unfold comparePaths.
  destruct (negb _ && negb (last_multi (pat_segs p)) && _) eqn:E; [|by eapply compare_segs_common].
  rewrite !andb_true_iff, !negb_true_iff in E. destruct E as [[El%bool_decide_eq_false_1 E1] E2].
  apply match_length in S1, S2; [|done..]. congruence.
Qed.

(** The request is one for pattern [p]: it matches, nothing more specific does, and,
    where [p] takes the rest of the path, no pattern is there for exactly the path with
    a slash at its end, to which the multiplexer would redirect. *)
Definition chosen {A} (m : mux A) (p : pattern) (method path : gostring) : Prop :=
  matches p method (path_segments path) = true /\
  (forall q, q ∈ m -> matches q.1 method (path_segments path) = true -> comparePathsAndMethods q.1 p <> moreSpecific) /\
  (last_multi (pat_segs p) = true -> HasSuffix path [SLASH] = false ->
   forall q, q ∈ m -> matches q.1 method (path_segments (path ++ [SLASH])) = true ->
     exactMatch (Some q) (path ++ [SLASH]) = false).

Lemma mux_chosen {A} (m : mux A) method path p h :
  mux_ok m -> Forall (fun q => wf_segs (pat_segs q.1) = true) m -> (p, h) ∈ m -> chosen m p method path ->
  mux_Handler m method path = Some (p, h).
Proof.
  intros Hok Hwf [i Hi]%list_elem_of_lookup (Hm & Hspec & _). unfold mux_Handler.
  rewrite <- (take_drop_middle m i _ Hi), filter_app, filter_cons_True by (by apply Is_true_true).
  rewrite foldl_app. cbn [foldl]. set (l1 := filter _ (take i m)). set (l2 := filter _ (drop (S i) m)).
  assert (better (foldl better None l1) (p, h) = Some (p, h)) as ->.
  { destruct (foldl better None l1) as [b|] eqn:E; [|done]. apply better_in in E as [?|Hb]; [done|].
    apply list_elem_of_filter in Hb as [Hb1%Is_true_true Hb2].
    apply list_elem_of_lookup in Hb2 as [j Hj]. apply lookup_take_Some in Hj as [Hj Hji].
    assert (b ∈ m) as Hbm by (by eapply list_elem_of_lookup_2).
    pose proof (Hok j i b (p, h) Hji Hj Hi) as Hc. specialize (Hspec b Hbm Hb1).
    rewrite Forall_forall in Hwf.
    pose proof (compare_common p b.1 method _ (Hwf (p, h) ltac:(by eapply list_elem_of_lookup_2)) (Hwf b Hbm) Hm Hb1) as Hd.
    rewrite compare_sym in Hspec. unfold conflictsWith in Hc. cbn [fst] in Hc.
    unfold matches, matches_at in Hm, Hb1. rewrite !andb_true_iff, !bool_decide_eq_true in Hm, Hb1.
    destruct Hm as [[Hp _] _], Hb1 as [[Hb1 _] _]. rewrite Hp, Hb1, bool_decide_true in Hc by done. cbn [andb] in Hc.
    cbn [better]. rewrite bool_decide_true; [done|]. cbn [fst]. by destruct (comparePathsAndMethods p b.1). }
  apply better_stays. apply Forall_forall. intros q Hq. apply list_elem_of_filter in Hq as [Hq1%Is_true_true Hq2].
  apply Hspec; [|done]. apply list_elem_of_lookup in Hq2 as [j Hj]. rewrite lookup_drop in Hj.
  by eapply list_elem_of_lookup_2.
Qed.

(** Where no pattern names the host, only those without one count. *)
Lemma mux_match_any {A} (m : mux A) host method path :
  Forall (fun q => pat_host q.1 = host -> host = []) m -> mux_match m host method path = mux_Handler m method path.
Proof.
  intros Hhost. unfold mux_match. destruct (bool_decide_reflect (host = [])) as [->|Hh]; [done|].
  assert (filter (fun q => matches_at host q.1 method (path_segments path)) m = []) as ->; [|done].
  induction Hhost as [|q m Hq _ IH]; [done|]. rewrite filter_cons_False; [done|].
  unfold matches_at. rewrite bool_decide_false by (intros E; by apply Hh, Hq). cbn. tauto.
Qed.

(** The request is dispatched to the pattern it is for. *)
Lemma findHandler_chosen {A} (m : mux A) host method path urlpath p h :
  mux_ok m -> Forall (fun q => wf_segs (pat_segs q.1) = true) m ->
  Forall (fun q => pat_host q.1 = host -> host = []) m ->
  cleanPath path = path -> (p, h) ∈ m -> chosen m p method path ->
  findHandler m host method path urlpath = Found p h.
Proof.
  intros Hok Hwf Hhost Hclean Hin Hch. unfold findHandler, matchOrRedirect.
  assert ((if bool_decide (method = gs "CONNECT") then path else cleanPath path) = path) as ->
    by (by case_bool_decide).
  rewrite !mux_match_any, (mux_chosen m method path p h) by done.
  assert (negb (exactMatch (Some (p, h)) path) && negb (HasSuffix path [SLASH]) &&
    exactMatch (mux_Handler m method (path ++ [SLASH])) (path ++ [SLASH]) = false) as ->.
  { destruct Hch as (_ & _ & Hr). cbn [exactMatch]. destruct (last_multi (pat_segs p)); [|done].
    destruct (HasSuffix path [SLASH]); [by rewrite andb_false_r|]. cbn [negb orb andb].
    destruct (mux_Handler m method (path ++ [SLASH])) as [q|] eqn:E; [|done].
    apply better_in in E as [?|[Hq1%Is_true_true Hq2]%list_elem_of_filter]; [done|]. by apply Hr. }
  rewrite (bool_decide_true (path = path)) by done. cbn [negb]. by rewrite andb_false_r.
Qed.

(** A literal pattern is chosen at its path, whatever else is registered. *)
Lemma literal_chosen {A} (m : mux A) method path es :
  Forall (fun q => wf_segs (pat_segs q.1) = true) m -> method <> [] -> path_segments path = es ->
  chosen m (literal method es) method path.
Proof.
  intros Hwf Hne Hpath. unfold chosen. rewrite Hpath. split_and!; [apply matches_literal| |].
  - intros q Hq Hm. apply literal_specific; [done| |done]. rewrite Forall_forall in Hwf. by apply Hwf.
  - cbn [pat_segs literal]. by rewrite last_multi_lits.
Qed.

(** A request for the path of a literal pattern is dispatched to its handler, unless
    patterns are registered for the host of the request. *)
Lemma findHandler_literal {A} (m : mux A) host method path es h i :
  mux_ok m -> Forall (fun q => wf_segs (pat_segs q.1) = true) m -> method <> [] ->
  Forall (fun q => pat_host q.1 = host -> host = []) m ->
  cleanPath path = path -> path_segments path = es -> m !! i = Some (literal method es, h) ->
  findHandler m host method path path = Found (literal method es) h.
Proof.
  intros Hok Hwf Hne Hhost Hclean Hpath Hi. apply findHandler_chosen; try done.
  - by eapply list_elem_of_lookup_2.
  - by apply literal_chosen.
Qed.

(** ** Parsed patterns *)

Section parsed.
Context (letter digit : N -> bool).

Lemma parse_segment_multi seg last seen s :
  parse_segment letter digit seg last seen = inr s -> is_multi s = true -> last = true.
Proof.
  unfold parse_segment. repeat case_match; intros; simplify_eq; try done.
  by destruct last.
Qed.

Lemma parse_segments_wf es seen segs :
  parse_segments letter digit es seen = inr segs -> wf_segs segs = true /\ (es = [] -> segs = []).
Proof.
  revert seen segs. induction es as [|e es IH]; intros seen segs; cbn [parse_segments].
  { intros [= <-]. done. }
  destruct (bool_decide (e = []) && bool_decide (es = [])); [by intros [= <-]|].
  destruct (parse_segment letter digit e _ seen) as [err|s] eqn:Es; [done|].
  destruct (parse_segments letter digit es _) as [err|ss] eqn:Ess; [done|]. intros [= <-].
  destruct (IH _ _ Ess) as [Hwf Hnil]. split; [|done]. destruct ss as [|s' ss]; [done|].
  cbn [wf_segs]. apply andb_true_iff. split; [|done]. destruct (is_multi s) eqn:Em; [|done].
  apply (parse_segment_multi _ _ _ _ Es) in Em. apply bool_decide_eq_true_1 in Em.
  by specialize (Hnil Em).
Qed.

Lemma parsePattern_wf s p : parsePattern letter digit s = inr p -> wf_segs (pat_segs p) = true.
Proof.
  unfold parsePattern. destruct s as [|c s]; [done|].
  destruct (match cut_blank (c :: s) with Some (m, rest) => (m, trim_blanks rest) | None => ([], c :: s) end)
    as [method rest].
  destruct (negb _ && negb _); [done|]. destruct (Index rest [SLASH]) as [i|]; [|done].
  destruct (bool_decide _); [done|]. destruct (_ && _ && _); [done|].
  destruct (parse_segments letter digit _ []) as [err|segs] eqn:E; [done|]. intros [= <-]. cbn.
  by apply parse_segments_wf in E as [? _].
Qed.

Lemma HandleFunc_wf {A} (m : mux A) pat h m' :
  Forall (fun q => wf_segs (pat_segs q.1) = true) m -> HandleFunc letter digit m pat h = Ret m' ->
  Forall (fun q => wf_segs (pat_segs q.1) = true) m'.
Proof.
  intros Hm (p & Hp & -> & _)%HandleFunc_Ret. apply Forall_app. split; [done|].
  constructor; [|constructor]. cbn. by eapply parsePattern_wf.
Qed.

(** Elements without braces and escapes are literal. *)
Lemma PathUnescape_id s : ("%"%char ∉ s) -> PathUnescape s = Some s.
Proof.
  induction s as [|c s IH]; intros H; [done|]. apply not_elem_of_cons in H as [H1 H2]. cbn.
  rewrite bool_decide_false by done. by rewrite IH.
Qed.

Definition plain_elem (e : gostring) : Prop := ("{"%char ∉ e) /\ ("%"%char ∉ e) /\ e <> [].

Lemma parse_segments_plain es seen :
  Forall plain_elem es -> parse_segments letter digit es seen = inr (Lit <$> es).
Proof.
  intros H. revert seen. induction H as [|e es (H1 & H2 & H3) _ IH]; intros seen; [done|].
  cbn [parse_segments]. rewrite (bool_decide_false (e = [])) by done. cbn [andb].
  unfold parse_segment. rewrite bool_decide_false by done. cbn [seg_name app]. rewrite IH.
  unfold pathUnescape. by rewrite PathUnescape_id.
Qed.

(** The pattern and the request path of a clean path with plain elements. *)
Lemma path_segments_plain es :
  es <> [] -> Forall plain_elem es -> (forall e, e ∈ es -> SLASH ∉ e) ->
  path_segments (SLASH :: Join es SLASH) = es.
Proof.
  intros Hne Hp Hs. unfold path_segments.
  change (drop 1 (SLASH :: Join es SLASH)) with (Join es SLASH).
  rewrite Split_Join by done. clear Hne Hs. induction Hp as [|e es (H1 & H2 & H3) _ IH]; [done|].
  destruct e as [|c e]; [done|]. cbn [unescape_elems]. rewrite IH.
  unfold pathUnescape. by rewrite PathUnescape_id.
Qed.

Lemma cut_blank_token m rest :
  forallb valid_header_byte m = true -> cut_blank (m ++ gs " " ++ rest) = Some (m, rest).
Proof.
  induction m as [|c m IH]; [done|]. cbn [forallb app cut_blank]. intros [Hc Hm]%andb_true_iff.
  assert (is_blank c = false) as ->.
  { unfold is_blank. destruct (bool_decide_reflect (c = " "%char)) as [->|_]; [done|].
    destruct (bool_decide_reflect (c = "009"%char)) as [->|_]; [done|]. done. }
  by rewrite IH.
Qed.

Lemma parsePattern_plain method es :
  validMethod method = true -> es <> [] -> Forall plain_elem es -> (forall e, e ∈ es -> SLASH ∉ e) ->
  Clean (SLASH :: Join es SLASH) = SLASH :: Join es SLASH ->
  HasSuffix (SLASH :: Join es SLASH) [SLASH] = false ->
  parsePattern letter digit (method ++ gs " " ++ SLASH :: Join es SLASH) = inr (literal method es).
Proof.
  intros Hmeth Hne Hp Hs Hc Hsuf. unfold parsePattern.
  assert (cut_blank (method ++ gs " " ++ SLASH :: Join es SLASH) = Some (method, SLASH :: Join es SLASH)) as Hcut.
  { apply cut_blank_token. unfold validMethod in Hmeth. by apply andb_true_iff in Hmeth as [_ ?]. }
  destruct (method ++ gs " " ++ SLASH :: Join es SLASH) as [|c s] eqn:Es; [by destruct method|].
  rewrite Hcut. change (trim_blanks (SLASH :: Join es SLASH)) with (SLASH :: Join es SLASH).
  rewrite Hmeth, andb_false_r.
  assert (Index (SLASH :: Join es SLASH) [SLASH] = Some 0) as -> by done.
  change (take 0 (SLASH :: Join es SLASH)) with (@nil ascii).
  change (drop 0 (SLASH :: Join es SLASH)) with (SLASH :: Join es SLASH).
  change (drop 1 (SLASH :: Join es SLASH)) with (Join es SLASH).
  rewrite (bool_decide_false ("{"%char ∈ [])) by apply not_elem_of_nil.
  assert (cleanPath (SLASH :: Join es SLASH) = SLASH :: Join es SLASH) as ->.
  { unfold cleanPath. assert (HasPrefix (SLASH :: Join es SLASH) [SLASH] = true) as -> by done.
    by rewrite Hc, Hsuf. }
  rewrite (bool_decide_true (SLASH :: Join es SLASH = _)) by done. rewrite andb_false_r.
  rewrite Split_Join by done. by rewrite parse_segments_plain.
Qed.
End parsed.
