(* ===== verification/Build.v ===== *)
(** * Building an instance (build.go)

    The builder walks the template directory and registers a handler for every
    template route and every static file.  A [*fileInfo] is shared between the
    table of files and the handler, and changed when a compressed copy is found,
    so file records live in a heap and are known by their address.  What is not
    under src/ is an argument: decompressors, the hash function, content sniffing,
    minification and the template parser. *)

From S2P Require Import Prelude GoStrings GoErrors GoPath Http ServeContent Negotiate StaticFile Mux.

(** ** base64.URLEncoding *)

Definition b64_alphabet : gostring :=
  gs "ABCDEFGHIJKLMNOPQRSTUVWXYZabcdefghijklmnopqrstuvwxyz0123456789-_".

Definition b64_char (n : N) : ascii := default "A"%char (b64_alphabet !! N.to_nat (n mod 64)).

Fixpoint b64 (s : gostring) : gostring :=
  match s with
  | [] => []
  | [a] => let n := (byte_N a * 65536)%N in
           [b64_char (n / 262144); b64_char (n / 4096); "="%char; "="%char]
  | [a; b] => let n := (byte_N a * 65536 + byte_N b * 256)%N in
              [b64_char (n / 262144); b64_char (n / 4096); b64_char (n / 64); "="%char]
  | a :: b :: c :: s' =>
      let n := (byte_N a * 65536 + byte_N b * 256 + byte_N c)%N in
      b64_char (n / 262144) :: b64_char (n / 4096) :: b64_char (n / 64) :: b64_char n :: b64 s'
  end.

(** ** The file system *)

(** The bytes a reader yields, and the error that stops it other than [io.EOF]. *)
Abbreviation reader := (gostring * option goerr)%type.

Record src_file := {
  file_reader : reader;
  file_seeker : bool;                       (* it is an [io.ReadSeeker] *)
  file_stat : result (Z * Z)                (* size and modification time *)
}.

(** ** The builder *)

Record InstanceStats := {
  Routes : nat;
  TemplateFiles : nat;
  TemplateDefinitions : nat;
  TemplateInitializers : nat;
  StaticFiles : nat;
  StaticFilesAlternateEncodings : nat
}.

Definition zero_stats : InstanceStats :=
  {| Routes := 0; TemplateFiles := 0; TemplateDefinitions := 0; TemplateInitializers := 0;
     StaticFiles := 0; StaticFilesAlternateEncodings := 0 |}.

Section build.
(** [Tree] is a parsed template. *)
Context {Tree : Type}.

(** What a route leads to; a template handler keeps the template it was made of. *)
Inductive handler :=
| StaticHandler (addr : nat)                             (* staticFileHandler *)
| BufferingHandler (name : gostring) (tree : Tree)       (* bufferingTemplateHandler *)
| FlushingHandler (name : gostring) (tree : Tree).       (* flushingTemplateHandler *)

#[export] Instance handler_eq `{!EqDecision Tree} : EqDecision handler.
Proof. solve_decision. Defined.

Record builder := {
  b_heap : list fileInfo;
  b_files : gmap gostring nat;
  b_templates : gmap gostring Tree;
  b_router : mux handler;
  b_routes : list (gostring * handler);     (* InstanceRoute *)
  b_stats : InstanceStats
}.

Definition new_builder : builder :=
  {| b_heap := []; b_files := ∅; b_templates := ∅; b_router := []; b_routes := [];
     b_stats := zero_stats |}.

Context (letter digit : N -> bool).
Context (fs : gostring -> result src_file).
Context (gzip_NewReader zstd_NewReader : reader -> result reader) (brotli_NewReader : reader -> reader).
Context (sha384 : gostring -> gostring).
Context (detect : gostring -> gostring).
Context (minifier : option (gostring -> result gostring)).
(** [parse.Parse] with the delimiters and functions of the configuration: the
    templates of a file, in the order the range over the map meets them. *)
Context (parse : gostring -> gostring -> result (list (gostring * Tree))).
Context (TemplateExtension : gostring).

Definition extensionContentTypes : gmap gostring gostring :=
  list_to_map [(gs ".css", gs "text/css; charset=utf-8"); (gs ".js", gs "text/javascript; charset=utf-8");
               (gs ".csv", gs "text/csv")].

(** [catch]: a panic becomes an error. *)
Definition catch {A} (description : gostring) (fn : outcome A) : result A :=
  match fn with
  | Ret a => Ok a
  | Panic r => Err (ErrText (gs "failed to " ++ description ++ gs ": " ++ r))
  end.

Definition add_handler (b : builder) (pattern : gostring) (h : handler) : result (mux handler) :=
  catch (gs "add handler to servemux '" ++ pattern ++ gs "'") (HandleFunc letter digit (b_router b) pattern h).

(** The encoding of a file and the reader of its decoded content. *)
Definition open_encoding (exists_ : bool) (ext : gostring) (r : reader) : gostring * result reader :=
  if negb exists_ then (identity, Ok r)
  else if bool_decide (ext = gs ".gz") then (gs "gzip", gzip_NewReader r)
  else if bool_decide (ext = gs ".zst") then (gs "zstd", zstd_NewReader r)
  else if bool_decide (ext = gs ".br") then (gs "br", Ok (brotli_NewReader r))
  else (identity, Ok r).

Definition sri (content : gostring) : gostring := gs "sha384-" ++ b64 (sha384 content).

Definition content_type (ext : gostring) (r : reader) : gostring :=
  match extensionContentTypes !! ext with
  | Some ctype => ctype
  | None => detect (take 512 r.1)
  end.

Definition size_less (a b : encodingInfo) : bool := bool_decide (size a < size b)%Z.

Definition set_heap (b : builder) (h : list fileInfo) : builder :=
  {| b_heap := h; b_files := b_files b; b_templates := b_templates b; b_router := b_router b;
     b_routes := b_routes b; b_stats := b_stats b |}.

(** The identity branch, on the record at [addr], which may be new. *)
Definition add_identity (b : builder) (addr : nat) (file : fileInfo) : builder * option goerr :=
  let b := set_heap b (if bool_decide (addr < length (b_heap b)) then <[addr := file]> (b_heap b)
                       else b_heap b ++ [file]) in
  let pattern := gs "GET " ++ identityPath file in
  match add_handler b pattern (StaticHandler addr) with
  | Err e => (b, Some e)
  | Ok router =>
      let st := b_stats b in
      ({| b_heap := b_heap b; b_files := <[identityPath file := addr]> (b_files b);
          b_templates := b_templates b; b_router := router;
          b_routes := b_routes b ++ [(pattern, StaticHandler addr)];
          b_stats := {| Routes := S (Routes st); TemplateFiles := TemplateFiles st;
                        TemplateDefinitions := TemplateDefinitions st;
                        TemplateInitializers := TemplateInitializers st;
                        StaticFiles := S (StaticFiles st);
                        StaticFilesAlternateEncodings := StaticFilesAlternateEncodings st |} |}, None)
  end.

(** The branch of a compressed copy of the file at [addr]. *)
Definition add_encoding (b : builder) (addr : nat) (file : fileInfo) (hash' : gostring)
    (e : encodingInfo) : builder * option goerr :=
  if negb (bool_decide (hash file = hash')) then
    (b, Some (ErrText (gs "encoded file contents did not match original file '" ++ path e ++
                       gs "': expected " ++ hash file ++ gs ", got " ++ hash')))
  else
    let file := {| identityPath := identityPath file; hash := hash file; contentType := contentType file;
                   encodings := sort_slice size_less (encodings file ++ [e]) |} in
    let st := b_stats b in
    ({| b_heap := <[addr := file]> (b_heap b); b_files := b_files b; b_templates := b_templates b;
        b_router := b_router b; b_routes := b_routes b;
        b_stats := {| Routes := Routes st; TemplateFiles := TemplateFiles st;
                      TemplateDefinitions := TemplateDefinitions st;
                      TemplateInitializers := TemplateInitializers st; StaticFiles := StaticFiles st;
                      StaticFilesAlternateEncodings := S (StaticFilesAlternateEncodings st) |} |}, None).

Definition addStaticFileHandler (b : builder) (path_ : gostring) : outcome (builder * option goerr) :=
  match fs path_ with
  | Err e => Ret (b, Some (ErrWrap (gs "failed to open static file '" ++ path_ ++ gs "': ") e))
  | Ok fsfile =>
      if negb (file_seeker fsfile) then Panic (gs "interface conversion: missing method Seek")
      else
        match file_stat fsfile with
        | Err e => Ret (b, Some (ErrWrap (gs "failed to stat file '" ++ path_ ++ gs "': ") e))
        | Ok (size, modtime) =>
            let ext := Ext path_ in
            let full := Clean (SLASH :: path_) in
            let found := b_files b !! TrimSuffix full ext in
            let '(encoding, r) := open_encoding (bool_decide (is_Some found)) ext (file_reader fsfile) in
            match r with
            | Err e =>
                Ret (b, Some (ErrWrap (gs "failed to create decompressor for file `" ++ path_ ++ gs "`: ") e))
            | Ok (_, Some e) => Ret (b, Some (ErrWrap (gs "failed to hash file ") e))
            | Ok (content, None) =>
                let info := {| encoding := encoding; path := path_; size := size; modtime := modtime |} in
                let identityPath := if found is Some _ then TrimSuffix full ext else full in
                let file := {| identityPath := identityPath; hash := sri content;
                               contentType := content_type ext (file_reader fsfile);
                               encodings := [info] |} in
                match found with
                | None => Ret (add_identity b (length (b_heap b)) file)
                | Some addr =>
                    if bool_decide (encoding = identity) then Ret (add_identity b addr file)
                    else
                      match b_heap b !! addr with
                      | Some old => Ret (add_encoding b addr old (sri content) info)
                      | None => Panic (gs "invalid memory address or nil pointer dereference")
                      end
                end
            end
        end
  end.

(** ** Templates *)

(** [routeMatcher]: a method, a blank and anything without a line break. *)
Definition route_methods : list gostring :=
  [gs "GET"; gs "POST"; gs "PUT"; gs "PATCH"; gs "DELETE"; gs "SSE"].

Definition routeMatcher (name : gostring) : option (gostring * gostring) :=
  match list_find (fun m => HasPrefix name (m ++ gs " ") = true) route_methods with
  | Some (_, m) =>
      let rest := drop (length m + 1) name in
      if bool_decide (NL ∈ rest) then None else Some (m, rest)
  | None => None
  end.

(** The path a template file is routed at; hidden files are not. *)
Definition file_route (path_ : gostring) : option gostring :=
  let file := (path_Split path_).2 in
  if HasPrefix file (gs ".") then None
  else
    let routePath := TrimSuffix path_ TemplateExtension in
    let base := Base routePath in
    let routePath := if bool_decide (base = gs "index") then Dir routePath ++ gs "/" else routePath in
    let routePath := if bool_decide (base = gs "index{$}") then Dir routePath ++ gs "/{$}" else routePath in
    Some (Clean routePath).

(** The route of a template: its pattern and handler. *)
Definition template_route (path_ name : gostring) (tree : Tree) : option (gostring * handler) :=
  if bool_decide (name = path_) then
    match file_route path_ with
    | None => None
    | Some routePath => Some (gs "GET " ++ routePath, BufferingHandler name tree)
    end
  else
    match routeMatcher name with
    | Some (method, p) =>
        if bool_decide (method = gs "SSE") then Some (gs "GET " ++ p, FlushingHandler name tree)
        else Some (method ++ gs " " ++ p, BufferingHandler name tree)
    | None => None
    end.

Definition add_definition (b : builder) (name : gostring) (tree : Tree) : builder :=
  let st := b_stats b in
  {| b_heap := b_heap b; b_files := b_files b; b_templates := <[name := tree]> (b_templates b);
     b_router := b_router b; b_routes := b_routes b;
     b_stats := {| Routes := Routes st; TemplateFiles := TemplateFiles st;
                   TemplateDefinitions := S (TemplateDefinitions st);
                   TemplateInitializers := TemplateInitializers st; StaticFiles := StaticFiles st;
                   StaticFilesAlternateEncodings := StaticFilesAlternateEncodings st |} |}.

Definition add_route (b : builder) (pattern : gostring) (h : handler) (router : mux handler) : builder :=
  let st := b_stats b in
  {| b_heap := b_heap b; b_files := b_files b; b_templates := b_templates b; b_router := router;
     b_routes := b_routes b ++ [(pattern, h)];
     b_stats := {| Routes := S (Routes st); TemplateFiles := TemplateFiles st;
                   TemplateDefinitions := TemplateDefinitions st;
                   TemplateInitializers := TemplateInitializers st; StaticFiles := StaticFiles st;
                   StaticFilesAlternateEncodings := StaticFilesAlternateEncodings st |} |}.

Fixpoint add_templates (b : builder) (path_ : gostring) (ts : list (gostring * Tree)) :
    builder * option goerr :=
  match ts with
  | [] => (b, None)
  | (name, tree) :: ts' =>
      let b := add_definition b name tree in
      match template_route path_ name tree with
      | None => add_templates b path_ ts'
      | Some (pattern, h) =>
          match add_handler b pattern h with
          | Err e => (b, Some e)
          | Ok router => add_templates (add_route b pattern h router) path_ ts'
          end
      end
  end.

Definition count_file (b : builder) : builder :=
  let st := b_stats b in
  {| b_heap := b_heap b; b_files := b_files b; b_templates := b_templates b; b_router := b_router b;
     b_routes := b_routes b;
     b_stats := {| Routes := Routes st; TemplateFiles := S (TemplateFiles st);
                   TemplateDefinitions := TemplateDefinitions st;
                   TemplateInitializers := TemplateInitializers st; StaticFiles := StaticFiles st;
                   StaticFilesAlternateEncodings := StaticFilesAlternateEncodings st |} |}.

(** [fs.ReadFile]: the content, or the error that stops it. *)
Definition read_file (path_ : gostring) : result gostring :=
  match fs path_ with
  | Err e => Err e
  | Ok f => match file_reader f with (content, None) => Ok content | (_, Some e) => Err e end
  end.

Definition could_not (what path_ : gostring) (e : goerr) : goerr :=
  ErrText (gs "could not " ++ what ++ gs " template file '" ++ path_ ++ gs "': " ++ Error e).

Definition addTemplateHandler (b : builder) (path_ : gostring) : builder * option goerr :=
  match read_file path_ with
  | Err e => (b, Some (could_not (gs "read") path_ e))
  | Ok content =>
      match (match minifier with Some m => m content | None => Ok content end) with
      | Err e => (b, Some (could_not (gs "minify") path_ e))
      | Ok content =>
          let path_ := Clean (SLASH :: path_) in
          match parse path_ content with
          | Err e => (b, Some (could_not (gs "parse") path_ e))
          | Ok newtemplates => add_templates (count_file b) path_ newtemplates
          end
      end
  end.

(** ** The walk (the callback in Config.Instance) *)

(** One visit of [fs.WalkDir]: a directory, a file, or an error. *)
Inductive visit := VisitDir (p : gostring) | VisitFile (p : gostring) | VisitErr (e : goerr).

Definition visit_step (b : builder) (v : visit) : outcome (builder * option goerr) :=
  match v with
  | VisitErr e => Ret (b, Some e)
  | VisitDir _ => Ret (b, None)
  | VisitFile p =>
      if HasSuffix p TemplateExtension then Ret (addTemplateHandler b p)
      else addStaticFileHandler b p
  end.

(** The walk stops at the first error. *)
Fixpoint walk (b : builder) (vs : list visit) : outcome (builder * option goerr) :=
  match vs with
  | [] => Ret (b, None)
  | v :: vs' =>
      '(b, err) ← visit_step b v;
      match err with
      | Some e => Ret (b, Some e)
      | None => walk b vs'
      end
  end.

(** ** The invariant of the builder *)

(** The decoded content of an encoding of a file. *)
Definition decoded (e : encodingInfo) (content : gostring) : Prop :=
  exists f, fs (path e) = Ok f /\
    ((encoding e = identity /\ file_reader f = (content, None)) \/
     (encoding e = gs "gzip" /\ gzip_NewReader (file_reader f) = Ok (content, None)) \/
     (encoding e = gs "zstd" /\ zstd_NewReader (file_reader f) = Ok (content, None)) \/
     (encoding e = gs "br" /\ brotli_NewReader (file_reader f) = (content, None))).

(** A file record: encodings ordered by size, the identity encoding exactly once,
    and every encoding decodes to content with the hash of the record. *)
Record file_ok (f : fileInfo) : Prop := {
  ok_sorted : StronglySorted (key_le size) (encodings f);
  ok_identity : length (filter (fun e => encoding e = identity) (encodings f)) = 1;
  ok_hash : forall e, e ∈ encodings f -> exists content, decoded e content /\ hash f = sri content
}.

(** The template of a route is there. *)
Definition handler_ok (b : builder) (h : handler) : Prop :=
  match h with
  | StaticHandler _ => True
  | BufferingHandler name _ | FlushingHandler name _ => is_Some (b_templates b !! name)
  end.

Record build_inv (b : builder) : Prop := {
  inv_routes : Routes (b_stats b) = length (b_routes b) /\
    Forall2 (fun r q => parsePattern letter digit r.1 = inr q.1 /\ r.2 = q.2) (b_routes b) (b_router b);
  inv_static : StaticFiles (b_stats b) = base.size (b_files b);
  inv_encodings : length (b_heap b) = base.size (b_files b) /\
    sum_list_with (fun f => length (encodings f)) (b_heap b) =
      length (b_heap b) + StaticFilesAlternateEncodings (b_stats b);
  inv_mux : mux_ok (b_router b) /\ Forall (fun q => wf_segs (pat_segs q.1) = true) (b_router b);
  inv_clean : forall p addr, b_files b !! p = Some addr -> is_rooted p = true /\ Clean p = p;
  inv_files : forall p addr, b_files b !! p = Some addr ->
    exists f pat, b_heap b !! addr = Some f /\ identityPath f = p /\ file_ok f /\
      parsePattern letter digit (gs "GET " ++ p) = inr pat /\ (pat, StaticHandler addr) ∈ b_router b;
  inv_handlers : forall pat addr, (pat, StaticHandler addr) ∈ b_router b ->
    exists f, b_heap b !! addr = Some f /\ b_files b !! identityPath f = Some addr;
  inv_templates : Forall (fun q => handler_ok b q.2) (b_router b)
}.

Lemma new_builder_inv : build_inv new_builder.
Proof.
  split; cbn; try done. intros pat addr H. by apply not_elem_of_nil in H.
Qed.

Lemma open_encoding_cases ex ext r :
  open_encoding ex ext r = (identity, Ok r) \/
  (ex = true /\ (open_encoding ex ext r = (gs "gzip", gzip_NewReader r) \/
    open_encoding ex ext r = (gs "zstd", zstd_NewReader r) \/
    open_encoding ex ext r = (gs "br", Ok (brotli_NewReader r)))).
Proof. unfold open_encoding. destruct ex; cbn; repeat case_bool_decide; auto 10. Qed.

Lemma open_encoding_decoded ex ext p f enc c sz mt :
  fs p = Ok f -> open_encoding ex ext (file_reader f) = (enc, Ok (c, None)) ->
  decoded {| encoding := enc; path := p; size := sz; modtime := mt |} c.
Proof.
  intros Hf Ho. exists f. split; [done|]. cbn.
  destruct (open_encoding_cases ex ext (file_reader f)) as [E|[_ [E|[E|E]]]]; rewrite E in Ho; simplify_eq; eauto 10.
Qed.

Lemma size_less_spec a b : size_less a b = bool_decide (size a < size b)%Z.
Proof. done. Qed.

Lemma filter_length_perm (l k : list encodingInfo) :
  l ≡ₚ k -> length (filter (fun e => encoding e = identity) l) =
            length (filter (fun e => encoding e = identity) k).
Proof. intros H. by rewrite H. Qed.

Lemma sum_insert {A} (g : A -> nat) (l : list A) i x y :
  l !! i = Some x -> sum_list_with g (<[i := y]> l) + g x = sum_list_with g l + g y.
Proof.
  revert i. induction l as [|z l IH]; intros [|i] Hi; [done|done| |].
  - injection Hi as ->. cbn. lia.
  - specialize (IH i Hi). change (<[S i := y]> (z :: l)) with (z :: <[i := y]> l). cbn [sum_list_with]. lia.
Qed.

(** A compressed copy that is accepted keeps the record consistent. *)
Lemma add_encoding_ok b addr old h info b' content :
  build_inv b -> b_heap b !! addr = Some old -> file_ok old -> encoding info <> identity ->
  decoded info content -> h = sri content ->
  add_encoding b addr old h info = (b', None) -> build_inv b'.
Proof.
  intros [I1 I2 Ien I3 Icl I4 I5 I6] Hold Hok Hne Hdec -> Hadd. unfold add_encoding in Hadd.
  case_bool_decide as Hh; [|done]. cbn in Hadd. injection Hadd as <-.
  set (new := {| identityPath := identityPath old; hash := hash old; contentType := contentType old;
                 encodings := sort_slice size_less (encodings old ++ [info]) |}) in *.
  assert (file_ok new) as Hnew.
  { destruct Hok as [O1 O2 O3]. pose proof (sort_slice_perm size_less (encodings old ++ [info])) as Hp.
    unfold new. split; cbn [encodings hash].
    - apply sort_slice_sorted, size_less_spec.
    - rewrite (filter_length_perm _ _ Hp), filter_app, length_app, O2.
      by rewrite filter_cons_False, filter_nil.
    - intros e He. rewrite Hp in He. apply elem_of_app in He as [He|He]; [by apply O3|].
      apply list_elem_of_singleton in He as ->. by exists content. }
  assert (addr < length (b_heap b)) as Hlt by (by eapply lookup_lt_Some).
  split; cbn; try done.
  - rewrite length_insert. destruct Ien as [Ien1 Ien2]. split; [done|].
    assert (length (encodings new) = S (length (encodings old))) as Hlen.
    { unfold new. cbn. rewrite (Permutation_length (sort_slice_perm _ _)), length_app. cbn. lia. }
    pose proof (sum_insert (fun f => length (encodings f)) (b_heap b) addr old new Hold) as Hsum. lia.
  - intros p a Ha. destruct (I4 p a Ha) as (f & pat & H1 & H2 & H3 & H4 & H5).
    destruct (decide (a = addr)) as [->|Hna].
    + exists new, pat. rewrite list_lookup_insert_eq by done. split_and!; try done. cbn. congruence.
    + exists f, pat. by rewrite list_lookup_insert_ne.
  - intros pat a Ha. destruct (I5 pat a Ha) as (f & H1 & H2).
    destruct (decide (a = addr)) as [->|Hna].
    + exists new. rewrite list_lookup_insert_eq by done. split; [done|]. cbn. congruence.
    + exists f. by rewrite list_lookup_insert_ne.
Qed.

Lemma add_handler_Ok b pattern h router :
  add_handler b pattern h = Ok router -> HandleFunc letter digit (b_router b) pattern h = Ret router.
Proof. unfold add_handler, catch. destruct (HandleFunc _ _ _ _ _); intros; by simplify_eq. Qed.

(** A file under a new path is added consistently. *)
Lemma add_identity_new b file b' :
  build_inv b -> file_ok file -> length (encodings file) = 1 -> b_files b !! identityPath file = None ->
  is_rooted (identityPath file) = true -> Clean (identityPath file) = identityPath file ->
  add_identity b (length (b_heap b)) file = (b', None) -> build_inv b'.
Proof.
  intros [I1 I2 Ien [I3 I3'] Icl I4 I5 I6] Hok Hone Hn Hr Hcl. unfold add_identity. rewrite bool_decide_false by lia.
  destruct (add_handler _ _ _) as [router|e] eqn:Ea; [|done]. apply add_handler_Ok in Ea. cbn in Ea.
  intros [= <-]. pose proof (HandleFunc_ok _ _ _ _ _ _ I3 Ea) as Hm.
  pose proof (HandleFunc_wf _ _ _ _ _ _ I3' Ea) as Hm'.
  apply HandleFunc_Ret in Ea as (pat & Hp & -> & _). destruct I1 as [I1 I1'].
  split; cbn [b_heap b_files b_templates b_router b_routes b_stats Routes StaticFiles set_heap]; try done.
  - rewrite !length_app. simpl. split; [lia|]. apply Forall2_app; [done|]. by apply Forall2_cons_2.
  - rewrite map_size_insert_None by done. by rewrite I2.
  - rewrite map_size_insert_None, length_app, sum_list_with_app by done. cbn. destruct Ien as [-> Ien]. lia.
  - intros p a. destruct (decide (p = identityPath file)) as [->|Hne]; [done|].
    rewrite lookup_insert_ne by done. apply Icl.
  - intros p a. destruct (decide (p = identityPath file)) as [->|Hne].
    + rewrite lookup_insert_eq. intros [= <-]. exists file, pat. rewrite lookup_last_app.
      split_and!; try done. apply elem_of_app. right. by apply list_elem_of_singleton.
    + rewrite lookup_insert_ne by done. intros Ha. destruct (I4 p a Ha) as (f & pat' & H1 & H2 & H3 & H4 & H5).
      exists f, pat'. split_and!; try done; [|apply elem_of_app; by left].
      by apply lookup_app_l_Some.
  - intros pat' a [Hin|Hin]%elem_of_app.
    + destruct (I5 pat' a Hin) as (f & H1 & H2). exists f. split; [by apply lookup_app_l_Some|].
      rewrite lookup_insert_ne; [done|]. congruence.
    + apply list_elem_of_singleton in Hin. injection Hin as -> ->. exists file.
      rewrite lookup_last_app. split; [done|]. apply lookup_insert_eq.
  - apply Forall_app. split; [done|]. by apply Forall_cons_2.
Qed.

(** A file that maps to the path of a file that is already there cannot be added. *)
Lemma add_identity_again b addr file a :
  build_inv b -> b_files b !! identityPath file = Some a ->
  exists e, (add_identity b addr file).2 = Some e.
Proof.
  intros Hi Ha. destruct (inv_files b Hi _ _ Ha) as (f & pat & _ & _ & _ & Hp & Hin).
  unfold add_identity. 
  match goal with |- context [add_handler ?b1 ?pt ?h] => destruct (add_handler b1 pt h) as [router|e] eqn:Ea end;
    [|by eexists].
  apply add_handler_Ok in Ea. cbn [b_router set_heap] in Ea.
  destruct (HandleFunc_twice letter digit (b_router b) (gs "GET " ++ identityPath file)
              (StaticHandler addr) pat (StaticHandler a) Hp Hin) as [msg Hm].
  by rewrite Hm in Ea.
Qed.

Lemma addStaticFileHandler_inv b path_ b' :
  build_inv b -> addStaticFileHandler b path_ = Ret (b', None) -> build_inv b'.
Proof.
  intros Hi. unfold addStaticFileHandler. destruct (fs path_) as [f|e] eqn:Ef; [|done].
  destruct (file_seeker f); [|done]. cbn [negb].
  destruct (file_stat f) as [[sz mt]|e]; [|done].
  set (full := Clean (SLASH :: path_)). set (ext := Ext path_).
  destruct (open_encoding _ ext (file_reader f)) as [enc [[c [e|]]|e]] eqn:Eo; [done| |done].
  pose proof (open_encoding_decoded _ _ _ _ _ _ sz mt Ef Eo) as Hdec.
  set (info := {| encoding := enc; path := path_; size := sz; modtime := mt |}) in *.
  assert (enc = identity -> forall ip, file_ok {| identityPath := ip; hash := sri c;
            contentType := content_type ext (file_reader f); encodings := [info] |}) as Hnew.
  { intros Henc ip. split; cbn [encodings hash].
    - repeat constructor.
    - by rewrite filter_cons_True, filter_nil.
    - intros e ->%list_elem_of_singleton. by exists c. }
  destruct (b_files b !! TrimSuffix full ext) as [addr|] eqn:Efound.
  - destruct (inv_files b Hi _ _ Efound) as (old & pat & Hold & Hip & Hok & _).
    destruct (bool_decide_reflect (enc = identity)) as [Henc|Henc].
    + intros [= Hadd]. edestruct (add_identity_again b addr) as [e He]; [exact Hi| |rewrite Hadd in He; done].
      exact Efound.
    + rewrite Hold. intros [= Hadd]. by eapply (add_encoding_ok b addr old (sri c) info b' c).
  - assert (enc = identity) as Henc.
    { rewrite bool_decide_false in Eo by (intros [? ?]; congruence). cbn in Eo. by injection Eo as <- _. }
    intros [= Hadd]. destruct (b_files b !! full) as [a|] eqn:Efull.
    + edestruct (add_identity_again b (length (b_heap b))) as [e He]; [exact Hi| |rewrite Hadd in He; done].
      exact Efull.
    + apply (add_identity_new b) in Hadd; [done|done|by apply Hnew|done|done| |]; cbn [identityPath]; unfold full.
      * destruct (Clean_slash_rooted path_) as [q ->]. done.
      * apply Clean_idemp.
Qed.

(** ** Templates and the walk *)

Lemma add_definition_inv b name tree : build_inv b -> build_inv (add_definition b name tree).
Proof.
  intros [I1 I2 Ien I3 Icl I4 I5 I6]. split; try done. eapply Forall_impl; [exact I6|].
  intros [pat [addr|n t|n t]] H; [done| |]; cbn in *; destruct (decide (name = n)) as [->|Hne];
    rewrite ?lookup_insert_eq, ?lookup_insert_ne by done; eauto.
Qed.

Lemma count_file_inv b : build_inv b -> build_inv (count_file b).
Proof. intros [I1 I2 Ien I3 Icl I4 I5 I6]. by split. Qed.

Lemma add_route_inv b pattern h router :
  build_inv b -> (forall addr, h <> StaticHandler addr) -> handler_ok b h -> add_handler b pattern h = Ok router ->
  build_inv (add_route b pattern h router).
Proof.
  intros [[I1 I1'] I2 Ien [I3 I3'] Icl I4 I5 I6] Hh Hok Ha%add_handler_Ok.
  pose proof (HandleFunc_ok _ _ _ _ _ _ I3 Ha) as Hm. pose proof (HandleFunc_wf _ _ _ _ _ _ I3' Ha) as Hm'.
  apply HandleFunc_Ret in Ha as (pat & Hp & -> & _).
  split; cbn [b_heap b_files b_templates b_router b_routes b_stats Routes StaticFiles add_route]; try done.
  - rewrite !length_app. simpl. split; [lia|]. apply Forall2_app; [done|]. by apply Forall2_cons_2.
  - intros p a Ha. destruct (I4 p a Ha) as (f & pat' & H1 & H2 & H3 & H4 & H5).
    exists f, pat'. split_and!; try done. apply elem_of_app. by left.
  - intros pat' a [Hin|Hin]%elem_of_app; [by apply (I5 pat')|].
    apply list_elem_of_singleton in Hin. injection Hin as _ <-. by destruct (Hh a).
  - apply Forall_app. split; [done|]. by apply Forall_cons_2.
Qed.

Lemma template_route_handler path_ name tree pattern h :
  template_route path_ name tree = Some (pattern, h) ->
  h = BufferingHandler name tree \/ h = FlushingHandler name tree.
Proof. unfold template_route. intros H. repeat case_match; simplify_eq; auto. Qed.

Lemma add_templates_inv b path_ ts b' :
  build_inv b -> add_templates b path_ ts = (b', None) -> build_inv b'.
Proof.
  revert b. induction ts as [|[name tree] ts IH]; intros b Hi; cbn [add_templates].
  { by intros [= <-]. }
  pose proof (add_definition_inv b name tree Hi) as Hi1.
  destruct (template_route path_ name tree) as [[pattern h]|] eqn:Er; [|by apply IH].
  destruct (add_handler _ pattern h) as [router|e] eqn:Ea; [|done].
  apply IH. apply template_route_handler in Er as Hh. apply add_route_inv; [done| | |done].
  - by destruct Hh as [-> | ->].
  - destruct Hh as [-> | ->]; cbn; rewrite lookup_insert_eq; by eexists.
Qed.

Lemma addTemplateHandler_inv b path_ b' :
  build_inv b -> addTemplateHandler b path_ = (b', None) -> build_inv b'.
Proof.
  intros Hi. unfold addTemplateHandler. destruct (read_file path_) as [c|e]; [|done].
  destruct (match minifier with Some m => m c | None => Ok c end) as [c'|e]; [|done].
  destruct (parse _ c') as [ts|e]; [|done]. apply add_templates_inv. by apply count_file_inv.
Qed.

Lemma walk_inv b vs b' : build_inv b -> walk b vs = Ret (b', None) -> build_inv b'.
Proof.
  revert b. induction vs as [|v vs IH]; intros b Hi; cbn [walk]; [by intros [= <-]|].
  destruct (visit_step b v) as [[b1 [e|]]|msg] eqn:E; cbn [mbind outcome_bind]; [done| |done].
  apply IH. destruct v as [p|p|e]; cbn in E; [by injection E as <-| |done].
  destruct (HasSuffix p TemplateExtension); [|by eapply addStaticFileHandler_inv].
  injection E as E. by eapply addTemplateHandler_inv.
Qed.
(** ** Hashes *)

Lemma b64_char_etag n : etag_byte (b64_char n) = true.
Proof.
  unfold b64_char. assert (n mod 64 < 64)%N as Hn by (by apply N.mod_lt).
  assert (Forall (fun c => etag_byte c = true) b64_alphabet) as Ha by (repeat constructor).
  destruct (b64_alphabet !! N.to_nat (n mod 64)) as [c|] eqn:E; [|done].
  by eapply Forall_lookup_1 in E; [|exact Ha].
Qed.

Lemma b64_etag s : forallb etag_byte (b64 s) = true.
Proof.
  induction s as [s IH] using (induction_ltof1 _ length). unfold ltof in IH.
  destruct s as [|a [|b [|c s]]]; cbn [b64 forallb]; rewrite ?b64_char_etag; [done..|].
  cbn [andb]. apply IH. cbn. lia.
Qed.

(** The hash of a file can stand in an entity tag. *)
Lemma sri_etag content : forallb etag_byte (sri content) = true.
Proof. unfold sri. rewrite forallb_app, b64_etag. done. Qed.

(** ** Routes *)

(** The pattern of a plain path is literal. *)
Lemma plain_path m p :
  validMethod m = true -> is_rooted p = true -> Clean p = p -> p <> [SLASH] ->
  ("{"%char ∉ p) -> ("%"%char ∉ p) ->
  exists es, path_segments p = es /\ cleanPath p = p /\
    parsePattern letter digit (m ++ gs " " ++ p) = inr (literal m es).
Proof.
  intros Hm Hr Hc Hne Hb Hp. destruct (Clean_rooted p Hr) as (es & He & Hv & Hs). rewrite Hc in He.
  assert (es <> []) as Hes by (by intros ->).
  assert (forall c, c ∉ p -> Forall (fun e => c ∉ e) es) as Hin.
  { intros c Hcp. apply Forall_forall. intros e Hin Hce. apply Hcp. rewrite He.
    rewrite <- under_root_Join by done. apply list_elem_of_join. exists (SLASH :: e).
    split; [by apply list_elem_of_further|]. apply list_elem_of_fmap. eauto. }
  assert (Forall plain_elem es) as Hplain.
  { rewrite Forall_forall in Hv |- *. intros e Hin'. apply Hin in Hb, Hp. rewrite Forall_forall in Hb, Hp.
    pose proof (proj1 (valid_elem_spec e) (Hv e Hin')) as Hx. split; [exact (Hb e Hin')|split; [exact (Hp e Hin')|apply Hx]]. }
  assert (HasSuffix p [SLASH] = false) as Hsuf.
  { destruct (HasSuffix p [SLASH]) eqn:Es; [|done]. apply HasSuffix_spec in Es as [q Hq].
    destruct (exists_last Hes) as (es0 & e & ->). rewrite <- under_root_Join, under_root_snoc in He by done.
    rewrite Forall_app in Hv. destruct Hv as [_ [Hv _]%Forall_cons]. apply valid_elem_spec in Hv as (Hve & _).
    destruct (exists_last Hve) as (e0 & c & ->). rewrite He in Hq.
    replace (under_root es0 ++ SLASH :: e0 ++ [c]) with ((under_root es0 ++ SLASH :: e0) ++ [c]) in Hq
      by (by rewrite <- app_assoc).
    apply app_inj_tail in Hq as [_ ->]. destruct (Hs (e0 ++ [SLASH])); apply elem_of_app; right;
      by apply list_elem_of_singleton. }
  assert (cleanPath p = p) as Hcp.
  { unfold cleanPath. destruct p as [|c p]; [done|]. unfold is_rooted in Hr. by rewrite Hr, Hc, Hsuf. }
  exists es. split; [|split; [done|]]; rewrite He in *; [by apply path_segments_plain|by apply parsePattern_plain].
Qed.

Lemma route_reachable b m p h :
  build_inv b -> (m ++ gs " " ++ p, h) ∈ b_routes b -> validMethod m = true ->
  is_rooted p = true -> Clean p = p -> p <> [SLASH] -> ("{"%char ∉ p) -> ("%"%char ∉ p) ->
  exists pat, mux_Handler (b_router b) m p = Some (pat, h).
Proof.
  intros Hi [i Hin]%list_elem_of_lookup Hm Hr Hc Hne Hb Hp.
  destruct (plain_path m p) as (es & Hes & _ & Hparse); try done.
  destruct (inv_routes b Hi) as [_ Hf]. destruct (Forall2_lookup_l _ _ _ _ _ Hf Hin) as ([pat h'] & Hl & Hpat & Hh).
  cbn [fst snd] in Hpat, Hh. subst h'. rewrite Hparse in Hpat. injection Hpat as <-.
  destruct (inv_mux b Hi) as [H1 H2]. exists (literal m es).
  apply mux_chosen; [done|done|by eapply list_elem_of_lookup_2|]. apply literal_chosen; [done|by intros ->|done].
Qed.

(** The route of a static file. *)
Lemma static_route b p addr :
  build_inv b -> b_files b !! p = Some addr -> p <> [SLASH] -> ("{"%char ∉ p) -> ("%"%char ∉ p) ->
  exists f es, b_heap b !! addr = Some f /\ identityPath f = p /\ file_ok f /\
    path_segments p = es /\ cleanPath p = p /\ (literal (gs "GET") es, StaticHandler addr) ∈ b_router b.
Proof.
  intros Hi Hf Hne Hb Hp. destruct (inv_files b Hi p addr Hf) as (f & pat & H1 & H2 & H3 & H4 & H5).
  destruct (inv_clean b Hi p addr Hf) as [Hr Hc].
  destruct (plain_path (gs "GET") p) as (es & Hes & Hcp & Hparse); try done.
  exists f, es. split_and!; try done. change (gs "GET " ++ p) with (gs "GET" ++ gs " " ++ p) in H4.
  rewrite Hparse in H4. by injection H4 as <-.
Qed.

(** A route without wildcards, of any method, is found by the multiplexer at
    its path and leads to its handler, whatever other routes were registered. *)
Lemma literal_route_reachable vs b m p h :
  walk new_builder vs = Ret (b, None) -> (m ++ gs " " ++ p, h) ∈ b_routes b -> validMethod m = true ->
  is_rooted p = true -> Clean p = p -> p <> [SLASH] -> ("{"%char ∉ p) -> ("%"%char ∉ p) ->
  exists pat, mux_Handler (b_router b) m p = Some (pat, h).
Proof. intros Hw. eapply route_reachable, walk_inv, Hw. apply new_builder_inv. Qed.

(** C35: a static file whose name without extension is the name of another static
    file, say [LICENSE.txt] next to [LICENSE] or a [.zip] copy, makes the load fail
    unless the extension is one of the three compressed ones. *)
Theorem static_name_collision vs b path_ f size modtime content addr :
  walk new_builder vs = Ret (b, None) ->
  fs path_ = Ok f -> file_seeker f = true -> file_stat f = Ok (size, modtime) ->
  file_reader f = (content, None) ->
  b_files b !! TrimSuffix (Clean (SLASH :: path_)) (Ext path_) = Some addr ->
  Ext path_ ∉ [gs ".gz"; gs ".zst"; gs ".br"] ->
  exists b' e, addStaticFileHandler b path_ = Ret (b', Some e).
Proof.
  intros Hw Hf Hs Hst Hr Hfound Hext. assert (build_inv b) as Hi by (eapply walk_inv, Hw; apply new_builder_inv).
  unfold addStaticFileHandler. rewrite Hf, Hs, Hst, Hfound. cbn [negb].
  rewrite (bool_decide_true (is_Some (Some addr))) by (by eexists).
  unfold open_encoding. rewrite !not_elem_of_cons in Hext. destruct Hext as (H1 & H2 & H3 & _).
  cbn [negb]. rewrite !bool_decide_false by done. rewrite Hr. rewrite (bool_decide_true (identity = identity)) by done.
  match goal with |- context [add_identity b addr ?file] =>
    destruct (add_identity_again b addr file addr Hi Hfound) as [e He] end.
  eexists _, e. rewrite <- He. f_equal. apply surjective_pairing.
Qed.

(** ** The routes of the template files *)

(** Routes are only added. *)
Definition keeps_routes (b b' : builder) : Prop := forall r, r ∈ b_routes b -> r ∈ b_routes b'.

Lemma add_templates_routes b path_ ts b' :
  add_templates b path_ ts = (b', None) ->
  keeps_routes b b' /\
  forall name tree r, (name, tree) ∈ ts -> template_route path_ name tree = Some r -> r ∈ b_routes b'.
Proof.
  revert b. induction ts as [|[n t] ts IH]; intros b; cbn [add_templates].
  { intros [= <-]. split; [by intros r Hr|]. intros name tree r H. by apply not_elem_of_nil in H. }
  destruct (template_route path_ n t) as [[pattern h]|] eqn:Er.
  - destruct (add_handler _ pattern h) as [router|e]; [|done]. intros [H1 H2]%IH.
    assert (forall r, r ∈ b_routes b \/ r = (pattern, h) -> r ∈ b_routes b') as H.
    { intros r Hr. apply H1. cbn. by rewrite elem_of_app, list_elem_of_singleton. }
    split; [intros r Hr; apply H; by left|]. intros name tree r [[= -> ->]|Hin]%elem_of_cons Ht; [|by eapply H2].
    apply H. right. congruence.
  - intros [H1 H2]%IH. split; [intros r Hr; by apply H1|].
    intros name tree r [[= -> ->]|Hin]%elem_of_cons Ht; [congruence|by eapply H2].
Qed.

(** What a template file is parsed to. *)
Definition parsed_file (p : gostring) (ts : list (gostring * Tree)) : Prop :=
  exists content content', read_file p = Ok content /\
    match minifier with Some m => m content | None => Ok content end = Ok content' /\
    parse (Clean (SLASH :: p)) content' = Ok ts.

Lemma addTemplateHandler_routes b p b' :
  addTemplateHandler b p = (b', None) ->
  keeps_routes b b' /\ exists ts, parsed_file p ts /\
    forall name tree r, (name, tree) ∈ ts -> template_route (Clean (SLASH :: p)) name tree = Some r -> r ∈ b_routes b'.
Proof.
  unfold addTemplateHandler, parsed_file. destruct (read_file p) as [content|e]; [|done].
  destruct (match minifier with Some m => m content | None => Ok content end) as [content'|e] eqn:Em; [|done].
  cbv zeta. destruct (parse _ content') as [ts|e] eqn:Ep; [|done]. intros [H1 H2]%add_templates_routes.
  split; [intros r Hr; by apply H1|]. exists ts. split; [by exists content, content'|done].
Qed.

Lemma addStaticFileHandler_routes b p b' : addStaticFileHandler b p = Ret (b', None) -> keeps_routes b b'.
Proof.
  unfold addStaticFileHandler. intros H.
  repeat case_match; simplify_eq; unfold add_identity, add_encoding in *; repeat case_match; simplify_eq;
    unfold keeps_routes; cbn [b_routes set_heap]; set_solver.
Qed.

Lemma walk_routes b vs b' :
  walk b vs = Ret (b', None) ->
  keeps_routes b b' /\
  forall p, VisitFile p ∈ vs -> HasSuffix p TemplateExtension = true -> exists ts, parsed_file p ts /\
    forall name tree r, (name, tree) ∈ ts -> template_route (Clean (SLASH :: p)) name tree = Some r -> r ∈ b_routes b'.
Proof.
  revert b. induction vs as [|v vs IH]; intros b; cbn [walk].
  { intros [= <-]. split; [by intros r Hr|]. intros p H. by apply not_elem_of_nil in H. }
  destruct (visit_step b v) as [[b1 [e|]]|msg] eqn:E; cbn [mbind outcome_bind]; [done| |done].
  intros [H1 H2]%IH.
  assert (keeps_routes b b1) as Hk.
  { destruct v as [p|p|e]; cbn in E; [injection E as <-; by intros r Hr| |done].
    destruct (HasSuffix p _); [injection E as E; by apply addTemplateHandler_routes in E as [? _]|].
    by apply addStaticFileHandler_routes in E. }
  split; [intros r Hr; by apply H1, Hk|]. intros p [<-|Hp]%elem_of_cons Hs; [|by apply H2].
  cbn in E. rewrite Hs in E. injection E as E. apply addTemplateHandler_routes in E as (_ & ts & Hts & Hr).
  exists ts. split; [done|]. intros name tree r Hin Ht. by eapply H1, Hr.
Qed.

(** ** The statistics of the templates *)

Definition template_files (vs : list visit) : list gostring :=
  omap (fun v => match v with VisitFile p => if HasSuffix p TemplateExtension then Some p else None | _ => None end) vs.

(** What a part of the walk adds to the counters of the templates. *)
Definition counted (st st' : InstanceStats) (files definitions : nat) : Prop :=
  TemplateFiles st' = TemplateFiles st + files /\ TemplateDefinitions st' = TemplateDefinitions st + definitions /\
  TemplateInitializers st' = TemplateInitializers st.

Lemma add_templates_counted b path_ ts b' :
  add_templates b path_ ts = (b', None) -> counted (b_stats b) (b_stats b') 0 (length ts).
Proof.
  revert b. induction ts as [|[n t] ts IH]; intros b; cbn [add_templates].
  { intros [= <-]. unfold counted. cbn. lia. }
  destruct (template_route path_ n t) as [[pattern h]|]; [destruct (add_handler _ pattern h) as [router|e]; [|done]|];
    intros (H1 & H2 & H3)%IH; cbn in *; unfold counted; cbn; lia.
Qed.

Lemma addTemplateHandler_counted b p b' :
  addTemplateHandler b p = (b', None) -> exists ts, parsed_file p ts /\ counted (b_stats b) (b_stats b') 1 (length ts).
Proof.
  unfold addTemplateHandler, parsed_file. destruct (read_file p) as [content|e]; [|done].
  destruct (match minifier with Some m => m content | None => Ok content end) as [content'|e] eqn:Em; [|done].
  cbv zeta. destruct (parse _ content') as [ts|e] eqn:Ep; [|done]. intros (H1 & H2 & H3)%add_templates_counted.
  exists ts. split; [by exists content, content'|]. cbn in *. unfold counted. lia.
Qed.

Lemma addStaticFileHandler_counted b p b' :
  addStaticFileHandler b p = Ret (b', None) -> counted (b_stats b) (b_stats b') 0 0.
Proof.
  unfold addStaticFileHandler. intros H.
  repeat case_match; simplify_eq; unfold add_identity, add_encoding in *; repeat case_match; simplify_eq;
    unfold counted; cbn; lia.
Qed.

Lemma walk_counted b vs b' :
  walk b vs = Ret (b', None) -> exists tss, Forall2 parsed_file (template_files vs) tss /\
    counted (b_stats b) (b_stats b') (length (template_files vs)) (length (concat tss)).
Proof.
  revert b. induction vs as [|v vs IH]; intros b; cbn [walk].
  { intros [= <-]. exists []. split; [constructor|]. unfold counted. cbn. lia. }
  destruct (visit_step b v) as [[b1 [e|]]|msg] eqn:E; cbn [mbind outcome_bind]; [done| |done].
  intros (tss & H0 & H1 & H2 & H3)%IH. destruct v as [p|p|e]; cbn in E; [injection E as <-; by exists tss| |done].
  cbn [template_files omap list_omap]. fold (template_files vs). destruct (HasSuffix p TemplateExtension).
  - injection E as E. apply addTemplateHandler_counted in E as (ts & Hts & E1 & E2 & E3).
    exists (ts :: tss). split; [by constructor|]. unfold counted. cbn [length concat]. rewrite length_app. lia.
  - apply addStaticFileHandler_counted in E as (E1 & E2 & E3). exists tss. split; [done|]. unfold counted. lia.
Qed.

(** C13: after a walk without error the instance is consistent: every file record
    has its encodings ordered by size with the identity encoding exactly once, all
    encodings decode to content with the hash of the record, records and static
    routes correspond to each other, every registered pattern parses and none
    conflicts with another, and every template a route names exists.  The statistics
    count the routes, the static files and their encodings besides identity, the
    template files of the walk and the templates they were parsed to; no initializer
    is counted yet. *)
Theorem build_consistent vs b :
  walk new_builder vs = Ret (b, None) ->
  build_inv b /\ exists tss, Forall2 parsed_file (template_files vs) tss /\
    TemplateFiles (b_stats b) = length (template_files vs) /\
    TemplateDefinitions (b_stats b) = length (concat tss) /\ TemplateInitializers (b_stats b) = 0.
Proof.
  intros Hw. split; [eapply walk_inv, Hw; apply new_builder_inv|].
  destruct (walk_counted _ _ _ Hw) as (tss & H & H1 & H2 & H3). by exists tss.
Qed.

(** The route of a template file from its directory and name. *)
Definition readme_route (dirs : list gostring) (name : gostring) : gostring :=
  if bool_decide (name = gs "index") then SLASH :: Join dirs SLASH
  else SLASH :: Join (dirs ++ [if bool_decide (name = gs "index{$}") then gs "{$}" else name]) SLASH.

(** C17: a template file that is not hidden is routed at its path without the
    extension, a file named [index] at its directory, and [index{$}] at exactly the
    directory with a trailing slash; a hidden file is not routed. *)
Theorem template_file_route dirs name :
  Forall (fun e => valid_elem e = true) dirs -> no_slash dirs -> (SLASH ∉ name) -> (SLASH ∉ TemplateExtension) ->
  valid_elem name = true -> 
  file_route (under_root (dirs ++ [name ++ TemplateExtension])) =
    if HasPrefix name (gs ".") then None else Some (readme_route dirs name).
Proof using TemplateExtension.
  clear Tree letter digit fs gzip_NewReader zstd_NewReader brotli_NewReader sha384 detect minifier parse.
  intros Hd Hs Hn Hx Hv. unfold file_route, readme_route.
  assert (SLASH ∉ name ++ TemplateExtension) as Hnx by (rewrite elem_of_app; tauto).
  apply valid_elem_spec in Hv as Hv'. destruct Hv' as (Hne & _).
  rewrite under_root_snoc, path_Split_app by done. cbn [snd].
  assert (HasPrefix (name ++ TemplateExtension) (gs ".") = HasPrefix name (gs ".")) as -> by (by destruct name).
  destruct (HasPrefix name (gs ".")); [done|].
  replace (under_root dirs ++ SLASH :: name ++ TemplateExtension)
    with ((under_root dirs ++ SLASH :: name) ++ TemplateExtension) by (by rewrite <- app_assoc).
  rewrite TrimSuffix_app, Base_app by done. rewrite <- under_root_snoc.
  assert (forall e, valid_elem e = true -> SLASH ∉ e ->
    Clean (SLASH :: Join (dirs ++ [e]) SLASH) = SLASH :: Join (dirs ++ [e]) SLASH) as Hclean.
  { intros e He Hse. apply Clean_elements; [apply Forall_app; split; [done|by apply Forall_cons_2]|].
    intros x [Hx'|Hx']%elem_of_app; [by apply Hs|]. by apply list_elem_of_singleton in Hx' as ->. }
  assert (under_root (dirs ++ [name]) = SLASH :: Join (dirs ++ [name]) SLASH) as Hroot
    by (apply under_root_Join; by destruct dirs).
  f_equal. destruct (bool_decide_reflect (name = gs "index")) as [->|Hni].
  - rewrite bool_decide_false by done. rewrite Dir_under_root by done.
    destruct (decide (dirs = [])) as [->|Hdn]; [done|].
    rewrite <- under_root_Join by done. rewrite Clean_under_root by done. by rewrite under_root_Join.
  - destruct (bool_decide_reflect (name = gs "index{$}")) as [->|Hnd].
    + rewrite Dir_under_root by done. destruct (decide (dirs = [])) as [->|Hdn]; [done|].
      rewrite <- (Hclean (gs "{$}")); [|done|by apply (bool_decide_unpack _)].
      rewrite <- !under_root_Join by (done || by destruct dirs). by rewrite under_root_snoc.
    + rewrite Hroot. by apply Hclean.
Qed.
End build.

(** ** An example directory *)

Definition example_file_at (content : gostring) : src_file :=
  {| file_reader := (content, None); file_seeker := true; file_stat := Ok (Z.of_nat (length content), 0%Z) |}.

(** A toy decompressor: the content is wrapped in "gz:". *)
Definition toy_reader (r : reader) : result reader := Ok (drop 3 r.1, r.2).

Definition example_dir (p : gostring) : result src_file :=
  if bool_decide (p = gs "LICENSE.gz") then Ok (example_file_at (gs "gz:MIT")) else Ok (example_file_at (gs "MIT")).

Definition example_parse (p content : gostring) : result (list (gostring * gostring)) :=
  Ok [(p, content); (gs "POST /form", content); (gs "head", content)].

Definition example_visits : list visit :=
  [VisitDir (gs "."); VisitFile (gs "LICENSE"); VisitFile (gs "LICENSE.gz"); VisitFile (gs "admin/settings.html")].

Definition no_unicode (c : N) : bool := false.

Definition example_walk : outcome (builder * option goerr) :=
  walk no_unicode no_unicode example_dir toy_reader toy_reader (fun r => r) (fun c => c) (fun _ => gs "text/plain")
    None example_parse (gs ".html") new_builder example_visits.

Definition example_builder : builder :=
  match example_walk with Ret (b, _) => b | Panic _ => new_builder end.

Lemma example_walk_ok : example_walk = Ret (example_builder, None).
Proof. vm_compute. reflexivity. Qed.

Lemma build_consistent_witness :
  build_inv no_unicode no_unicode example_dir toy_reader toy_reader (fun r => r) (fun c => c) example_builder /\
  TemplateFiles (b_stats example_builder) = 1.
Proof.
  destruct (build_consistent _ _ _ _ _ _ _ _ _ _ _ _ _ example_walk_ok) as (H & tss & _ & H1 & _). split; [exact H|].
  rewrite H1. reflexivity.
Defined.

Lemma static_name_collision_witness :
  exists b' e, addStaticFileHandler no_unicode no_unicode example_dir toy_reader toy_reader (fun r => r)
                 (fun c => c) (fun _ => gs "text/plain") example_builder (gs "LICENSE.zip") = Ret (b', Some e).
Proof.
  apply (static_name_collision _ _ _ _ _ _ _ _ _ _ _ _ _ (gs "LICENSE.zip") (example_file_at (gs "MIT")) 3 0
           (gs "MIT") 0 example_walk_ok); first [reflexivity | by apply (bool_decide_unpack _)].
Defined.

Lemma template_file_route_witness :
  file_route (gs ".html") (gs "/admin/settings.html") = Some (gs "/admin/settings") /\
  file_route (gs ".html") (gs "/index.html") = Some (gs "/") /\
  file_route (gs ".html") (gs "/shared/.head.html") = None.
Proof.
  split_and!.
  - apply (template_file_route (gs ".html") [gs "admin"] (gs "settings"));
      [by apply Forall_cons_2|intros e ->%list_elem_of_singleton| | |]; by apply (bool_decide_unpack _).
  - apply (template_file_route (gs ".html") [] (gs "index")); try (by apply (bool_decide_unpack _)); try done.
    intros e He. by apply not_elem_of_nil in He.
  - apply (template_file_route (gs ".html") [gs "shared"] (gs ".head"));
      [by apply Forall_cons_2|intros e ->%list_elem_of_singleton| | |]; by apply (bool_decide_unpack _).
Defined.
