(* ===== verification/Handlers.v ===== *)
(** * The template handlers (handlers.go)

    A buffered handler executes its template into a buffer and answers when the
    template and all cleanups are done; a flushing handler (SSE) writes to the
    response as the template goes.  A handler takes the pool of its instance and
    gives it back. *)

From S2P Require Import Prelude GoStrings GoErrors Http ServeContent.
From S2P Require Import DotDB DotFlush DotResp DotFS Dot Template.

Section handlers.
Context {V P R Info Entry CVal CType CCall Ext : Type} `{EqDecision CType}.
Context (env : mime_env).
Context (custom_type : CVal -> CType).
Context (unicode_IsLetter unicode_IsDigit : N -> bool).

Abbreviation World := (World (Ext := Ext)).
Abbreviation field := (field (V := V) (P := P) (R := R) (Info := Info) (Entry := Entry) (CVal := CVal)).
Abbreviation struct := (list (option field)).
Abbreviation dot := (dot (World := World) (Val := field) (T := ftype (CType := CType))).
Abbreviation provider := (DotConfig (World := World) (Val := field)).
Abbreviation tprog := (tprog (V := V) (P := P) (R := R) (Info := Info) (Entry := Entry)
                         (CVal := CVal) (CCall := CCall)).

Context (custom_call : CVal -> CCall -> World -> CVal * World * outcome (result CVal)).

#[local] Existing Instance ftype_eq.

Definition internal_error (wd : World) : outcome World :=
  w ← http_Error (world_w wd) (gs "internal server error") 500; Ret (set_w wd w).

Definition start_exec (fields : struct) (wd : World) : exec_state :=
  {| ex_fields := fields; ex_world := wd; ex_buf := [] |}.

Definition bufferingTemplateHandler (bufferDot : dot) (pool : list struct) (choice : nat)
    (tmpl : tprog) (wd : World) (r : request) : outcome (World * list struct) :=
  '(wd, pool, dot) ← dot_value (typeOf custom_type) bufferDot pool choice wd r;
  match dot with
  | Err _ => wd ← internal_error wd; Ret (wd, pool)
  | Ok fields =>
      let '(s, err) := exec env custom_call false r tmpl (start_exec fields wd) in
      '(wd, pool, err) ← dot_cleanup bufferDot pool (ex_world s) (ex_fields s) err;
      match err with
      | Some _ => wd ← internal_error wd; Ret (wd, pool)
      | None => Ret (set_w wd (Write (world_w wd) (ex_buf s)), pool)
      end
  end.

Definition sse_headers (w : writer) : writer :=
  let h := Header_Set (w_header w) (gs "Content-Type") (gs "text/event-stream") in
  let h := Header_Set h (gs "Cache-Control") (gs "no-cache") in
  let h := Header_Set h (gs "Connection") (gs "keep-alive") in
  set_header w h.

Definition flushingTemplateHandler (flusherDot : dot) (pool : list struct) (choice : nat)
    (tmpl : tprog) (wd : World) (r : request) : outcome (World * list struct) :=
  if negb (bool_decide (Header_Get (r_header r) (gs "Accept") = gs "text/event-stream")) then
    w ← http_Error (world_w wd) (gs "SSE endpoint") 406; Ret (set_w wd w, pool)
  else
    let wd := set_w wd (sse_headers (world_w wd)) in
    '(wd, pool, dot) ← dot_value (typeOf custom_type) flusherDot pool choice wd r;
    match dot with
    | Err _ => wd ← internal_error wd; Ret (wd, pool)
    | Ok fields =>
        let '(s, err) := exec env custom_call true r tmpl (start_exec fields wd) in
        '(wd, pool, err) ← dot_cleanup flusherDot pool (ex_world s) (ex_fields s) err;
        match err with
        | Some _ => wd ← internal_error wd; Ret (wd, pool)
        | None => Ret (wd, pool)
        end
    end.

(** The providers of an instance (instance.go), around the configured ones. *)
Definition buffer_providers (mid : list provider) : list provider :=
  [dotXProvider; dotReqProvider] ++ mid ++ [dotRespProvider].
Definition flusher_providers (mid : list provider) : list provider :=
  [dotXProvider; dotReqProvider] ++ mid ++ [dotFlushProvider].

(** ** Providers that leave the response alone

    The interface the configured providers keep to: their values are of one kind,
    [K], which the calls of a template preserve, and neither [Value] nor the calls
    nor [Cleanup] touch the response writer. *)

Definition is_serve (c : call (P := P) (CCall := CCall)) : bool :=
  match c with CallServeContent _ _ _ => true | _ => false end.

Definition slot_law (K : field -> Prop) : Prop :=
  forall c f wd r f' wd' ans, K f -> is_serve c = false ->
    do_call env custom_call c f wd r = (f', wd', ans) -> K f' /\ world_w wd' = world_w wd.

Class QuietProvider (dp : provider) (K : field -> Prop) : Prop := {
  quiet_type : exists t, forall f, K f -> typeOf custom_type f = t;
  quiet_value : forall wd r, exists wd' f err,
    Value dp wd r = Ret (wd', Some f, err) /\ K f /\ world_w wd' = world_w wd;
  quiet_cleanup : forall c, Cleanup dp = Some c -> forall wd f err, K f ->
    exists wd' err', c wd f err = Ret (wd', err') /\ world_w wd' = world_w wd;
  quiet_call : slot_law K
}.

Definition is_FX (f : field) : Prop := f = FX.
Definition is_FReq (f : field) : Prop := exists r, f = FReq r.
Definition is_FDB (f : field) : Prop := exists k drv tx, f = FDB k drv tx.
Definition is_FFlags (f : field) : Prop := exists m, f = FFlags m.
Definition is_FDirs (f : field) : Prop := exists fs e, f = FDirs fs e.
Definition is_FNats (f : field) : Prop := f = FNats.
Definition is_FResp (f : field) : Prop := exists d, f = FResp d.

Lemma slot_FX : slot_law is_FX.
Proof. unfold is_FX. intros c f wd r f' wd' ans -> Hs Hc. destruct c; cbn in Hc; by simplify_eq. Qed.

Lemma slot_FReq : slot_law is_FReq.
Proof.
  intros c f wd r f' wd' ans [q ->] Hs Hc. destruct c; cbn in Hc; simplify_eq; (split; [by eexists|done]).
Qed.

Lemma slot_FNats : slot_law is_FNats.
Proof. unfold is_FNats. intros c f wd r f' wd' ans -> Hs Hc. destruct c; cbn in Hc; by simplify_eq. Qed.

Lemma slot_FFlags : slot_law is_FFlags.
Proof.
  intros c f wd r f' wd' ans [q ->] Hs Hc. destruct c; cbn in Hc; simplify_eq; (split; [by eexists|done]).
Qed.

Lemma slot_FDirs : slot_law is_FDirs.
Proof.
  intros c f wd r f' wd' ans (fs & e & ->) Hs Hc.
  destruct c; cbn in Hc; simplify_eq; (split; [by do 2 eexists|done]).
Qed.

Lemma slot_FDB : slot_law is_FDB.
Proof.
  intros c f wd r f' wd' ans (k & drv & tx & ->) Hs Hc.
  destruct c as [op| | | | | | | | |]; cbn in Hc; simplify_eq; try (split; [by do 3 eexists|done]).
  destruct (db_answer drv _ op) as [d a]. simplify_eq. split; [by do 3 eexists|done].
Qed.

Lemma slot_FResp : slot_law is_FResp.
Proof.
  intros c f wd r f' wd' ans [d ->] Hs Hc.
  destruct c; cbn in Hc, Hs; simplify_eq; (split; [by eexists|done]).
Qed.

#[export] Instance quiet_db name k drv : QuietProvider (dbProvider name k drv) is_FDB.
Proof.
  split; [|intros wd r; cbn; eexists _, _, _; split; [done|]; split; [by do 3 eexists|done]| |apply slot_FDB].
  - exists TDB. by intros f (k' & d' & t' & ->).
  - intros c [= <-] wd f err (k' & d' & t' & ->).
    destruct (DotDBConfig_Cleanup d' _ err) as [d e]. by do 2 eexists.
Qed.

#[export] Instance quiet_flags name m : QuietProvider (flagsProvider name m) is_FFlags.
Proof.
  split; [|intros wd r; cbn; eexists _, _, _; split; [done|]; split; [by eexists|done]|done|apply slot_FFlags].
  exists TFlags. by intros f [m' ->].
Qed.

#[export] Instance quiet_dir name fs : QuietProvider (dirProvider name fs) is_FDirs.
Proof.
  split; [|intros wd r; cbn; eexists _, _, _; split; [done|]; split; [by do 2 eexists|done]| |apply slot_FDirs].
  - exists TDir. by intros f (fs' & e' & ->).
  - intros c [= <-] wd f err (fs' & e' & ->).
    destruct (DotDirConfig_Cleanup (env_fs e') err) as [[d errs] e]. by do 2 eexists.
Qed.

#[export] Instance quiet_nats name : QuietProvider (natsProvider name) is_FNats.
Proof.
  split; [|intros wd r; cbn; by eexists _, _, _|done|apply slot_FNats].
  exists TNats. by intros f ->.
Qed.

#[export] Instance quiet_X : QuietProvider dotXProvider is_FX.
Proof.
  split; [|intros wd r; cbn; by eexists _, _, _| |apply slot_FX].
  - exists TX. by intros f ->.
  - intros c [= <-] wd f err _. by do 2 eexists.
Qed.

#[export] Instance quiet_Req : QuietProvider dotReqProvider is_FReq.
Proof.
  split; [|intros wd r; cbn; eexists _, _, _; split; [done|]; split; [by eexists|done]|done|apply slot_FReq].
  exists TReq. by intros f [q ->].
Qed.

(** ** Executions in a buffer do not touch the response *)

(** The fields are set, each to a value of its kind. *)
Definition fits (Ks : list (field -> Prop)) (fields : struct) : Prop :=
  Forall2 (fun K o => exists f, o = Some f /\ K f) Ks fields.

Lemma call_field_fits Ks s r try i c s' ans :
  Forall slot_law Ks -> fits Ks (ex_fields s) -> is_serve c = false ->
  call_field env custom_call s r try i c = (s', ans) ->
  fits Ks (ex_fields s') /\ world_w (ex_world s') = world_w (ex_world s).
Proof.
  intros HK Hf Hs. unfold call_field, call_field_at. destruct (ex_fields s !! i) as [[f|]|] eqn:E; [|by intros [= <- _]..].
  destruct (try && negb (tryable f)); [by intros [= <- _]|].
  destruct (do_call env custom_call c f (ex_world s) r) as [[f' wd'] a] eqn:Ec. intros [= <- _]. cbn.
  destruct (Forall2_lookup_r _ _ _ _ _ Hf E) as (K & Ei & f0 & [= <-] & HKf).
  eapply Forall_lookup_1 in HK; [|exact Ei]. destruct (HK _ _ _ _ _ _ _ HKf Hs Ec) as [H1 H2].
  split; [|done]. unfold fits. rewrite <- (list_insert_id Ks i K) by done.
  apply Forall2_insert; [done|]. by exists f'.
Qed.

Lemma exec_fits Ks r p s s' err :
  Forall slot_law Ks -> calls_ok (fun c => is_serve c = false) p -> fits Ks (ex_fields s) ->
  exec env custom_call false r p s = (s', err) ->
  fits Ks (ex_fields s') /\ world_w (ex_world s') = world_w (ex_world s).
Proof.
  intros HK Hok Hf.
  apply (exec_inv env custom_call (fun s' => fits Ks (ex_fields s') /\ world_w (ex_world s') = world_w (ex_world s))
           (fun c => is_serve c = false)); try done.
  intros s1 try i c s2 ans [H1 H2] Hc Hcall.
  destruct (call_field_fits _ _ _ _ _ _ _ _ HK H1 Hc Hcall) as [? ?]. split; [done|]. congruence.
Qed.

Lemma values_quiet ps Ks wd r :
  Forall2 QuietProvider ps Ks ->
  exists wd' res, values wd r ps = Ret (wd', res) /\ world_w wd' = world_w wd /\
    forall xs, res = Ok xs -> Forall2 (fun K f => K f) Ks xs.
Proof.
  intros H. revert wd. induction H as [|dp K ps Ks Hq _ IH]; intros wd; cbn [values].
  { eexists _, _. split_and!; [done|done|]. intros xs [= <-]. constructor. }
  destruct (quiet_value wd r) as (wd1 & f & err & -> & Hf & Hw). cbn [mbind outcome_bind].
  destruct err as [e|]; [by eexists _, _|].
  destruct (IH wd1) as (wd2 & res & -> & Hw2 & Hres). cbn [mbind outcome_bind].
  eexists _, _. split; [done|]. split; [congruence|].
  destruct res as [xs|e]; cbn; [|done]. intros ys [= <-]. constructor; [done|]. by apply Hres.
Qed.

Lemma cleanups_quiet ps Ks xs wd err :
  Forall2 QuietProvider ps Ks -> Forall2 (fun K f => K f) Ks xs ->
  exists wd' err', foldl cleanup_step (Ret (wd, err)) (zip ps xs) = Ret (wd', err') /\
    world_w wd' = world_w wd.
Proof.
  intros H. revert xs wd err. induction H as [|dp K ps Ks Hq _ IH]; intros xs wd err Hx.
  { inversion Hx. by do 2 eexists. }
  apply Forall2_cons_inv_l in Hx as (x & xs' & Hx & Hxs & ->).
  cbn [zip zip_with foldl cleanup_step fst snd mbind outcome_bind].
  destruct (Cleanup dp) as [c|] eqn:Ec; [|by apply IH].
  destruct (quiet_cleanup c Ec wd x err Hx) as (wd1 & e1 & -> & Hw).
  destruct (IH xs' wd1 e1 Hxs) as (wd2 & e2 & H2 & Hw2). exists wd2, e2. split; [done|]. congruence.
Qed.

(** ** What the client is sent *)

Definition error_page : gostring := gs "internal server error" ++ [NL].

(** Nothing is sent yet, or only a status, with the headers of a new writer. *)
Definition blank (w : writer) (code : option Z) : Prop :=
  w_body w = [] /\ w_limit w = None /\ w_head w = false /\ w_header w = ∅ /\
  w_sent w = (fun c => (c, ∅)) <$> code.

Lemma WriteHeader_blank w code w' :
  blank w None -> WriteHeader w code = Ret w' ->
  blank w' (if (100 <=? code)%Z && (code <=? 199)%Z && negb (code =? 101)%Z then None else Some code).
Proof.
  intros (H1 & H2 & H3 & H4 & H5). unfold WriteHeader. rewrite H5. cbn [fmap option_fmap option_map].
  destruct ((code <? 100)%Z || (999 <? code)%Z); [done|]. case_match; intros [= <-]; [done|].
  unfold blank. cbn. by rewrite H4.
Qed.

Lemma http_Error_blank w code msg status :
  blank w status -> final_code code ->
  exists w', http_Error w msg code = Ret w' /\
    (exists h, w_sent w' = Some (default code status, h)) /\
    w_body w' = if body_allowed (default code status) then msg ++ [NL] else [].
Proof.
  intros (H1 & H2 & H3 & H4 & H5) Hc. unfold http_Error. rewrite H4.
  destruct status as [c|]; cbn [from_option id].
  - rewrite (WriteHeader_sent _ code (c, ∅)) by done. cbn [mbind outcome_bind].
    eexists. split; [done|].
    match goal with |- context [Write ?x _] => destruct (Write_after x c ∅ (msg ++ [NL])) as (-> & _ & ->) end;
      [done|done|].
    unfold over_limit. cbn [w_limit w_body set_header]. rewrite H2, H1, andb_true_r. eauto.
  - rewrite WriteHeader_fresh by done. cbn [mbind outcome_bind]. eexists. split; [done|].
    match goal with |- context [Write ?x _] => edestruct (Write_after x code) as (-> & _ & ->) end;
      [done|done|].
    unfold over_limit. cbn [w_limit w_body set_header w_header].
    assert (Header_Get (Header_Set (Header_Set (Header_Del ∅ (gs "Content-Length")) (gs "Content-Type")
      (gs "text/plain; charset=utf-8")) (gs "X-Content-Type-Options") (gs "nosniff"))
      (gs "Content-Length") = []) as -> by (vm_compute; reflexivity).
    cbn [parse_length]. rewrite H1, andb_true_r. eauto.
Qed.

(** The informational codes, which leave the status open. *)
Definition informational (code : Z) : bool :=
  (100 <=? code)%Z && (code <=? 199)%Z && negb (code =? 101)%Z.

(** The status of a failure: that of an [ErrorStatus] in the error, or 500. *)
Definition failure_status (e : option goerr) : option Z :=
  code ← e ≫= As sel_status; if informational code then None else Some code.

(** The failure a client sees: the error page, where the status has a body, and never
    output of the template. *)
Definition failure_response (w : writer) (e : option goerr) : Prop :=
  exists h, w_sent w = Some (default 500%Z (failure_status e), h) /\
    w_body w = if body_allowed (default 500%Z (failure_status e)) then error_page else [].

Lemma internal_error_blank wd status e :
  blank (world_w wd) status -> status = failure_status e ->
  exists wd', internal_error wd = Ret wd' /\ failure_response (world_w wd') e.
Proof.
  intros Hb ->. unfold internal_error.
  destruct (http_Error_blank (world_w wd) 500 (gs "internal server error") _ Hb)
    as (w' & -> & [h Hsent] & Hbody); [split; lia|].
  cbn [mbind outcome_bind]. eexists. split; [done|]. cbn [world_w set_w].
  by exists h.
Qed.

(** The status a code given to [WriteHeader] leads to once the body is written. *)
Definition sent_code (code : Z) : Z :=
  if (100 <=? code)%Z && (code <=? 199)%Z && negb (code =? 101)%Z then 200%Z else code.

(** The success a client sees: the status of the template, and its output as a
    whole, unless the status has no body or the template declared a smaller length. *)
Definition success_response (w : writer) (d : DotResp) (out : gostring) : Prop :=
  exists h, w_sent w = Some (sent_code (resp_status d), h) /\ h = resp_Header d /\
    (w_body w = out \/
     (w_body w = [] /\ (body_allowed (sent_code (resp_status d)) = false \/
                        exists n, parse_length (Header_Get h (gs "Content-Length")) = Some n /\
                          (n < N.of_nat (length out))%N))).

Lemma resp_success w d w' out :
  blank w None -> dotRespProvider_Cleanup d w None = Ret (w', None) ->
  success_response (Write w' out) d out.
Proof.
  intros (H1 & H2 & H3 & H4 & H5). unfold dotRespProvider_Cleanup. cbn [mbind option_bind].
  rewrite H4. assert (maps_Copy ∅ (resp_Header d) = resp_Header d) as ->.
  { unfold maps_Copy. by rewrite map_union_empty. }
  unfold WriteHeader, success_response, sent_code. cbn [w_sent set_header]. rewrite H5.
  cbn [fmap option_fmap option_map].
  destruct ((resp_status d <? 100)%Z || (999 <? resp_status d)%Z) eqn:E; [done|].
  assert (forall w2 code h, w_sent w2 = Some (code, h) -> w_head w2 = false -> w_body w2 = [] ->
    w_sent (Write w2 out) = Some (code, h) /\
    (w_body (Write w2 out) = out \/
     (w_body (Write w2 out) = [] /\ (body_allowed code = false \/
       exists n, w_limit w2 = Some n /\ (n < N.of_nat (length out))%N)))) as Hw.
  { intros w2 code h Hs Hh Hb. destruct (Write_after w2 code h out Hs Hh) as (-> & _ & ->).
    split; [done|]. rewrite Hb. destruct (body_allowed code); [|by eauto].
    unfold over_limit. rewrite Hb. cbn [length Nat.add app]. destruct (w_limit w2) as [n|]; [|by left].
    destruct (N.ltb_spec n (N.of_nat (length out))); [right|by left]. eauto 6. }
  destruct ((100 <=? resp_status d)%Z && (resp_status d <=? 199)%Z && negb (resp_status d =? 101)%Z) eqn:E2;
    cbn [mbind outcome_bind]; intros [= <-]; exists (resp_Header d).
  - rewrite Write_fresh by done. by edestruct (Hw (begun (set_header w (resp_Header d)))) as [-> ?].
  - match goal with |- context [Write ?x out] => edestruct (Hw x) as [-> ?]; [done..|] end. done.
Qed.

(** ** The buffered handler *)

Lemma quiet_stable dp K : QuietProvider dp K -> stable (typeOf custom_type) dp.
Proof.
  intros Hq. destruct quiet_type as [t Ht]. exists t. intros wd r wd' x err Hv.
  destruct (quiet_value wd r) as (wd1 & f & err1 & Hv1 & Hf & _). rewrite Hv in Hv1. simplify_eq.
  by apply Ht.
Qed.

Lemma buffer_stable mid Ks :
  Forall2 QuietProvider mid Ks -> Forall (stable (typeOf custom_type)) (buffer_providers mid).
Proof.
  intros H. unfold buffer_providers. apply Forall_app. split.
  { constructor; [exact (quiet_stable _ _ quiet_X)|].
    constructor; [exact (quiet_stable _ _ quiet_Req)|constructor]. }
  apply Forall_app. split.
  - induction H; constructor; [by eapply quiet_stable|done].
  - constructor; [|constructor]. exists TResp. intros wd r wd' x err Hv. cbn in Hv. by simplify_eq.
Qed.

Lemma fits_some Ks fields :
  fits Ks fields -> exists xs, fields = Some <$> xs /\ Forall2 (fun K f => K f) Ks xs.
Proof.
  induction 1 as [|K o Ks fields (f & -> & Hf) _ (xs & -> & IH)]; [by exists []|].
  exists (f :: xs). split; [done|]. by constructor.
Qed.

Lemma some_fits Ks xs : Forall2 (fun K f => K f) Ks xs -> fits Ks (Some <$> xs).
Proof. induction 1; constructor; eauto. Qed.

(** A provider whose cleanup does not lose an error. *)
Definition reports (dp : provider) : Prop :=
  forall c, Cleanup dp = Some c -> forall wd f e wd' err',
    c wd f (Some e) = Ret (wd', err') -> err' <> None.

Lemma cleanups_report ps xs wd e wd' err' :
  Forall reports ps -> foldl cleanup_step (Ret (wd, Some e)) (zip ps xs) = Ret (wd', err') ->
  err' <> None.
Proof.
  revert xs wd e. induction ps as [|dp ps IH]; intros xs wd e Hr H.
  { destruct xs; cbn in H; by simplify_eq. }
  destruct xs as [|x xs]; [cbn in H; by simplify_eq|]. apply Forall_cons in Hr as [Hd Hr].
  cbn [zip zip_with foldl cleanup_step fst snd mbind outcome_bind] in H.
  destruct (Cleanup dp) as [c|] eqn:Ec; [|by eapply IH].
  destruct (c wd x (Some e)) as [[wd1 e1]|msg] eqn:E; [|by rewrite cleanup_step_panic in H].
  destruct e1 as [e1|]; [by eapply IH|]. by apply Hd in E.
Qed.

(** Whether the template itself went well: no error, or an early return. *)
Definition template_ok (err : option goerr) : Prop := dotXProvider_Cleanup err = None.

Lemma quiet_front mid Ks :
  Forall2 QuietProvider mid Ks ->
  Forall2 QuietProvider (dotXProvider :: dotReqProvider :: mid) (is_FX :: is_FReq :: Ks).
Proof. intros H. constructor; [apply quiet_X|]. constructor; [apply quiet_Req|done]. Qed.

(** The cleanups of all fields but the response, on the fields after a template. *)
Lemma buffer_cleanups mid Ks xs wd err :
  Forall2 QuietProvider mid Ks -> Forall reports mid ->
  Forall2 (fun K f => K f) (is_FX :: is_FReq :: Ks) xs ->
  exists wd' err', foldl cleanup_step (Ret (wd, err)) (zip (dotXProvider :: dotReqProvider :: mid) xs)
      = Ret (wd', err') /\ world_w wd' = world_w wd /\ (err' = None -> template_ok err).
Proof.
  intros Hq Hr Hx.
  pose proof (quiet_front mid Ks Hq) as Hqs.
  destruct (cleanups_quiet _ _ xs wd err Hqs Hx) as (wd' & err' & H & Hw).
  exists wd', err'. split_and!; [done..|]. intros ->.
  do 2 (apply Forall2_cons_inv_l in Hx as (? & ? & _ & Hx & ->)).
  cbn [zip zip_with foldl cleanup_step fst snd mbind outcome_bind Cleanup dotXProvider dotReqProvider] in H.
  unfold template_ok. destruct (dotXProvider_Cleanup err) as [e|] eqn:E; [|done].
  exfalso. by eapply (cleanups_report mid).
Qed.

(** What follows the execution, on fields of the right kinds. *)
Lemma buffered_finish mid Ks d pool s err wd' pool' :
  Forall2 QuietProvider mid Ks -> Forall reports mid ->
  dot_wf (typeOf custom_type) d -> dps d = buffer_providers mid -> pool_ok d pool ->
  fits ((is_FX :: is_FReq :: Ks) ++ [is_FResp]) (ex_fields s) -> blank (world_w (ex_world s)) None ->
  ('(wd, pool, err) ← dot_cleanup d pool (ex_world s) (ex_fields s) err;
   match err with
   | Some _ => wd ← internal_error wd; Ret (wd, pool)
   | None => Ret (set_w wd (Write (world_w wd) (ex_buf s)), pool)
   end) = Ret (wd', pool') ->
  pool_ok d pool' /\
  exists ys dr wd2 err2,
    ex_fields s = Some <$> ys ++ [FResp dr] /\
    foldl cleanup_step (Ret (ex_world s, err)) (zip (dotXProvider :: dotReqProvider :: mid) ys)
      = Ret (wd2, err2) /\
    world_dbs wd' = world_dbs wd2 /\
    match err2 with
    | Some e => failure_response (world_w wd') (Some e)
    | None => template_ok err /\ success_response (world_w wd') dr (ex_buf s)
    end.
Proof.
  intros Hq Hr Hwf Hps Hp Hf Hb. destruct (fits_some _ _ Hf) as (xs & -> & Hxs).
  apply Forall2_app_inv_l in Hxs as (ys & zs & Hys & Hzs & ->).
  apply Forall2_cons_inv_l in Hzs as (z & zs' & [dr ->] & Hnil & ->).
  apply Forall2_nil_inv_l in Hnil as ->.
  assert (length ys = length (dotXProvider :: dotReqProvider :: mid)) as Hlen.
  { apply Forall2_length in Hq. apply Forall2_length in Hys. cbn in Hys |- *. lia. }
  rewrite (dot_cleanup_wf (typeOf custom_type)); [|done|rewrite Hps; unfold buffer_providers; rewrite !length_app; simpl in *; lia].
  rewrite Hps. unfold buffer_providers.
  change ([dotXProvider; dotReqProvider] ++ mid ++ [dotRespProvider])
    with ((dotXProvider :: dotReqProvider :: mid) ++ [dotRespProvider]).
  rewrite zip_with_app by done. rewrite foldl_app.
  destruct (buffer_cleanups mid Ks ys (ex_world s) err Hq Hr Hys) as (wd2 & err2 & Hcl & Hw2 & Hok).
  rewrite Hcl.
  cbn [zip_with foldl cleanup_step fst snd mbind outcome_bind Cleanup dotRespProvider].
  assert (blank (world_w wd2) None) as Hb2 by (by rewrite Hw2).
  destruct (dotRespProvider_Cleanup dr (world_w wd2) err2) as [[w3 err3]|msg] eqn:E; [|done].
  cbn [mbind outcome_bind]. assert (pool_ok d (zero_struct d :: pool)) as Hp' by (by constructor).
  destruct err2 as [e|].
  - assert (blank w3 (failure_status (Some e)) /\ err3 = Some e) as [Hb3 ->].
    { unfold dotRespProvider_Cleanup in E. unfold failure_status. cbn [mbind option_bind] in E |- *.
      destruct (As sel_status e) as [code|] eqn:Eas; [|by injection E as <- <-]. cbn [option_bind].
      destruct (WriteHeader (world_w wd2) code) as [w|msg] eqn:Ew; [|done]. injection E as <- <-.
      split; [by eapply WriteHeader_blank|done]. }
    destruct (internal_error_blank (set_w wd2 w3) _ (Some e) Hb3 eq_refl) as (wd4 & Hie & Hfail).
    rewrite Hie. cbn. intros [= <- <-]. split; [done|]. exists ys, dr, wd2, (Some e). split_and!; try done.
    unfold internal_error in Hie. destruct (http_Error _ _ _); [|done]. cbn in Hie. by injection Hie as <-.
  - assert (err3 = None) as ->.
    { unfold dotRespProvider_Cleanup in E. cbn [mbind option_bind] in E.
      destruct (WriteHeader _ _); [|done]. cbn in E. by simplify_eq. }
    intros [= <- <-]. split; [done|]. exists ys, dr, wd2, None. split_and!; try done; [by apply Hok|].
    by eapply resp_success.
Qed.

(** C6: the client of a buffered template gets either the whole output of the
    template, with the headers and the status it set, or an error response without any
    of it.  When a field value cannot be made it is status 500; otherwise the template
    runs and the fields before the response are cleaned up in order, each cleanup with
    the error of those before it, and the output goes out exactly when they end without
    error, which they do only if the template went well; else the error decides the
    status.  The pool keeps nothing of the request.  The template does not call
    [ServeContent], which writes to the response itself, and the handler returns. *)
Theorem buffered_all_or_nothing mid Ks mock r0 mock' d pool choice tmpl wd r wd' pool' :
  Forall2 QuietProvider mid Ks -> Forall reports mid ->
  makeDot (typeOf custom_type) unicode_IsLetter unicode_IsDigit mock r0 (buffer_providers mid)
    = Ret (mock', d) ->
  pool_ok d pool -> calls_ok (fun c => is_serve c = false) tmpl ->
  world_w wd = new_writer false ->
  bufferingTemplateHandler d pool choice tmpl wd r = Ret (wd', pool') ->
  pool_ok d pool' /\
  exists wd1 res, values wd r (buffer_providers mid) = Ret (wd1, res) /\
  match res with
  | Err _ => failure_response (world_w wd') None
  | Ok xs =>
      let '(s, err) := exec env custom_call false r tmpl (start_exec (Some <$> xs) wd1) in
      exists ys dr wd2 err2,
        ex_fields s = Some <$> ys ++ [FResp dr] /\
        foldl cleanup_step (Ret (ex_world s, err)) (zip (dotXProvider :: dotReqProvider :: mid) ys)
          = Ret (wd2, err2) /\
        world_dbs wd' = world_dbs wd2 /\
        match err2 with
        | Some e => failure_response (world_w wd') (Some e)
        | None => template_ok err /\ success_response (world_w wd') dr (ex_buf s)
        end
  end.
Proof.
  intros Hq Hr Hd Hp Hserve Hw.
  destruct (makeDot_wf _ _ _ _ _ _ _ _ (buffer_stable mid Ks Hq) Hd) as (Hwf & Hps & _).
  unfold bufferingTemplateHandler.
  destruct (dot_value_wf (typeOf custom_type) d pool choice wd r Hwf Hp) as (pool1 & Hp1 & ->).
  rewrite Hps. assert (values wd r (buffer_providers mid) =
    values wd r ((dotXProvider :: dotReqProvider :: mid) ++ [dotRespProvider])) as -> by done.
  rewrite values_app. pose proof (quiet_front mid Ks Hq) as Hqs.
  destruct (values_quiet _ _ wd r Hqs) as (wd1 & res & -> & Hw1 & Hxs).
  assert (blank (world_w wd1) None) as Hb1 by (by rewrite Hw1, Hw).
  destruct res as [xs|e]; cbn [value_outcome mbind outcome_bind].
  2: { destruct (internal_error_blank wd1 None None Hb1 eq_refl) as (wd2 & -> & Hf).
       cbn. intros [= <- <-]. split; [by constructor|]. by exists wd1, (Err e). }
  specialize (Hxs xs eq_refl). cbn [values Value dotRespProvider mbind outcome_bind result_bind value_outcome].
  set (all := xs ++ [FResp dotRespProvider_Value]).
  destruct (exec env custom_call false r tmpl (start_exec (Some <$> all) wd1)) as [s err] eqn:Ex.
  destruct (exec_fits ((is_FX :: is_FReq :: Ks) ++ [is_FResp]) r tmpl (start_exec (Some <$> all) wd1) s err)
    as [Hf Hws]; [|done| |done|].
  { apply Forall_app. split; [|constructor; [apply slot_FResp|constructor]].
    clear -Hqs. induction Hqs; constructor; [apply quiet_call|done]. }
  { apply some_fits. apply Forall2_app; [done|]. constructor; [by eexists|constructor]. }
  intros Hh. edestruct (buffered_finish mid Ks d pool1 s err wd' pool') as [Hp' Hres]; try done.
  { by rewrite Hws. }
  split; [done|]. exists wd1, (Ok all). split; [done|]. by rewrite Ex.
Qed.
End handlers.
