(* ===== verification/Types.v ===== *)
(** * The dynamic types of fields (dot.go, handlers.go)

    [makeDot] fixes the type of each field from a mock request, [value] sets the
    fields by reflection and the cleanups assert the types they expect; each of them
    panics on a value of another type.  Here: none of them ever does. *)

From S2P Require Import Prelude GoStrings GoErrors Http ServeContent.
From S2P Require Import DotDB DotFlush DotResp DotFS Dot Template Handlers.

Section types.
Context {V P R Info Entry CVal CType CCall Ext : Type} `{EqDecision CType}.
Context (env : mime_env).
Context (custom_type : CVal -> CType).
Context (unicode_IsLetter unicode_IsDigit : N -> bool).

Abbreviation World := (World (Ext := Ext)).
Abbreviation field := (field (V := V) (P := P) (R := R) (Info := Info) (Entry := Entry) (CVal := CVal)).
Abbreviation struct := (list (option field)).
Abbreviation dot := (dot (World := World) (Val := field) (T := ftype (CType := CType))).
Abbreviation provider := (DotConfig (World := World) (Val := field)).
Abbreviation tprog := (tprog (V := V) (P := P) (R := R) (Info := Info) (Entry := Entry)
                         (CVal := CVal) (CCall := CCall)).

Context (custom_call : CVal -> CCall -> World -> CVal * World * outcome (result CVal)).

#[local] Existing Instance ftype_eq.

(** A method of a custom value changes what it points to, not its type. *)
Hypothesis custom_keeps : forall v c wd, custom_type (custom_call v c wd).1.1 = custom_type v.

Definition bad_code : gostring := gs "invalid WriteHeader code".

(** No panic, or that of a status no response can have. *)
Definition safe {A} (m : outcome A) : Prop := match m with Ret _ => True | Panic msg => msg = bad_code end.

Lemma safe_bind {A B} (m : outcome A) (k : A -> outcome B) : safe m -> (forall a, safe (k a)) -> safe (m ≫= k).
Proof. destruct m as [a|msg]; [intros _ Hk; apply Hk|done]. Qed.

(** A provider whose values are of one type, which its [Cleanup] takes; a cleanup may
    panic on a status no response can have. *)
Class TypedProvider (dp : provider) (t : ftype (CType := CType)) : Prop := {
  typed_value : forall wd r, exists wd' f err, Value dp wd r = Ret (wd', Some f, err) /\ typeOf custom_type f = t;
  typed_cleanup : forall c, Cleanup dp = Some c -> forall wd f err, typeOf custom_type f = t -> safe (c wd f err)
}.

Ltac typed :=
  split; [intros wd r; by eexists _, _, _|];
  intros c Hc wd f err Hf; cbn in Hc; simplify_eq; destruct f; try discriminate Hf.

#[export] Instance typed_X : TypedProvider dotXProvider TX.
Proof. by typed. Qed.

#[export] Instance typed_Req : TypedProvider dotReqProvider TReq.
Proof. by typed. Qed.

#[export] Instance typed_flags name m : TypedProvider (flagsProvider name m) TFlags.
Proof. by typed. Qed.

#[export] Instance typed_nats name : TypedProvider (natsProvider name) TNats.
Proof. by typed. Qed.

#[export] Instance typed_db name k drv : TypedProvider (dbProvider name k drv) TDB.
Proof. typed. by destruct (DotDBConfig_Cleanup _ _ err). Qed.

#[export] Instance typed_dir name fs : TypedProvider (dirProvider name fs) TDir.
Proof. typed. by destruct (DotDirConfig_Cleanup _ err) as [[? ?] ?]. Qed.

#[export] Instance typed_Flush : TypedProvider dotFlushProvider TFlush.
Proof. typed. by destruct (dotFlushProvider_Cleanup _ err). Qed.

Lemma WriteHeader_safe w code : safe (WriteHeader w code).
Proof. unfold WriteHeader, safe. repeat case_match; simplify_eq; done. Qed.

Lemma http_Error_safe w msg code : safe (http_Error w msg code).
Proof. apply safe_bind; [apply WriteHeader_safe|done]. Qed.

#[export] Instance typed_Resp : TypedProvider dotRespProvider TResp.
Proof.
  typed. unfold dotRespProvider_Cleanup. apply safe_bind; [|by intros [w e]].
  destruct (err ≫= As sel_status); [|destruct err; [done|]]; (apply safe_bind; [apply WriteHeader_safe|done]).
Qed.

Lemma typed_stable dp t : TypedProvider dp t -> stable (typeOf custom_type) dp.
Proof.
  intros H. exists t. intros wd r wd' x err Hv. destruct (typed_value wd r) as (wd1 & f & e & Hv' & Hf).
  rewrite Hv in Hv'. by simplify_eq.
Qed.

Lemma typeds_stable ps ts : Forall2 TypedProvider ps ts -> Forall (stable (typeOf custom_type)) ps.
Proof. induction 1; constructor; [by eapply typed_stable|done]. Qed.

(** ** Calls keep the types *)

Lemma do_call_type (c : call (P := P) (CCall := CCall)) (f : field) (wd : World) r : typeOf custom_type (do_call env custom_call c f wd r).1.1 = typeOf custom_type f.
Proof.
  destruct c, f; cbn; try done.
  - by destruct (db_answer _ _ op).
  - by destruct (DotResp_ServeContent _ _ _ _ _ _ _).
  - by destruct (SendSSE _ _).
  - pose proof (custom_keeps c0 c wd) as H. destruct (custom_call c0 c wd) as [[v w] res]. cbn in *. by rewrite H.
Qed.

(** Each field is set, to a value of its type. *)
Definition has_types (ts : list (ftype (CType := CType))) (fields : struct) : Prop :=
  exists xs, fields = Some <$> xs /\ typeOf custom_type <$> xs = ts.

Lemma call_field_types ts (s : exec_state) r try i c s' ans :
  has_types ts (ex_fields s) -> call_field env custom_call s r try i c = (s', ans) -> has_types ts (ex_fields s').
Proof.
  intros Hf. unfold call_field, call_field_at. destruct (ex_fields s !! i) as [[f|]|] eqn:E; [|by intros [= <- _]..].
  destruct (try && negb (tryable f)); [by intros [= <- _]|].
  pose proof (do_call_type c f (ex_world s) r) as Ht.
  destruct (do_call env custom_call c f (ex_world s) r) as [[f' wd'] a]. intros [= <- _]. cbn in *.
  destruct Hf as (xs & Exs & <-). rewrite Exs in E |- *.
  rewrite list_lookup_fmap in E. destruct (xs !! i) as [g|] eqn:Ei; [|done]. injection E as ->.
  exists (<[i := f']> xs). rewrite !list_fmap_insert, Ht. split; [done|].
  apply list_insert_id. by rewrite list_lookup_fmap, Ei.
Qed.

Lemma calls_ok_any p : calls_ok (fun _ : call (P := P) (CCall := CCall) => True) (p : tprog).
Proof. induction p; cbn; auto. Qed.

Lemma exec_types ts direct r p (s s' : exec_state) err :
  has_types ts (ex_fields s) -> exec env custom_call direct r p s = (s', err) -> has_types ts (ex_fields s').
Proof.
  apply (exec_inv env custom_call (fun s => has_types ts (ex_fields s)) (fun _ => True)); try done.
  - intros s1 try i c s2 ans H1 _. by apply call_field_types.
  - apply calls_ok_any.
Qed.

(** ** Values and cleanups *)

Lemma values_typed ps ts wd r :
  Forall2 TypedProvider ps ts ->
  exists wd' res, values wd r ps = Ret (wd', res) /\ forall xs, res = Ok xs -> typeOf custom_type <$> xs = ts.
Proof.
  intros H. revert wd. induction H as [|dp t ps ts Hq _ IH]; intros wd; cbn [values].
  { eexists _, _. split; [done|]. by intros xs [= <-]. }
  destruct (typed_value wd r) as (wd1 & f & err & -> & Hf). cbn [mbind outcome_bind].
  destruct err as [e|]; [by eexists _, _|].
  destruct (IH wd1) as (wd2 & res & -> & Hres). cbn [mbind outcome_bind]. eexists _, _. split; [done|].
  destruct res as [xs|e]; cbn; [|done]. intros ys [= <-]. cbn. by rewrite Hf, (Hres xs).
Qed.

Lemma cleanups_typed ps ts xs wd err :
  Forall2 TypedProvider ps ts -> typeOf custom_type <$> xs = ts ->
  safe (foldl cleanup_step (Ret (wd, err)) (zip ps xs)).
Proof.
  intros H. revert xs wd err. induction H as [|dp t ps ts Hq _ IH]; intros xs wd err Hx.
  { done. }
  destruct xs as [|x xs]; [done|]. cbn in Hx. injection Hx as Hx Hxs.
  cbn [zip zip_with foldl cleanup_step fst snd mbind outcome_bind].
  destruct (Cleanup dp) as [c|] eqn:Ec; [|by apply IH].
  pose proof (typed_cleanup c Ec wd x err Hx) as Hc.
  destruct (c wd x err) as [[wd1 e1]|msg]; [by apply IH|]. by rewrite cleanup_step_panic.
Qed.

Lemma make_fields_types ps ts mock r i mock' fields cls :
  Forall2 TypedProvider ps ts -> make_fields (typeOf custom_type) mock r i ps = Ret (mock', fields, cls) ->
  fields = zip (FieldName <$> ps) ts.
Proof.
  intros H. revert mock i fields cls.
  induction H as [|dp t ps ts Hq _ IH]; intros mock i fields cls; cbn [make_fields]; [by intros [= _ <- _]|].
  destruct (typed_value mock r) as (wd1 & f & err & -> & Hf). cbn [mbind outcome_bind].
  destruct (make_fields _ wd1 r (S i) ps) as [[[m fs] cs]|msg] eqn:E; [|done]. cbn [mbind outcome_bind].
  intros [= <- <- _]. cbn. by rewrite Hf, (IH _ _ _ _ E).
Qed.

Lemma makeDot_types ps ts mock r mock' (d : dot) :
  Forall2 TypedProvider ps ts ->
  makeDot (typeOf custom_type) unicode_IsLetter unicode_IsDigit mock r ps = Ret (mock', d) ->
  typ d = zip (FieldName <$> ps) ts.
Proof.
  intros Ht. unfold makeDot. destruct (make_fields _ mock r 0 ps) as [[[m fs] cs]|msg] eqn:E; [|done].
  cbn [mbind outcome_bind]. destruct (StructOf _ _ fs) as [ty|msg] eqn:Es; [|done]. cbn [mbind outcome_bind].
  intros [= _ <-]. apply StructOf_names in Es as [-> _]. by eapply make_fields_types.
Qed.

(** ** The handlers *)

Definition made (d : dot) (ps : list provider) (ts : list (ftype (CType := CType))) : Prop :=
  Forall2 TypedProvider ps ts /\ dot_wf (typeOf custom_type) d /\ dps d = ps.

Lemma makeDot_made ps ts mock r mock' (d : dot) :
  Forall2 TypedProvider ps ts ->
  makeDot (typeOf custom_type) unicode_IsLetter unicode_IsDigit mock r ps = Ret (mock', d) -> made d ps ts.
Proof.
  intros Ht Hd. by destruct (makeDot_wf _ _ _ _ _ _ _ _ (typeds_stable ps ts Ht) Hd) as (Hwf & Hps & _).
Qed.

(** It ends with a pool that holds zeroed structs only, or panics on a status. *)
Definition handled_as {A} (d : dot) (pool_of : A -> list struct) (m : outcome A) : Prop :=
  match m with Ret a => pool_ok d (pool_of a) | Panic msg => msg = bad_code end.

Definition handled (d : dot) (m : outcome (World * list struct)) : Prop := handled_as d snd m.

Lemma handled_bind {A B} d (pool_of : B -> list struct) (m : outcome A) (k : A -> outcome B) :
  safe m -> (forall a, handled_as d pool_of (k a)) -> handled_as d pool_of (m ≫= k).
Proof. destruct m as [a|msg]; [intros _ Hk; apply Hk|done]. Qed.

Lemma internal_error_handled d (wd : World) pool :
  pool_ok d pool -> handled d (wd ← internal_error wd; Ret (wd, pool)).
Proof. intros Hp. apply handled_bind; [|done]. apply safe_bind; [apply http_Error_safe|done]. Qed.

(** What is done with the struct of a request, and with what its cleanup leaves. *)
Section steps.
Context {A : Type} (pool_of : A -> list struct) (d : dot) (ps : list provider) (ts : list (ftype (CType := CType))).
Context (is_made : made d ps ts).

Lemma handled_value pool choice wd r (k : World -> list struct -> result struct -> outcome A) :
  pool_ok d pool ->
  (forall wd pool e, pool_ok d pool -> handled_as d pool_of (k wd pool (Err e))) ->
  (forall wd pool fields, pool_ok d pool -> has_types ts fields -> handled_as d pool_of (k wd pool (Ok fields))) ->
  handled_as d pool_of ('(wd, pool, dot) ← dot_value (typeOf custom_type) d pool choice wd r; k wd pool dot).
Proof using is_made.
  destruct is_made as (Ht & Hwf & Hps). intros Hp Hke Hk.
  destruct (dot_value_wf (typeOf custom_type) d pool choice wd r Hwf Hp) as (pool1 & Hp1 & ->). rewrite Hps.
  destruct (values_typed ps ts wd r Ht) as (wd1 & res & -> & Hxs).
  destruct res as [xs|e]; cbn [value_outcome mbind outcome_bind].
  - apply Hk; [done|]. exists xs. by split; [|apply Hxs].
  - apply Hke. by constructor.
Qed.

Lemma handled_cleanup pool wd fields err (k : World -> list struct -> option goerr -> outcome A) :
  pool_ok d pool -> has_types ts fields ->
  (forall wd pool err, pool_ok d pool -> handled_as d pool_of (k wd pool err)) ->
  handled_as d pool_of ('(wd, pool, err) ← dot_cleanup d pool wd fields err; k wd pool err).
Proof using is_made.
  destruct is_made as (Ht & Hwf & Hps). intros Hp Hf Hk. destruct Hf as (xs & -> & Hxs).
  rewrite (dot_cleanup_wf (typeOf custom_type)); [|done|].
  2: { rewrite Hps. apply Forall2_length in Ht. rewrite Ht, <- Hxs. by rewrite length_fmap. }
  rewrite Hps. pose proof (cleanups_typed ps ts xs wd err Ht Hxs) as Hc.
  destruct (foldl cleanup_step (Ret (wd, err)) (zip ps xs)) as [[wd1 e1]|msg]; [|done]. apply Hk. by constructor.
Qed.
End steps.

Section both.
Context (d : dot) (ps : list provider) (ts : list (ftype (CType := CType))) (is_made : made d ps ts).

Lemma buffering_handled pool choice tmpl wd r :
  pool_ok d pool -> handled d (bufferingTemplateHandler env custom_type custom_call d pool choice tmpl wd r).
Proof using custom_keeps is_made.
  intros Hp. eapply handled_value; [done|done| |]; intros; [by apply internal_error_handled|].
  destruct (exec _ _ _ _ _ _) as [s err] eqn:E. eapply exec_types in E; [|done].
  eapply handled_cleanup; [done..|]. intros wd1 pool1 [e|] Hp1; [by apply internal_error_handled|done].
Qed.

Lemma flushing_handled pool choice tmpl wd r :
  pool_ok d pool -> handled d (flushingTemplateHandler env custom_type custom_call d pool choice tmpl wd r).
Proof using custom_keeps is_made.
  intros Hp. unfold flushingTemplateHandler.
  destruct (negb _); [by apply handled_bind; [apply http_Error_safe|]|].
  eapply handled_value; [done|done| |]; intros; [by apply internal_error_handled|].
  destruct (exec _ _ _ _ _ _) as [s err] eqn:E. eapply exec_types in E; [|done].
  eapply handled_cleanup; [done..|]. intros wd1 pool1 [e|] Hp1; [by apply internal_error_handled|done].
Qed.
End both.

(** C7: the fields of a template are well typed: the struct type has one field per
    provider, with its name and type; whatever a template calls, no field is ever
    set to, or cleaned up as, a value of another type, neither in a buffered nor in
    a streaming handler; the one panic a handler can end in is that of a status
    code outside 100 to 999, and otherwise its pool holds zeroed structs only. *)
Theorem handlers_type_safe ps ts mock r0 mock' (d : dot) pool choice tmpl wd r :
  Forall2 TypedProvider ps ts ->
  makeDot (typeOf custom_type) unicode_IsLetter unicode_IsDigit mock r0 ps = Ret (mock', d) ->
  pool_ok d pool ->
  typ d = zip (FieldName <$> ps) ts /\
  handled d (bufferingTemplateHandler env custom_type custom_call d pool choice tmpl wd r) /\
  handled d (flushingTemplateHandler env custom_type custom_call d pool choice tmpl wd r).
Proof.
  intros Ht Hd Hp. pose proof (makeDot_made _ _ _ _ _ _ Ht Hd) as Hm.
  split_and!; [by eapply makeDot_types|by eapply buffering_handled|by eapply flushing_handled].
Qed.
End types.
