(* ===== verification/Context.v ===== *)
(** * Request contexts (instance.go, [GetRequestId], [GetLogger])

    The values a request's context carries: the id of the request, from xtemplate
    or from Caddy, and its logger.  Keys of a type of their own do not collide with
    those of other packages. *)

From S2P Require Import Prelude GoStrings.

Section context.
Context {Logger : Type}.
Context (slog_Default : Logger).

(** [any] values, as far as they are looked at. *)
Inductive any_value :=
| AnyString (s : gostring)
| AnyMap (m : list (gostring * any_value))
| AnyLogger (l : Logger)
| AnyOther.

Inductive ctx_key := requestIdKey | loggerKey | StringKey (s : gostring).

#[export] Instance ctx_key_eq : EqDecision ctx_key.
Proof. solve_decision. Defined.

(** A context by its [WithValue]s, the last one first. *)
Abbreviation context := (list (ctx_key * any_value)).

Definition ctx_Value (ctx : context) (k : ctx_key) : option any_value :=
  snd ∘ snd <$> list_find (fun kv => kv.1 = k) ctx.

Definition WithValue (ctx : context) (k : ctx_key) (v : any_value) : context := (k, v) :: ctx.

Definition GetRequestId (ctx : context) : gostring :=
  match ctx_Value ctx requestIdKey with
  | Some (AnyString v) => v
  | _ =>
      match ctx_Value ctx (StringKey (gs "vars")) with
      | Some (AnyMap mv) =>
          match snd ∘ snd <$> list_find (fun kv => kv.1 = gs "uuid") mv with
          | Some (AnyString rid) => rid
          | _ => []
          end
      | _ => []
      end
  end.

Definition GetLogger (ctx : context) : Logger :=
  match ctx_Value ctx loggerKey with
  | Some (AnyLogger log) => log
  | _ => slog_Default
  end.

(** What [ServeHTTP] makes of the context of a request: the id and the context of
    the handler; [With] is the instance's logger with the id as attribute. *)
Definition serve_context (uuid_NewString : gostring) (With : gostring -> Logger) (ctx : context) :
    gostring * context :=
  let rid := GetRequestId ctx in
  let '(rid, ctx) :=
    if bool_decide (rid = []) then (uuid_NewString, WithValue ctx requestIdKey (AnyString uuid_NewString))
    else (rid, ctx) in
  (rid, WithValue ctx loggerKey (AnyLogger (With rid))).

Lemma ctx_Value_With ctx k v k' :
  ctx_Value (WithValue ctx k v) k' = if bool_decide (k = k') then Some v else ctx_Value ctx k'.
Proof.
  unfold ctx_Value, WithValue. cbn [list_find fst]. case_bool_decide as E.
  - by rewrite decide_True.
  - rewrite decide_False by done. by destruct (list_find _ ctx) as [[]|].
Qed.

Lemma GetRequestId_ne ctx k v :
  k <> requestIdKey -> k <> StringKey (gs "vars") -> GetRequestId (WithValue ctx k v) = GetRequestId ctx.
Proof. intros H1 H2. unfold GetRequestId. by rewrite !ctx_Value_With, !bool_decide_false. Qed.

(** The handler of a request finds the id and the logger it was given, an id that
    was there before (xtemplate's or Caddy's) is kept, and no request goes without. *)
Lemma serve_context_spec uuid With ctx :
  uuid <> [] ->
  let '(rid, ctx') := serve_context uuid With ctx in
  GetRequestId ctx' = rid /\ GetLogger ctx' = With rid /\ rid <> [] /\
  rid = (if bool_decide (GetRequestId ctx = []) then uuid else GetRequestId ctx).
Proof.
  intros Hu. unfold serve_context.
  destruct (bool_decide_reflect (GetRequestId ctx = [])) as [E|E].
  - by split_and!.
  - split_and!; try done. by rewrite GetRequestId_ne.
Qed.
End context.
