(* ===== verification/Instance.v ===== *)
(** * Instances (instance.go)

    [Config.Instance] loads a configuration into an instance: it walks the
    templates, initializes the fields, lays out the two dot values and runs the
    initializer templates.  [Instance.ServeHTTP] dispatches requests to the handlers
    the builder registered.  Libraries and the file system are collected in a record
    of operations. *)

From S2P Require Import Prelude GoStrings GoErrors GoPath Http ServeContent Config Negotiate.
From S2P Require Import DotDB DotFlush DotResp DotFS Dot Init Template StaticFile Mux Build Handlers.

Section instance.
Context {V P R Info Entry CVal CType CCall Ext : Type} `{EqDecision CType}.
Context {FSys Logger Ctx Func DB TxOptions : Type}.
Context {NatsServerOptions NatsOptions JetStreamOpt NatsConn NatsServer JetStream : Type}.
Context (env : mime_env).
Context (custom_type : CVal -> CType).
Context (unicode_IsLetter unicode_IsDigit : N -> bool).

Abbreviation World := (World (Ext := Ext)).
Abbreviation field := (field (V := V) (P := P) (R := R) (Info := Info) (Entry := Entry) (CVal := CVal)).
Abbreviation struct := (list (option field)).
Abbreviation dot := (dot (World := World) (Val := field) (T := ftype (CType := CType))).
Abbreviation provider := (DotConfig (World := World) (Val := field)).
Abbreviation tprog := (tprog (V := V) (P := P) (R := R) (Info := Info) (Entry := Entry)
                         (CVal := CVal) (CCall := CCall)).
Abbreviation handler := (handler (Tree := tprog)).
Abbreviation builder := (builder (Tree := tprog)).

Context (custom_call : CVal -> CCall -> World -> CVal * World * outcome (result CVal)).

#[local] Existing Instance ftype_eq.

(** A provider given by the embedding program. *)
Record custom_provider := {
  cp_provider : provider;
  cp_Init : World -> World * option goerr
}.

Abbreviation Config :=
  (Config (FS := FSys) (Logger := Logger) (Ctx := Ctx) (FuncMap := gmap gostring Func) (DB := DB)
     (TxOptions := TxOptions) (Provider := custom_provider) (NatsServerOptions := NatsServerOptions)
     (NatsOptions := NatsOptions) (JetStreamOpt := JetStreamOpt) (NatsConn := NatsConn)
     (NatsServer := NatsServer) (JetStream := JetStream)).
Abbreviation resource := (resource (DB := DB) (NatsConn := NatsConn) (NatsServer := NatsServer)).

(** ** What is not under src/ *)

Record platform := {
  pf_Open : FSys -> gostring -> result src_file;            (* while loading *)
  pf_WalkDir : FSys -> list visit;                          (* fs.WalkDir from "." *)
  pf_DirFS : gostring -> FSys;                              (* os.DirFS *)
  pf_Stat : FSys -> gostring -> result Info;
  pf_dir : FSys -> FS (Info := Info) (Entry := Entry);      (* as a directory field *)
  pf_gzip : reader -> result reader;
  pf_zstd : reader -> result reader;
  pf_brotli : reader -> reader;
  pf_sha384 : gostring -> gostring;
  pf_detect : gostring -> gostring;                         (* http.DetectContentType *)
  pf_minify : gostring -> gostring -> gostring -> result gostring;
  pf_parse : gostring -> gostring -> gmap gostring Func -> gostring -> gostring ->
             result (list (gostring * tprog));
  pf_xtemplateFuncs : gmap gostring Func;
  pf_sprig : gmap gostring Func;
  pf_sql_Open : gostring -> gostring -> result DB;
  pf_SetMaxOpenConns : DB -> Z -> DB;
  pf_Ping : DB -> option goerr;
  pf_key : DB -> nat;                                       (* which database it is *)
  pf_driver : DB -> option TxOptions -> driver V P R;
  pf_jetstream_New : NatsConn -> list JetStreamOpt -> result JetStream;
  pf_GetDefaultOptions : NatsOptions;
  pf_NewServer : NatsServerOptions -> result NatsServer;
  pf_InProcessServer : NatsServer -> NatsOptions -> NatsOptions;
  pf_Connect : NatsOptions -> result NatsConn;
  pf_has_done : Ctx -> bool;                                (* ctx.Done() != nil *)
  pf_range : gmap gostring nat -> list (gostring * nat);    (* the order a map is ranged over *)
  pf_Templates : gmap gostring tprog -> list (gostring * tprog)
}.

Context (slog_Default : Logger) (context_Background : Ctx) (pf : platform).

(** ** The fields of the configuration *)

Inductive dot_config :=
| DCDB (c : DotDBConfig (DB := DB) (TxOptions := TxOptions))
| DCFlags (c : DotFlagsConfig)
| DCDir (c : DotDirConfig (FS := FSys))
| DCNats (c : DotNatsConfig (NatsServerOptions := NatsServerOptions) (NatsOptions := NatsOptions)
                (JetStreamOpt := JetStreamOpt) (NatsConn := NatsConn) (NatsServer := NatsServer)
                (JetStream := JetStream))
| DCCustom (c : custom_provider).

Definition dot_FieldName (d : dot_config) : gostring :=
  match d with
  | DCDB c => db_Name c
  | DCFlags c => flags_Name c
  | DCDir c => dir_Name c
  | DCNats c => nats_Name c
  | DCCustom c => FieldName (cp_provider c)
  end.

Definition dot_configs (c : Config) : list dot_config :=
  (DCDB <$> Databases c) ++ (DCFlags <$> Flags c) ++ (DCDir <$> Directories c) ++ (DCNats <$> Nats c) ++
  (DCCustom <$> CustomProviders c).

(** [names[d.FieldName()] += 1] *)
Definition count_names (ds : list dot_config) : gmap gostring nat :=
  foldl (fun names d => <[dot_FieldName d := S (default 0 (names !! dot_FieldName d))]> names) ∅ ds.

Definition name_used (name : gostring) (count : nat) : goerr :=
  ErrText (gs "dot field name '" ++ name ++ gs "' is used " ++ itoa count ++ gs " times").

Definition check_names (ds : list dot_config) : option goerr :=
  match list_find (fun nc => 1 < nc.2) (pf_range pf (count_names ds)) with
  | Some (_, (name, count)) => Some (name_used name count)
  | None => None
  end.

(** [d.Init(ctx)]: the provider that is ready for requests, or the error. *)
Definition dot_Init (has_done : bool) (d : dot_config) (wd : World) :
    World * list resource * result provider :=
  match d with
  | DCDB c =>
      let '(c, rs, err) := DotDBConfig_Init (pf_sql_Open pf) (pf_SetMaxOpenConns pf) (pf_Ping pf) c in
      (wd, rs, match err, db_DB c with
               | Some e, _ => Err e
               | None, Some db => Ok (dbProvider (db_Name c) (pf_key pf db) (pf_driver pf db (db_TxOptions c)))
               | None, None => Err (ErrText (gs "no database"))
               end)
  | DCFlags c => (wd, [], Ok (flagsProvider (flags_Name c) (flags_Values c)))
  | DCDir c =>
      let '(c, err) := DotDirConfig_Init (pf_DirFS pf) (pf_Stat pf) c in
      (wd, [], match err, dir_FS c with
               | Some e, _ => Err e
               | None, Some fs => Ok (dirProvider (dir_Name c) (pf_dir pf fs))
               | None, None => Err (ErrText (gs "no directory"))
               end)
  | DCNats c =>
      let '(c, rs, err) := DotNatsConfig_Init (pf_jetstream_New pf) (pf_GetDefaultOptions pf) (pf_NewServer pf)
                             (pf_InProcessServer pf) (pf_Connect pf) has_done c in
      (wd, rs, match err with Some e => Err e | None => Ok (natsProvider (nats_Name c)) end)
  | DCCustom c =>
      let '(wd, err) := cp_Init c wd in
      (wd, [], match err with Some e => Err e | None => Ok (cp_provider c) end)
  end.

Definition init_error (d : dot_config) (e : goerr) : goerr :=
  ErrWrap (gs "failed to initialize dot field '" ++ dot_FieldName d ++ gs "': ") e.

Fixpoint init_all (has_done : bool) (ds : list dot_config) (wd : World) :
    World * list resource * result (list provider) :=
  match ds with
  | [] => (wd, [], Ok [])
  | d :: ds' =>
      let '(wd, rs, r) := dot_Init has_done d wd in
      match r with
      | Err e => (wd, rs, Err (init_error d e))
      | Ok p =>
          let '(wd, rs', r) := init_all has_done ds' wd in
          (wd, rs ++ rs', match r with Ok ps => Ok (p :: ps) | Err e => Err e end)
      end
  end.
(** ** Loading *)

(** [maps.Copy] in order: the functions of the configuration win over sprig's, and
    these over xtemplate's own. *)
Definition template_funcs (c : Config) : gmap gostring Func :=
  foldl (fun funcs extra => extra ∪ funcs) (pf_sprig pf ∪ pf_xtemplateFuncs pf) (FuncMaps c).

Definition templates_fs (c : Config) : FSys := default (pf_DirFS pf (TemplatesDir c)) (TemplatesFS c).

(** The walk over the templates; whether to minify is read from the configuration
    [Instance] was called on, not from the copy the options changed. *)
Definition load (receiver c : Config) : outcome (builder * option goerr) :=
  let fsys := templates_fs c in
  walk unicode_IsLetter unicode_IsDigit (pf_Open pf fsys) (pf_gzip pf) (pf_zstd pf) (pf_brotli pf)
    (pf_sha384 pf) (pf_detect pf)
    (if Minify receiver then Some (pf_minify pf (LDelim c) (RDelim c)) else None)
    (pf_parse pf (LDelim c) (RDelim c) (template_funcs c)) (TemplateExtension c) new_builder
    (pf_WalkDir pf fsys).

(** [httptest.NewRequest("", "/", nil)] *)
Definition root_request : request :=
  {| r_method := gs "GET"; r_path := gs "/"; r_query := []; r_header := ∅ |}.

(** A world with another response writer. *)
Definition with_writer (wd : World) (flusher : bool) : World :=
  {| world_w := new_writer false; world_flusher := flusher; world_dbs := world_dbs wd;
     world_ext := world_ext wd |}.

(** ** Initializer templates *)

Definition initializer_failed (name : gostring) (e : goerr) : goerr :=
  ErrWrap (gs "template initializer '" ++ name ++ gs "' failed: ") e.

(** One initializer: like a buffered request on a recorder whose output is dropped. *)
Definition run_initializer (d : dot) (pool : list struct) (choice : nat) (name : gostring) (tmpl : tprog)
    (wd : World) : outcome (World * list struct * option goerr) :=
  '(wd, pool, val) ← dot_value (typeOf custom_type) d pool choice (with_writer wd true) root_request;
  match val with
  | Err e => Ret (wd, pool, Some (ErrWrap (gs "failed to initialize dot value: ") e))
  | Ok fields =>
      let '(s, err) := exec env custom_call false root_request tmpl (start_exec fields wd) in
      '(wd, pool, err) ← dot_cleanup d pool (ex_world s) (ex_fields s) err;
      match err with
      | Some e => Ret (wd, pool, Some (initializer_failed name e))
      | None => Ret (wd, pool, None)
      end
  end.

(** The number of initializers that ran, and the error that stopped. *)
Fixpoint run_initializers (d : dot) (pool : list struct) (choice : nat) (ts : list (gostring * tprog))
    (wd : World) (n : nat) : outcome (World * list struct * nat * option goerr) :=
  match ts with
  | [] => Ret (wd, pool, n, None)
  | (name, tmpl) :: ts' =>
      if HasPrefix name (gs "INIT ") then
        '(wd, pool, err) ← run_initializer d pool choice name tmpl wd;
        match err with
        | Some e => Ret (wd, pool, n, Some e)
        | None => run_initializers d pool choice ts' wd (S n)
        end
      else run_initializers d pool choice ts' wd n
  end.

(** ** The instance *)

Record Instance := {
  in_config : Config;
  in_id : nat;
  in_router : mux handler;
  in_heap : list fileInfo;
  in_files : gmap gostring nat;
  in_templates : gmap gostring tprog;
  in_funcs : gmap gostring Func;
  in_bufferDot : dot;
  in_flusherDot : dot
}.

Definition set_initializers (st : InstanceStats) (n : nat) : InstanceStats :=
  {| Routes := Routes st; TemplateFiles := TemplateFiles st; TemplateDefinitions := TemplateDefinitions st;
     TemplateInitializers := n; StaticFiles := StaticFiles st;
     StaticFilesAlternateEncodings := StaticFilesAlternateEncodings st |}.

(** What [Config.Instance] returns without an error, with the pool of the buffered
    dot value after the initializers. *)
Record loaded := {
  ld_instance : Instance;
  ld_stats : InstanceStats;
  ld_routes : list (gostring * handler);
  ld_pool : list struct
}.

(** The rest of [Config.Instance] after the walk. *)
Definition assemble (c : Config) (id : nat) (b : builder) (choice : nat) (wd : World) :
    outcome (World * list resource * result loaded) :=
  let ds := dot_configs c in
  match check_names ds with
  | Some e => Ret (wd, [], Err e)
  | None =>
      let has_done := default false (pf_has_done pf <$> config_Ctx c) in
      let '(wd, rs, mid) := init_all has_done ds wd in
      match mid with
      | Err e => Ret (wd, rs, Err e)
      | Ok mid =>
          '(wd, bufferDot) ← makeDot (typeOf custom_type) unicode_IsLetter unicode_IsDigit
                               (with_writer wd false) root_request (buffer_providers mid);
          '(wd, flusherDot) ← makeDot (typeOf custom_type) unicode_IsLetter unicode_IsDigit
                                (with_writer wd false) root_request (flusher_providers mid);
          '(wd, pool, n, err) ← run_initializers bufferDot [] choice (pf_Templates pf (b_templates b)) wd 0;
          match err with
          | Some e => Ret (wd, rs, Err e)
          | None =>
              Ret (wd, rs, Ok
                {| ld_instance :=
                     {| in_config := c; in_id := id; in_router := b_router b; in_heap := b_heap b;
                        in_files := b_files b; in_templates := b_templates b; in_funcs := template_funcs c;
                        in_bufferDot := bufferDot; in_flusherDot := flusherDot |};
                   ld_stats := set_initializers (b_stats b) n;
                   ld_routes := b_routes b;
                   ld_pool := pool |})
          end
      end
  end.

(** [Config.Instance]: [next] is the counter the id is taken from. *)
Definition Config_Instance (config : Config) (cfgs : list (Option_ (FS := FSys))) (next choice : nat) (wd : World) :
    outcome (nat * World * list resource * result loaded) :=
  let config := Defaults slog_Default context_Background config in
  let id := S next in
  let '(c, err) := Options config cfgs in
  match err with
  | Some e => Ret (id, wd, [], Err e)
  | None =>
      '(b, err) ← load config c;
      match err with
      | Some e => Ret (id, wd, [], Err (ErrWrap (gs "error scanning files: ") e))
      | None =>
          '(wd, rs, r) ← assemble c id b choice wd;
          Ret (id, wd, rs, r)
      end
  end.
(** ** Requests *)

(** The bytes [url.URL.EscapedPath] leaves alone. *)
Definition unreserved (c : ascii) : bool :=
  in_range 97 122 c || in_range 65 90 c || in_range 48 57 c || bool_decide (c ∈ gs "-_.~").

Definition shouldEscape (c : ascii) : bool := negb (unreserved c || bool_decide (c ∈ gs "$&+,/:;=@")).

Definition hex_digit (n : N) : ascii := ascii_of_N (if (n <? 10)%N then 48 + n else 55 + n).

Definition escape (s : gostring) : gostring :=
  mjoin ((fun c => if shouldEscape c then ["%"%char; hex_digit (byte_N c / 16); hex_digit (byte_N c mod 16)]
                   else [c]) <$> s).

Definition validEncoded (s : gostring) : bool :=
  forallb (fun c => bool_decide (c ∈ gs "!$&'()*+,;=:@[]%") || negb (shouldEscape c)) s.

(** The encoding the client used where it is one of the path. *)
Definition EscapedPath (path rawpath : gostring) : gostring :=
  if negb (bool_decide (rawpath = [])) && validEncoded rawpath && bool_decide (PathUnescape rawpath = Some path)
  then rawpath
  else if bool_decide (path = gs "*") then gs "*"
  else escape path.

(** [strings.Join(methods, ", ")] *)
Fixpoint comma_list (ls : list gostring) : gostring :=
  match ls with
  | [] => []
  | [l] => l
  | l :: ls' => l ++ gs ", " ++ comma_list ls'
  end.

(** The pools of the two dot values. *)
Record pools := { pool_buffer : list struct; pool_flusher : list struct }.

Context (http_Redirect : writer -> request -> gostring -> Z -> outcome writer).

Definition on_writer (wd : World) (ps : pools) (m : outcome writer) : outcome (World * pools) :=
  w ← m; Ret (set_w wd w, ps).

(** The handler of a route. *)
Definition run_handler (open : gostring -> result static_file) (x : Instance) (h : handler) (ps : pools)
    (choice : nat) (wd : World) (r : request) : outcome (World * pools) :=
  match h with
  | StaticHandler addr =>
      match in_heap x !! addr with
      | Some f => on_writer wd ps (staticFileHandler env open f (world_w wd) r)
      | None => Panic (gs "invalid memory address or nil pointer dereference")
      end
  | BufferingHandler _ tmpl =>
      '(wd, pool) ← bufferingTemplateHandler env custom_type custom_call (in_bufferDot x) (pool_buffer ps)
                      choice tmpl wd r;
      Ret (wd, {| pool_buffer := pool; pool_flusher := pool_flusher ps |})
  | FlushingHandler _ tmpl =>
      '(wd, pool) ← flushingTemplateHandler env custom_type custom_call (in_flusherDot x) (pool_flusher ps)
                      choice tmpl wd r;
      Ret (wd, {| pool_buffer := pool_buffer ps; pool_flusher := pool |})
  end.

(** [Instance.ServeHTTP]: [done] tells whether the context of the instance is done.
    The multiplexer answers itself where no pattern matches. *)
Definition ServeHTTP (open : gostring -> result static_file) (x : Instance) (done : bool) (ps : pools)
    (choice : nat) (host rawpath : gostring) (wd : World) (r : request) : outcome (World * pools) :=
  if done then on_writer wd ps (http_Error (world_w wd) (gs "server stopped") 500)
  else
    match findHandler (in_router x) host (r_method r) (EscapedPath (r_path r) rawpath) (r_path r) with
    | Found _ h => run_handler open x h ps choice wd r
    | RedirectTo u => on_writer wd ps (http_Redirect (world_w wd) r u 301)
    | NotAllowed ms =>
        let w := set_header (world_w wd) (Header_Set (w_header (world_w wd)) (gs "Allow")
                                            (comma_list ms)) in
        on_writer wd ps (http_Error w (gs "Method Not Allowed") 405)
    | NotFound => on_writer wd ps (http_NotFound (world_w wd))
    end.

(** ** The methods of the X field (dot_instance.go) *)

Definition DotX_StaticFileHash (x : Instance) (urlpath : gostring) : result gostring :=
  let urlpath := Clean (SLASH :: urlpath) in
  match in_files x !! urlpath ≫= (fun addr => in_heap x !! addr) with
  | Some fileinfo => Ok (hash fileinfo)
  | None => Err (ErrText (gs "file does not exist: '" ++ urlpath ++ gs "'"))
  end.

(** The template a nested execution runs, and the error when there is none. *)
Definition DotX_Template (x : Instance) (name : gostring) : result tprog :=
  match in_templates x !! name with
  | Some t => Ok t
  | None => Err (ErrText (gs "failed to lookup template name: '" ++ name ++ gs "'"))
  end.

(** The zero value, nil, for a name that is not there. *)
Definition DotX_Func (x : Instance) (name : gostring) : option Func := in_funcs x !! name.
(** ** Names of fields *)

Lemma count_names_lookup ds name :
  count_names ds !! name =
  let k := length (filter (fun n => n = name) (dot_FieldName <$> ds)) in if bool_decide (k = 0) then None else Some k.
Proof.
  unfold count_names. induction ds as [|d ds IH] using rev_ind; [done|].
  rewrite foldl_app, fmap_app, filter_app, length_app. cbn [foldl fmap list_fmap].
  set (names := foldl _ ∅ ds) in *. rewrite filter_cons, filter_nil.
  destruct (decide (dot_FieldName d = name)) as [<-|Hne].
  - rewrite lookup_insert_eq, IH. cbn [length]. cbv zeta. rewrite Nat.add_1_r.
    set (k := length _). rewrite (bool_decide_false (S k = 0)) by done. by destruct k.
  - rewrite lookup_insert_ne by done. cbn [length]. by rewrite Nat.add_0_r.
Qed.

(** A map is ranged over once per entry, in any order. *)
Definition ranges_all : Prop := forall m, pf_range pf m ≡ₚ map_to_list m.

(** The check of [Config.Instance] accepts exactly lists without a repeated name. *)
Lemma check_names_NoDup ds :
  ranges_all -> check_names ds = None <-> NoDup (dot_FieldName <$> ds).
Proof.
  intros Hrange. rewrite NoDup_counts. unfold check_names.
  assert (list_find (fun nc : gostring * nat => 1 < nc.2) (pf_range pf (count_names ds)) = None <->
          forall n, length (filter (fun m => m = n) (dot_FieldName <$> ds)) <= 1) as <-.
  { rewrite list_find_None, Forall_forall. setoid_rewrite (Hrange (count_names ds)). split.
    - intros H n. destruct (count_names ds !! n) as [k|] eqn:E.
      + specialize (H (n, k)). rewrite elem_of_map_to_list in H. specialize (H E). cbn in H.
        rewrite count_names_lookup in E. cbv zeta in E. case_bool_decide; [done|]. injection E as <-. lia.
      + rewrite count_names_lookup in E. cbv zeta in E. case_bool_decide; [lia|done].
    - intros H [n k] Hn. rewrite elem_of_map_to_list, count_names_lookup in Hn. cbv zeta in Hn.
      case_bool_decide; [done|]. injection Hn as <-. cbn. specialize (H n). lia. }
  destruct (list_find _ _) as [[? []]|]; done.
Qed.

(** Initialization keeps the names. *)
Lemma dot_Init_name hd d wd wd' rs p :
  dot_Init hd d wd = (wd', rs, Ok p) -> FieldName p = dot_FieldName d.
Proof.
  unfold dot_Init. destruct d as [c|c|c|c|c]; cbn [dot_FieldName].
  - destruct (DotDBConfig_Init _ _ _ c) as [[c' rs'] [e|]] eqn:E; [done|].
    apply DotDBConfig_Init_ok in E as [[db ->] <-]. by intros [= _ _ <-].
  - by intros [= _ _ <-].
  - destruct (DotDirConfig_Init _ _ c) as [c' [e|]] eqn:E; [done|].
    apply DotDirConfig_Init_ok in E as [[fs ->] <-]. by intros [= _ _ <-].
  - destruct (DotNatsConfig_Init _ _ _ _ _ _ c) as [[c' rs'] [e|]] eqn:E; [done|].
    apply DotNatsConfig_Init_ok in E as (_ & _ & <-). by intros [= _ _ <-].
  - destruct (cp_Init c wd) as [wd1 [e|]]; [done|]. by intros [= _ _ <-].
Qed.

Lemma init_all_names hd ds wd wd' rs ps :
  init_all hd ds wd = (wd', rs, Ok ps) -> FieldName <$> ps = dot_FieldName <$> ds.
Proof.
  revert wd wd' rs ps. induction ds as [|d ds IH]; intros wd wd' rs ps; cbn [init_all].
  { by intros [= _ _ <-]. }
  destruct (dot_Init hd d wd) as [[wd1 rs1] [p|e]] eqn:Ed; [|done].
  destruct (init_all hd ds wd1) as [[wd2 rs2] [ps'|e]] eqn:Ei; [|done]. intros [= _ _ <-].
  cbn. by rewrite (dot_Init_name _ _ _ _ _ _ Ed), (IH _ _ _ _ Ei).
Qed.

Lemma make_fields_names (mock : World) r i (ps : list provider) mock' fields cls :
  make_fields (typeOf custom_type) mock r i ps = Ret (mock', fields, cls) -> fields.*1 = FieldName <$> ps.
Proof.
  revert mock i mock' fields cls. induction ps as [|dp ps IH]; intros mock i mock' fields cls; cbn [make_fields].
  { by intros [= _ <- _]. }
  destruct (Value dp mock r) as [[[m [a|]] e]|msg]; cbn [mbind outcome_bind]; [|done|done].
  destruct (make_fields _ m r (S i) ps) as [[[m' fields'] cls']|msg] eqn:E; cbn [mbind outcome_bind]; [|done].
  intros [= _ <- _]. cbn. by rewrite (IH _ _ _ _ _ E).
Qed.

Lemma makeDot_names (mock : World) r (ps : list provider) mock' d :
  makeDot (typeOf custom_type) unicode_IsLetter unicode_IsDigit mock r ps = Ret (mock', d) ->
  NoDup (FieldName <$> ps) /\ Forall (exported unicode_IsLetter unicode_IsDigit) (FieldName <$> ps).
Proof.
  unfold makeDot. destruct (make_fields _ mock r 0 ps) as [[[m fields] cls]|msg] eqn:E; cbn [mbind outcome_bind]; [|done].
  destruct (StructOf _ _ fields) as [ty|msg] eqn:Es; cbn [mbind outcome_bind]; [|done]. intros _.
  apply StructOf_names in Es as (_ & H1 & H2). by rewrite <- (make_fields_names _ _ _ _ _ _ _ E).
Qed.

Definition reserved : list gostring := [gs "X"; gs "Req"; gs "Resp"; gs "Flush"].

(** The names a struct can have as fields next to those of every template. *)
Definition names_ok (names : list gostring) : Prop :=
  NoDup (reserved ++ names) /\ Forall (exported unicode_IsLetter unicode_IsDigit) names.

Lemma names_ok_providers (mid : list provider) :
  NoDup (FieldName <$> buffer_providers mid) -> NoDup (FieldName <$> flusher_providers mid) ->
  Forall (exported unicode_IsLetter unicode_IsDigit) (FieldName <$> buffer_providers mid) ->
  names_ok (FieldName <$> mid).
Proof.
  unfold buffer_providers, flusher_providers, names_ok, reserved. rewrite !fmap_app. cbn [fmap list_fmap].
  intros H1 H2 H3. apply Forall_app in H3 as [_ [H3 _]%Forall_app]. split; [|done].
  rewrite !NoDup_app in *. destruct H1 as (H1a & H1b & H1c & H1d & _), H2 as (_ & _ & _ & H2d & _).
  split_and!; [by apply (bool_decide_unpack _)| |done].
  intros n Hn Hm. cbn [FieldName dotXProvider dotReqProvider dotRespProvider dotFlushProvider] in *.
  rewrite !elem_of_cons in Hn. destruct Hn as [->|[->|[->|[->|Hn]]]]; [..|by apply not_elem_of_nil in Hn].
  - apply (H1b (gs "X")); [set_solver|apply elem_of_app; by left].
  - apply (H1b (gs "Req")); [set_solver|apply elem_of_app; by left].
  - apply (H1d (gs "Resp") Hm). set_solver.
  - apply (H2d (gs "Flush") Hm). set_solver.
Qed.

(** What an instance that was loaded is made of. *)
Record loaded_from (config : Config) (cfgs : list (Option_ (FS := FSys))) (choice : nat) (wd wd' : World)
    (ld : loaded) (c : Config) (b : builder) (mid : list provider) : Prop := {
  lf_options : Options (Defaults slog_Default context_Background config) cfgs = (c, None);
  lf_load : load (Defaults slog_Default context_Background config) c = Ret (b, None);
  lf_names : check_names (dot_configs c) = None;
  lf_fields : exists wd1 rs wd2 wd3,
    init_all (default false (pf_has_done pf <$> config_Ctx c)) (dot_configs c) wd = (wd1, rs, Ok mid) /\
    makeDot (typeOf custom_type) unicode_IsLetter unicode_IsDigit (with_writer wd1 false) root_request
      (buffer_providers mid) = Ret (wd2, in_bufferDot (ld_instance ld)) /\
    makeDot (typeOf custom_type) unicode_IsLetter unicode_IsDigit (with_writer wd2 false) root_request
      (flusher_providers mid) = Ret (wd3, in_flusherDot (ld_instance ld)) /\
    run_initializers (in_bufferDot (ld_instance ld)) [] choice (pf_Templates pf (b_templates b)) wd3 0
      = Ret (wd', ld_pool ld, TemplateInitializers (ld_stats ld), None);
  lf_config : in_config (ld_instance ld) = c;
  lf_router : in_router (ld_instance ld) = b_router b;
  lf_heap : in_heap (ld_instance ld) = b_heap b;
  lf_files : in_files (ld_instance ld) = b_files b;
  lf_templates : in_templates (ld_instance ld) = b_templates b;
  lf_routes : ld_routes ld = b_routes b
}.

Lemma Config_Instance_loaded config cfgs next choice wd id wd' rs ld :
  Config_Instance config cfgs next choice wd = Ret (id, wd', rs, Ok ld) ->
  id = S next /\ in_id (ld_instance ld) = id /\ exists c b mid, loaded_from config cfgs choice wd wd' ld c b mid.
Proof.
  unfold Config_Instance. destruct (Options _ cfgs) as [c [e|]] eqn:Eo; [done|].
  destruct (load _ c) as [[b [e|]]|msg] eqn:El; cbn [mbind outcome_bind]; [done| |done].
  unfold assemble. destruct (check_names (dot_configs c)) as [e|] eqn:En; [done|].
  destruct (init_all _ (dot_configs c) wd) as [[wd1 rs1] [mid|e]] eqn:Ei; [|done].
  destruct (makeDot _ _ _ _ _ (buffer_providers mid)) as [[wd2 bd]|msg] eqn:Eb; cbn [mbind outcome_bind]; [|done].
  destruct (makeDot _ _ _ _ _ (flusher_providers mid)) as [[wd3 fd]|msg] eqn:Ef; cbn [mbind outcome_bind]; [|done].
  destruct (run_initializers bd _ _ _ _ _) as [[[[wd4 pool] n] [e|]]|msg] eqn:Er; cbn [mbind outcome_bind]; [done| |done].
  intros [= <- <- _ <-]. split_and!; [done..|]. exists c, b, mid.
  split; try done. by exists wd1, rs1, wd2, wd3.
Qed.

(** C36: the check for repeated field names does not know the fields every template
    has nor Go's rules for them: with a field named [X], [Req], [Resp] or [Flush],
    or with a name that is not an exported identifier, loading panics instead of
    returning an error. *)
Theorem field_name_panics config cfgs next choice wd c b wd1 rs mid :
  Options (Defaults slog_Default context_Background config) cfgs = (c, None) ->
  load (Defaults slog_Default context_Background config) c = Ret (b, None) ->
  check_names (dot_configs c) = None ->
  init_all (default false (pf_has_done pf <$> config_Ctx c)) (dot_configs c) wd = (wd1, rs, Ok mid) ->
  ~ names_ok (dot_FieldName <$> dot_configs c) ->
  exists msg, Config_Instance config cfgs next choice wd = Panic msg.
Proof.
  intros Eo El En Ei Hbad. unfold Config_Instance. rewrite Eo, El. cbn [mbind outcome_bind].
  unfold assemble. rewrite En, Ei. rewrite <- (init_all_names _ _ _ _ _ _ Ei) in Hbad.
  destruct (makeDot _ _ _ _ _ (buffer_providers mid)) as [[wd2 bd]|msg] eqn:Eb; cbn [mbind outcome_bind]; [|by eexists].
  destruct (makeDot _ _ _ _ _ (flusher_providers mid)) as [[wd3 fd]|msg] eqn:Ef; cbn [mbind outcome_bind]; [|by eexists].
  exfalso. apply Hbad. apply makeDot_names in Eb as [H1 H2]. apply makeDot_names in Ef as [H3 _].
  by apply names_ok_providers.
Qed.

(** ** Static files of a loaded instance *)

Abbreviation loaded_inv x b :=
  (build_inv unicode_IsLetter unicode_IsDigit (pf_Open pf (templates_fs (in_config x))) (pf_gzip pf) (pf_zstd pf)
     (pf_brotli pf) (pf_sha384 pf) b).

Lemma loaded_build_inv config cfgs choice wd wd' ld c b mid :
  loaded_from config cfgs choice wd wd' ld c b mid -> loaded_inv (ld_instance ld) b.
Proof.
  intros Hl. rewrite (lf_config _ _ _ _ _ _ _ _ _ Hl). pose proof (lf_load _ _ _ _ _ _ _ _ _ Hl) as Hw.
  eapply walk_inv, Hw. apply new_builder_inv.
Qed.

(** A GET request for the path of a static file, on a host no pattern names, reaches
    the handler of its record, which the builder left consistent. *)
Lemma static_dispatch open config cfgs choice0 wd0 wd1 ld c b mid p addr ps choice host rawpath wd r :
  loaded_from config cfgs choice0 wd0 wd1 ld c b mid ->
  let x := ld_instance ld in
  in_files x !! p = Some addr -> p <> [SLASH] -> ("{"%char ∉ p) -> ("%"%char ∉ p) ->
  Forall (fun q => pat_host q.1 = host -> host = []) (in_router x) ->
  r_method r = gs "GET" -> r_path r = p -> EscapedPath p rawpath = p ->
  exists f, in_heap x !! addr = Some f /\ identityPath f = p /\ Clean p = p /\
    file_ok (pf_Open pf (templates_fs (in_config x))) (pf_gzip pf) (pf_zstd pf) (pf_brotli pf) (pf_sha384 pf) f /\
    DotX_StaticFileHash x p = Ok (hash f) /\
    ServeHTTP open x false ps choice host rawpath wd r =
      on_writer wd ps (staticFileHandler env open f (world_w wd) r).
Proof.
  intros Hl x Hf Hne Hb Hp Hhost Hm Hr Hesc. pose proof (loaded_build_inv _ _ _ _ _ _ _ _ _ Hl) as Hi.
  pose proof (lf_router _ _ _ _ _ _ _ _ _ Hl) as Er. pose proof (lf_heap _ _ _ _ _ _ _ _ _ Hl) as Eh.
  pose proof (lf_files _ _ _ _ _ _ _ _ _ Hl) as Ef. fold x in Er, Eh, Ef, Hi. rewrite Ef in Hf. rewrite Er in Hhost.
  destruct (static_route _ _ _ _ _ _ _ b p addr Hi Hf Hne Hb Hp) as (f & es & H1 & H2 & H3 & H4 & H5 & H6).
  apply list_elem_of_lookup in H6 as [i Hlk]. destruct (inv_mux _ _ _ _ _ _ _ b Hi) as [M1 M2].
  destruct (inv_clean _ _ _ _ _ _ _ b Hi p addr Hf) as [_ Hc].
  exists f. rewrite Eh. split_and!; try done.
  - unfold DotX_StaticFileHash. rewrite Ef, Eh.
    assert (Clean (SLASH :: p) = p) as ->.
    { destruct (inv_clean _ _ _ _ _ _ _ b Hi p addr Hf) as [Hrt _].
      destruct p as [|ch p']; [done|]. unfold is_rooted in Hrt. cbn in Hrt. case_bool_decide as Ec; [subst ch|done].
      rewrite <- Hc at 2. unfold Clean. cbn [is_rooted HasPrefix Split]. rewrite !bool_decide_true by done. done. }
    rewrite Hf. cbn [mbind option_bind]. by rewrite H1.
  - unfold ServeHTTP. rewrite Hr, Hesc, Hm, Er.
    rewrite (findHandler_literal (b_router b) host (gs "GET") p es (StaticHandler addr) i) by done.
    cbn [run_handler]. by rewrite Eh, H1.
Qed.

(** The files are as they were when the instance was loaded. *)
Definition unchanged (fsys : FSys) (open : gostring -> result static_file) : Prop :=
  forall path f, pf_Open pf fsys path = Ok f ->
    open path = Ok {| sf_content := (file_reader f).1; sf_seeker := true |}.

Lemma file_ok_present fsys open f :
  unchanged fsys open ->
  file_ok (pf_Open pf fsys) (pf_gzip pf) (pf_zstd pf) (pf_brotli pf) (pf_sha384 pf) f ->
  files_present open f /\ encodings f <> [].
Proof.
  intros Hu [O1 O2 O3]. split.
  - intros e He. destruct (O3 e He) as (content & (sf & Hsf & _) & _). eexists. by apply Hu.
  - intros Hn. rewrite Hn in O2. done.
Qed.

(** The hash a client sends is absent, or the one a template gives out. *)
Definition hash_given (x : Instance) (p : gostring) (r : request) : Prop :=
  Query_Get r (gs "hash") = [] \/ DotX_StaticFileHash x p = Ok (Query_Get r (gs "hash")).

Lemma hash_given_ok x p r f :
  DotX_StaticFileHash x p = Ok (hash f) -> hash_given x p r -> hash_ok f r.
Proof. intros Hh [H|H]; [by left|right]. rewrite Hh in H. by injection H as ->. Qed.

(** C5: end to end, from the directory to the client: a plain GET request for a
    static file of a loaded instance is answered with status 200 and the unchanged
    bytes of one of its files; decoded with the encoding the response names, they
    are content whose SHA-384 hash is the entity tag of the response and the hash
    templates are given for the file. *)
Theorem static_file_integrity open config cfgs next choice0 wd0 id wd1 rs ld p addr ps choice host rawpath wd r :
  Config_Instance config cfgs next choice0 wd0 = Ret (id, wd1, rs, Ok ld) ->
  let x := ld_instance ld in
  let fsys := templates_fs (in_config x) in
  in_files x !! p = Some addr -> p <> [SLASH] -> ("{"%char ∉ p) -> ("%"%char ∉ p) ->
  Forall (fun q => pat_host q.1 = host -> host = []) (in_router x) -> unchanged fsys open ->
  r_method r = gs "GET" -> r_path r = p -> EscapedPath p rawpath = p -> plain_request r -> hash_given x p r ->
  world_w wd = new_writer false ->
  exists wd' e sf content h,
    ServeHTTP open x false ps choice host rawpath wd r = Ret (wd', ps) /\
    w_sent (world_w wd') = Some (200%Z, h) /\
    pf_Open pf fsys (path e) = Ok sf /\ w_body (world_w wd') = (file_reader sf).1 /\
    decoded (pf_Open pf fsys) (pf_gzip pf) (pf_zstd pf) (pf_brotli pf) e content /\
    h !! gs "Content-Encoding" = Some [encoding e] /\
    h !! gs "Etag" = Some [QUOTE :: sri (pf_sha384 pf) content ++ [QUOTE]] /\
    DotX_StaticFileHash x p = Ok (sri (pf_sha384 pf) content).
Proof.
  intros Hl x fsys Hf Hne Hb Hp Hhost Hu Hm Hr Hesc Hplain Hh Hw.
  apply Config_Instance_loaded in Hl as (_ & _ & c & b & mid & Hl).
  destruct (static_dispatch open _ _ _ _ _ _ _ _ _ p addr ps choice host rawpath wd r Hl Hf Hne Hb Hp Hhost Hm Hr Hesc)
    as (f & H1 & H2 & H3 & H4 & H5 & Hserve). fold x in H1, H4, H5, Hserve.
  destruct (file_ok_present fsys open f Hu H4) as [Hpres Hnil].
  destruct (static_served env open f r) as (i & e & err & ct & w' & h & _ & He & Ho & Hs & S1 & S2 & S3 & _ & S5 & _);
    try done; [by rewrite Hr, H3, H2|by eapply hash_given_ok|by rewrite Hm|].
  destruct (ok_hash _ _ _ _ _ f H4 e) as (content & Hdec & Hhash); [by eapply list_elem_of_lookup_2|].
  destruct Hdec as (sf & Hsf & Hdec). rewrite (Hu _ _ Hsf) in Ho. injection Ho as <-.
  rewrite Hserve, Hw, Hs. unfold on_writer. cbn [mbind outcome_bind].
  exists (set_w wd w'), e, sf, content, h. split_and!; try done.
  - by exists sf.
  - rewrite S3. unfold etag. by rewrite Hhash.
  - by rewrite H5, Hhash.
Qed.

(** C18: a client that comes back with the entity tag it was given for a static file
    of the instance is told that it did not change, whatever encodings it accepts. *)
Theorem static_file_revalidation open config cfgs next choice0 wd0 id wd1 rs ld p addr ps choice host rawpath wd r h :
  Config_Instance config cfgs next choice0 wd0 = Ret (id, wd1, rs, Ok ld) ->
  let x := ld_instance ld in
  in_files x !! p = Some addr -> p <> [SLASH] -> ("{"%char ∉ p) -> ("%"%char ∉ p) ->
  Forall (fun q => pat_host q.1 = host -> host = []) (in_router x) ->
  unchanged (templates_fs (in_config x)) open ->
  r_method r = gs "GET" -> r_path r = p -> EscapedPath p rawpath = p -> hash_given x p r ->
  DotX_StaticFileHash x p = Ok h -> Header_Get (r_header r) (gs "If-None-Match") = QUOTE :: h ++ [QUOTE] ->
  no_header r [gs "If-Match"; gs "If-Unmodified-Since"] ->
  world_w wd = new_writer false ->
  exists wd', ServeHTTP open x false ps choice host rawpath wd r = Ret (wd', ps) /\
    status (world_w wd') = Some 304%Z /\ w_body (world_w wd') = [].
Proof.
  intros Hl x Hf Hne Hb Hp Hhost Hu Hm Hr Hesc Hh Hhash Hi Hn Hw.
  apply Config_Instance_loaded in Hl as (_ & _ & c & b & mid & Hl).
  destruct (static_dispatch open _ _ _ _ _ _ _ _ _ p addr ps choice host rawpath wd r Hl Hf Hne Hb Hp Hhost Hm Hr Hesc)
    as (f & H1 & H2 & H3 & H4 & H5 & Hserve). fold x in H1, H4, H5, Hserve.
  destruct (file_ok_present _ open f Hu H4) as [Hpres Hnil].
  rewrite Hhash in H5. injection H5 as ->.
  assert (forallb etag_byte (hash f) = true) as Het.
  { destruct (encodings f) as [|e es] eqn:E; [done|].
    destruct (ok_hash _ _ _ _ _ f H4 e) as (content & _ & ->); [rewrite E; apply list_elem_of_here|]. apply sri_etag. }
  destruct (static_revalidated env open f r) as (w' & Hs & S1 & S2); try done;
    [by rewrite Hr, H3, H2|by eapply hash_given_ok|unfold get_or_head; by rewrite Hm|].
  rewrite Hserve, Hw, Hs. unfold on_writer. cbn [mbind outcome_bind]. by exists (set_w wd w').
Qed.

(** ** Templates of a loaded instance *)

(** Where README says a template is served: [def] is its name, [dirs] and [name] are
    those of the file it is defined in; [stream] tells whether it is streamed. *)
Definition answers (ext : gostring) (dirs : list gostring) (name def m p : gostring) (stream : bool) : Prop :=
  (def = under_root (dirs ++ [name ++ ext]) /\ HasPrefix name (gs ".") = false /\
   m = gs "GET" /\ p = readme_route dirs name /\ stream = false) \/
  (m ∈ [gs "GET"; gs "POST"; gs "PUT"; gs "PATCH"; gs "DELETE"] /\ def = m ++ gs " " ++ p /\ stream = false) \/
  (m = gs "GET" /\ def = gs "SSE " ++ p /\ stream = true).

(** A path that is routed and requested literally. *)
Definition plain_url (p : gostring) : Prop :=
  is_rooted p = true /\ Clean p = p /\ p <> [SLASH] /\ ("{"%char ∉ p) /\ ("%"%char ∉ p) /\ (NL ∉ p).

Lemma routeMatcher_method m p : m ∈ route_methods -> (NL ∉ p) -> routeMatcher (m ++ gs " " ++ p) = Some (m, p).
Proof.
  intros Hm Hp. transitivity (if bool_decide (NL ∈ p) then None else Some (m, p)); [|by rewrite bool_decide_false].
  unfold route_methods in Hm. rewrite !elem_of_cons in Hm.
  destruct Hm as [->|[->|[->|[->|[->|[->|Hm]]]]]]; [reflexivity..|by apply not_elem_of_nil in Hm].
Qed.

Lemma method_not_path m p (es : list gostring) : m ∈ route_methods -> m ++ p <> under_root es.
Proof.
  unfold route_methods. rewrite !elem_of_cons. intros Hm E.
  assert (exists c q, m ++ p = c :: q /\ c <> SLASH) as (c & q & Hc & Hne).
  { destruct Hm as [->|[->|[->|[->|[->|[->|Hm]]]]]]; [by eexists _, _..|by apply not_elem_of_nil in Hm]. }
  rewrite Hc in E. by destruct es; cbn in E; simplify_eq.
Qed.

Lemma answers_route ext dirs name def m p stream tree :
  Forall (fun e => valid_elem e = true) dirs -> no_slash dirs -> (SLASH ∉ name) -> (SLASH ∉ ext) ->
  valid_elem name = true -> answers ext dirs name def m p stream -> (def <> under_root (dirs ++ [name ++ ext]) -> NL ∉ p) ->
  template_route ext (under_root (dirs ++ [name ++ ext])) def tree =
    Some (m ++ gs " " ++ p, if stream then FlushingHandler def tree else BufferingHandler (Tree := tprog) def tree) /\
  validMethod m = true.
Proof.
  intros Hd Hs Hn Hx Hv Ha Hnl. unfold template_route.
  destruct Ha as [(-> & Hh & -> & -> & ->)|[(Hm & -> & ->)|(-> & -> & ->)]].
  - rewrite bool_decide_true by done. rewrite template_file_route by done. by rewrite Hh.
  - assert (m ∈ route_methods) as Hr by (unfold route_methods; set_solver).
    pose proof (method_not_path m (gs " " ++ p) (dirs ++ [name ++ ext]) Hr) as Hne.
    rewrite bool_decide_false by done. rewrite routeMatcher_method by auto.
    rewrite !elem_of_cons in Hm.
    by destruct Hm as [->|[->|[->|[->|[->|Hm]]]]]; [..|apply not_elem_of_nil in Hm].
  - assert (gs "SSE" ∈ route_methods) as Hr by (by apply (bool_decide_unpack _)).
    pose proof (method_not_path (gs "SSE") (gs " " ++ p) (dirs ++ [name ++ ext]) Hr) as Hne.
    change (gs "SSE " ++ p) with (gs "SSE" ++ gs " " ++ p) in *. rewrite bool_decide_false by done.
    rewrite routeMatcher_method by auto. done.
Qed.

(** A request for route [m p]: for its very path, where that is literal, or for any path
    for which its pattern is the most specific one. *)
Definition request_for (router : mux handler) (m p method path : gostring) : Prop :=
  (plain_url p /\ method = m /\ path = p) \/
  (cleanPath path = path /\
   exists pat, parsePattern unicode_IsLetter unicode_IsDigit (m ++ gs " " ++ p) = inr pat /\ chosen router pat method path).

(** It reaches the handler of the route. *)
Lemma route_dispatch open config cfgs choice0 wd0 wd1 ld c b mid m p h ps choice host rawpath wd r :
  loaded_from config cfgs choice0 wd0 wd1 ld c b mid ->
  let x := ld_instance ld in
  (m ++ gs " " ++ p, h) ∈ b_routes b -> validMethod m = true ->
  Forall (fun q => pat_host q.1 = host -> host = []) (in_router x) ->
  request_for (in_router x) m p (r_method r) (EscapedPath (r_path r) rawpath) ->
  ServeHTTP open x false ps choice host rawpath wd r = run_handler open x h ps choice wd r.
Proof.
  intros Hl x [i Hin]%list_elem_of_lookup Hm Hhost Hfor.
  pose proof (loaded_build_inv _ _ _ _ _ _ _ _ _ Hl) as Hi.
  pose proof (lf_router _ _ _ _ _ _ _ _ _ Hl) as Er. fold x in Er, Hi. rewrite Er in Hhost, Hfor.
  destruct (inv_routes _ _ _ _ _ _ _ b Hi) as [_ Hf]. destruct (inv_mux _ _ _ _ _ _ _ b Hi) as [M1 M2].
  destruct (Forall2_lookup_l _ _ _ _ _ Hf Hin) as ([pat h'] & Hlk%list_elem_of_lookup_2 & Hpat & Hh).
  cbn [fst snd] in Hpat, Hh. subst h'.
  assert (cleanPath (EscapedPath (r_path r) rawpath) = EscapedPath (r_path r) rawpath /\
          chosen (b_router b) pat (r_method r) (EscapedPath (r_path r) rawpath)) as [Hc Hch].
  { destruct Hfor as [((Hr & Hc & Hne & Hb & Hp & _) & -> & ->)|(Hc & pat' & Hpat' & Hch)].
    - destruct (plain_path unicode_IsLetter unicode_IsDigit m p) as (es & Hes & Hcp & Hparse); try done.
      rewrite Hparse in Hpat. injection Hpat as <-. split; [done|]. apply literal_chosen; [done|by intros ->|done].
    - rewrite Hpat' in Hpat. by injection Hpat as <-. }
  unfold ServeHTTP. rewrite Er. by rewrite (findHandler_chosen (b_router b) host _ _ _ pat h).
Qed.

(** The file of a template, as [fs.WalkDir] names it. *)
Lemma template_file_name ext dirs name :
  Forall (fun e => valid_elem e = true) dirs -> no_slash dirs -> (SLASH ∉ name) -> (SLASH ∉ ext) ->
  valid_elem name = true ->
  let file := Join (dirs ++ [name ++ ext]) SLASH in
  HasSuffix file ext = true /\ Clean (SLASH :: file) = under_root (dirs ++ [name ++ ext]).
Proof.
  intros Hd Hs Hn Hx Hv file. assert (under_root (dirs ++ [name ++ ext]) = SLASH :: file) as E.
  { apply under_root_Join. by destruct dirs. }
  split.
  - apply HasSuffix_spec. rewrite under_root_snoc in E.
    destruct (under_root dirs) as [|ch q]; injection E as E; [by exists name|].
    exists (q ++ SLASH :: name). rewrite <- H, <- app_assoc. done.
  - rewrite E. apply Clean_elements.
    + apply Forall_app. split; [done|]. apply Forall_cons_2; [|done]. apply valid_elem_spec in Hv as (H1 & H2 & H3).
      apply valid_elem_spec. destruct name as [|c1 [|c2 name]]; [done| |]; split_and!; try done.
      * intros [= -> ->]. done.
      * intros [= -> ->]. done.
      * intros [= -> -> [-> ->]%app_eq_nil]. done.
    + intros e [He|He]%elem_of_app; [by apply Hs|]. apply list_elem_of_singleton in He as ->. rewrite elem_of_app. tauto.
Qed.

(** C16: end to end, from a template file to its requests: every template file of the
    directory of a loaded instance was parsed, and each template it gave is executed
    for the requests README promises: the file's own for GET at its path
    without the extension, a template named by a method and a path for these, and one
    named SSE and a path for streaming GET requests.  Where the path is literal that is
    a request for it; for any route, with wildcards or [/] too, it is every request whose
    path it matches while no registered pattern that matches is more specific, unless
    the multiplexer redirects to the path with a slash. *)
Theorem template_served open config cfgs next choice0 wd0 id wd1 rs ld dirs name :
  Config_Instance config cfgs next choice0 wd0 = Ret (id, wd1, rs, Ok ld) ->
  let x := ld_instance ld in
  let c := in_config x in
  let ext := TemplateExtension c in
  let file := Join (dirs ++ [name ++ ext]) SLASH in
  Forall (fun e => valid_elem e = true) dirs -> no_slash dirs -> (SLASH ∉ name) -> (SLASH ∉ ext) ->
  valid_elem name = true -> VisitFile file ∈ pf_WalkDir pf (templates_fs c) ->
  exists ts,
    parsed_file (pf_Open pf (templates_fs c))
      (if Minify (Defaults slog_Default context_Background config) then Some (pf_minify pf (LDelim c) (RDelim c)) else None)
      (pf_parse pf (LDelim c) (RDelim c) (template_funcs c)) file ts /\
    forall def tree m p stream ps choice host rawpath wd r,
      (def, tree) ∈ ts -> answers ext dirs name def m p stream -> (def <> SLASH :: file -> NL ∉ p) ->
      Forall (fun q => pat_host q.1 = host -> host = []) (in_router x) ->
      request_for (in_router x) m p (r_method r) (EscapedPath (r_path r) rawpath) ->
      ServeHTTP open x false ps choice host rawpath wd r =
      if stream then
        '(wd, pool) ← flushingTemplateHandler env custom_type custom_call (in_flusherDot x) (pool_flusher ps)
                        choice tree wd r;
        Ret (wd, {| pool_buffer := pool_buffer ps; pool_flusher := pool |})
      else
        '(wd, pool) ← bufferingTemplateHandler env custom_type custom_call (in_bufferDot x) (pool_buffer ps)
                        choice tree wd r;
        Ret (wd, {| pool_buffer := pool; pool_flusher := pool_flusher ps |}).
Proof.
  intros Hl x c ext file Hd Hs Hn Hx Hv Hvisit.
  apply Config_Instance_loaded in Hl as (_ & _ & c' & b & mid & Hl).
  pose proof (lf_config _ _ _ _ _ _ _ _ _ Hl) as Ec. fold x c in Ec. subst c'.
  destruct (template_file_name ext dirs name Hd Hs Hn Hx Hv) as [Hsuf Hclean]. fold file in Hsuf, Hclean.
  destruct (walk_routes _ _ _ _ _ _ _ _ _ _ _ _ _ _ (lf_load _ _ _ _ _ _ _ _ _ Hl)) as [_ Hw].
  destruct (Hw file Hvisit Hsuf) as (ts & Hts & Hroutes). exists ts. split; [exact Hts|].
  intros def tree m p stream ps choice host rawpath wd r Hin Ha Hp Hhost Hfor.
  assert (under_root (dirs ++ [name ++ ext]) = SLASH :: file) as Eroot by (apply under_root_Join; by destruct dirs).
  rewrite <- Eroot in Hp.
  destruct (answers_route ext dirs name def m p stream tree Hd Hs Hn Hx Hv Ha Hp) as [Hroute Hvm].
  rewrite <- Hclean in Hroute. specialize (Hroutes _ _ _ Hin Hroute).
  unfold x. rewrite (route_dispatch open _ _ _ _ _ _ _ _ _ m p _ ps choice host rawpath wd r Hl Hroutes) by done.
  by destruct stream.
Qed.
End instance.
