(* ===== verification/Streaming.v ===== *)
(** * The response of a streaming template

    What the client of a flushing handler (SSE) is sent: an event stream from the
    first byte on, or, when the template failed before it sent anything, an error
    page. *)

From S2P Require Import Prelude GoStrings GoErrors Http ServeContent.
From S2P Require Import DotDB DotFlush DotResp DotFS Dot Template Handlers.

(** The headers of a stream on a new writer. *)
Definition stream_header : header := w_header (sse_headers (new_writer false)).

(** Nothing sent yet, or a stream under way. *)
Definition streaming (w : writer) : Prop :=
  w_header w = stream_header /\ w_limit w = None /\ w_head w = false /\
  ((w_sent w = None /\ w_body w = []) \/ w_sent w = Some (200%Z, stream_header)).

Lemma stream_no_length : parse_length (Header_Get stream_header (gs "Content-Length")) = None.
Proof. vm_compute. reflexivity. Qed.

Lemma Write_streaming w b :
  streaming w -> streaming (Write w b) /\ w_body (Write w b) = w_body w ++ b /\
    w_sent (Write w b) = Some (200%Z, stream_header).
Proof.
  intros Hw. assert (exists w1, Write w b = Write w1 b /\ w_sent w1 = Some (200%Z, stream_header) /\
    w_body w1 = w_body w /\ w_limit w1 = None /\ w_head w1 = false /\ w_header w1 = stream_header)
    as (w1 & -> & H1 & H2 & H3 & H4 & H5).
  { pose proof Hw as (E1 & E2 & E3 & [[E4 _]|E4]).
    - exists (begun w). rewrite Write_fresh by done. unfold begun.
      cbn [w_header w_limit w_head w_sent w_body]. by rewrite E1, stream_no_length.
    - by exists w. }
  destruct (Write_after w1 200 stream_header b H1 H4) as (S1 & S2 & S3).
  unfold over_limit in S3. rewrite H3 in S3. cbn in S3.
  split_and!; [|by rewrite S3, H2|done].
  assert (w_limit (Write w1 b) = None /\ w_head (Write w1 b) = false) as [L1 L2].
  { unfold Write. rewrite H1. cbn. rewrite H1, H3, H4. done. }
  unfold streaming. rewrite S2, L1, L2. split_and!; [done..|]. by right.
Qed.

Lemma Flush_streaming w :
  streaming w -> streaming (writer_Flush w) /\ w_body (writer_Flush w) = w_body w.
Proof.
  intros Hw. destruct Hw as (E1 & E2 & E3 & [[E4 E5]|E4]); unfold writer_Flush, streaming; rewrite E4.
  - rewrite WriteHeader_fresh by (done || (split; lia)). cbn [w_header w_limit w_head w_sent w_body].
    rewrite E1, stream_no_length. eauto 10.
  - cbn. eauto 10.
Qed.

Lemma Writes_streaming w bs : streaming w -> streaming (foldl Write w bs).
Proof.
  intros Hw. apply (Forall_foldl_inv streaming); [done|]. intros w' b Hw' _.
  by destruct (Write_streaming w' b Hw').
Qed.

Lemma SendSSE_streaming w args : streaming w -> streaming (SendSSE w args).1.
Proof.
  intros Hw. unfold SendSSE. destruct (sse_args args) as [[[[event data] id] retry]|]; [|done].
  pose proof (Writes_streaming w (sse_writes event data id retry) Hw) as H1.
  destruct (sse_writes event data id retry) as [|b bs]; [done|]. cbn [fst].
  destruct (Write_streaming _ [NL; NL] H1) as [H2 _]. by destruct (Flush_streaming _ H2).
Qed.

Section streaming.
Context {V P R Info Entry CVal CType CCall Ext : Type} `{EqDecision CType}.
Context (env : mime_env).
Context (custom_type : CVal -> CType).
Context (unicode_IsLetter unicode_IsDigit : N -> bool).

Abbreviation World := (World (Ext := Ext)).
Abbreviation field := (field (V := V) (P := P) (R := R) (Info := Info) (Entry := Entry) (CVal := CVal)).
Abbreviation provider := (DotConfig (World := World) (Val := field)).
Abbreviation dot := (dot (World := World) (Val := field) (T := ftype (CType := CType))).

Context (custom_call : CVal -> CCall -> World -> CVal * World * outcome (result CVal)).

#[local] Existing Instance ftype_eq.

Definition is_FFlush (f : field) : Prop := f = FFlush.

(** Calls on a kind of field keep the stream going. *)
Definition stream_law (K : field -> Prop) : Prop :=
  forall c f wd r f' wd' ans, K f -> is_serve c = false ->
    do_call env custom_call c f wd r = (f', wd', ans) -> streaming (world_w wd) ->
    K f' /\ streaming (world_w wd').

Lemma stream_slot K : slot_law env custom_call K -> stream_law K.
Proof. intros HK c f wd r f' wd' ans Hf Hs Hc Hw. destruct (HK _ _ _ _ _ _ _ Hf Hs Hc) as [? ->]. done. Qed.

Lemma stream_FFlush : stream_law is_FFlush.
Proof.
  intros c f wd r f' wd' ans -> Hs Hc Hw. unfold is_FFlush. destruct c; cbn in Hc; simplify_eq; try done.
  - pose proof (SendSSE_streaming (world_w wd) args Hw) as H1. destruct (SendSSE (world_w wd) args) as [w e].
    by simplify_eq.
  - destruct (Flush_streaming (world_w wd) Hw) as [H1 _]. done.
Qed.

Lemma exec_streaming Ks r p s s' err :
  Forall stream_law Ks -> calls_ok (fun c => is_serve c = false) p ->
  fits Ks (ex_fields s) -> streaming (world_w (ex_world s)) ->
  exec env custom_call true r p s = (s', err) ->
  fits Ks (ex_fields s') /\ streaming (world_w (ex_world s')).
Proof.
  intros HK Hok Hf Hw.
  apply (exec_inv env custom_call (fun s => fits Ks (ex_fields s) /\ streaming (world_w (ex_world s)))
           (fun c => is_serve c = false)); try done.
  - intros s1 try i c s2 ans [H1 H2] Hc. unfold call_field, call_field_at.
    destruct (ex_fields s1 !! i) as [[f|]|] eqn:E; [|by intros [= <- _]..].
    destruct (try && negb (tryable f)); [by intros [= <- _]|].
    destruct (do_call env custom_call c f (ex_world s1) r) as [[f' wd'] a] eqn:Ec. intros [= <- _]. cbn.
    destruct (Forall2_lookup_r _ _ _ _ _ H1 E) as (K & Ei & f0 & [= <-] & HKf).
    pose proof (Forall_lookup_1 _ _ _ _ HK Ei) as HK'.
    destruct (HK' _ _ _ _ _ _ _ HKf Hc Ec H2) as [? ?]. split; [|done].
    unfold fits. rewrite <- (list_insert_id Ks i K) by done. apply Forall2_insert; [done|]. by exists f'.
  - intros _ s1 t [H1 H2]. cbn. split; [done|]. by destruct (Write_streaming (world_w (ex_world s1)) t H2).
Qed.

(** The two responses a client can get. *)
Definition stream_response (w : writer) : Prop :=
  w_sent w = Some (200%Z, stream_header) \/
  exists h, w_sent w = Some (500%Z, h) /\ w_body w = error_page.

Lemma internal_error_stream (wd : World) :
  streaming (world_w wd) -> exists wd', internal_error wd = Ret wd' /\ stream_response (world_w wd').
Proof.
  intros (H1 & H2 & H3 & H4). unfold internal_error, http_Error, stream_response. destruct H4 as [[H4 H5]|H4].
  - rewrite WriteHeader_fresh by (done || (split; lia)). cbn [mbind outcome_bind]. eexists. split; [done|].
    cbn [world_w set_w]. right.
    match goal with |- context [Write ?x _] => edestruct (Write_after x 500) as (-> & _ & ->); [done|done|] end.
    eexists. split; [done|]. unfold over_limit. cbn [w_limit w_body set_header w_header]. rewrite H5, H1.
    assert (Header_Get (Header_Set (Header_Set (Header_Del stream_header (gs "Content-Length")) (gs "Content-Type")
      (gs "text/plain; charset=utf-8")) (gs "X-Content-Type-Options") (gs "nosniff"))
      (gs "Content-Length") = []) as -> by (vm_compute; reflexivity). done.
  - rewrite (WriteHeader_sent _ 500 (200%Z, stream_header)) by done. cbn [mbind outcome_bind].
    eexists. split; [done|]. left. cbn [world_w set_w]. by rewrite (Write_sent _ _ (200%Z, stream_header)).
Qed.

Lemma flusher_stable (mid : list provider) Ks :
  Forall2 (QuietProvider env custom_type custom_call) mid Ks ->
  Forall (stable (typeOf custom_type)) (flusher_providers mid).
Proof.
  intros H. pose proof (buffer_stable env custom_type custom_call mid Ks H) as Hb.
  unfold buffer_providers, flusher_providers in *. rewrite !Forall_app in *. destruct Hb as (H1 & H2 & _).
  split_and!; [done..|]. constructor; [|constructor].
  exists TFlush. intros wd r wd' x err Hv. cbn in Hv. by simplify_eq.
Qed.

(** What follows the execution. *)
Lemma flushing_finish (mid : list provider) Ks (d : dot) pool s err :
  Forall2 (QuietProvider env custom_type custom_call) mid Ks ->
  dot_wf (typeOf custom_type) d -> dps d = flusher_providers mid -> pool_ok d pool ->
  fits ((is_FX :: is_FReq :: Ks) ++ [is_FFlush]) (ex_fields s) -> streaming (world_w (ex_world s)) ->
  exists wd' pool',
    ('(wd, pool, err) ← dot_cleanup d pool (ex_world s) (ex_fields s) err;
     match err with
     | Some _ => wd ← internal_error wd; Ret (wd, pool)
     | None => Ret (wd, pool)
     end) = Ret (wd', pool') /\ pool_ok d pool' /\ stream_response (world_w wd').
Proof.
  intros Hq Hwf Hps Hp Hf Hw. destruct (fits_some _ _ Hf) as (xs & -> & Hxs).
  apply Forall2_app_inv_l in Hxs as (ys & zs & Hys & Hzs & ->).
  apply Forall2_cons_inv_l in Hzs as (z & zs' & -> & Hnil & ->).
  apply Forall2_nil_inv_l in Hnil as ->.
  assert (length ys = length (dotXProvider :: dotReqProvider :: mid)) as Hlen.
  { apply Forall2_length in Hq. apply Forall2_length in Hys. cbn in Hys |- *. lia. }
  rewrite (dot_cleanup_wf (typeOf custom_type));
    [|done|rewrite Hps; unfold flusher_providers; rewrite !length_app; simpl in *; lia].
  rewrite Hps. change (flusher_providers mid) with ((dotXProvider :: dotReqProvider :: mid) ++ [dotFlushProvider]).
  rewrite zip_with_app by done. rewrite foldl_app.
  destruct (cleanups_quiet env custom_type custom_call _ _ ys (ex_world s) err
              (quiet_front env custom_type custom_call mid Ks Hq) Hys) as (wd2 & err2 & -> & Hw2).
  cbn [zip_with foldl cleanup_step fst snd mbind outcome_bind Cleanup dotFlushProvider].
  assert (pool_ok d (zero_struct d :: pool)) as Hp' by (by constructor).
  assert (streaming (world_w wd2)) as Hs2 by (by rewrite Hw2).
  destruct err2 as [e|]; cbn [dotFlushProvider_Cleanup mbind outcome_bind].
  - destruct (internal_error_stream (set_w wd2 (world_w wd2)) Hs2) as (wd3 & -> & H3). by do 2 eexists.
  - do 2 eexists. split; [done|]. split; [done|]. left. cbn [world_w set_w].
    unfold writer_Flush. destruct Hs2 as (E1 & _ & _ & [[E4 _]|E4]); rewrite E4; [|done].
    rewrite WriteHeader_fresh by (done || (split; lia)). cbn. by rewrite E1.
Qed.

(** C20: a streaming template always ends in a response: an event stream, announced
    as such before its first byte, or status 500 with the error page alone when it
    failed before it sent anything. *)
Theorem flushing_response (mid : list provider) Ks mock r0 mock' (d : dot) pool choice tmpl wd r :
  Forall2 (QuietProvider env custom_type custom_call) mid Ks ->
  makeDot (typeOf custom_type) unicode_IsLetter unicode_IsDigit mock r0 (flusher_providers mid)
    = Ret (mock', d) ->
  pool_ok d pool -> calls_ok (fun c => is_serve c = false) tmpl ->
  world_w wd = new_writer false ->
  Header_Get (r_header r) (gs "Accept") = gs "text/event-stream" ->
  exists wd' pool',
    flushingTemplateHandler env custom_type custom_call d pool choice tmpl wd r = Ret (wd', pool') /\
    pool_ok d pool' /\ stream_response (world_w wd').
Proof.
  intros Hq Hd Hp Hserve Hw Ha.
  destruct (makeDot_wf _ _ _ _ _ _ _ _ (flusher_stable mid Ks Hq) Hd) as (Hwf & Hps & _).
  unfold flushingTemplateHandler. rewrite bool_decide_true by done. cbn [negb].
  set (wd0 := set_w wd (sse_headers (world_w wd))).
  assert (streaming (world_w wd0)) as Hs0.
  { unfold wd0. cbn [world_w set_w]. rewrite Hw. unfold streaming. split_and!; try done. by left. }
  destruct (dot_value_wf (typeOf custom_type) d pool choice wd0 r Hwf Hp) as (pool1 & Hp1 & ->).
  rewrite Hps. change (flusher_providers mid) with ((dotXProvider :: dotReqProvider :: mid) ++ [dotFlushProvider]).
  rewrite values_app. pose proof (quiet_front env custom_type custom_call mid Ks Hq) as Hqs.
  destruct (values_quiet _ _ _ _ _ wd0 r Hqs) as (wd1 & res & -> & Hw1 & Hxs).
  assert (streaming (world_w wd1)) as Hs1 by (by rewrite Hw1).
  destruct (internal_error_stream wd1 Hs1) as (wdE & HE & HrE).
  assert (pool_ok d (zero_struct d :: pool1)) as Hp1' by (by constructor).
  destruct res as [xs|e]; [|cbn; rewrite HE; by do 2 eexists].
  specialize (Hxs xs eq_refl). cbn [values Value dotFlushProvider dotFlushProvider_Value mbind outcome_bind].
  destruct (world_flusher wd1); cbn [dotFlushProvider_Value mbind outcome_bind result_bind value_outcome];
    [|rewrite HE; by do 2 eexists].
  set (all := xs ++ [FFlush]).
  destruct (exec env custom_call true r tmpl (start_exec (Some <$> all) wd1)) as [s err] eqn:Ex.
  destruct (exec_streaming ((is_FX :: is_FReq :: Ks) ++ [is_FFlush]) r tmpl (start_exec (Some <$> all) wd1) s err)
    as [Hf Hws]; [|done| |done|done|].
  { apply Forall_app. split; [|constructor; [apply stream_FFlush|constructor]].
    clear -Hqs. induction Hqs; [by constructor|].
    constructor; [by eapply stream_slot, quiet_call|done]. }
  { apply some_fits. apply Forall2_app; [done|]. constructor; [done|constructor]. }
  by apply (flushing_finish mid Ks).
Qed.
End streaming.
