(* ===== verification/Transactions.v ===== *)
(** * No request leaves a transaction open

    Both template handlers, with any template and any number of database fields:
    once the handler returns, the calls each database has seen form complete
    transactions. *)

From S2P Require Import Prelude GoStrings GoErrors Http ServeContent.
From S2P Require Import DotDB DotFlush DotResp DotFS Dot Template StaticFile Handlers Types Streaming.

Section transactions.
Context {V P R Info Entry CVal CType CCall Ext : Type} `{EqDecision CType}.
Context (env : mime_env).
Context (custom_type : CVal -> CType).
Context (unicode_IsLetter unicode_IsDigit : N -> bool).

Abbreviation World := (World (Ext := Ext)).
Abbreviation field := (field (V := V) (P := P) (R := R) (Info := Info) (Entry := Entry) (CVal := CVal)).
Abbreviation struct := (list (option field)).
Abbreviation provider := (DotConfig (World := World) (Val := field)).
Abbreviation dot := (dot (World := World) (Val := field) (T := ftype (CType := CType))).
Abbreviation exec_state := (exec_state (V := V) (P := P) (R := R) (Info := Info) (Entry := Entry)
                              (CVal := CVal) (Ext := Ext)).

Context (custom_call : CVal -> CCall -> World -> CVal * World * outcome (result CVal)).

(** Methods of custom values do not reach into the databases of other fields. *)
Context (custom_dbs : forall v c wd v' wd' res,
  custom_call v c wd = (v', wd', res) -> world_dbs wd' = world_dbs wd).

#[local] Existing Instance ftype_eq.

(** The database a field is connected to. *)
Definition key (f : field) : option nat := match f with FDB k _ _ => Some k | _ => None end.
Definition tx_of (f : field) : option nat := match f with FDB _ _ tx => tx | _ => None end.

Definition closed (wd : World) (k : nat) : Prop := protocol (get_log wd k) = Some None.

(** The logs follow the protocol; the transactions they leave open are those the
    fields hold, and no two fields share a database. *)
Record logs_fit (fields : struct) (wd : World) : Prop := {
  fit_inj : forall i j f g k, fields !! i = Some (Some f) -> fields !! j = Some (Some g) ->
    key f = Some k -> key g = Some k -> i = j;
  fit_log : forall i f k, fields !! i = Some (Some f) -> key f = Some k ->
    protocol (get_log wd k) = Some (tx_of f);
  fit_closed : forall k, (forall i f, fields !! i = Some (Some f) -> key f <> Some k) -> closed wd k
}.

Lemma get_log_set (wd : World) k log : get_log (set_log wd k log) k = log.
Proof. unfold get_log, set_log. cbn. by rewrite lookup_insert_eq. Qed.

Lemma get_log_set_ne (wd : World) k k' log : k <> k' -> get_log (set_log wd k log) k' = get_log wd k'.
Proof. intros Hne. unfold get_log, set_log. cbn. by rewrite lookup_insert_ne. Qed.

Lemma get_log_dbs (wd wd' : World) k : world_dbs wd' = world_dbs wd -> get_log wd' k = get_log wd k.
Proof. unfold get_log. by intros ->. Qed.

Lemma db_answer_log (drv : driver V P R) d op :
  (db_answer (Info := Info) (Entry := Entry) (CVal := CVal) drv d op).1 = db_step drv d op.
Proof.
  destruct op; cbn.
  - by destruct (DotDB_Exec drv d query params).
  - by destruct (DotDB_QueryRows drv d query params) as [? [? ?]].
  - by destruct (DotDB_QueryRow drv d query params).
  - by destruct (DotDB_QueryVal drv d query params).
  - by destruct (DotDB_Commit drv d).
  - by destruct (DotDB_Rollback drv d).
Qed.

(** A call keeps the field connected to its database and the log in step with the
    transaction; all other logs stay. *)
Lemma do_call_log c f wd r f' wd' ans :
  do_call env custom_call c f wd r = (f', wd', ans) ->
  key f' = key f /\
  (forall k, key f = Some k -> protocol (get_log wd k) = Some (tx_of f) ->
     protocol (get_log wd' k) = Some (tx_of f')) /\
  (forall k, key f <> Some k -> get_log wd' k = get_log wd k).
Proof.
  intros Hc. destruct f as [|q|k drv tx|m|fs e| |d| |v].
  3: {
    destruct c as [op| | | | | | | | |]; cbn in Hc; simplify_eq; try done.
    pose proof (db_answer_log drv {| tx := tx; db_log := get_log wd k |} op) as Hl.
    destruct (db_answer drv _ op) as [d a]. cbn in Hl. simplify_eq. cbn. split_and!; [done| |].
    - intros k' [= <-] Hp. rewrite get_log_set. by apply (db_step_ok drv {| tx := tx; db_log := get_log wd k |}).
    - intros k' Hne. apply get_log_set_ne. congruence. }
  all: assert (key f' = None /\ world_dbs wd' = world_dbs wd) as [Hk Hd];
    [|split; [exact Hk|]; split; [done|]; intros k _; by apply get_log_dbs].
  all: destruct c; cbn in Hc; simplify_eq; try done;
    repeat match goal with
    | H : context [let '(_, _) := ?x in _] |- _ => destruct x eqn:?
    end; simplify_eq; try done.
  split; [done|]. by eapply custom_dbs.
Qed.

Lemma call_field_logs s r try i c s' ans :
  logs_fit (ex_fields s) (ex_world s) -> call_field env custom_call s r try i c = (s', ans) ->
  logs_fit (ex_fields s') (ex_world s').
Proof.
  intros Hl. unfold call_field, call_field_at. destruct (ex_fields s !! i) as [[f|]|] eqn:Ei; [|by intros [= <- _]..].
  destruct (try && negb (tryable f)); [by intros [= <- _]|].
  destruct (do_call env custom_call c f (ex_world s) r) as [[f' wd'] a] eqn:Ec. intros [= <- _]. cbn.
  destruct (do_call_log _ _ _ _ _ _ _ Ec) as (Hk & Hown & Hother). destruct Hl as [L1 L2 L3].
  assert (forall j g, <[i:=Some f']> (ex_fields s) !! j = Some (Some g) ->
    exists g0, ex_fields s !! j = Some (Some g0) /\ key g0 = key g /\ (i <> j -> g0 = g) /\ (i = j -> g = f')) as Hins.
  { intros j g. destruct (decide (i = j)) as [<-|Hne].
    - rewrite list_lookup_insert_eq by (by eapply lookup_lt_Some). intros [= <-]. by exists f.
    - rewrite list_lookup_insert_ne by done. intros Hg. by exists g. }
  split.
  - intros j1 j2 g1 g2 k H1 H2 K1 K2.
    apply Hins in H1 as (h1 & H1 & E1 & _). apply Hins in H2 as (h2 & H2 & E2 & _).
    apply (L1 j1 j2 h1 h2 k); [done|done|congruence|congruence].
  - intros j g k Hg Kg. destruct (Hins j g Hg) as (g0 & Hg0 & E0 & Hne & Heq).
    destruct (decide (i = j)) as [<-|Hij].
    + rewrite (Heq eq_refl). simplify_eq. apply Hown; [congruence|]. eapply L2; [exact Ei|congruence].
    + rewrite Hother; [rewrite <- (Hne Hij); eapply L2; [exact Hg0|congruence]|].
      intros Kf. apply Hij. apply (L1 i j f g0 k); [done|done|done|congruence].
  - intros k Hk'. unfold closed.
    assert (key f <> Some k) as Hf.
    { rewrite <- Hk. eapply (Hk' i). by rewrite list_lookup_insert_eq by (by eapply lookup_lt_Some). }
    rewrite Hother by done. apply L3. intros j g Hg. destruct (decide (i = j)) as [<-|Hij]; [congruence|].
    eapply (Hk' j). by rewrite list_lookup_insert_ne.
Qed.

Lemma exec_logs direct r p s s' err :
  logs_fit (ex_fields s) (ex_world s) -> exec env custom_call direct r p s = (s', err) ->
  logs_fit (ex_fields s') (ex_world s').
Proof.
  intros Hl. apply (exec_inv env custom_call (fun s => logs_fit (ex_fields s) (ex_world s)) (fun _ => True)); try done.
  - intros s1 try i c s2 ans H1 _ H2. by eapply call_field_logs.
  - intros _ s1 t [L1 L2 L3]. by split.
  - clear. induction p; cbn; auto.
Qed.

(** ** Providers and the databases

    A provider is connected to at most one database: its values hold no open
    transaction, and its cleanup closes the one its value holds. *)
Class TameProvider (dp : provider) (ko : option nat) : Prop := {
  tame_value : forall wd r wd' a err, Value dp wd r = Ret (wd', a, err) ->
    world_dbs wd' = world_dbs wd /\ forall f, a = Some f -> key f = ko /\ tx_of f = None;
  tame_cleanup : forall c, Cleanup dp = Some c -> forall wd f err wd' err', key f = ko ->
    c wd f err = Ret (wd', err') ->
    (forall k, ko = Some k -> protocol (get_log wd k) = Some (tx_of f) -> closed wd' k) /\
    (forall k, ko <> Some k -> get_log wd' k = get_log wd k);
  tame_closes : forall k, ko = Some k -> is_Some (Cleanup dp)
}.

#[local] Ltac solve_tame :=
  let H := fresh "H" in
  intros ????? H; cbn in H; simplify_eq; split; [done|]; intros ? ?; by simplify_eq.

#[export] Instance tame_db name k drv : TameProvider (dbProvider name k drv) (Some k).
Proof.
  split; [solve_tame| |by eexists].
  intros c [= <-] wd f err wd' err' Hk. destruct f as [|q|k' drv' tx|m|fs e| |d| |v]; try done.
  injection Hk as ->.
  destruct (DotDBConfig_Cleanup drv' {| tx := tx; db_log := get_log wd k |} err) as [d e] eqn:E.
  intros [= <- <-]. split.
  - intros k'' [= <-] Hp. unfold closed. rewrite get_log_set.
    destruct (Cleanup_ok drv' {| tx := tx; db_log := get_log wd k |} err Hp) as [H1 H2].
    rewrite E in H1, H2. unfold db_ok in H1. cbn in H1, H2. by rewrite H1, H2.
  - intros k'' Hne. apply get_log_set_ne. congruence.
Qed.

#[export] Instance tame_X : TameProvider dotXProvider None.
Proof. split; [solve_tame|by intros c [= <-] ????? _ [= <- _]|done]. Qed.

#[export] Instance tame_Req : TameProvider dotReqProvider None.
Proof. split; [solve_tame|done|done]. Qed.

#[export] Instance tame_flags name m : TameProvider (flagsProvider name m) None.
Proof. split; [solve_tame|done|done]. Qed.

#[export] Instance tame_nats name : TameProvider (natsProvider name) None.
Proof. split; [solve_tame|done|done]. Qed.

#[export] Instance tame_dir name fs : TameProvider (dirProvider name fs) None.
Proof.
  split; [solve_tame| |done].
  intros c [= <-] wd f err wd' err' _. destruct f as [|q|k' drv' tx|m|fs' e| |d| |v]; try done.
  destruct (DotDirConfig_Cleanup (env_fs e) err) as [[d errs] e']. by intros [= <- _].
Qed.

#[export] Instance tame_Resp : TameProvider dotRespProvider None.
Proof.
  split; [solve_tame| |done].
  intros c [= <-] wd f err wd' err' _. destruct f as [|q|k' drv' tx|m|fs' e| |d| |v]; try done.
  destruct (dotRespProvider_Cleanup d (world_w wd) err) as [[w e]|msg]; [|done]. cbn.
  by intros [= <- _].
Qed.

#[export] Instance tame_Flush : TameProvider dotFlushProvider None.
Proof.
  split; [solve_tame| |done].
  intros c [= <-] wd f err wd' err' _. destruct f as [|q|k' drv' tx|m|fs' e| |d| |v]; try done.
  cbn. destruct (dotFlushProvider_Cleanup (world_w wd) err) as [w e]. by intros [= <- _].
Qed.

(** ** Along a request *)

Definition keyed (kos : list (option nat)) (xs : list field) : Prop :=
  Forall2 (fun ko f => key f = ko) kos xs.

Lemma logs_fit_tail f xs wd wd1 :
  logs_fit (Some <$> f :: xs) wd -> (forall k, key f = Some k -> closed wd1 k) ->
  (forall k, key f <> Some k -> get_log wd1 k = get_log wd k) -> logs_fit (Some <$> xs) wd1.
Proof.
  intros [L1 L2 L3] Hc Ho. split.
  - intros i j g h k Hg Hh K1 K2. by apply (Nat.succ_inj i j), (L1 (S i) (S j) g h k).
  - intros i g k Hg K1. rewrite Ho; [by apply (L2 (S i))|].
    intros K2. by pose proof (L1 0 (S i) f g k eq_refl Hg K2 K1).
  - intros k Hk. destruct (decide (key f = Some k)) as [K|K]; [by apply Hc|].
    unfold closed. rewrite Ho by done. apply L3. intros [|i] g Hg; [by injection Hg as <-|by apply (Hk i)].
Qed.

Lemma cleanups_closed ps kos xs wd err wd' err' :
  Forall2 TameProvider ps kos -> keyed kos xs -> logs_fit (Some <$> xs) wd ->
  foldl cleanup_step (Ret (wd, err)) (zip ps xs) = Ret (wd', err') -> forall k, closed wd' k.
Proof.
  intros Ht. revert xs wd err. induction Ht as [|dp ko ps kos Hdp _ IH]; intros xs wd err Hx Hl H.
  { apply Forall2_nil_inv_l in Hx as ->. cbn in H. simplify_eq. intros k. by apply (fit_closed _ _ Hl). }
  apply Forall2_cons_inv_l in Hx as (f & xs' & Hf & Hx & ->).
  cbn [zip zip_with foldl cleanup_step fst snd mbind outcome_bind] in H.
  destruct (Cleanup dp) as [c|] eqn:Ec.
  - destruct (c wd f err) as [[wd1 e1]|msg] eqn:E; [|by rewrite cleanup_step_panic in H].
    destruct (tame_cleanup c Ec wd f err wd1 e1 Hf E) as [Hown Hother].
    eapply IH; [exact Hx| |exact H]. eapply logs_fit_tail; [exact Hl| |by rewrite Hf].
    intros k K. apply Hown; [congruence|]. by apply (fit_log _ _ Hl 0).
  - eapply IH; [exact Hx| |exact H]. eapply logs_fit_tail; [exact Hl| |done].
    intros k K. destruct (tame_closes k) as [? ?]; congruence.
Qed.

Lemma values_tame ps kos wd r wd' res :
  Forall2 TameProvider ps kos -> values wd r ps = Ret (wd', res) ->
  world_dbs wd' = world_dbs wd /\
  forall xs, res = Ok xs -> keyed kos xs /\ Forall (fun f => tx_of f = None) xs.
Proof.
  intros Ht. revert wd wd' res. induction Ht as [|dp ko ps kos Hdp _ IH]; intros wd wd' res; cbn [values].
  { intros [= <- <-]. split; [done|]. intros xs [= <-]. split; constructor. }
  destruct (Value dp wd r) as [[[wd1 a] err]|msg] eqn:E; cbn [mbind outcome_bind]; [|done].
  destruct (tame_value _ _ _ _ _ E) as [Hd Hf].
  destruct err as [e|]; [by intros [= <- <-]|]. destruct a as [f|]; [|done].
  destruct (values wd1 r ps) as [[wd2 res2]|msg] eqn:E2; cbn [mbind outcome_bind]; [|done].
  destruct (IH _ _ _ E2) as [Hd2 Hx]. intros [= <- <-]. split; [congruence|].
  destruct res2 as [xs|e]; cbn; [|done]. intros ys [= <-]. destruct (Hf f eq_refl) as [? ?].
  destruct (Hx xs eq_refl) as [? ?]. split; by constructor.
Qed.

Lemma logs_fit_start kos xs wd :
  keyed kos xs -> Forall (fun f => tx_of f = None) xs -> NoDup (omap id kos) ->
  (forall k, closed wd k) -> logs_fit (Some <$> xs) wd.
Proof.
  intros Hk Ht Hn Hc.
  assert (forall i f, (Some <$> xs) !! i = Some (Some f) -> xs !! i = Some f) as Hi.
  { intros i f. rewrite list_lookup_fmap. destruct (xs !! i); cbn; [by intros [= <-]|done]. }
  split.
  - intros i j f g k Hf%Hi Hg%Hi K1 K2. revert i j Hf Hg. clear Hc Ht Hi. revert Hn.
    induction Hk as [|ko h kos xs Hh Hk IH]; intros Hn i j Hf Hg; [done|].
    assert (forall n h', xs !! n = Some h' -> key h' = Some k -> k ∈ omap id kos) as Hin.
    { intros n h' Hn' K. destruct (Forall2_lookup_r _ _ _ _ _ Hk Hn') as (ko' & Hko & E).
      apply list_elem_of_omap. exists (Some k). split; [|done]. apply list_elem_of_lookup_2 with n. congruence. }
    destruct ko as [k0|]; cbn in Hn; [apply NoDup_cons in Hn as [Hn0 Hn]|].
    all: destruct i as [|i], j as [|j]; cbn in Hf, Hg; [done| | |f_equal; by apply IH]; simplify_eq.
    all: exfalso; try congruence; apply Hn0; try (assert (k0 = k) as -> by congruence); by eapply Hin.
  - intros i f k Hf%Hi K. rewrite Hc. f_equal. symmetry. by eapply Forall_lookup_1 in Hf; [|exact Ht].
  - done.
Qed.

Lemma exec_keyed kos direct r p fs wd b s' err :
  keyed kos fs -> exec env custom_call direct r p {| ex_fields := Some <$> fs; ex_world := wd; ex_buf := b |} = (s', err) ->
  exists fs', ex_fields s' = Some <$> fs' /\ keyed kos fs'.
Proof.
  intros Hk. apply (exec_inv env custom_call (fun s => exists fs', ex_fields s = Some <$> fs' /\ keyed kos fs') (fun _ => True)); try done.
  - intros s1 try i c s2 ans (fs1 & E1 & K1) _. unfold call_field, call_field_at. rewrite E1, list_lookup_fmap.
    destruct (fs1 !! i) as [f|] eqn:Ei; cbn; [|intros [= <- _]; by exists fs1].
    destruct (try && negb (tryable f)); [intros [= <- _]; by exists fs1|].
    destruct (do_call env custom_call c f (ex_world s1) r) as [[f' wd'] a] eqn:Ec. intros [= <- _]. cbn.
    exists (<[i := f']> fs1). split; [by rewrite list_fmap_insert|].
    destruct (do_call_log _ _ _ _ _ _ _ Ec) as (Hkey & _).
    destruct (Forall2_lookup_r _ _ _ _ _ K1 Ei) as (ko & Hko & E). unfold keyed.
    rewrite <- (list_insert_id kos i ko) by done. apply Forall2_insert; [done|congruence].
  - clear. induction p; cbn; auto.
  - by exists fs.
Qed.

(** The databases after the value was made, and after the cleanup. *)
Lemma request_closed d ps kos pool choice wd r wd1 pool1 res :
  dot_wf (typeOf custom_type) d -> dps d = ps -> Forall2 TameProvider ps kos -> NoDup (omap id kos) ->
  pool_ok d pool -> (forall k, closed wd k) ->
  dot_value (typeOf custom_type) d pool choice wd r = Ret (wd1, pool1, res) ->
  match res with
  | Err _ => pool_ok d pool1 /\ forall k, closed wd1 k
  | Ok fields => forall direct tmpl s err wd2 pool2 err2,
      exec env custom_call direct r tmpl (start_exec fields wd1) = (s, err) ->
      dot_cleanup d pool1 (ex_world s) (ex_fields s) err = Ret (wd2, pool2, err2) ->
      pool_ok d pool2 /\ forall k, closed wd2 k
  end.
Proof.
  intros Hwf Hps Ht Hn Hp Hc. 
  destruct (dot_value_wf (typeOf custom_type) d pool choice wd r Hwf Hp) as (pool' & Hp' & ->).
  rewrite Hps. destruct (values wd r ps) as [[w2 res2]|msg] eqn:E; [|done].
  destruct (values_tame _ _ _ _ _ _ Ht E) as [Hd Hx].
  assert (forall k, closed w2 k) as Hc2.
  { intros k. unfold closed. rewrite (get_log_dbs _ _ k Hd). apply Hc. }
  destruct res2 as [xs|e]; cbn; intros [= <- <- <-]; [|by split; [constructor|]].
  destruct (Hx xs eq_refl) as [Hk Htx]. intros direct tmpl s err wd2 pool2 err2 Hex Hcl.
  pose proof (logs_fit_start kos xs w2 Hk Htx Hn Hc2) as Hfit.
  destruct (exec_keyed kos direct r tmpl xs w2 [] s err Hk Hex) as (fs & Efs & Kfs).
  apply exec_logs in Hex; [|done]. rewrite Efs in Hex, Hcl.
  rewrite (dot_cleanup_wf (typeOf custom_type)) in Hcl; [|done|].
  2: { rewrite Hps. apply Forall2_length in Ht. apply Forall2_length in Kfs. lia. }
  destruct (foldl cleanup_step _ _) as [[w3 e3]|msg] eqn:Ef; [|done]. injection Hcl as <- <- <-.
  rewrite Hps in Ef. split; [by constructor|]. by eapply cleanups_closed.
Qed.

Lemma internal_error_closed wd (pool : list struct) res :
  (wd ← internal_error wd; Ret (wd, pool)) = Ret res -> (forall k, closed wd k) ->
  res.2 = pool /\ forall k, closed res.1 k.
Proof.
  unfold internal_error. destruct (http_Error _ _ _) as [w|msg]; cbn; [|done]. by intros [= <-].
Qed.

Lemma builtin_stable :
  stable (typeOf custom_type) (dotXProvider (Ext := Ext) (V := V) (P := P) (R := R) (Info := Info) (Entry := Entry)) /\
  stable (typeOf custom_type) (dotReqProvider (Ext := Ext) (V := V) (P := P) (R := R) (Info := Info) (Entry := Entry)) /\
  stable (typeOf custom_type) (dotRespProvider (Ext := Ext) (V := V) (P := P) (R := R) (Info := Info) (Entry := Entry)) /\
  stable (typeOf custom_type) (dotFlushProvider (Ext := Ext) (V := V) (P := P) (R := R) (Info := Info) (Entry := Entry)).
Proof.
  split_and!; [exists TX|exists TReq|exists TResp|exists TFlush];
    intros ????? Hv; cbn in Hv; by simplify_eq.
Qed.

(** The providers around the configured ones. *)
Lemma all_tame (flushing : bool) mid kos :
  Forall2 TameProvider mid kos -> Forall (stable (typeOf custom_type)) mid ->
  let ps := if flushing then flusher_providers mid else buffer_providers mid in
  Forall2 TameProvider ps ([None; None] ++ kos ++ [None]) /\ Forall (stable (typeOf custom_type)) ps.
Proof.
  intros Ht Hst ps. destruct builtin_stable as (S1 & S2 & S3 & S4).
  destruct flushing; unfold ps, flusher_providers, buffer_providers; split.
  all: try (apply Forall2_app; [constructor; [apply tame_X|constructor; [apply tame_Req|constructor]]|];
            apply Forall2_app; [done|]; constructor; [|constructor]; [apply tame_Flush || apply tame_Resp]).
  all: apply Forall_app; split; [constructor; [exact S1|constructor; [exact S2|constructor]]|];
    apply Forall_app; split; [done|]; constructor; [done|constructor].
Qed.

(** Whichever template a request runs, buffered or streaming, whatever the databases
    answer and however the template ends, when the handler returns every transaction
    of every database field has been committed or rolled back. *)
Lemma handlers_closed (flushing : bool) mid kos mock r0 mock' d pool choice tmpl wd r wd' pool' :
  let ps := if flushing then flusher_providers mid else buffer_providers mid in
  Forall2 TameProvider mid kos -> NoDup (omap id kos) -> Forall (stable (typeOf custom_type)) mid ->
  makeDot (typeOf custom_type) unicode_IsLetter unicode_IsDigit mock r0 ps = Ret (mock', d) ->
  pool_ok d pool -> (forall k, closed wd k) ->
  (if flushing then flushingTemplateHandler env custom_type custom_call d pool choice tmpl wd r
   else bufferingTemplateHandler env custom_type custom_call d pool choice tmpl wd r)
    = Ret (wd', pool') ->
  pool_ok d pool' /\ forall k, closed wd' k.
Proof.
  intros ps Ht Hn Hst Hd Hp Hc.
  destruct (all_tame flushing mid kos Ht Hst) as [Hts Hsts]. fold ps in Hts, Hsts.
  assert (NoDup (omap id ([None; None] ++ kos ++ [None]))) as Hns by (rewrite !omap_app; cbn; by rewrite app_nil_r).
  destruct (makeDot_wf _ _ _ _ _ _ _ _ Hsts Hd) as (Hwf & Hps & _).
  pose proof (fun wd wd1 pool1 res => request_closed d ps _ pool choice wd r wd1 pool1 res Hwf Hps Hts Hns Hp) as Hrun.
  destruct flushing; unfold flushingTemplateHandler, bufferingTemplateHandler.
  - destruct (negb _).
    { destruct (http_Error _ _ _) as [w|msg]; cbn; [|done]. by intros [= <- <-]. }
    destruct (dot_value _ _ _ _ _ _) as [[[wd1 pool1] res]|msg] eqn:Ev; [|done].
    apply Hrun in Ev; [|done]. cbn [mbind outcome_bind]. destruct res as [fields|e].
    + destruct (exec _ _ _ _ _ (start_exec fields wd1)) as [s err] eqn:Ex.
      destruct (dot_cleanup _ _ _ _ _) as [[[wd2 pool2] err2]|msg] eqn:Ec; [|done].
      destruct (Ev _ _ _ _ _ _ _ Ex Ec) as [Hp2 Hc2]. cbn [mbind outcome_bind].
      destruct err2; [|by intros [= <- <-]].
      intros Hi. destruct (internal_error_closed _ _ _ Hi Hc2) as [E ?]. cbn in E. by subst.
    + destruct Ev as [Hp1 Hc1]. intros Hi. destruct (internal_error_closed _ _ _ Hi Hc1) as [E ?]. cbn in E. by subst.
  - destruct (dot_value _ _ _ _ _ _) as [[[wd1 pool1] res]|msg] eqn:Ev; [|done].
    apply Hrun in Ev; [|done]. cbn [mbind outcome_bind]. destruct res as [fields|e].
    + destruct (exec _ _ _ _ _ (start_exec fields wd1)) as [s err] eqn:Ex.
      destruct (dot_cleanup _ _ _ _ _) as [[[wd2 pool2] err2]|msg] eqn:Ec; [|done].
      destruct (Ev _ _ _ _ _ _ _ Ex Ec) as [Hp2 Hc2]. cbn [mbind outcome_bind].
      destruct err2; [|by intros [= <- <-]].
      intros Hi. destruct (internal_error_closed _ _ _ Hi Hc2) as [E ?]. cbn in E. by subst.
    + destruct Ev as [Hp1 Hc1]. intros Hi. destruct (internal_error_closed _ _ _ Hi Hc1) as [E ?]. cbn in E. by subst.
Qed.

(** ** One database and the response together *)

(** A template that leaves transactions and the response to the handler. *)
Definition plain_call (c : call (P := P) (CCall := CCall)) : Prop :=
  is_serve c = false /\ forall op, c = CallDB op -> is_statement op.

(** The four fields during the execution, and the pending statements. *)
Definition one_db (k : nat) (drv : driver V P R) (r : request) (log : list sql_event)
    (s : exec_state) : Prop :=
  exists tx dr, ex_fields s = Some <$> [FX; FReq r; FDB k drv tx; FResp dr] /\
    let d := {| tx := tx; db_log := get_log (ex_world s) k |} in
    pending_inv log d /\ db_ok d.

Lemma one_db_call k drv r log s try i c s' ans :
  one_db k drv r log s -> plain_call c -> call_field env custom_call s r try i c = (s', ans) ->
  one_db k drv r log s'.
Proof.
  intros (tx & dr & Hf & Hp & Hok) [Hs Hst]. unfold call_field, call_field_at. rewrite Hf.
  destruct i as [|[|[|[|i]]]]; cbn [lookup list_lookup fmap list_fmap].
  5: { intros [= <- _]. by exists tx, dr. }
  all: destruct (try && negb (tryable _)); [intros [= <- _]; by exists tx, dr|].
  - destruct c; intros [= <- _]; by exists tx, dr.
  - destruct c; intros [= <- _]; by exists tx, dr.
  - destruct c as [op| | | | | | | | |]; try (intros [= <- _]; by exists tx, dr).
    cbn [do_call]. pose proof (db_answer_log drv {| tx := tx; db_log := get_log (ex_world s) k |} op) as Hl.
    destruct (db_answer drv _ op) as [d a]. cbn in Hl. subst d. intros [= <- _].
    eexists _, dr. split; [done|]. cbn [ex_world]. rewrite get_log_set.
    assert (forall d0, {| tx := DotDB.tx d0; db_log := db_log d0 |} = d0) as Eta by (by intros []).
    rewrite Eta. split; [|by apply db_step_ok]. apply statement_pending; [done|by apply Hst|done].
  - destruct c; cbn in Hs; try done; intros [= <- _]; eexists tx, _; done.
Qed.

(** The cleanup of a database reports the error it is given. *)
Lemma reports_db name k drv : Forall reports [dbProvider name k drv : provider].
Proof.
  constructor; [|constructor]. intros c [= <-] wd f e wd' err Hcl.
  destruct f as [|q|k' drv' tx'|m|fs' e'| |d'| |v]; try done. cbn in Hcl.
  destruct (rollback drv' _) as [d2 e2]. by injection Hcl as _ <-.
Qed.

(** C1: with one database, the response and the database agree.  The template runs
    with a database field without transaction and a new response, and the database is
    cleaned up with its error.  When that gives no error, the template went well, the
    client is sent its output, and every statement it executed is committed, in order;
    otherwise the template or the commit failed, the client is sent an error and
    nothing is committed.  The template leaves commit and rollback to the handler, does
    not call [ServeContent], and the handler returns: it panics only for a status code
    that [WriteHeader] refuses. *)
Theorem response_matches_database name k (drv : driver V P R) mock r0 mock' (d : dot) pool choice tmpl wd r
    wd' pool' :
  makeDot (typeOf custom_type) unicode_IsLetter unicode_IsDigit mock r0
    (buffer_providers [dbProvider name k drv]) = Ret (mock', d) ->
  pool_ok d pool -> calls_ok plain_call tmpl -> world_w wd = new_writer false -> closed wd k ->
  bufferingTemplateHandler env custom_type custom_call d pool choice tmpl wd r = Ret (wd', pool') ->
  let log := get_log wd k in
  let '(s, err) := exec env custom_call false r tmpl
      (start_exec (Some <$> [FX; FReq r; FDB k drv None; FResp dotRespProvider_Value]) wd) in
  exists tx dr new,
    ex_fields s = Some <$> [FX; FReq r; FDB k drv tx; FResp dr] /\ get_log (ex_world s) k = log ++ new /\
    match (DotDBConfig_Cleanup drv {| tx := tx; db_log := log ++ new |} (dotXProvider_Cleanup err)).2 with
    | None =>
        template_ok err /\ success_response (world_w wd') dr (ex_buf s) /\
        committed (get_log wd' k) = committed log ++ executed new
    | Some e =>
        (~ template_ok err \/ is_Some (drv_Commit drv (log ++ new))) /\
        failure_response (world_w wd') (Some e) /\ committed (get_log wd' k) = committed log
    end.
Proof.
  intros Hd Hp Hcalls Hw Hc Hh log.
  assert (Forall2 (QuietProvider env custom_type custom_call) [dbProvider name k drv : provider] [is_FDB]) as Hq
    by (apply Forall2_cons_2; [apply quiet_db|apply Forall2_nil_2]).
  destruct (makeDot_wf _ _ _ _ _ _ _ _ (buffer_stable env custom_type custom_call _ _ Hq) Hd) as (Hwf & Hps & _).
  unfold bufferingTemplateHandler in Hh.
  destruct (dot_value_wf (typeOf custom_type) d pool choice wd r Hwf Hp) as (pool1 & Hp1 & Hv).
  rewrite Hv, Hps in Hh. cbn [buffer_providers app values Value dotXProvider dotReqProvider dbProvider
    dotRespProvider mbind outcome_bind result_bind value_outcome] in Hh.
  set (fields := Some <$> [FX; FReq r; FDB k drv None; FResp dotRespProvider_Value]).
  change (Some <$> [FX; FReq r; FDB k drv (tx (DotDBConfig_Value (get_log wd k))); FResp dotRespProvider_Value])
    with fields in Hh.
  destruct (exec env custom_call false r tmpl (start_exec fields wd)) as [s err] eqn:Ex.
  assert (one_db k drv r log s) as (tx1 & dr1 & Hfs & Hpend & Hok).
  { eapply (exec_inv env custom_call (one_db k drv r log) plain_call); try done.
    - intros. by eapply one_db_call.
    - eexists None, _. split; [done|]. cbn. split; [|done]. exists []. cbn. by rewrite app_nil_r. }
  pose proof (reports_db name k drv) as Hrep.
  destruct (buffered_finish env custom_type custom_call [dbProvider name k drv] [is_FDB] d pool1 s err wd' pool')
    as (_ & ys & dr & wd2 & err2 & Hys & Hcl & Hdbs & Hres); try done.
  { rewrite Hfs. apply some_fits. repeat constructor; try by eexists. by do 3 eexists. }
  { edestruct (exec_fits env custom_call [is_FX; is_FReq; is_FDB; is_FResp] r tmpl) as [_ Hws];
      [| | |exact Ex|by rewrite Hws; cbn; rewrite Hw].
    - apply Forall_cons_2; [apply slot_FX|]. apply Forall_cons_2; [apply slot_FReq|].
      apply Forall_cons_2; [apply slot_FDB|]. by apply Forall_cons_2; [apply slot_FResp|].
    - eapply calls_ok_weaken; [|exact Hcalls]. by intros c [? _].
    - apply some_fits. repeat constructor; try by eexists. by do 3 eexists. }
  assert (ys = [FX; FReq r; FDB k drv tx1] /\ dr = dr1) as [-> ->].
  { rewrite Hfs in Hys. apply (inj (fmap Some)) in Hys.
    by apply (app_inj_tail [FX; FReq r; FDB k drv tx1] ys) in Hys as [? [= ?]]. }
  cbn [zip zip_with foldl cleanup_step fst snd mbind outcome_bind Cleanup dotXProvider dotReqProvider dbProvider] in Hcl.
  pose proof (Cleanup_committed drv log {| tx := tx1; db_log := get_log (ex_world s) k |}
                (dotXProvider_Cleanup err) Hpend) as Hcom.
  pose proof (Cleanup_fails drv {| tx := tx1; db_log := get_log (ex_world s) k |} (dotXProvider_Cleanup err)) as Hfails.
  destruct (DotDBConfig_Cleanup drv _ _) as [d' err'] eqn:Ecl. injection Hcl as <- <-.
  destruct Hcom as (new & Hnew & Hcom). cbn in Hnew, Hfails.
  assert (get_log wd' k = db_log d') as Hlog by (rewrite (get_log_dbs _ _ k Hdbs); apply get_log_set).
  rewrite Hlog. exists tx1, dr1, new. rewrite <- Hnew, Ecl. cbn [snd]. split_and!; [done|done|].
  destruct err' as [e|]; [|by destruct Hres as [? ?], Hcom as [_ ?]]. split; [|done]. by eapply Hfails.
Qed.
End transactions.

(** ** A small instance

    One database that accepts everything, no custom providers. *)

#[local] Existing Instance ftype_eq.

Definition ok_driver : driver unit unit unit :=
  {| drv_Begin := fun _ => None; drv_Exec := fun _ _ _ => Ok tt;
     drv_Query := fun _ _ _ => Err (ErrText (gs "no such table"));
     drv_Commit := fun _ => None; drv_Rollback := fun _ => None |}.

Definition no_type (v : Empty_set) : Empty_set := v.

Abbreviation example_world := (World (Ext := unit)).

Definition no_call (v : Empty_set) (c : Empty_set) (wd : example_world) :
    Empty_set * example_world * outcome (result Empty_set) := match v with end.

Abbreviation example_provider :=
  (DotConfig (World := example_world)
     (Val := field (V := unit) (P := unit) (R := unit) (Info := unit) (Entry := unit) (CVal := Empty_set))).

Definition example_mid : list example_provider := [dbProvider (gs "DB") 0 ok_driver].

Definition start_world : example_world :=
  {| world_w := new_writer false; world_flusher := true; world_dbs := ∅; world_ext := tt |}.

Definition ascii_only (_ : N) : bool := false.

Definition example_makeDot_run :=
  makeDot (typeOf no_type) ascii_only ascii_only start_world any_request (buffer_providers example_mid).

Definition example_made :=
  match example_makeDot_run with
  | Ret x => x
  | Panic _ => (start_world, {| dps := []; cleanups := []; typ := [] |})
  end.

Definition example_dot := example_made.2.

(** [{{.DB.Exec "insert"}}done] *)
Definition insert_template :
    tprog (V := unit) (P := unit) (R := unit) (Info := unit) (Entry := unit) (CVal := Empty_set) (CCall := Empty_set) :=
  TCall false 2 (CallDB (CallExec (gs "insert") [])) (fun _ => TText (gs "done") TEnd).

Definition example_run :=
  bufferingTemplateHandler StaticFile.no_env no_type no_call example_dot [] 0 insert_template start_world any_request.

Definition example_result : example_world * list (list (option field)) :=
  match example_run with Ret x => x | Panic _ => (start_world, []) end.

Lemma example_run_ok : example_run = Ret (example_result.1, example_result.2).
Proof.
  assert (match example_run with Ret _ => true | Panic _ => false end = true) as H by (vm_compute; reflexivity).
  unfold example_result. destruct example_run as [[wd pool]|msg]; [done|discriminate].
Qed.

Lemma example_makeDot : example_makeDot_run = Ret (example_made.1, example_dot).
Proof.
  assert (match example_makeDot_run with Ret _ => true | Panic _ => false end = true) as H
    by (vm_compute; reflexivity).
  unfold example_dot, example_made. destruct example_makeDot_run as [[wd d]|msg]; [done|discriminate].
Qed.

Lemma response_matches_database_witness :
  let log := get_log start_world 0 in
  let wd' := example_result.1 in
  let '(s, err) := exec StaticFile.no_env no_call false any_request insert_template
      (start_exec (Some <$> [FX; FReq any_request; FDB 0 ok_driver None; FResp dotRespProvider_Value]) start_world) in
  exists tx dr new,
    ex_fields s = Some <$> [FX; FReq any_request; FDB 0 ok_driver tx; FResp dr] /\ get_log (ex_world s) 0 = log ++ new /\
    match (DotDBConfig_Cleanup ok_driver {| tx := tx; db_log := log ++ new |} (dotXProvider_Cleanup err)).2 with
    | None =>
        template_ok err /\ success_response (world_w wd') dr (ex_buf s) /\
        committed (get_log wd' 0) = committed log ++ executed new
    | Some e =>
        (~ template_ok err \/ is_Some (drv_Commit ok_driver (log ++ new))) /\
        failure_response (world_w wd') (Some e) /\ committed (get_log wd' 0) = committed log
    end.
Proof.
  apply (response_matches_database StaticFile.no_env no_type ascii_only ascii_only no_call (gs "DB") 0 ok_driver
           start_world any_request example_made.1 example_dot [] 0 insert_template start_world any_request
           example_result.1 example_result.2).
  - apply example_makeDot.
  - constructor.
  - split; [split; [reflexivity|]|by intros].
    intros op Hop. injection Hop as <-. exact I.
  - reflexivity.
  - reflexivity.
  - apply example_run_ok.
Defined.

Lemma example_quiet :
  Forall2 (QuietProvider StaticFile.no_env no_type no_call) example_mid [is_FDB].
Proof. apply Forall2_cons_2; [apply quiet_db|apply Forall2_nil_2]. Qed.

Lemma example_reports : Forall reports example_mid.
Proof.
  apply Forall_cons_2; [|apply Forall_nil_2]. intros c [= <-] wd0 f e wd1 err' Hcl.
  destruct f as [|q|k' drv' tx'|m|fs' e'| |d'| |v]; try done. cbn in Hcl.
  destruct (rollback drv' _) as [d2 e2]. by injection Hcl as _ <-.
Qed.

Lemma buffered_all_or_nothing_witness :
  pool_ok example_dot example_result.2 /\
  exists wd1 res, values start_world any_request (buffer_providers example_mid) = Ret (wd1, res) /\
  match res with
  | Err _ => failure_response (world_w example_result.1) None
  | Ok xs =>
      let '(s, err) := exec StaticFile.no_env no_call false any_request insert_template (start_exec (Some <$> xs) wd1) in
      exists ys dr wd2 err2,
        ex_fields s = Some <$> ys ++ [FResp dr] /\
        foldl cleanup_step (Ret (ex_world s, err)) (zip (dotXProvider :: dotReqProvider :: example_mid) ys)
          = Ret (wd2, err2) /\
        world_dbs example_result.1 = world_dbs wd2 /\
        match err2 with
        | Some e => failure_response (world_w example_result.1) (Some e)
        | None => template_ok err /\ success_response (world_w example_result.1) dr (ex_buf s)
        end
  end.
Proof.
  apply (buffered_all_or_nothing StaticFile.no_env no_type ascii_only ascii_only no_call example_mid [is_FDB]
           start_world any_request example_made.1 example_dot [] 0 insert_template start_world any_request
           example_result.1 example_result.2).
  - apply example_quiet.
  - apply example_reports.
  - apply example_makeDot.
  - constructor.
  - split; [reflexivity|by intros].
  - reflexivity.
  - apply example_run_ok.
Defined.

(** The same database under a streaming template that sends one event. *)
Definition flusher_run :=
  makeDot (typeOf no_type) ascii_only ascii_only start_world any_request (flusher_providers example_mid).

Definition flusher_made :=
  match flusher_run with
  | Ret x => x
  | Panic _ => (start_world, {| dps := []; cleanups := []; typ := [] |})
  end.

Lemma flusher_makeDot : flusher_run = Ret (flusher_made.1, flusher_made.2).
Proof.
  assert (match flusher_run with Ret _ => true | Panic _ => false end = true) as H
    by (vm_compute; reflexivity).
  unfold flusher_made. destruct flusher_run as [[wd d]|msg]; [done|discriminate].
Qed.

Definition event_template :
    tprog (V := unit) (P := unit) (R := unit) (Info := unit) (Entry := unit) (CVal := Empty_set) (CCall := Empty_set) :=
  TCall false 3 (CallSendSSE [gs "tick"; gs "1"]) (fun _ => TEnd).

Definition stream_request : request :=
  {| r_method := gs "GET"; r_path := gs "/events"; r_query := [];
     r_header := {[ gs "Accept" := [gs "text/event-stream"] ]} |}.

Lemma flushing_response_witness :
  exists wd' pool',
    flushingTemplateHandler StaticFile.no_env no_type no_call flusher_made.2 [] 0 event_template start_world
      stream_request = Ret (wd', pool') /\
    pool_ok flusher_made.2 pool' /\ stream_response (world_w wd').
Proof.
  apply (flushing_response StaticFile.no_env no_type ascii_only ascii_only no_call example_mid [is_FDB]
           start_world any_request flusher_made.1 flusher_made.2 [] 0 event_template start_world stream_request).
  - apply example_quiet.
  - apply flusher_makeDot.
  - constructor.
  - split; [reflexivity|by intros].
  - reflexivity.
  - reflexivity.
Defined.

Lemma handlers_type_safe_witness :
  typ example_dot = [(gs "X", TX); (gs "Req", TReq); (gs "DB", TDB); (gs "Resp", TResp)] /\
  handled example_dot example_run.
Proof.
  destruct (handlers_type_safe StaticFile.no_env no_type ascii_only ascii_only no_call (fun v _ _ => match v with end)
              (buffer_providers example_mid) [TX; TReq; TDB; TResp]
              start_world any_request example_made.1 example_dot [] 0 insert_template start_world any_request)
    as (H1 & H2 & _).
  - repeat (apply Forall2_cons_2; [apply _|]). apply Forall2_nil_2.
  - apply example_makeDot.
  - constructor.
  - split; [exact H1|exact H2].
Defined.
