(* ===== verification/Requests.v ===== *)
(** * Requests on a loaded instance

    What the parts guarantee together: an instance that was loaded from a
    configuration, its initializers included, and then serves requests, never
    leaves a transaction open. *)

From S2P Require Import Prelude GoStrings GoErrors GoPath Http ServeContent Config Negotiate.
From S2P Require Import DotDB DotFlush DotResp DotFS Dot Init Template StaticFile Mux Build Handlers Instance.
From S2P Require Import Transactions.

Section requests.
Context {V P R Info Entry CVal CType CCall Ext : Type} `{EqDecision CType}.
Context {FSys Logger Ctx Func DB TxOptions : Type}.
Context {NatsServerOptions NatsOptions JetStreamOpt NatsConn NatsServer JetStream : Type}.
Context (env : mime_env).
Context (custom_type : CVal -> CType).
Context (unicode_IsLetter unicode_IsDigit : N -> bool).

Abbreviation World := (World (Ext := Ext)).
Abbreviation field := (field (V := V) (P := P) (R := R) (Info := Info) (Entry := Entry) (CVal := CVal)).
Abbreviation struct := (list (option field)).
Abbreviation dot := (dot (World := World) (Val := field) (T := ftype (CType := CType))).
Abbreviation provider := (DotConfig (World := World) (Val := field)).
Abbreviation tprog := (tprog (V := V) (P := P) (R := R) (Info := Info) (Entry := Entry)
                         (CVal := CVal) (CCall := CCall)).
Abbreviation platform :=
  (platform (V := V) (P := P) (R := R) (Info := Info) (Entry := Entry) (CVal := CVal) (CCall := CCall)
     (FSys := FSys) (Ctx := Ctx) (Func := Func) (DB := DB) (TxOptions := TxOptions)
     (NatsServerOptions := NatsServerOptions) (NatsOptions := NatsOptions) (JetStreamOpt := JetStreamOpt)
     (NatsConn := NatsConn) (NatsServer := NatsServer) (JetStream := JetStream)).
Abbreviation dot_config :=
  (dot_config (V := V) (P := P) (R := R) (Info := Info) (Entry := Entry) (CVal := CVal) (Ext := Ext)
     (FSys := FSys) (DB := DB) (TxOptions := TxOptions)
     (NatsServerOptions := NatsServerOptions) (NatsOptions := NatsOptions) (JetStreamOpt := JetStreamOpt)
     (NatsConn := NatsConn) (NatsServer := NatsServer) (JetStream := JetStream)).

Context (custom_call : CVal -> CCall -> World -> CVal * World * outcome (result CVal)).
Context (custom_dbs : forall v c wd v' wd' res,
  custom_call v c wd = (v', wd', res) -> world_dbs wd' = world_dbs wd).
Context (slog_Default : Logger) (context_Background : Ctx) (pf : platform).
Context (http_Redirect : writer -> request -> gostring -> Z -> outcome writer).

#[local] Existing Instance ftype_eq.

(** ** A sequence of requests *)

Record incoming := {
  iq_done : bool;                  (* the context of the instance is done *)
  iq_choice : nat;                 (* what the pool hands out *)
  iq_host : gostring;
  iq_rawpath : gostring;
  iq_flusher : bool;
  iq_request : request
}.

Definition start_request (wd : World) (q : incoming) : World :=
  {| world_w := new_writer (bool_decide (r_method (iq_request q) = gs "HEAD")); world_flusher := iq_flusher q;
     world_dbs := world_dbs wd; world_ext := world_ext wd |}.

Abbreviation Instance :=
  (Instance (V := V) (P := P) (R := R) (Info := Info) (Entry := Entry) (CVal := CVal) (CType := CType)
     (CCall := CCall) (Ext := Ext) (FSys := FSys) (Logger := Logger) (Ctx := Ctx) (Func := Func) (DB := DB)
     (TxOptions := TxOptions) (NatsServerOptions := NatsServerOptions) (NatsOptions := NatsOptions)
     (JetStreamOpt := JetStreamOpt) (NatsConn := NatsConn) (NatsServer := NatsServer) (JetStream := JetStream)).

Abbreviation pools :=
  (pools (V := V) (P := P) (R := R) (Info := Info) (Entry := Entry) (CVal := CVal)).

Fixpoint serve_all (open : gostring -> result static_file) (x : Instance) (ps : pools) (wd : World)
    (qs : list incoming) : outcome (World * pools) :=
  match qs with
  | [] => Ret (wd, ps)
  | q :: qs' =>
      '(wd, ps) ← ServeHTTP env custom_type custom_call http_Redirect open x (iq_done q) ps (iq_choice q)
                    (iq_host q) (iq_rawpath q) (start_request wd q) (iq_request q);
      serve_all open x ps wd qs'
  end.

(** ** The databases of the configured fields *)

(** The database a field ends up with. *)
Definition dot_key (d : dot_config) : option nat :=
  match d with
  | DCDB c =>
      match DotDBConfig_Init (NatsConn := NatsConn) (NatsServer := NatsServer) (pf_sql_Open pf)
              (pf_SetMaxOpenConns pf) (pf_Ping pf) c with
      | (c, _, None) => pf_key pf <$> db_DB c
      | _ => None
      end
  | _ => None
  end.

(** A custom provider keeps away from the databases of other fields. *)
Definition tame_custom (d : dot_config) : Prop :=
  match d with
  | DCCustom cp => TameProvider (cp_provider cp) None /\ stable (typeOf custom_type) (cp_provider cp) /\
                   forall wd, world_dbs (cp_Init cp wd).1 = world_dbs wd
  | _ => True
  end.

Lemma builtin_providers_stable :
  (forall name k (drv : driver V P R), stable (typeOf custom_type) (dbProvider (Ext := Ext) (Info := Info) (Entry := Entry) name k drv)) /\
  (forall name m, stable (typeOf custom_type) (flagsProvider (Ext := Ext) (V := V) (P := P) (R := R) (Info := Info) (Entry := Entry) name m)) /\
  (forall name fs, stable (typeOf custom_type) (dirProvider (Ext := Ext) (V := V) (P := P) (R := R) (Info := Info) (Entry := Entry) name fs)) /\
  (forall name, stable (typeOf custom_type) (natsProvider (Ext := Ext) (V := V) (P := P) (R := R) (Info := Info) (Entry := Entry) name)).
Proof.
  split_and!; intros; [exists TDB|exists TFlags|exists TDir|exists TNats];
    intros ????? Hv; cbn in Hv; by simplify_eq.
Qed.

Lemma dot_Init_tame hd d wd wd' rs p :
  tame_custom d -> dot_Init pf hd d wd = (wd', rs, Ok p) ->
  TameProvider p (dot_key d) /\ stable (typeOf custom_type) p /\ world_dbs wd' = world_dbs wd.
Proof.
  destruct builtin_providers_stable as (S1 & S2 & S3 & S4).
  destruct d as [c|c|c|c|cp]; cbn [tame_custom dot_Init dot_key]; intros Ht.
  - destruct (DotDBConfig_Init _ _ _ c) as [[c' rs'] [e|]]; [done|].
    destruct (db_DB c') as [db|]; [|done]. intros [= <- _ <-]. split_and!; [apply tame_db|apply S1|done].
  - intros [= <- _ <-]. split_and!; [apply tame_flags|apply S2|done].
  - destruct (DotDirConfig_Init _ _ c) as [c' [e|]]; [done|].
    destruct (dir_FS c') as [fs|]; [|done]. intros [= <- _ <-]. split_and!; [apply tame_dir|apply S3|done].
  - destruct (DotNatsConfig_Init _ _ _ _ _ _ c) as [[c' rs'] [e|]]; [done|]. intros [= <- _ <-].
    split_and!; [apply tame_nats|apply S4|done].
  - destruct Ht as (H1 & H2 & H3). specialize (H3 wd). destruct (cp_Init cp wd) as [wd1 [e|]]; [done|].
    by intros [= <- _ <-].
Qed.

Lemma init_all_tame hd ds wd wd' rs ps :
  Forall tame_custom ds -> init_all pf hd ds wd = (wd', rs, Ok ps) ->
  Forall2 TameProvider ps (dot_key <$> ds) /\ Forall (stable (typeOf custom_type)) ps /\
  world_dbs wd' = world_dbs wd.
Proof.
  intros Ht. revert wd wd' rs ps. induction Ht as [|d ds Hd _ IH]; intros wd wd' rs ps; cbn [init_all].
  { intros [= <- _ <-]. split_and!; [apply Forall2_nil_2|apply Forall_nil_2|done]. }
  destruct (dot_Init pf hd d wd) as [[wd1 rs1] [p|e]] eqn:Ed; [|done].
  destruct (init_all pf hd ds wd1) as [[wd2 rs2] [ps'|e]] eqn:Ei; [|done]. intros [= <- _ <-].
  destruct (dot_Init_tame _ _ _ _ _ _ Hd Ed) as (T1 & T2 & T3). destruct (IH _ _ _ _ Ei) as (I1 & I2 & I3).
  split_and!; [by apply Forall2_cons_2|by apply Forall_cons_2|congruence].
Qed.

(** ** Initializers *)

Lemma run_initializers_closed (d : dot) ps kos pool choice ts (wd : World) n wd' pool' n' err :
  dot_wf (typeOf custom_type) d -> dps d = ps -> Forall2 TameProvider ps kos -> NoDup (omap id kos) ->
  pool_ok d pool -> (forall k, closed wd k) ->
  run_initializers env custom_type custom_call d pool choice ts wd n = Ret (wd', pool', n', err) ->
  pool_ok d pool' /\ forall k, closed wd' k.
Proof.
  intros Hwf Hps Ht Hn. revert pool wd n. induction ts as [|[name tmpl] ts IH]; intros pool wd n Hp Hc;
    cbn [run_initializers].
  { by intros [= <- <- _ _]. }
  destruct (HasPrefix name (gs "INIT ")); [|by apply IH].
  unfold run_initializer.
  destruct (dot_value _ d pool choice (with_writer wd true) root_request) as [[[wd1 pool1] res]|msg] eqn:Ev; [|done].
  apply (request_closed env custom_type custom_call custom_dbs d ps kos) in Ev; [|done..].
  cbn [mbind outcome_bind]. destruct res as [fields|e]; cbn [mbind outcome_bind].
  2: { by intros [= <- <- _ _]. }
  destruct (exec _ _ false root_request tmpl (start_exec fields wd1)) as [s err1] eqn:Ex.
  destruct (dot_cleanup d pool1 _ _ err1) as [[[wd2 pool2] err2]|msg] eqn:Ec; [|done].
  destruct (Ev _ _ _ _ _ _ _ Ex Ec) as [Hp2 Hc2]. cbn [mbind outcome_bind].
  destruct err2 as [e|]; cbn [mbind outcome_bind]; [by intros [= <- <- _ _]|by apply IH].
Qed.

(** ** Requests *)

Definition pools_ok (x : Instance) (ps : pools) : Prop :=
  pool_ok (in_bufferDot x) (pool_buffer ps) /\ pool_ok (in_flusherDot x) (pool_flusher ps).

Lemma on_writer_closed (wd : World) (ps : pools) m wd' ps' :
  on_writer wd ps m = Ret (wd', ps') -> (forall k, closed wd k) -> ps' = ps /\ forall k, closed wd' k.
Proof. unfold on_writer. destruct m as [w|msg]; cbn; [|done]. by intros [= <- <-]. Qed.

Section served.
Context (x : Instance) (mid : list provider) (kos : list (option nat)).
Context (tame : Forall2 TameProvider mid kos) (keys : NoDup (omap id kos)).
Context (stable_mid : Forall (stable (typeOf custom_type)) mid).
Context (buffer_made : exists mock mock', makeDot (typeOf custom_type) unicode_IsLetter unicode_IsDigit mock root_request
           (buffer_providers mid) = Ret (mock', in_bufferDot x)).
Context (flusher_made : exists mock mock', makeDot (typeOf custom_type) unicode_IsLetter unicode_IsDigit mock root_request
           (flusher_providers mid) = Ret (mock', in_flusherDot x)).

Lemma ServeHTTP_closed open done ps choice host rawpath (wd : World) r wd' ps' :
  pools_ok x ps -> (forall k, closed wd k) ->
  ServeHTTP env custom_type custom_call http_Redirect open x done ps choice host rawpath wd r = Ret (wd', ps') ->
  pools_ok x ps' /\ forall k, closed wd' k.
Proof.
  intros [Hb Hf] Hc Hs.
  assert (forall m, on_writer wd ps m = Ret (wd', ps') -> pools_ok x ps' /\ forall k, closed wd' k) as Hw.
  { intros m Hm. apply on_writer_closed in Hm as [-> ?]; done. }
  unfold ServeHTTP in Hs. destruct done; [by eapply Hw|].
  destruct (findHandler _ _ _ _ _) as [pat h|u|ms|]; [|by eapply Hw..].
  destruct h as [addr|name tmpl|name tmpl]; cbn [run_handler] in Hs.
  - destruct (in_heap x !! addr); [by eapply Hw|done].
  - destruct buffer_made as (m1 & m2 & Hmade).
    destruct (bufferingTemplateHandler _ _ _ _ _ _ _ _ _) as [[wd1 pool1]|msg] eqn:Eh; [|done].
    cbn in Hs. injection Hs as <- <-.
    edestruct (handlers_closed env custom_type unicode_IsLetter unicode_IsDigit custom_call custom_dbs false mid kos)
      as [H1 H2]; [done|done|done|exact Hmade|exact Hb|exact Hc|exact Eh|]. done.
  - destruct flusher_made as (m1 & m2 & Hmade).
    destruct (flushingTemplateHandler _ _ _ _ _ _ _ _ _) as [[wd1 pool1]|msg] eqn:Eh; [|done].
    cbn in Hs. injection Hs as <- <-.
    edestruct (handlers_closed env custom_type unicode_IsLetter unicode_IsDigit custom_call custom_dbs true mid kos)
      as [H1 H2]; [done|done|done|exact Hmade|exact Hf|exact Hc|exact Eh|]. done.
Qed.

Lemma serve_all_closed open qs ps (wd : World) wd' ps' :
  pools_ok x ps -> (forall k, closed wd k) -> serve_all open x ps wd qs = Ret (wd', ps') ->
  pools_ok x ps' /\ forall k, closed wd' k.
Proof.
  revert ps wd. induction qs as [|q qs IH]; intros ps wd Hp Hc; cbn [serve_all]; [by intros [= <- <-]|].
  destruct (ServeHTTP _ _ _ _ _ _ _ _ _ _ _ _ _) as [[wd1 ps1]|msg] eqn:Es; [|done]. cbn [mbind outcome_bind].
  apply ServeHTTP_closed in Es as [H1 H2]; [by apply IH|done|].
  intros k. unfold closed. rewrite (get_log_dbs wd); [apply Hc|done].
Qed.
End served.

(** Laying out the dot values does not touch the databases. *)
Lemma make_fields_dbs (mock : World) r i (ps : list provider) kos mock' fields cls :
  Forall2 TameProvider ps kos -> make_fields (typeOf custom_type) mock r i ps = Ret (mock', fields, cls) ->
  world_dbs mock' = world_dbs mock.
Proof.
  intros Ht. revert mock i mock' fields cls.
  induction Ht as [|dp ko ps kos Hd _ IH]; intros mock i mock' fields cls; cbn [make_fields].
  { by intros [= <- _ _]. }
  destruct (Value dp mock r) as [[[m [a|]] e]|msg] eqn:Ev; cbn [mbind outcome_bind]; [|done|done].
  destruct (tame_value _ _ _ _ _ Ev) as [Hm _].
  destruct (make_fields _ m r (S i) ps) as [[[m' fields'] cls']|msg] eqn:E; cbn [mbind outcome_bind]; [|done].
  intros [= <- _ _]. rewrite (IH _ _ _ _ _ E). done.
Qed.

Lemma makeDot_closed (mock : World) r (ps : list provider) kos mock' d :
  Forall2 TameProvider ps kos ->
  makeDot (typeOf custom_type) unicode_IsLetter unicode_IsDigit mock r ps = Ret (mock', d) ->
  (forall k, closed mock k) -> forall k, closed mock' k.
Proof.
  intros Ht. unfold makeDot.
  destruct (make_fields _ mock r 0 ps) as [[[m fields] cls]|msg] eqn:E; cbn [mbind outcome_bind]; [|done].
  destruct (StructOf _ _ fields) as [ty|msg]; cbn [mbind outcome_bind]; [|done]. intros [= <- _] Hc k.
  unfold closed. rewrite (get_log_dbs mock); [apply Hc|by eapply make_fields_dbs].
Qed.

(** C4: an instance that was loaded has left no transaction open, whatever its
    initializer templates did, and neither has any sequence of requests it then
    served: every transaction was committed or rolled back, whatever templates ran,
    whatever the databases answered and however the templates ended.
    Each database field has a database of its own, and the requests are ones the
    instance answers without a panic. *)
Theorem instance_closes_transactions open config cfgs next choice wd iid wd1 rs ld qs wd2 ps2 :
  Config_Instance env custom_type unicode_IsLetter unicode_IsDigit custom_call slog_Default context_Background pf
    config cfgs next choice wd = Ret (iid, wd1, rs, Ok ld) ->
  Forall tame_custom (dot_configs (in_config (ld_instance ld))) ->
  NoDup (omap dot_key (dot_configs (in_config (ld_instance ld)))) ->
  (forall k, closed wd k) ->
  serve_all open (ld_instance ld) {| pool_buffer := ld_pool ld; pool_flusher := [] |} wd1 qs = Ret (wd2, ps2) ->
  (forall k, closed wd1 k) /\ (forall k, closed wd2 k).
Proof.
  intros Hl Htame Hkeys Hc Hs.
  apply Config_Instance_loaded in Hl as (_ & _ & c & b & mid & Hl).
  pose proof (lf_config _ _ _ _ _ _ _ _ _ _ _ _ _ _ _ _ _ Hl) as Ec. rewrite Ec in Htame, Hkeys.
  destruct (lf_fields _ _ _ _ _ _ _ _ _ _ _ _ _ _ _ _ _ Hl) as (wi & rs0 & wb & wf & Hi & Hb & Hf & Hr).
  destruct (init_all_tame _ _ _ _ _ _ Htame Hi) as (T1 & T2 & T3).
  assert (NoDup (omap id (dot_key <$> dot_configs c))) as Hk by (by rewrite omap_id_fmap).
  destruct (all_tame custom_type false mid _ T1 T2) as [Ab Sb].
  destruct (all_tame custom_type true mid _ T1 T2) as [Af Sf].
  assert (forall wa wb : World, world_dbs wb = world_dbs wa -> (forall k, closed wa k) -> forall k, closed wb k) as Hsame.
  { intros wa wb' E Hwa k. unfold closed. rewrite (get_log_dbs wa wb' k E). apply Hwa. }
  assert (forall k, closed wf k) as Hwf.
  { apply (makeDot_closed _ _ _ _ _ _ Af Hf), (Hsame wb _ eq_refl).
    by apply (makeDot_closed _ _ _ _ _ _ Ab Hb), (Hsame wi _ eq_refl), (Hsame wd). }
  destruct (makeDot_wf _ _ _ _ _ _ _ _ Sb Hb) as (Wb & Pb & _).
  eapply (run_initializers_closed _ _ _ _ _ _ _ _ _ _ _ _ Wb Pb Ab) in Hr as [Hp1 Hc1];
    [|rewrite !omap_app; cbn; by rewrite app_nil_r|constructor|done].
  split; [done|].
  eapply (serve_all_closed _ mid _ T1 Hk T2) in Hs as [_ ?]; [done|by eauto|by eauto| |done].
  split; [done|constructor].
Qed.
End requests.
