(* ===== verification/Serving.v ===== *)
(** * Every request is answered

    A loaded instance answers each request, whatever template, static file or answer of
    the multiplexer it is routed to: the types of fields, the handles of files and the
    routes fit together so that nothing panics but a status code no response has. *)

From S2P Require Import Prelude GoStrings GoErrors GoPath Http ServeContent Config Negotiate.
From S2P Require Import DotDB DotFlush DotResp DotFS Dot Init Template StaticFile Mux Build Handlers Types Instance.
From S2P Require Import Transactions Requests.

Section serving.
Context {V P R Info Entry CVal CType CCall Ext : Type} `{EqDecision CType}.
Context {FSys Logger Ctx Func DB TxOptions : Type}.
Context {NatsServerOptions NatsOptions JetStreamOpt NatsConn NatsServer JetStream : Type}.
Context (env : mime_env).
Context (custom_type : CVal -> CType).
Context (unicode_IsLetter unicode_IsDigit : N -> bool).

Abbreviation World := (World (Ext := Ext)).
Abbreviation field := (field (V := V) (P := P) (R := R) (Info := Info) (Entry := Entry) (CVal := CVal)).
Abbreviation struct := (list (option field)).
Abbreviation dot := (dot (World := World) (Val := field) (T := ftype (CType := CType))).
Abbreviation provider := (DotConfig (World := World) (Val := field)).
Abbreviation tprog := (tprog (V := V) (P := P) (R := R) (Info := Info) (Entry := Entry)
                         (CVal := CVal) (CCall := CCall)).
Abbreviation platform :=
  (platform (V := V) (P := P) (R := R) (Info := Info) (Entry := Entry) (CVal := CVal) (CCall := CCall)
     (FSys := FSys) (Ctx := Ctx) (Func := Func) (DB := DB) (TxOptions := TxOptions)
     (NatsServerOptions := NatsServerOptions) (NatsOptions := NatsOptions) (JetStreamOpt := JetStreamOpt)
     (NatsConn := NatsConn) (NatsServer := NatsServer) (JetStream := JetStream)).
Abbreviation dot_config :=
  (dot_config (V := V) (P := P) (R := R) (Info := Info) (Entry := Entry) (CVal := CVal) (Ext := Ext)
     (FSys := FSys) (DB := DB) (TxOptions := TxOptions)
     (NatsServerOptions := NatsServerOptions) (NatsOptions := NatsOptions) (JetStreamOpt := JetStreamOpt)
     (NatsConn := NatsConn) (NatsServer := NatsServer) (JetStream := JetStream)).

Context (custom_call : CVal -> CCall -> World -> CVal * World * outcome (result CVal)).
Hypothesis custom_keeps : forall v c wd, custom_type (custom_call v c wd).1.1 = custom_type v.
Context (slog_Default : Logger) (context_Background : Ctx) (pf : platform).
Context (http_Redirect : writer -> request -> gostring -> Z -> outcome writer).

#[local] Existing Instance ftype_eq.

Abbreviation Instance :=
  (Instance (V := V) (P := P) (R := R) (Info := Info) (Entry := Entry) (CVal := CVal) (CType := CType)
     (CCall := CCall) (Ext := Ext) (FSys := FSys) (Logger := Logger) (Ctx := Ctx) (Func := Func) (DB := DB)
     (TxOptions := TxOptions) (NatsServerOptions := NatsServerOptions) (NatsOptions := NatsOptions)
     (JetStreamOpt := JetStreamOpt) (NatsConn := NatsConn) (NatsServer := NatsServer) (JetStream := JetStream)).

Abbreviation pools :=
  (pools (V := V) (P := P) (R := R) (Info := Info) (Entry := Entry) (CVal := CVal)).

Abbreviation TypedProvider := (TypedProvider (V := V) (P := P) (R := R) (Info := Info) (Entry := Entry)
  (Ext := Ext) custom_type).
Abbreviation Instance_of :=
  (Config_Instance env custom_type unicode_IsLetter unicode_IsDigit custom_call slog_Default context_Background pf).

(** ** The fields of the configuration *)

(** A custom provider has values of one type. *)
Definition typed_custom (d : dot_config) : Prop :=
  match d with DCCustom cp => exists t, TypedProvider (cp_provider cp) t | _ => True end.

Lemma dot_Init_typed hd d wd wd' rs p :
  typed_custom d -> dot_Init pf hd d wd = (wd', rs, Ok p) -> exists t, TypedProvider p t.
Proof.
  destruct d as [c|c|c|c|cp]; cbn [typed_custom dot_Init]; intros Ht.
  - destruct (DotDBConfig_Init _ _ _ c) as [[c' rs'] [e|]]; [done|].
    destruct (db_DB c') as [db|]; [|done]. intros [= _ _ <-]. eexists. apply _.
  - intros [= _ _ <-]. eexists. apply _.
  - destruct (DotDirConfig_Init _ _ c) as [c' [e|]]; [done|].
    destruct (dir_FS c') as [fs|]; [|done]. intros [= _ _ <-]. eexists. apply _.
  - destruct (DotNatsConfig_Init _ _ _ _ _ _ c) as [[c' rs'] [e|]]; [done|]. intros [= _ _ <-]. eexists. apply _.
  - destruct (cp_Init cp wd) as [wd1 [e|]]; [done|]. by intros [= _ _ <-].
Qed.

Lemma init_all_typed hd ds wd wd' rs ps :
  Forall typed_custom ds -> init_all pf hd ds wd = (wd', rs, Ok ps) -> exists ts, Forall2 TypedProvider ps ts.
Proof.
  intros Ht. revert wd wd' rs ps. induction Ht as [|d ds Hd _ IH]; intros wd wd' rs ps; cbn [init_all].
  { intros [= _ _ <-]. exists []. constructor. }
  destruct (dot_Init pf hd d wd) as [[wd1 rs1] [p|e]] eqn:Ed; [|done].
  destruct (init_all pf hd ds wd1) as [[wd2 rs2] [ps'|e]] eqn:Ei; [|done]. intros [= _ _ <-].
  destruct (dot_Init_typed _ _ _ _ _ _ Hd Ed) as [t Hp]. destruct (IH _ _ _ _ Ei) as [ts Hts].
  exists (t :: ts). by constructor.
Qed.

Lemma providers_typed mid ts :
  Forall2 TypedProvider mid ts ->
  Forall2 TypedProvider (buffer_providers mid) ([TX; TReq] ++ ts ++ [TResp]) /\
  Forall2 TypedProvider (flusher_providers mid) ([TX; TReq] ++ ts ++ [TFlush]).
Proof.
  intros H. split; (apply Forall2_cons_2; [apply _|]); (apply Forall2_cons_2; [apply _|]);
    (apply Forall2_app; [done|]); (apply Forall2_cons_2; [apply _|constructor]).
Qed.

(** ** Initializers *)

Lemma run_initializers_pool (d : dot) ps ts pool choice tmpls wd n :
  made custom_type d ps ts -> pool_ok d pool ->
  handled_as d (fun a => a.1.1.2) (run_initializers env custom_type custom_call d pool choice tmpls wd n).
Proof using custom_keeps.
  intros Hm. revert pool wd n. induction tmpls as [|[name tmpl] tmpls IH]; intros pool wd n Hp; cbn [run_initializers]; [done|].
  destruct (HasPrefix name (gs "INIT ")); [|by apply IH].
  assert (handled_as d (fun a => a.1.2) (run_initializer env custom_type custom_call d pool choice name tmpl wd)) as Hi.
  { unfold run_initializer. eapply handled_value; [done|done|done|]. intros wd1 pool1 fields Hp1 Hf.
    destruct (exec _ _ _ _ _ _) as [s err] eqn:E. eapply exec_types in E; [|done|done].
    eapply handled_cleanup; [done..|]. by intros wd2 pool2 [e|] Hp2. }
  destruct (run_initializer _ _ _ _ _ _ _ _ _) as [[[wd1 pool1] [e|]]|msg]; [done|by apply IH|done].
Qed.

(** ** Routes *)

Lemma better_found {A} (Q : pattern * A -> Prop) `{forall x, Decision (Q x)} (m : mux A) b :
  foldl better None (filter Q m) = Some b -> b ∈ m.
Proof. intros [?|Hb]%better_in; [done|]. by apply list_elem_of_filter in Hb as [_ Hb]. Qed.

Lemma mux_match_in {A} (m : mux A) host method path b : mux_match m host method path = Some b -> b ∈ m.
Proof.
  unfold mux_match, mux_Handler. destruct (bool_decide (host = [])); [apply better_found|].
  destruct (foldl better None _) as [q|] eqn:E; [|apply better_found]. intros [= <-]. by eapply better_found.
Qed.

Lemma findHandler_in {A} (m : mux A) host method escaped urlpath p h :
  findHandler m host method escaped urlpath = Found p h -> (p, h) ∈ m.
Proof.
  unfold findHandler, matchOrRedirect. set (path := if bool_decide _ then escaped else _).
  destruct (mux_match m host method path) as [[p' h']|] eqn:E.
  - destruct (_ && exactMatch _ (path ++ _)); [done|]. destruct (_ && _); [done|]. intros [= <- <-].
    by eapply mux_match_in.
  - destruct (_ && exactMatch _ (path ++ _)); [done|]. destruct (_ && _); [done|].
    by destruct (matchingMethods m host path).
Qed.

(** ** Requests *)

Lemma staticFileHandler_safe open f w r :
  (forall p file, open p = Ok file -> sf_seeker file = true) -> encodings f <> [] ->
  safe (staticFileHandler env open f w r).
Proof.
  intros Hs Hne. unfold staticFileHandler. destruct (negb _); [apply http_Error_safe|].
  destruct (_ && _); [apply http_Error_safe|].
  destruct (negotiate_index (Header_values (r_header r) (gs "Accept-Encoding")) (encodings f) Hne)
    as (i & e & err & -> & He). cbn [mbind outcome_bind option_bind]. rewrite He.
  destruct (open (path e)) as [file|err'] eqn:Eo; [|apply http_Error_safe]. rewrite (Hs _ _ Eo).
  match goal with |- safe (serveContent ?env ?w ?r ?n ?m ?c) =>
    destruct (serveContent_commits env w r n m c) as (w' & -> & _) end. done.
Qed.

(** The file of a static route is there, with an encoding. *)
Lemma static_route_file config cfgs choice wd wd' ld c b mid pat addr :
  loaded_from env custom_type unicode_IsLetter unicode_IsDigit custom_call slog_Default context_Background pf
    config cfgs choice wd wd' ld c b mid ->
  (pat, StaticHandler addr) ∈ in_router (ld_instance ld) ->
  exists f, in_heap (ld_instance ld) !! addr = Some f /\ encodings f <> [].
Proof.
  intros Hl Hin. pose proof (loaded_build_inv _ _ _ _ _ _ _ _ _ _ _ _ _ _ _ _ _ Hl) as Hi.
  rewrite (lf_router _ _ _ _ _ _ _ _ _ _ _ _ _ _ _ _ _ Hl) in Hin.
  rewrite (lf_heap _ _ _ _ _ _ _ _ _ _ _ _ _ _ _ _ _ Hl).
  destruct (inv_handlers _ _ _ _ _ _ _ b Hi pat addr Hin) as (f & Hf & Hfile). exists f. split; [done|].
  destruct (inv_files _ _ _ _ _ _ _ b Hi _ _ Hfile) as (f' & pat' & Hf' & _ & Hok & _).
  rewrite Hf in Hf'. injection Hf' as <-. pose proof (ok_identity _ _ _ _ _ f Hok) as Hid.
  intros En. by rewrite En in Hid.
Qed.

(** C8: every request is answered: a loaded instance serves any request, whether its
    context is done or not, wherever it is routed and whatever its template calls, and
    leaves only zeroed structs in its pools; the one panic is that of a template that
    set a status code outside 100 to 999. *)
Theorem requests_answered open config cfgs next choice0 wd0 id wd1 rs ld :
  Instance_of config cfgs next choice0 wd0 = Ret (id, wd1, rs, Ok ld) ->
  let x := ld_instance ld in
  Forall typed_custom (dot_configs (in_config x)) ->
  (forall p file, open p = Ok file -> sf_seeker file = true) ->
  (forall w r u code, safe (http_Redirect w r u code)) ->
  pools_ok x {| pool_buffer := ld_pool ld; pool_flusher := [] |} /\
  forall done ps choice host rawpath wd r, pools_ok x ps ->
    match ServeHTTP env custom_type custom_call http_Redirect open x done ps choice host rawpath wd r with
    | Ret (_, ps') => pools_ok x ps'
    | Panic msg => msg = bad_code
    end.
Proof using custom_keeps.
  intros Hl x Htyped Hopen Hredirect.
  apply Config_Instance_loaded in Hl as (_ & _ & c & b & mid & Hl).
  pose proof (lf_config _ _ _ _ _ _ _ _ _ _ _ _ _ _ _ _ _ Hl) as Ec. fold x in Ec. rewrite Ec in Htyped.
  destruct (lf_fields _ _ _ _ _ _ _ _ _ _ _ _ _ _ _ _ _ Hl) as (wi & rs0 & wb & wf & Hi & Hb & Hf & Hr).
  destruct (init_all_typed _ _ _ _ _ _ Htyped Hi) as [ts Hts]. destruct (providers_typed mid ts Hts) as [Tb Tf].
  pose proof (makeDot_made _ _ _ _ _ _ _ _ _ Tb Hb) as Mb. pose proof (makeDot_made _ _ _ _ _ _ _ _ _ Tf Hf) as Mf.
  fold x in Mb, Mf, Hr.
  split.
  { pose proof (run_initializers_pool _ _ _ [] choice0 (pf_Templates pf (b_templates b)) wf 0 Mb) as Hp.
    rewrite Hr in Hp. split; [apply Hp|]; constructor. }
  intros done ps choice host rawpath wd r [Pb Pf].
  assert (forall m, safe m -> match on_writer wd ps m with Ret (_, ps') => pools_ok x ps' | Panic msg => msg = bad_code end) as Hw.
  { by intros [w|msg]. }
  unfold ServeHTTP. destruct done; [apply Hw, http_Error_safe|].
  destruct (findHandler _ _ _ _ _) as [pat h|u|ms|] eqn:Eh;
    [|apply Hw, Hredirect|apply Hw, http_Error_safe|apply Hw, http_Error_safe].
  apply findHandler_in in Eh. destruct h as [addr|name tmpl|name tmpl]; cbn [run_handler].
  - destruct (static_route_file _ _ _ _ _ _ _ _ _ pat addr Hl Eh) as (f & Ef & Hne). fold x in Ef. rewrite Ef.
    by apply Hw, staticFileHandler_safe.
  - pose proof (buffering_handled env custom_type custom_call custom_keeps _ _ _ Mb (pool_buffer ps) choice tmpl wd r Pb) as H.
    destruct (bufferingTemplateHandler _ _ _ _ _ _ _ _ _) as [[wd2 pool2]|msg]; [|done]. by split.
  - pose proof (flushing_handled env custom_type custom_call custom_keeps _ _ _ Mf (pool_flusher ps) choice tmpl wd r Pf) as H.
    destruct (flushingTemplateHandler _ _ _ _ _ _ _ _ _) as [[wd2 pool2]|msg]; [|done]. by split.
Qed.
End serving.
