(* ===== verification/Example.v ===== *)
(** * An example instance

    A directory with a static file, its compressed copy and a template that writes
    to a database, loaded and served: it meets the hypotheses of the theorems on
    loaded instances. *)

From S2P Require Import Prelude GoStrings GoErrors GoPath Http ServeContent Config Negotiate.
From S2P Require Import DotDB DotFlush DotResp DotFS Dot Init Template StaticFile Mux Build Handlers Instance.
From S2P Require Import Types Transactions Requests Serving.

Abbreviation ex_tprog :=
  (tprog (V := unit) (P := unit) (R := unit) (Info := unit) (Entry := unit) (CVal := Empty_set) (CCall := Empty_set)).

Definition ex_platform :
    platform (V := unit) (P := unit) (R := unit) (Info := unit) (Entry := unit) (CVal := Empty_set)
      (CCall := Empty_set) (FSys := unit) (Ctx := unit) (Func := unit) (DB := nat) (TxOptions := unit)
      (NatsServerOptions := unit) (NatsOptions := unit) (JetStreamOpt := unit) (NatsConn := unit)
      (NatsServer := unit) (JetStream := unit) := {|
  pf_Open := fun _ => example_dir;
  pf_WalkDir := fun _ => example_visits;
  pf_DirFS := fun _ => tt;
  pf_Stat := fun _ _ => Ok tt;
  pf_dir := fun _ => small_fs;
  pf_gzip := toy_reader;
  pf_zstd := toy_reader;
  pf_brotli := fun r => r;
  pf_sha384 := fun c => c;
  pf_detect := fun _ => gs "text/plain";
  pf_minify := fun _ _ c => Ok c;
  pf_parse := fun _ _ _ p _ => Ok [(p, insert_template); (gs "INIT db", insert_template);
                                 (gs "DELETE /contact/{id}", insert_template)];
  pf_xtemplateFuncs := ∅;
  pf_sprig := ∅;
  pf_sql_Open := fun _ _ => Ok 0;
  pf_SetMaxOpenConns := fun db _ => db;
  pf_Ping := fun _ => None;
  pf_key := fun db => db;
  pf_driver := fun _ _ => ok_driver;
  pf_jetstream_New := fun _ _ => Ok tt;
  pf_GetDefaultOptions := tt;
  pf_NewServer := fun _ => Ok tt;
  pf_InProcessServer := fun _ o => o;
  pf_Connect := fun _ => Ok tt;
  pf_has_done := fun _ => true;
  pf_range := map_to_list;
  pf_Templates := map_to_list
|}.

Abbreviation ex_Instance :=
  (Config_Instance StaticFile.no_env no_type ascii_only ascii_only no_call tt tt ex_platform).

Definition ex_load := ex_Instance zero_config [WithDB (gs "DB") (Some 0) None] 0 0 start_world.

Definition ex_result :=
  match ex_load with
  | Ret (id, wd, rs, Ok ld) => (id, wd, rs, ld)
  | _ => (0, start_world, [],
      {| ld_instance := {| in_config := zero_config; in_id := 0; in_router := []; in_heap := []; in_files := ∅;
           in_templates := ∅; in_funcs := ∅; in_bufferDot := example_dot; in_flusherDot := example_dot |};
         ld_stats := zero_stats; ld_routes := []; ld_pool := [] |})
  end.

Definition ex_loaded := ex_result.2.

Lemma ex_load_ok : ex_load = Ret (ex_result.1.1.1, ex_result.1.1.2, ex_result.1.2, Ok ex_loaded).
Proof.
  assert (match ex_load with Ret (_, _, _, Ok _) => true | _ => false end = true) as H by (vm_compute; reflexivity).
  unfold ex_loaded, ex_result. destruct ex_load as [[[[id wd] rs] [ld|e]]|msg]; done.
Qed.

(** The files as the server opens them. *)
Definition ex_open (p : gostring) : result static_file :=
  match example_dir p with
  | Ok f => Ok {| sf_content := (file_reader f).1; sf_seeker := true |}
  | Err e => Err e
  end.

Lemma ex_unchanged fsys : unchanged ex_platform fsys ex_open.
Proof. intros p f Hf. unfold ex_open. cbn in Hf. by rewrite Hf. Qed.

Definition get (p : gostring) (h : header) : request :=
  {| r_method := gs "GET"; r_path := p; r_query := []; r_header := h |}.

Definition no_redirect (w : writer) (r : request) (u : gostring) (code : Z) : outcome writer := Ret w.

Abbreviation ex_ServeHTTP := (ServeHTTP StaticFile.no_env no_type no_call no_redirect).

Definition ex_pools := {| pool_buffer := ld_pool ex_loaded; pool_flusher := [] |}.

Lemma static_file_integrity_witness :
  exists wd' e sf content h,
    ex_ServeHTTP ex_open (ld_instance ex_loaded) false ex_pools 0 [] [] start_world (get (gs "/LICENSE") ∅)
      = Ret (wd', ex_pools) /\
    w_sent (world_w wd') = Some (200%Z, h) /\
    example_dir (path e) = Ok sf /\ w_body (world_w wd') = (file_reader sf).1 /\
    decoded example_dir toy_reader toy_reader (fun r => r) e content /\
    h !! gs "Content-Encoding" = Some [encoding e] /\
    h !! gs "Etag" = Some [QUOTE :: sri (fun c => c) content ++ [QUOTE]] /\
    DotX_StaticFileHash (ld_instance ex_loaded) (gs "/LICENSE") = Ok (sri (fun c => c) content).
Proof.
  apply (static_file_integrity StaticFile.no_env no_type ascii_only ascii_only no_call tt tt ex_platform no_redirect
           ex_open zero_config [WithDB (gs "DB") (Some 0) None] 0 0 start_world _ _ _ ex_loaded (gs "/LICENSE") 0
           ex_pools 0 [] [] start_world (get (gs "/LICENSE") ∅) ex_load_ok).
  - vm_compute. reflexivity.
  - discriminate.
  - by apply (bool_decide_unpack _).
  - by apply (bool_decide_unpack _).
  - apply Forall_forall. reflexivity.
  - apply ex_unchanged.
  - reflexivity.
  - reflexivity.
  - reflexivity.
  - repeat constructor.
  - left. reflexivity.
  - reflexivity.
Defined.

Definition ex_tag : header := {[ gs "If-None-Match" := [QUOTE :: sri (fun c => c) (gs "MIT") ++ [QUOTE]] ]}.

Lemma static_file_revalidation_witness :
  exists wd', ex_ServeHTTP ex_open (ld_instance ex_loaded) false ex_pools 0 [] [] start_world
      (get (gs "/LICENSE") ex_tag) = Ret (wd', ex_pools) /\
    status (world_w wd') = Some 304%Z /\ w_body (world_w wd') = [].
Proof.
  apply (static_file_revalidation StaticFile.no_env no_type ascii_only ascii_only no_call tt tt ex_platform no_redirect
           ex_open zero_config [WithDB (gs "DB") (Some 0) None] 0 0 start_world _ _ _ ex_loaded (gs "/LICENSE") 0
           ex_pools 0 [] [] start_world (get (gs "/LICENSE") ex_tag) (sri (fun c => c) (gs "MIT")) ex_load_ok).
  - vm_compute. reflexivity.
  - discriminate.
  - by apply (bool_decide_unpack _).
  - by apply (bool_decide_unpack _).
  - apply Forall_forall. reflexivity.
  - apply ex_unchanged.
  - reflexivity.
  - reflexivity.
  - reflexivity.
  - left. reflexivity.
  - vm_compute. reflexivity.
  - vm_compute. reflexivity.
  - repeat constructor.
  - reflexivity.
Defined.

(** A request for the template, after the initializer ran. *)
Definition ex_incoming : incoming :=
  {| iq_done := false; iq_choice := 0; iq_host := []; iq_rawpath := []; iq_flusher := true;
     iq_request := get (gs "/admin/settings") ∅ |}.

Definition ex_served :=
  serve_all StaticFile.no_env no_type no_call no_redirect ex_open (ld_instance ex_loaded) ex_pools ex_result.1.1.2
    [ex_incoming; ex_incoming].

Definition ex_after := match ex_served with Ret x => x | Panic _ => (start_world, ex_pools) end.

Lemma ex_served_ok : ex_served = Ret (ex_after.1, ex_after.2).
Proof.
  assert (match ex_served with Ret _ => true | Panic _ => false end = true) as H by (vm_compute; reflexivity).
  unfold ex_after. destruct ex_served as [[wd ps]|msg]; [done|discriminate].
Qed.

Lemma instance_closes_transactions_witness : closed ex_result.1.1.2 0 /\ closed ex_after.1 0.
Proof.
  destruct (instance_closes_transactions StaticFile.no_env no_type ascii_only ascii_only no_call
              (fun v => match v with end) tt tt ex_platform no_redirect ex_open zero_config
              [WithDB (gs "DB") (Some 0) None] 0 0 start_world _ _ _ ex_loaded [ex_incoming; ex_incoming]
              ex_after.1 ex_after.2 ex_load_ok) as [H1 H2].
  - assert (dot_configs (in_config (ld_instance ex_loaded)) =
      [DCDB {| db_DB := Some 0; db_TxOptions := None; db_Name := gs "DB"; db_Driver := []; db_Connstr := [];
               db_MaxOpenConns := 0 |}]) as ->; [vm_compute; reflexivity|].
    apply Forall_cons_2; [exact I|apply Forall_nil_2].
  - apply (bool_decide_unpack _). vm_compute. reflexivity.
  - intros k. reflexivity.
  - exact ex_served_ok.
  - by split.
Defined.

(** A flags field named [Req]. *)
Abbreviation ex_Config :=
  (Config (FS := unit) (Logger := unit) (Ctx := unit) (FuncMap := gmap gostring unit) (DB := nat) (TxOptions := unit)
     (Provider := custom_provider (V := unit) (P := unit) (R := unit) (Info := unit) (Entry := unit)
                    (CVal := Empty_set) (Ext := unit))
     (NatsServerOptions := unit) (NatsOptions := unit) (JetStreamOpt := unit) (NatsConn := unit)
     (NatsServer := unit) (JetStream := unit)).

Definition ex_defaults : ex_Config := Defaults tt tt zero_config.
Definition ex_flags : ex_Config := (WithFlags (gs "Req") (Some ∅) ex_defaults).1.

Definition ex_flags_load := load ascii_only ascii_only ex_platform ex_defaults ex_flags.
Definition ex_flags_builder := match ex_flags_load with Ret (b, _) => b | Panic _ => new_builder end.

Lemma ex_flags_load_ok : ex_flags_load = Ret (ex_flags_builder, None).
Proof.
  assert (match ex_flags_load with Ret (_, None) => true | _ => false end = true) as H by (vm_compute; reflexivity).
  unfold ex_flags_builder. destruct ex_flags_load as [[b [e|]]|msg]; done.
Qed.

Lemma field_name_panics_witness :
  exists msg, ex_Instance zero_config [WithFlags (gs "Req") (Some ∅)] 0 0 start_world = Panic msg.
Proof.
  apply (field_name_panics StaticFile.no_env no_type ascii_only ascii_only no_call tt tt ex_platform
           zero_config [WithFlags (gs "Req") (Some ∅)] 0 0 start_world ex_flags ex_flags_builder start_world []
           [flagsProvider (gs "Req") ∅]).
  - reflexivity.
  - exact ex_flags_load_ok.
  - vm_compute. reflexivity.
  - reflexivity.
  - intros [Hn _]. apply (bool_decide_pack _) in Hn. vm_compute in Hn. exact Hn.
Defined.

(** The template for [DELETE /contact/{id}] in [admin/settings.html]. *)
Definition delete : request :=
  {| r_method := gs "DELETE"; r_path := gs "/contact/7"; r_query := []; r_header := ∅ |}.

Definition contact : pattern :=
  {| pat_method := gs "DELETE"; pat_host := []; pat_segs := [Lit (gs "contact"); Wild (gs "id")] |}.

Lemma ex_chosen (m : mux (handler (Tree := ex_tprog))) :
  forallb (fun q => negb (matches q.1 (gs "DELETE") (path_segments (gs "/contact/7"))) ||
                    negb (bool_decide (comparePathsAndMethods q.1 contact = moreSpecific))) m = true ->
  chosen m contact (gs "DELETE") (gs "/contact/7").
Proof.
  intros H. split; [reflexivity|]. split; [|discriminate]. intros q Hq Hm.
  rewrite forallb_forall in H. apply list_elem_of_In in Hq. specialize (H q Hq). rewrite Hm in H. cbn in H.
  by apply negb_true_iff, bool_decide_eq_false_1 in H.
Qed.

Lemma template_served_witness :
  ex_ServeHTTP ex_open (ld_instance ex_loaded) false ex_pools 0 [] [] start_world delete =
  ('(wd, pool) ← bufferingTemplateHandler StaticFile.no_env no_type no_call (in_bufferDot (ld_instance ex_loaded))
                  (ld_pool ex_loaded) 0 insert_template start_world delete;
   Ret (wd, {| pool_buffer := pool; pool_flusher := [] |})).
Proof.
  destruct (template_served StaticFile.no_env no_type ascii_only ascii_only no_call tt tt ex_platform no_redirect
              ex_open zero_config [WithDB (gs "DB") (Some 0) None] 0 0 start_world _ _ _ ex_loaded [gs "admin"] (gs "settings")
              ex_load_ok) as (ts & Hts & Hserve).
  - by apply (bool_decide_unpack _).
  - intros e ->%list_elem_of_singleton. by apply (bool_decide_unpack _).
  - by apply (bool_decide_unpack _).
  - apply (bool_decide_unpack _). vm_compute. exact I.
  - reflexivity.
  - apply list_elem_of_lookup. exists 3. vm_compute. reflexivity.
  - apply (Hserve (gs "DELETE /contact/{id}") insert_template (gs "DELETE") (gs "/contact/{id}") false ex_pools 0 [] [] start_world).
    + destruct Hts as (? & ? & _ & _ & [= <-]). do 2 apply list_elem_of_further. apply list_elem_of_here.
    + right. left. split_and!; [|reflexivity|reflexivity]. by apply (bool_decide_unpack _).
    + intros _. by apply (bool_decide_unpack _).
    + apply Forall_forall. reflexivity.
    + right. split; [reflexivity|]. exists contact. split; [vm_compute; reflexivity|]. apply ex_chosen. vm_compute. reflexivity.
Defined.

Lemma requests_answered_witness :
  match ex_ServeHTTP ex_open (ld_instance ex_loaded) false ex_pools 0 [] [] start_world (get (gs "/LICENSE") ∅) with
  | Ret (_, ps') => pools_ok (ld_instance ex_loaded) ps'
  | Panic msg => msg = bad_code
  end.
Proof.
  destruct (requests_answered StaticFile.no_env no_type ascii_only ascii_only no_call (fun v _ _ => match v with end)
              tt tt ex_platform no_redirect ex_open zero_config [WithDB (gs "DB") (Some 0) None] 0 0 start_world
              _ _ _ ex_loaded ex_load_ok) as [Hp Hserve].
  - assert (dot_configs (in_config (ld_instance ex_loaded)) =
      [DCDB {| db_DB := Some 0; db_TxOptions := None; db_Name := gs "DB"; db_Driver := []; db_Connstr := [];
               db_MaxOpenConns := 0 |}]) as ->; [vm_compute; reflexivity|].
    apply Forall_cons_2; [exact I|apply Forall_nil_2].
  - intros p file. unfold ex_open. destruct (example_dir p); [|done]. by intros [= <-].
  - intros w r u code. exact I.
  - apply (Hserve false ex_pools 0 [] [] start_world (get (gs "/LICENSE") ∅) Hp).
Defined.
