(* ===== verification/Json.v ===== *)
(** * Reading JSON (encoding/json)

    The command line application reads its configuration with
    [json.NewDecoder(...).Decode].  A document is parsed into a tree the way the
    scanner and decoder of [encoding/json] read it: text after the first value is
    ignored, strings are unquoted into UTF-8, numbers are kept as literals.  The
    parser runs on fuel; [parse_total] shows that its length gives enough. *)

From S2P Require Import Prelude GoStrings.

Inductive json :=
| JNull
| JBool (b : bool)
| JNum (lit : gostring)
| JStr (s : gostring)
| JArr (l : list json)
| JObj (l : list (gostring * json)).

Inductive parsed (A : Type) :=
| Parsed (a : A) (rest : gostring)
| BadSyntax
| OutOfFuel.
Arguments Parsed {A} a rest.
Arguments BadSyntax {A}.
Arguments OutOfFuel {A}.

Definition and_then {A B} (m : parsed A) (k : A -> gostring -> parsed B) : parsed B :=
  match m with Parsed a rest => k a rest | BadSyntax => BadSyntax | OutOfFuel => OutOfFuel end.

(** [isSpace] *)
Definition is_space (c : ascii) : bool := bool_decide (c ∈ [" "%char; "009"%char; CR; NL]).

Fixpoint skip_space (s : gostring) : gostring :=
  match s with
  | c :: s' => if is_space c then skip_space s' else s
  | [] => []
  end.

(** The rest of [s] after its first byte [c]. *)
Definition strip (c : ascii) (s : gostring) : option gostring :=
  match s with
  | c' :: s' => if bool_decide (c' = c) then Some s' else None
  | [] => None
  end.

(** ** Strings *)

Definition hex_value (c : ascii) : option N :=
  if in_range 48 57 c then Some (byte_N c - 48)%N
  else if in_range 97 102 c then Some (byte_N c - 87)%N
  else if in_range 65 70 c then Some (byte_N c - 55)%N
  else None.

(** [getu4] on the four digits. *)
Definition hex4 (a b c d : ascii) : option N :=
  a ← hex_value a; b ← hex_value b; c ← hex_value c; d ← hex_value d;
  Some (((a * 16 + b) * 16 + c) * 16 + d)%N.

Definition is_surrogate (r : N) : bool := ((55296 <=? r) && (r <? 57344))%N.

(** [utf16.DecodeRune] of a valid pair. *)
Definition surrogate_pair (r1 r2 : N) : option N :=
  if ((55296 <=? r1) && (r1 <? 56320) && (56320 <=? r2) && (r2 <? 57344))%N
  then Some (N.lor (N.shiftl (r1 - 55296) 10) (r2 - 56320) + 65536)%N
  else None.

Definition simple_escape (c : ascii) : option N :=
  match c with
  | "034"%char => Some 34%N
  | "\"%char => Some 92%N
  | "/"%char => Some 47%N
  | "b"%char => Some 8%N
  | "f"%char => Some 12%N
  | "n"%char => Some 10%N
  | "r"%char => Some 13%N
  | "t"%char => Some 9%N
  | _ => None
  end.

Definition cons_rune (r : N) (m : option (list N * gostring)) : option (list N * gostring) :=
  match m with Some (rs, rest) => Some (r :: rs, rest) | None => None end.

(** The runes of a string after its opening quote, and what follows the closing
    one; [skip] bytes of a rune are passed over. *)
Fixpoint string_body (skip : nat) (s : gostring) : option (list N * gostring) :=
  match s with
  | [] => None
  | c :: s' =>
      match skip with
      | S k => string_body k s'
      | O =>
          if bool_decide (c = "034"%char) then Some ([], s')
          else if bool_decide (c = "\"%char) then
            match s' with
            | [] => None
            | e :: t =>
                match simple_escape e with
                | Some r => cons_rune r (string_body 0 t)
                | None =>
                    if bool_decide (e = "u"%char) then
                      match t with
                      | a :: b :: c :: d :: t' =>
                          match hex4 a b c d with
                          | None => None
                          | Some r =>
                              if negb (is_surrogate r) then cons_rune r (string_body 0 t')
                              else
                                match t' with
                                | "\"%char :: "u"%char :: a' :: b' :: c' :: d' :: t'' =>
                                    match hex4 a' b' c' d' ≫= surrogate_pair r with
                                    | Some r => cons_rune r (string_body 0 t'')
                                    | None => cons_rune RuneError (string_body 0 t')
                                    end
                                | _ => cons_rune RuneError (string_body 0 t')
                                end
                          end
                      | _ => None
                      end
                    else None
                end
            end
          else if (byte_N c <? 32)%N then None
          else let '(r, w) := DecodeRune s in cons_rune r (string_body (w - 1) s')
      end
  end.

(** [utf8.AppendRune] *)
Definition EncodeRune (r : N) : gostring :=
  let r := if is_surrogate r || (1114111 <? r)%N then RuneError else r in
  let tail k := ascii_of_N (128 + N.land (N.shiftr r k) 63) in
  if (r <? 128)%N then [ascii_of_N r]
  else if (r <? 2048)%N then [ascii_of_N (192 + N.shiftr r 6); tail 0%N]
  else if (r <? 65536)%N then [ascii_of_N (224 + N.shiftr r 12); tail 6%N; tail 0%N]
  else [ascii_of_N (240 + N.shiftr r 18); tail 12%N; tail 6%N; tail 0%N].

Definition parse_string (s : gostring) : parsed gostring :=
  match string_body 0 s with
  | Some (rs, rest) => Parsed (mjoin (EncodeRune <$> rs)) rest
  | None => BadSyntax
  end.

(** ** Numbers *)

Definition is_digit (c : ascii) : bool := in_range 48 57 c.

Fixpoint digits (s : gostring) : gostring * gostring :=
  match s with
  | c :: s' => if is_digit c then let '(ds, rest) := digits s' in (c :: ds, rest) else ([], s)
  | [] => ([], [])
  end.

Definition digits1 (s : gostring) : option (gostring * gostring) :=
  match digits s with ([], _) => None | r => Some r end.

Definition int_part (s : gostring) : option (gostring * gostring) :=
  match strip "0"%char s with
  | Some s' => Some (gs "0", s')
  | None => digits1 s
  end.

Definition frac_part (s : gostring) : option (gostring * gostring) :=
  match strip "."%char s with
  | Some s' => '(ds, rest) ← digits1 s'; Some ("."%char :: ds, rest)
  | None => Some ([], s)
  end.

Definition exp_part (s : gostring) : option (gostring * gostring) :=
  match s with
  | e :: s' =>
      if bool_decide (e = "e"%char) || bool_decide (e = "E"%char) then
        match s' with
        | c :: s'' =>
            if bool_decide (c = "+"%char) || bool_decide (c = "-"%char)
            then '(ds, rest) ← digits1 s''; Some (e :: c :: ds, rest)
            else '(ds, rest) ← digits1 s'; Some (e :: ds, rest)
        | [] => None
        end
      else Some ([], s)
  | [] => Some ([], [])
  end.

Definition scan_number (s : gostring) : option (gostring * gostring) :=
  let '(sign, s) := match strip "-"%char s with Some s' => (gs "-", s') | None => ([], s) end in
  '(i, s) ← int_part s;
  '(f, s) ← frac_part s;
  '(e, s) ← exp_part s;
  Some (sign ++ i ++ f ++ e, s).

Definition parse_number (s : gostring) : parsed json :=
  match scan_number s with Some (lit, rest) => Parsed (JNum lit) rest | None => BadSyntax end.

(** ** Values *)

Definition parse_literal (lit : gostring) (v : json) (s : gostring) : parsed json :=
  if HasPrefix s lit then Parsed v (drop (length lit) s) else BadSyntax.

(** [maxNestingDepth] *)
Definition max_depth : nat := 100 * 100.

(** A value, the elements of an array up to its end, the members of an object. *)
Fixpoint parse_value (fuel depth : nat) (s : gostring) : parsed json :=
  match fuel with
  | O => OutOfFuel
  | S fuel =>
      match s with
      | [] => BadSyntax
      | c :: s' =>
          if bool_decide (c = "034"%char) then and_then (parse_string s') (fun v rest => Parsed (JStr v) rest)
          else if bool_decide (c = "["%char) then
            if depth =? 0 then BadSyntax else
            match strip "]"%char (skip_space s') with
            | Some rest => Parsed (JArr []) rest
            | None => and_then (parse_array fuel (pred depth) (skip_space s')) (fun l rest => Parsed (JArr l) rest)
            end
          else if bool_decide (c = "{"%char) then
            if depth =? 0 then BadSyntax else
            match strip "}"%char (skip_space s') with
            | Some rest => Parsed (JObj []) rest
            | None => and_then (parse_object fuel (pred depth) (skip_space s')) (fun l rest => Parsed (JObj l) rest)
            end
          else if bool_decide (c = "t"%char) then parse_literal (gs "true") (JBool true) s
          else if bool_decide (c = "f"%char) then parse_literal (gs "false") (JBool false) s
          else if bool_decide (c = "n"%char) then parse_literal (gs "null") JNull s
          else parse_number s
      end
  end
with parse_array (fuel depth : nat) (s : gostring) : parsed (list json) :=
  match fuel with
  | O => OutOfFuel
  | S fuel =>
      and_then (parse_value fuel depth s) (fun v rest =>
        match strip "]"%char (skip_space rest), strip ","%char (skip_space rest) with
        | Some rest, _ => Parsed [v] rest
        | None, Some rest =>
            and_then (parse_array fuel depth (skip_space rest)) (fun l rest => Parsed (v :: l) rest)
        | None, None => BadSyntax
        end)
  end
with parse_object (fuel depth : nat) (s : gostring) : parsed (list (gostring * json)) :=
  match fuel with
  | O => OutOfFuel
  | S fuel =>
      match strip "034"%char s with
      | None => BadSyntax
      | Some s =>
          and_then (parse_string s) (fun key rest =>
            match strip ":"%char (skip_space rest) with
            | None => BadSyntax
            | Some rest =>
                and_then (parse_value fuel depth (skip_space rest)) (fun v rest =>
                  match strip "}"%char (skip_space rest), strip ","%char (skip_space rest) with
                  | Some rest, _ => Parsed [(key, v)] rest
                  | None, Some rest =>
                      and_then (parse_object fuel depth (skip_space rest)) (fun l rest => Parsed ((key, v) :: l) rest)
                  | None, None => BadSyntax
                  end)
            end)
      end
  end.

(** The first value of a document. *)
Definition parse (s : gostring) : parsed json :=
  let s := skip_space s in parse_value (2 * length s + 1) max_depth s.

(** ** The fuel is enough *)

Lemma skip_space_length s : length (skip_space s) <= length s.
Proof. induction s as [|c s IH]; [done|]. cbn. destruct (is_space c); cbn; lia. Qed.

Lemma cons_rune_Some r m rs rest : cons_rune r m = Some (rs, rest) -> exists rs', m = Some (rs', rest).
Proof. destruct m as [[rs' rest']|]; [|done]. intros [= <- <-]. eauto. Qed.

Lemma string_body_length n : forall s skip rs rest,
  length s <= n -> string_body skip s = Some (rs, rest) -> length rest < length s.
Proof.
  induction n as [|n IH]; intros [|c s'] skip rs rest Hn H; cbn in Hn; try done; [lia|].
  assert (forall skip s rs rest, length s <= n -> string_body skip s = Some (rs, rest) ->
    length rest < length s) as IH' by (intros; by eapply IH).
  cbn [string_body] in H. destruct skip as [|k]; [|apply IH' in H; cbn; lia].
  destruct (bool_decide _); [injection H as _ <-; cbn; lia|].
  destruct (bool_decide _).
  - destruct s' as [|e t]; [done|]. cbn in Hn.
    destruct (simple_escape e) as [r|]; [apply cons_rune_Some in H as [rs' H]; apply IH' in H; cbn; lia|].
    destruct (bool_decide _); [|done]. destruct t as [|a [|b [|c' [|d t']]]]; try done. cbn in Hn.
    destruct (hex4 a b c' d) as [r|]; [|done].
    assert (forall r rs rest, cons_rune r (string_body 0 t') = Some (rs, rest) ->
      length rest < S (S (S (S (S (S (length t'))))))) as Hshort.
    { intros r0 rs0 rest0 H0. apply cons_rune_Some in H0 as [rs' H0]. apply IH' in H0; lia. }
    destruct (negb (is_surrogate r)); [by eapply Hshort|].
    repeat case_match; subst; try (by eapply Hshort).
    apply cons_rune_Some in H as [rs' H]. cbn in Hn. apply IH' in H; cbn in *; lia.
  - destruct (_ <? _)%N; [done|]. destruct (DecodeRune _) as [r w].
    apply cons_rune_Some in H as [rs' H]. apply IH' in H; cbn; lia.
Qed.

Lemma parse_string_length s v rest : parse_string s = Parsed v rest -> length rest < length s.
Proof.
  unfold parse_string. destruct (string_body 0 s) as [[rs r]|] eqn:E; [|done]. intros [= _ <-].
  by eapply string_body_length.
Qed.

Lemma digits_length s ds rest : digits s = (ds, rest) -> length s = length ds + length rest.
Proof.
  revert ds rest. induction s as [|c s IH]; intros ds rest; cbn; [by intros [= <- <-]|].
  destruct (is_digit c); [|by intros [= <- <-]]. destruct (digits s) as [ds' rest'].
  intros [= <- <-]. cbn. by rewrite (IH _ _ eq_refl).
Qed.

Lemma digits1_length s ds rest : digits1 s = Some (ds, rest) -> length rest < length s.
Proof.
  unfold digits1. destruct (digits s) as [[|d ds'] rest'] eqn:E; [done|]. intros [= _ <-].
  apply digits_length in E. cbn in E. lia.
Qed.

Lemma strip_length c s rest : strip c s = Some rest -> length s = S (length rest).
Proof. destruct s as [|c' s]; cbn; [done|]. case_bool_decide; [|done]. by intros [= <-]. Qed.

Lemma exp_part_length s e rest : exp_part s = Some (e, rest) -> length rest <= length s.
Proof.
  unfold exp_part. intros H. repeat case_match; simplify_eq; try done;
    cbn in H; (destruct (digits1 _) as [[ds r]|] eqn:Ed; [|done]); injection H as _ <-;
    apply digits1_length in Ed; cbn in *; lia.
Qed.

Lemma scan_number_length s lit rest : scan_number s = Some (lit, rest) -> length rest < length s.
Proof.
  unfold scan_number.
  assert (exists sign s1, match strip "-"%char s with Some s' => (gs "-", s') | None => ([], s) end = (sign, s1) /\
            length s1 <= length s) as (sign & s1 & -> & H1).
  { destruct (strip "-"%char s) as [s1|] eqn:E; [|by eexists _, _]. apply strip_length in E.
    eexists _, s1. split; [done|lia]. }
  destruct (int_part s1) as [[i s2]|] eqn:E2; cbn; [|done].
  assert (length s2 < length s1) as H2.
  { unfold int_part in E2. destruct (strip "0"%char s1) as [t|] eqn:E; [|by apply digits1_length in E2].
    injection E2 as _ <-. apply strip_length in E. lia. }
  destruct (frac_part s2) as [[f s3]|] eqn:E3; cbn; [|done].
  assert (length s3 <= length s2) as H3.
  { unfold frac_part in E3. destruct (strip "."%char s2) as [t|] eqn:E; [|by injection E3 as _ <-].
    apply strip_length in E. cbn in E3. destruct (digits1 t) as [[ds r]|] eqn:Ed; [|done]. injection E3 as _ <-.
    apply digits1_length in Ed. lia. }
  destruct (exp_part s3) as [[e s4]|] eqn:E4; cbn; [|done].
  apply exp_part_length in E4. intros [= _ <-]. lia.
Qed.

(** What a parser consumes, and the fuel it needs. *)
Definition consumes {A} (s : gostring) (m : parsed A) : Prop :=
  match m with Parsed _ rest => length rest < length s | BadSyntax => True | OutOfFuel => False end.

Definition enough (fuel : nat) : Prop :=
  (forall depth s, 2 * length s < fuel -> consumes s (parse_value fuel depth s)) /\
  (forall depth s, 2 * length s + 1 < fuel -> consumes s (parse_array fuel depth s)) /\
  (forall depth s, 2 * length s + 1 < fuel -> consumes s (parse_object fuel depth s)).

(** A parser called on a shorter text. *)
Lemma consumes_then {A B} (s t : gostring) (m : parsed A) (k : A -> gostring -> parsed B) :
  consumes t m -> (forall v rest, length rest < length t -> consumes s (k v rest)) -> consumes s (and_then m k).
Proof. destruct m as [a rest| |]; cbn; auto. Qed.

Lemma consumes_string (s t : gostring) {B} (k : gostring -> gostring -> parsed B) :
  (forall v rest, length rest < length t -> consumes s (k v rest)) -> consumes s (and_then (parse_string t) k).
Proof.
  intros H. destruct (parse_string t) as [v rest| |] eqn:E; cbn; [|done|].
  - apply H. by eapply parse_string_length.
  - unfold parse_string in E. by destruct (string_body 0 t) as [[? ?]|].
Qed.

Lemma array_enough fuel : enough fuel -> forall depth s, 2 * length s + 1 < S fuel ->
  consumes s (parse_array (S fuel) depth s).
Proof.
  intros (Hv & Ha & _) depth s Hs. cbn [parse_array]. eapply consumes_then; [apply Hv; lia|].
  intros v rest Hr. pose proof (skip_space_length rest) as Hk.
  destruct (strip "]"%char _) as [r|] eqn:E; [apply strip_length in E; cbn; lia|].
  destruct (strip ","%char _) as [r|] eqn:E2; [|done]. apply strip_length in E2.
  pose proof (skip_space_length r) as Hk2. eapply consumes_then; [apply Ha; lia|]. intros l rest' ?. cbn. lia.
Qed.

Lemma object_enough fuel : enough fuel -> forall depth s, 2 * length s + 1 < S fuel ->
  consumes s (parse_object (S fuel) depth s).
Proof.
  intros (Hv & _ & Ho) depth s Hs. cbn [parse_object].
  destruct (strip "034"%char s) as [t|] eqn:E; [|done]. apply strip_length in E.
  apply consumes_string. intros key rest Hr. pose proof (skip_space_length rest) as Hk.
  destruct (strip ":"%char _) as [r|] eqn:E2; [|done]. apply strip_length in E2. pose proof (skip_space_length r) as Hk2.
  eapply consumes_then; [apply Hv; lia|]. intros v rest' Hr'. pose proof (skip_space_length rest') as Hk3.
  destruct (strip "}"%char _) as [r'|] eqn:E3; [apply strip_length in E3; cbn; lia|].
  destruct (strip ","%char _) as [r'|] eqn:E4; [|done]. apply strip_length in E4.
  pose proof (skip_space_length r') as Hk4. eapply consumes_then; [apply Ho; lia|]. intros l rest'' ?. cbn. lia.
Qed.

Lemma literal_consumes lit v c s : consumes (c :: s) (parse_literal (c :: lit) v (c :: s)).
Proof.
  unfold parse_literal. destruct (HasPrefix _ _); [|done]. cbn [consumes length drop]. rewrite length_drop. lia.
Qed.

Lemma value_enough fuel : enough fuel -> forall depth s, 2 * length s < S fuel ->
  consumes s (parse_value (S fuel) depth s).
Proof.
  intros (_ & Ha & Ho) depth [|c s] Hs; [done|]. cbn [parse_value]. cbn [length] in Hs.
  pose proof (skip_space_length s) as Hk.
  case_bool_decide; [apply consumes_string; cbn; lia|].
  case_bool_decide.
  { destruct (depth =? 0); [done|]. destruct (strip "]"%char _) as [r|] eqn:E; [apply strip_length in E; cbn; lia|].
    eapply consumes_then; [apply Ha; lia|]. cbn. lia. }
  case_bool_decide.
  { destruct (depth =? 0); [done|]. destruct (strip "}"%char _) as [r|] eqn:E; [apply strip_length in E; cbn; lia|].
    eapply consumes_then; [apply Ho; lia|]. cbn. lia. }
  case_bool_decide; [subst; apply literal_consumes|].
  case_bool_decide; [subst; apply literal_consumes|].
  case_bool_decide; [subst; apply literal_consumes|].
  unfold parse_number. destruct (scan_number (c :: s)) as [[lit rest]|] eqn:E; [|done].
  by apply scan_number_length in E.
Qed.

Lemma all_enough fuel : enough fuel.
Proof.
  induction fuel as [|fuel IH]; [split_and!; lia|].
  split_and!; [by apply value_enough|by apply array_enough|by apply object_enough].
Qed.

(** Reading a document ends: twice its length is fuel enough, and what is left
    over is shorter than the document. *)
Lemma parse_total s :
  match parse s with
  | Parsed _ rest => length rest < length s
  | BadSyntax => True
  | OutOfFuel => False
  end.
Proof.
  unfold parse. pose proof (skip_space_length s) as Hk.
  destruct (all_enough (2 * length (skip_space s) + 1)) as [Hv _].
  specialize (Hv max_depth (skip_space s) ltac:(lia)). unfold consumes in Hv.
  destruct (parse_value _ _ _); [lia|done|done].
Qed.
