(* ===== verification/App.v ===== *)
(** * The command line application (app/app.go, cmd/main.go)

    [Main] reads its arguments with go-arg, decodes configuration documents over
    the defaults, reads the arguments again over the result, and starts a server.
    go-arg and the directory watcher are parameters; so is the decoding of the NATS
    option structs, which are types of NATS. *)

From S2P Require Import Prelude GoStrings GoErrors GoPath Http ServeContent Config Negotiate.
From S2P Require Import DotDB DotFlush DotResp DotFS Dot Init Template StaticFile Mux Build Handlers Instance Json.

(** ** Decoding into Go values *)

(** A slice and what its array holds beyond its length. *)
Record slice (A : Type) := { sl_items : list A; sl_stale : list A }.
Arguments sl_items {A}.
Arguments sl_stale {A}.
Arguments Build_slice {A}.

Definition nil_slice {A} : slice A := {| sl_items := []; sl_stale := [] |}.

(** [null] leaves strings, numbers and booleans alone. *)
Definition dec_string (old : gostring) (j : json) : option gostring :=
  match j with JStr s => Some s | JNull => Some old | _ => None end.

Definition dec_bool (old : bool) (j : json) : option bool :=
  match j with JBool b => Some b | JNull => Some old | _ => None end.

Definition dec_int (old : Z) (j : json) : option Z :=
  match j with
  | JNum lit => ParseInt64 lit
  | JNull => Some old
  | _ => None
  end.

(** Each element of an array is decoded into the element of the old array at its
    place, be that within the length of the old slice or beyond it. *)
Fixpoint dec_items {A} (zero : A) (dec : A -> json -> option A) (old : list A) (l : list json) : option (list A) :=
  match l with
  | [] => Some []
  | j :: l =>
      x ← dec (hd zero old) j;
      xs ← dec_items zero dec (tl old) l;
      Some (x :: xs)
  end.

Definition dec_slice {A} (zero : A) (dec : A -> json -> option A) (old : slice A) (j : json) : option (slice A) :=
  match j with
  | JNull | JArr [] => Some nil_slice
  | JArr l =>
      let array := sl_items old ++ sl_stale old in
      xs ← dec_items zero dec array l;
      Some {| sl_items := xs; sl_stale := drop (length l) array |}
  | _ => None
  end.

(** A [map[string]string]: keys are added to the map that is there. *)
Fixpoint dec_members (m : gmap gostring gostring) (l : list (gostring * json)) : option (gmap gostring gostring) :=
  match l with
  | [] => Some m
  | (k, j) :: l => v ← dec_string [] j; dec_members (<[k := v]> m) l
  end.

Definition dec_map (old : gmap gostring gostring) (j : json) : option (gmap gostring gostring) :=
  match j with
  | JNull => Some ∅
  | JObj l => dec_members old l
  | _ => None
  end.

(** [foldName]: the runes that fold to ASCII letters. *)
Definition fold_rune (r : N) : N :=
  if ((97 <=? r) && (r <=? 122))%N then (r - 32)%N
  else if (r =? 383)%N then 83%N
  else if (r =? 8490)%N then 75%N
  else r.

Definition fold_name (s : gostring) : list N := fold_rune ∘ snd <$> runes s.

(** The field a key stands for: by its exact name, or else by its folded name. *)
Definition find_field (names : list gostring) (key : gostring) : option gostring :=
  if bool_decide (key ∈ names) then Some key
  else snd <$> list_find (fun n => fold_name n = fold_name key) names.

(** A struct: the members one after the other, unknown ones ignored. *)
Fixpoint dec_struct {A} (names : list gostring) (assign : A -> gostring -> json -> option A) (a : A)
    (l : list (gostring * json)) : option A :=
  match l with
  | [] => Some a
  | (key, j) :: l =>
      a ← match find_field names key with Some n => assign a n j | None => Some a end;
      dec_struct names assign a l
  end.

Definition dec_object {A} (names : list gostring) (assign : A -> gostring -> json -> option A) (a : A) (j : json) :
    option A :=
  match j with
  | JNull => Some a
  | JObj l => dec_struct names assign a l
  | _ => None
  end.

Section app.
Context {V P R Info Entry CVal CType CCall Ext : Type} `{EqDecision CType}.
Context {FSys Logger Ctx Func DB TxOptions : Type}.
Context {NatsServerOptions NatsOptions JetStreamOpt NatsConn NatsServer JetStream : Type}.
Context (env : mime_env).
Context (custom_type : CVal -> CType).
Context (unicode_IsLetter unicode_IsDigit : N -> bool).

Abbreviation World := (World (Ext := Ext)).
Abbreviation field := (field (V := V) (P := P) (R := R) (Info := Info) (Entry := Entry) (CVal := CVal)).
Abbreviation provider := (DotConfig (World := World) (Val := field)).
Abbreviation platform :=
  (platform (V := V) (P := P) (R := R) (Info := Info) (Entry := Entry) (CVal := CVal) (CCall := CCall)
     (FSys := FSys) (Ctx := Ctx) (Func := Func) (DB := DB) (TxOptions := TxOptions)
     (NatsServerOptions := NatsServerOptions) (NatsOptions := NatsOptions) (JetStreamOpt := JetStreamOpt)
     (NatsConn := NatsConn) (NatsServer := NatsServer) (JetStream := JetStream)).
Abbreviation custom_provider :=
  (custom_provider (V := V) (P := P) (R := R) (Info := Info) (Entry := Entry) (CVal := CVal) (Ext := Ext)).
Abbreviation Config :=
  (Config (FS := FSys) (Logger := Logger) (Ctx := Ctx) (FuncMap := gmap gostring Func) (DB := DB)
     (TxOptions := TxOptions) (Provider := custom_provider) (NatsServerOptions := NatsServerOptions)
     (NatsOptions := NatsOptions) (JetStreamOpt := JetStreamOpt) (NatsConn := NatsConn)
     (NatsServer := NatsServer) (JetStream := JetStream)).
Abbreviation DotDBConfig := (DotDBConfig (DB := DB) (TxOptions := TxOptions)).
Abbreviation DotDirConfig := (DotDirConfig (FS := FSys)).
Abbreviation DotNatsConfig :=
  (DotNatsConfig (NatsServerOptions := NatsServerOptions) (NatsOptions := NatsOptions)
     (JetStreamOpt := JetStreamOpt) (NatsConn := NatsConn) (NatsServer := NatsServer) (JetStream := JetStream)).

Context (custom_call : CVal -> CCall -> World -> CVal * World * outcome (result CVal)).
Context (slog_Default : Logger) (context_Background : Ctx) (pf : platform).

#[local] Existing Instance ftype_eq.

(** ** The configuration as JSON *)

Definition zero_DotDBConfig : DotDBConfig :=
  {| db_DB := None; db_TxOptions := None; db_Name := []; db_Driver := []; db_Connstr := []; db_MaxOpenConns := 0 |}.

Definition DotDBConfig_names : list gostring :=
  [gs "name"; gs "driver"; gs "connstr"; gs "max_open_conns"].

Definition assign_DotDBConfig (d : DotDBConfig) (n : gostring) (j : json) : option DotDBConfig :=
  let set name driver connstr conns :=
    {| db_DB := db_DB d; db_TxOptions := db_TxOptions d; db_Name := name; db_Driver := driver;
       db_Connstr := connstr; db_MaxOpenConns := conns |} in
  if bool_decide (n = gs "name") then
    v ← dec_string (db_Name d) j; Some (set v (db_Driver d) (db_Connstr d) (db_MaxOpenConns d))
  else if bool_decide (n = gs "driver") then
    v ← dec_string (db_Driver d) j; Some (set (db_Name d) v (db_Connstr d) (db_MaxOpenConns d))
  else if bool_decide (n = gs "connstr") then
    v ← dec_string (db_Connstr d) j; Some (set (db_Name d) (db_Driver d) v (db_MaxOpenConns d))
  else v ← dec_int (db_MaxOpenConns d) j; Some (set (db_Name d) (db_Driver d) (db_Connstr d) v).

Definition zero_DotFlagsConfig : DotFlagsConfig := {| flags_Name := []; flags_Values := ∅ |}.

Definition DotFlagsConfig_names : list gostring := [gs "name"; gs "values"].

Definition assign_DotFlagsConfig (d : DotFlagsConfig) (n : gostring) (j : json) : option DotFlagsConfig :=
  if bool_decide (n = gs "name") then
    v ← dec_string (flags_Name d) j; Some {| flags_Name := v; flags_Values := flags_Values d |}
  else v ← dec_map (flags_Values d) j; Some {| flags_Name := flags_Name d; flags_Values := v |}.

Definition zero_DotDirConfig : DotDirConfig := {| dir_Name := []; dir_FS := None; dir_Path := [] |}.

Definition DotDirConfig_names : list gostring := [gs "name"; gs "path"].

Definition assign_DotDirConfig (d : DotDirConfig) (n : gostring) (j : json) : option DotDirConfig :=
  if bool_decide (n = gs "name") then
    v ← dec_string (dir_Name d) j; Some {| dir_Name := v; dir_FS := dir_FS d; dir_Path := dir_Path d |}
  else v ← dec_string (dir_Path d) j; Some {| dir_Name := dir_Name d; dir_FS := dir_FS d; dir_Path := v |}.

Definition zero_DotNatsConfig : DotNatsConfig :=
  {| nats_Name := []; nats_Config := None; nats_Conn := None; nats_server := None; nats_js := None |}.

(** Decoding of the option structs of NATS. *)
Context (decode_nats : DotNatsConfig -> json -> option DotNatsConfig).

(** ** Args *)

Record Args := {
  args_Config : Config;
  Watch : list gostring;
  WatchTemplates : bool;
  Listen : gostring;
  LogLevel : Z;
  Configs : list gostring;
  ConfigFiles : list gostring
}.

(** [defaultArgs] *)
Definition default_args : Args :=
  {| args_Config := zero_config; Watch := []; WatchTemplates := true; Listen := gs "0.0.0.0:8080"; LogLevel := 0;
     Configs := []; ConfigFiles := [] |}.

(** [jsonConfig]: the fields that documents can set. *)
Record doc := {
  doc_dir : gostring;
  doc_ext : gostring;
  doc_minify : bool;
  doc_databases : slice DotDBConfig;
  doc_flags : slice DotFlagsConfig;
  doc_directories : slice DotDirConfig;
  doc_nats : slice DotNatsConfig;
  doc_left : gostring;
  doc_right : gostring;
  doc_watch : slice gostring;
  doc_watch_templates : bool;
  doc_listen : gostring;
  doc_level : Z
}.

Definition default_doc : doc :=
  {| doc_dir := []; doc_ext := []; doc_minify := false; doc_databases := nil_slice; doc_flags := nil_slice;
     doc_directories := nil_slice; doc_nats := nil_slice; doc_left := []; doc_right := []; doc_watch := nil_slice;
     doc_watch_templates := WatchTemplates default_args; doc_listen := Listen default_args;
     doc_level := LogLevel default_args |}.

Definition doc_args (d : doc) : Args :=
  {| args_Config :=
       {| TemplatesDir := doc_dir d; TemplatesFS := None; TemplateExtension := doc_ext d; Minify := doc_minify d;
          Databases := sl_items (doc_databases d); Flags := sl_items (doc_flags d);
          Directories := sl_items (doc_directories d); Nats := sl_items (doc_nats d); CustomProviders := [];
          LDelim := doc_left d; RDelim := doc_right d; FuncMaps := []; config_Ctx := None; config_Logger := None |};
     Watch := sl_items (doc_watch d); WatchTemplates := doc_watch_templates d; Listen := doc_listen d;
     LogLevel := doc_level d; Configs := []; ConfigFiles := [] |}.

(** The keys of a document, those of the embedded [Config] included. *)
Definition Args_names : list gostring :=
  [gs "templates_dir"; gs "template_extension"; gs "minify"; gs "databases"; gs "flags"; gs "directories";
   gs "nats"; gs "left"; gs "right"; gs "watch_dirs"; gs "watch_templates"; gs "listen"; gs "log_level"].

Definition assign_Args (d : doc) (n : gostring) (j : json) : option doc :=
  let '(Build_doc dir ext mi dbs fls dirs nats le ri wa wt li lv) := d in
  if bool_decide (n = gs "templates_dir") then
    dir ← dec_string dir j; Some (Build_doc dir ext mi dbs fls dirs nats le ri wa wt li lv)
  else if bool_decide (n = gs "template_extension") then
    ext ← dec_string ext j; Some (Build_doc dir ext mi dbs fls dirs nats le ri wa wt li lv)
  else if bool_decide (n = gs "minify") then
    mi ← dec_bool mi j; Some (Build_doc dir ext mi dbs fls dirs nats le ri wa wt li lv)
  else if bool_decide (n = gs "databases") then
    dbs ← dec_slice zero_DotDBConfig (dec_object DotDBConfig_names assign_DotDBConfig) dbs j;
    Some (Build_doc dir ext mi dbs fls dirs nats le ri wa wt li lv)
  else if bool_decide (n = gs "flags") then
    fls ← dec_slice zero_DotFlagsConfig (dec_object DotFlagsConfig_names assign_DotFlagsConfig) fls j;
    Some (Build_doc dir ext mi dbs fls dirs nats le ri wa wt li lv)
  else if bool_decide (n = gs "directories") then
    dirs ← dec_slice zero_DotDirConfig (dec_object DotDirConfig_names assign_DotDirConfig) dirs j;
    Some (Build_doc dir ext mi dbs fls dirs nats le ri wa wt li lv)
  else if bool_decide (n = gs "nats") then
    nats ← dec_slice zero_DotNatsConfig decode_nats nats j;
    Some (Build_doc dir ext mi dbs fls dirs nats le ri wa wt li lv)
  else if bool_decide (n = gs "left") then
    le ← dec_string le j; Some (Build_doc dir ext mi dbs fls dirs nats le ri wa wt li lv)
  else if bool_decide (n = gs "right") then
    ri ← dec_string ri j; Some (Build_doc dir ext mi dbs fls dirs nats le ri wa wt li lv)
  else if bool_decide (n = gs "watch_dirs") then
    wa ← dec_slice [] dec_string wa j; Some (Build_doc dir ext mi dbs fls dirs nats le ri wa wt li lv)
  else if bool_decide (n = gs "watch_templates") then
    wt ← dec_bool wt j; Some (Build_doc dir ext mi dbs fls dirs nats le ri wa wt li lv)
  else if bool_decide (n = gs "listen") then
    li ← dec_string li j; Some (Build_doc dir ext mi dbs fls dirs nats le ri wa wt li lv)
  else
    lv ← dec_int lv j; Some (Build_doc dir ext mi dbs fls dirs nats le ri wa wt li lv).

(** [json.NewDecoder(...).Decode(&jsonConfig)]; [None] is an error. *)
Definition Decode (d : doc) (text : gostring) : option doc :=
  match parse text with
  | Parsed j _ => dec_object Args_names assign_Args d j
  | _ => None
  end.

(** ** Main *)

(** [arg.MustParse(&a)]: the arguments over [a], or the code it exits with. *)
Context (MustParse : Args -> Z + Args).

(** [os.OpenFile] and reading the file, [watch.Watch], [slog.New], [WithGroup] and
    [context.WithCancel]. *)
Context (OpenFile : gostring -> result gostring).
Context (watch_Watch : list gostring -> option goerr).
Context (NewLogger : Z -> Logger) (WithGroup : Logger -> gostring -> Logger) (WithCancel : Ctx -> Ctx).

Fixpoint decode_files (names : list gostring) (d : doc) : option doc :=
  match names with
  | [] => Some d
  | name :: names =>
      match OpenFile name with
      | Err _ => None
      | Ok text => d ← Decode d text; decode_files names d
      end
  end.

Fixpoint decode_values (confs : list gostring) (d : doc) : option doc :=
  match confs with
  | [] => Some d
  | conf :: confs => d ← Decode d conf; decode_values confs d
  end.

Definition with_config (a : Args) (c : Config) : Args :=
  {| args_Config := c; Watch := Watch a; WatchTemplates := WatchTemplates a; Listen := Listen a;
     LogLevel := LogLevel a; Configs := Configs a; ConfigFiles := ConfigFiles a |}.

Definition set_logger (c : Config) (l : Logger) : Config :=
  {| TemplatesDir := TemplatesDir c; TemplatesFS := TemplatesFS c; TemplateExtension := TemplateExtension c;
     Minify := Minify c; Databases := Databases c; Flags := Flags c; Directories := Directories c; Nats := Nats c;
     CustomProviders := CustomProviders c; LDelim := LDelim c; RDelim := RDelim c; FuncMaps := FuncMaps c;
     config_Ctx := config_Ctx c; config_Logger := Some l |}.

Definition set_ctx (c : Config) (ctx : Ctx) : Config :=
  {| TemplatesDir := TemplatesDir c; TemplatesFS := TemplatesFS c; TemplateExtension := TemplateExtension c;
     Minify := Minify c; Databases := Databases c; Flags := Flags c; Directories := Directories c; Nats := Nats c;
     CustomProviders := CustomProviders c; LDelim := LDelim c; RDelim := RDelim c; FuncMaps := FuncMaps c;
     config_Ctx := Some ctx; config_Logger := config_Logger c |}.

(** The configuration of [Main]: the exit code, or what it starts the server with. *)
Definition main_config : Z + Args :=
  match MustParse default_args with
  | inl code => inl code
  | inr config =>
      let config := with_config config (Defaults slog_Default context_Background (args_Config config)) in
      match decode_files (ConfigFiles config) default_doc with
      | None => inl 1%Z
      | Some d =>
          match decode_values (Configs config) d with
          | None => inl 1%Z
          | Some d =>
              let decoded := negb (bool_decide (ConfigFiles config = [] /\ Configs config = [])) in
              match (if decoded then MustParse (doc_args d) else inr config) with
              | inl code => inl code
              | inr config =>
                  inr (with_config config (set_logger (args_Config config) (NewLogger (LogLevel config))))
              end
          end
      end
  end.

Abbreviation loaded :=
  (loaded (V := V) (P := P) (R := R) (Info := Info) (Entry := Entry) (CVal := CVal) (CType := CType)
     (CCall := CCall) (Ext := Ext) (FSys := FSys) (Logger := Logger) (Ctx := Ctx) (Func := Func) (DB := DB)
     (TxOptions := TxOptions) (NatsServerOptions := NatsServerOptions) (NatsOptions := NatsOptions)
     (JetStreamOpt := JetStreamOpt) (NatsConn := NatsConn) (NatsServer := NatsServer) (JetStream := JetStream)).
Abbreviation resource := (resource (DB := DB) (NatsConn := NatsConn) (NatsServer := NatsServer)).
Abbreviation Option_ :=
  (Option_ (FS := FSys) (Logger := Logger) (Ctx := Ctx) (FuncMap := gmap gostring Func) (DB := DB)
     (TxOptions := TxOptions) (Provider := custom_provider) (NatsServerOptions := NatsServerOptions)
     (NatsOptions := NatsOptions) (JetStreamOpt := JetStreamOpt) (NatsConn := NatsConn)
     (NatsServer := NatsServer) (JetStream := JetStream)).

(** [config.Server(cfgs...)]: the configuration the server keeps, and its first
    instance; [Server.Reload] loads it with a context of its own. *)
Definition Config_Server (config : Config) (cfgs : list Option_) (next choice : nat) (wd : World) :
    outcome (World * list resource * result (Config * loaded)) :=
  let '(c, err) := Options (Defaults slog_Default context_Background config) cfgs in
  match err with
  | Some e => Ret (wd, [], Err e)
  | None =>
      match config_Logger c, config_Ctx c with
      | None, _ => Panic (gs "invalid memory address or nil pointer dereference")
      | _, None => Panic (gs "cannot create context from nil parent")
      | Some l, Some ctx =>
          let c := set_logger c (WithGroup l (gs "xtemplate")) in
          '(_, wd, rs, ld) ← Config_Instance env custom_type unicode_IsLetter unicode_IsDigit custom_call slog_Default
                               context_Background pf (set_ctx c (WithCancel ctx)) [] next choice wd;
          Ret (wd, rs, match ld with Ok ld => Ok (c, ld) | Err e => Err e end)
      end
  end.

(** How [Main] ends up: it exits, or serves on an address with directories being
    watched, each change of which calls [server.Reload()]. *)
Inductive main_result :=
| Exit (code : Z)
| Serving (listen : gostring) (watched : list gostring) (server : Config) (first : loaded).

Definition watch_dirs (config : Args) : list gostring :=
  if WatchTemplates config && bool_decide (TemplatesFS (args_Config config) = None)
  then Watch config ++ [TemplatesDir (args_Config config)]
  else Watch config.

Definition Main (overrides : list Option_) (next choice : nat) (wd : World) : outcome (World * main_result) :=
  match main_config with
  | inl code => Ret (wd, Exit code)
  | inr config =>
      '(wd, _, server) ← Config_Server (args_Config config) overrides next choice wd;
      match server with
      | Err _ => Ret (wd, Exit 2)
      | Ok (c, ld) =>
          let dirs := watch_dirs config in
          match (if bool_decide (dirs = []) then None else watch_Watch dirs) with
          | Some _ => Ret (wd, Exit 4)
          | None => Ret (wd, Serving (Listen config) dirs c ld)
          end
      end
  end.

(** The program of cmd/main.go. *)
Definition main (next choice : nat) (wd : World) : outcome (World * main_result) := Main [] next choice wd.

(** ** What go-arg does

    A field given on the command line gets that value; one that is not keeps a value
    that is not the zero value of its type, and else gets the default of its tag.  The
    values of an option marked [separate] are appended to the field. *)

Record flags := {
  f_dir : option gostring;
  f_ext : option gostring;
  f_minify : option bool;
  f_ldelim : option gostring;
  f_rdelim : option gostring;
  f_watch : list gostring;
  f_watch_templates : option bool;
  f_listen : option gostring;
  f_loglevel : option Z;
  f_config : list gostring;
  f_config_file : list gostring
}.

Definition flag {A} `{EqDecision A} (given : option A) (zero tag old : A) : A :=
  match given with
  | Some v => v
  | None => if bool_decide (old = zero) then tag else old
  end.

Definition parse_flags (fl : flags) (a : Args) : Args :=
  let c := args_Config a in
  {| args_Config :=
       {| TemplatesDir := flag (f_dir fl) [] (gs "templates") (TemplatesDir c);
          TemplatesFS := TemplatesFS c;
          TemplateExtension := flag (f_ext fl) [] (gs ".html") (TemplateExtension c);
          Minify := flag (f_minify fl) false true (Minify c);
          Databases := Databases c; Flags := Flags c; Directories := Directories c; Nats := Nats c;
          CustomProviders := CustomProviders c;
          LDelim := flag (f_ldelim fl) [] (gs "{{") (LDelim c);
          RDelim := flag (f_rdelim fl) [] (gs "}}") (RDelim c);
          FuncMaps := FuncMaps c; config_Ctx := config_Ctx c; config_Logger := config_Logger c |};
     Watch := Watch a ++ f_watch fl;
     WatchTemplates := flag (f_watch_templates fl) false false (WatchTemplates a);
     Listen := flag (f_listen fl) [] [] (Listen a);
     LogLevel := flag (f_loglevel fl) 0%Z (-2)%Z (LogLevel a);
     Configs := Configs a ++ f_config fl;
     ConfigFiles := ConfigFiles a ++ f_config_file fl |}.

(** ** Settings

    The configuration a user asks for: for each key, the last document that gives it
    a value other than null, after the arguments and before the defaults.  The arrays
    a key is given are decoded one after the other, each over the one before. *)

Definition setting (n : gostring) (ms : list (gostring * json)) : option json :=
  last (omap (fun m => if bool_decide (find_field Args_names m.1 = Some n) && negb (match m.2 with JNull => true | _ => false end)
                       then Some m.2 else None) ms).

(** The members of documents, [null] documents having none. *)
Definition document (text : gostring) : option (list (gostring * json)) :=
  match parse text with
  | Parsed (JObj l) _ => Some l
  | Parsed JNull _ => Some []
  | _ => None
  end.

Definition string_setting (ms : list (gostring * json)) (n : gostring) (dflt : gostring) : gostring :=
  match setting n ms with Some (JStr s) => s | _ => dflt end.
Definition bool_setting (ms : list (gostring * json)) (n : gostring) (dflt : bool) : bool :=
  match setting n ms with Some (JBool b) => b | _ => dflt end.
Definition int_setting (ms : list (gostring * json)) (n : gostring) (dflt : Z) : Z :=
  match setting n ms with Some (JNum lit) => default dflt (ParseInt64 lit) | _ => dflt end.

(** The values of a key, and the slice they make. *)
Definition values (n : gostring) (ms : list (gostring * json)) : list json :=
  omap (fun m => if bool_decide (find_field Args_names m.1 = Some n) then Some m.2 else None) ms.

Definition list_setting {A} (zero : A) (dec : A -> json -> option A) (n : gostring) (ms : list (gostring * json)) :
    option (slice A) :=
  foldl (fun o j => old ← o; dec_slice zero dec old j) (Some nil_slice) (values n ms).

Definition lists (d : doc) := (doc_databases d, doc_flags d, doc_directories d, doc_nats d, doc_watch d).

Definition list_settings (ms : list (gostring * json)) :=
  dbs ← list_setting zero_DotDBConfig (dec_object DotDBConfig_names assign_DotDBConfig) (gs "databases") ms;
  fls ← list_setting zero_DotFlagsConfig (dec_object DotFlagsConfig_names assign_DotFlagsConfig) (gs "flags") ms;
  dirs ← list_setting zero_DotDirConfig (dec_object DotDirConfig_names assign_DotDirConfig) (gs "directories") ms;
  nats ← list_setting zero_DotNatsConfig decode_nats (gs "nats") ms;
  wa ← list_setting [] dec_string (gs "watch_dirs") ms;
  Some (dbs, fls, dirs, nats, wa).

Definition scalars (d : doc) :=
  (doc_dir d, doc_ext d, doc_minify d, doc_left d, doc_right d, doc_watch_templates d, doc_listen d, doc_level d).

Definition settings (ms : list (gostring * json)) :=
  (string_setting ms (gs "templates_dir") [], string_setting ms (gs "template_extension") [],
   bool_setting ms (gs "minify") false, string_setting ms (gs "left") [], string_setting ms (gs "right") [],
   bool_setting ms (gs "watch_templates") true, string_setting ms (gs "listen") (gs "0.0.0.0:8080"),
   int_setting ms (gs "log_level") 0%Z).

Lemma setting_snoc n ms k j :
  setting n (ms ++ [(k, j)]) =
  if bool_decide (find_field Args_names k = Some n) && negb (match j with JNull => true | _ => false end)
  then Some j else setting n ms.
Proof.
  unfold setting. rewrite omap_app. cbn. destruct (_ && _); cbn; [by rewrite last_snoc|by rewrite app_nil_r].
Qed.

Lemma find_field_names names k n : find_field names k = Some n -> n ∈ names.
Proof.
  unfold find_field. case_bool_decide as H; [by intros [= <-]|].
  destruct (list_find _ names) as [[i x]|] eqn:E; [|done]. cbn. intros [= <-].
  apply list_find_Some in E as [E _]. by eapply list_elem_of_lookup_2.
Qed.

(** Comparing two names. *)
Ltac eval_names :=
  repeat match goal with
  | |- context [bool_decide (gs ?a = gs ?b)] =>
      let v := eval vm_compute in (bool_decide (gs a = gs b)) in change (bool_decide (gs a = gs b)) with v
  | |- context [bool_decide (Some (gs ?a) = Some (gs ?b))] =>
      let v := eval vm_compute in (bool_decide (Some (gs a) = Some (gs b))) in
      change (bool_decide (Some (gs a) = Some (gs b))) with v
  end; cbv iota.

Lemma assign_scalars d n k j d' ms :
  find_field Args_names k = Some n -> assign_Args d n j = Some d' ->
  scalars d = settings ms -> scalars d' = settings (ms ++ [(k, j)]).
Proof.
  intros Hk Ha Hd. pose proof (find_field_names _ _ _ Hk) as Hn.
  destruct d as [dir ext mi dbs fls dirs nats le ri wa wt li lv]. unfold scalars in Hd. cbn in Hd.
  unfold settings in Hd. injection Hd as -> -> -> -> -> -> -> ->.
  revert Ha. unfold settings, string_setting, bool_setting, int_setting. rewrite !setting_snoc, Hk.
  unfold Args_names in Hn. rewrite !elem_of_cons, elem_of_nil in Hn.
  repeat destruct Hn as [->|Hn]; [..|done]; unfold assign_Args; eval_names; cbn [andb];
    destruct j; cbn [negb dec_string dec_bool dec_int mbind option_bind]; intros Ha;
    try (destruct (dec_slice _ _ _ _); cbn in Ha); try (destruct (ParseInt64 lit) eqn:El; cbn in Ha);
    by simplify_eq.
Qed.

Lemma list_setting_snoc {A} (zero : A) dec n ms k j :
  list_setting zero dec n (ms ++ [(k, j)]) =
  if bool_decide (find_field Args_names k = Some n) then old ← list_setting zero dec n ms; dec_slice zero dec old j
  else list_setting zero dec n ms.
Proof.
  unfold list_setting, values. rewrite omap_app, foldl_app. cbn. by case_bool_decide.
Qed.

Lemma assign_lists d n k j d' ms :
  find_field Args_names k = Some n -> assign_Args d n j = Some d' ->
  list_settings ms = Some (lists d) -> list_settings (ms ++ [(k, j)]) = Some (lists d').
Proof.
  intros Hk Ha Hd. pose proof (find_field_names _ _ _ Hk) as Hn.
  destruct d as [dir ext mi dbs fls dirs nats le ri wa wt li lv]. revert Ha.
  unfold list_settings in *. rewrite !list_setting_snoc, Hk.
  destruct (list_setting zero_DotDBConfig _ _ ms) as [a1|], (list_setting zero_DotFlagsConfig _ _ ms) as [a2|],
    (list_setting zero_DotDirConfig _ _ ms) as [a3|], (list_setting zero_DotNatsConfig _ _ ms) as [a4|],
    (list_setting [] dec_string _ ms) as [a5|]; try discriminate Hd.
  unfold lists in Hd. cbn in Hd. injection Hd as -> -> -> -> ->.
  unfold Args_names in Hn. rewrite !elem_of_cons, elem_of_nil in Hn.
  repeat destruct Hn as [->|Hn]; [..|done]; unfold assign_Args; eval_names; cbn [mbind option_bind];
    intros (v & Hv & Ha)%bind_Some; injection Ha as <-; first [done|by rewrite Hv].
Qed.

(** The document decoded so far has the settings [ms]. *)
Definition decodes (ms : list (gostring * json)) (d : doc) : Prop :=
  scalars d = settings ms /\ list_settings ms = Some (lists d).

Lemma dec_struct_decodes l : forall d d' ms,
  dec_struct Args_names assign_Args d l = Some d' -> decodes ms d -> decodes (ms ++ l) d'.
Proof.
  induction l as [|[k j] l IH]; intros d d' ms; cbn [dec_struct].
  { intros [= <-]. by rewrite app_nil_r. }
  destruct (find_field Args_names k) as [n|] eqn:Ek; cbn [mbind option_bind].
  - destruct (assign_Args d n j) as [d1|] eqn:Ea; cbn [mbind option_bind]; [|done].
    intros H [Hs Hl]. change ((k, j) :: l) with ([(k, j)] ++ l). rewrite app_assoc. eapply IH; [done|].
    split; [by eapply assign_scalars|by eapply assign_lists].
  - intros H [Hs Hl]. change ((k, j) :: l) with ([(k, j)] ++ l). rewrite app_assoc. eapply IH; [done|]. split.
    + rewrite Hs. unfold settings, string_setting, bool_setting, int_setting. by rewrite !setting_snoc, Ek.
    + rewrite <- Hl. unfold list_settings. by rewrite !list_setting_snoc, Ek.
Qed.

Lemma Decode_decodes d text d' ms :
  Decode d text = Some d' -> decodes ms d -> exists l, document text = Some l /\ decodes (ms ++ l) d'.
Proof.
  unfold Decode, document. destruct (parse text) as [j rest| |]; [|done|done]. destruct j; cbn; try done.
  - intros [= <-] Hd. exists []. by rewrite app_nil_r.
  - intros H Hd. exists l. split; [done|]. by eapply dec_struct_decodes.
Qed.

Lemma decode_values_decodes confs : forall d d' ms,
  decode_values confs d = Some d' -> decodes ms d ->
  exists ls, mapM document confs = Some ls /\ decodes (ms ++ concat ls) d'.
Proof.
  induction confs as [|conf confs IH]; intros d d' ms; cbn [decode_values].
  { intros [= <-] Hd. exists []. by rewrite app_nil_r. }
  destruct (Decode d conf) as [d1|] eqn:E; cbn [mbind option_bind]; [|done]. intros H Hd.
  destruct (Decode_decodes _ _ _ _ E Hd) as (l & Hl & Hd1). destruct (IH _ _ _ H Hd1) as (ls & Hls & Hd').
  exists (l :: ls). cbn. rewrite Hl. cbn. rewrite Hls. cbn. by rewrite app_assoc.
Qed.

Definition read_file (name : gostring) : option gostring :=
  match OpenFile name with Ok text => Some text | Err _ => None end.

Lemma decode_files_values names : forall d d',
  decode_files names d = Some d' <-> exists texts, mapM read_file names = Some texts /\ decode_values texts d = Some d'.
Proof.
  induction names as [|name names IH]; intros d d'; cbn [decode_files].
  { split; [intros H; by exists []|]. intros (texts & [= <-] & H). exact H. }
  change (mapM read_file (name :: names)) with (y ← read_file name; k ← mapM read_file names; Some (y :: k)).
  destruct (OpenFile name) as [text|e] eqn:Eo.
  2: { assert (read_file name = None) as -> by (unfold read_file; by rewrite Eo). split; [done|]. by intros (texts & ? & _). }
  assert (read_file name = Some text) as -> by (unfold read_file; by rewrite Eo). cbn [mbind option_bind]. split.
  - destruct (Decode d text) as [d1|] eqn:E; cbn [mbind option_bind]; [|done]. intros (texts & Ht & Hd)%IH.
    exists (text :: texts). rewrite Ht. cbn. by rewrite E.
  - intros (texts & Ht & Hd). destruct (mapM read_file names) as [ts|]; [|done]. cbn in Ht. injection Ht as <-.
    cbn in Hd. destruct (Decode d text) as [d1|]; [|done]. cbn in *. apply IH. by exists ts.
Qed.

Lemma decode_values_app a b d : decode_values (a ++ b) d = decode_values a d ≫= decode_values b.
Proof.
  revert d. induction a as [|x a IH]; intros d; [done|]. cbn. destruct (Decode d x); cbn; [apply IH|done].
Qed.

(** ** Properties *)

Section parsed.
Context (fl : flags) (parses : forall a, MustParse a = inr (parse_flags fl a)).

(** The documents: the configuration files, then the values of [-c]. *)
Definition main_texts : option (list gostring) :=
  files ← mapM read_file (f_config_file fl);
  Some (files ++ f_config fl).

Definition effective (given : option gostring) (set tag : gostring) : gostring :=
  if_empty (default set given) tag.

Lemma main_documents config :
  main_config = inr config ->
  exists texts ls d, main_texts = Some texts /\ mapM document texts = Some ls /\ decodes (concat ls) d /\
    exists a, config = with_config a (set_logger (args_Config a) (NewLogger (LogLevel a))) /\
      if bool_decide (texts = []) then
        a = with_config (parse_flags fl default_args)
              (Defaults slog_Default context_Background (args_Config (parse_flags fl default_args)))
      else a = parse_flags fl (doc_args d).
Proof using parses.
  unfold main_config. rewrite parses. cbn [ConfigFiles Configs with_config parse_flags default_args app].
  destruct (decode_files _ _) as [d|] eqn:Ef; [|done].
  apply decode_files_values in Ef as (files & Hf & Ed). unfold main_texts. rewrite Hf. cbn [mbind option_bind].
  destruct (decode_values (f_config fl) d) as [d'|] eqn:Ev; [|done]. intros H.
  assert (decode_values (files ++ f_config fl) default_doc = Some d') as Eall by (by rewrite decode_values_app, Ed).
  destruct (decode_values_decodes _ _ _ [] Eall) as (ls & Hls & Hd); [done|].
  exists (files ++ f_config fl), ls, d'. split_and!; [done|done|done|].
  assert (f_config_file fl = [] <-> files = []) as Hempty.
  { apply mapM_Some in Hf. split; intros E; rewrite E in Hf; [by inversion Hf|by inversion Hf]. }
  destruct (bool_decide_reflect (files ++ f_config fl = [])) as [[E1 E2]%app_eq_nil|Hne].
  - rewrite bool_decide_true in H by (split; [by apply Hempty|done]). cbn [negb] in H. injection H as <-.
    exists (with_config (parse_flags fl default_args)
              (Defaults slog_Default context_Background (args_Config (parse_flags fl default_args)))). by split.
  - rewrite bool_decide_false in H by (intros [E1 E2]; apply Hne; by rewrite (proj1 Hempty E1), E2).
    cbn [negb] in H. rewrite parses in H. injection H as <-. exists (parse_flags fl (doc_args d')). by split.
Qed.

(** What the user asked for, with the settings [ms] of the documents. *)
Definition expected (ms : list (gostring * json)) : option Args :=
  '(dbs, fls, dirs, nats, wa) ← list_settings ms;
  let set_level := int_setting ms (gs "log_level") 0 in
  let level := default (if (set_level =? 0)%Z then (-2)%Z else set_level) (f_loglevel fl) in
  Some {| args_Config :=
       {| TemplatesDir := effective (f_dir fl) (string_setting ms (gs "templates_dir") []) (gs "templates");
          TemplatesFS := None;
          TemplateExtension := effective (f_ext fl) (string_setting ms (gs "template_extension") []) (gs ".html");
          Minify := default true (f_minify fl);
          Databases := sl_items dbs; Flags := sl_items fls; Directories := sl_items dirs; Nats := sl_items nats;
          CustomProviders := [];
          LDelim := effective (f_ldelim fl) (string_setting ms (gs "left") []) (gs "{{");
          RDelim := effective (f_rdelim fl) (string_setting ms (gs "right") []) (gs "}}");
          FuncMaps := []; config_Ctx := Some context_Background; config_Logger := Some (NewLogger level) |};
     Watch := sl_items wa ++ f_watch fl;
     WatchTemplates := default (bool_setting ms (gs "watch_templates") true) (f_watch_templates fl);
     Listen := default (string_setting ms (gs "listen") (gs "0.0.0.0:8080")) (f_listen fl);
     LogLevel := level; Configs := f_config fl; ConfigFiles := f_config_file fl |}.

(** C10: the whole configuration [Main] starts the server with is determined by the
    command line, the documents (the configuration files, then the [-c] values) and the
    defaults.  Each string is the one of the command line, or else that of the last
    document that sets it, or else the default; the listen address, the log level and
    the switch for watching templates likewise.  Databases, flags, directories and NATS
    fields come from the documents alone: an array is decoded over the one that earlier
    documents made, element by element, and null or an empty array removes it.  The
    directories to watch are those of the documents and then those of the command line.
    But a log level of 0 in a document gives -2, and whether templates are minified does
    not depend on the documents at all. *)
Theorem main_settings config :
  main_config = inr config ->
  exists texts ls, main_texts = Some texts /\ mapM document texts = Some ls /\
    expected (concat ls) =
    Some (with_config config (Defaults slog_Default context_Background (args_Config config))).
Proof using parses.
  intros (texts & ls & d & Ht & Hl & [Hd Hlists] & a & -> & Ha)%main_documents. exists texts, ls. split_and!; [done|done|].
  assert (forall g s tag, if_empty (flag g [] tag s) tag = effective g s tag) as Heff.
  { intros [g|] s tag; unfold effective, if_empty, flag; cbn; [done|]. repeat case_bool_decide; done. }
  assert (forall s tag, if_empty (if_empty s tag) tag = if_empty s tag) as Hidem.
  { intros s tag. unfold if_empty. repeat case_bool_decide; done. }
  assert (forall g old, flag g 0%Z (-2)%Z old = default (if (old =? 0)%Z then (-2)%Z else old) g) as Hlevel.
  { intros [g|] old; cbn; [done|]. by destruct (bool_decide_reflect (old = 0%Z)) as [->|E%Z.eqb_neq]; [|rewrite E]. }
  assert (forall g old, flag g false true old = default true g) as Hmin.
  { intros [g|] old; cbn; [done|]. by destruct old. }
  assert (forall g old, flag g false false old = default old g) as Hwt.
  { intros [g|] old; cbn; [done|]. by destruct old. }
  assert (forall (g : option gostring) old, flag g [] [] old = default old g) as Hli.
  { intros [g|] [|c old]; done. }
  unfold expected. destruct (bool_decide_reflect (texts = [])) as [E|_]; subst a.
  - rewrite E in Hl. injection Hl as <-. unfold Defaults, with_config, set_logger, parse_flags. cbn -[flag effective if_empty].
    by rewrite !Hidem, !Heff, Hlevel, Hmin, Hwt, Hli.
  - rewrite Hlists. unfold Defaults, with_config, set_logger, parse_flags, lists. cbn -[flag effective if_empty].
    unfold scalars, settings in Hd. injection Hd as -> -> _ -> -> -> -> ->.
    by rewrite !Heff, Hlevel, Hmin, Hwt, Hli.
Qed.

(** C34: [Main] watches the template directory on disk whenever watching templates is
    on, also when an override makes the server load its templates from another file
    system; and it exits with code 4 when that directory cannot be watched. *)
Theorem main_watches_disk config overrides next choice wd wd' rs c ld :
  main_config = inr config -> WatchTemplates config = true ->
  Config_Server (args_Config config) overrides next choice wd = Ret (wd', rs, Ok (c, ld)) ->
  let dirs := Watch config ++ [TemplatesDir (args_Config config)] in
  Main overrides next choice wd =
  Ret (wd', match watch_Watch dirs with Some _ => Exit 4 | None => Serving (Listen config) dirs c ld end).
Proof using parses.
  intros Hm Hw Hs dirs. unfold Main. rewrite Hm, Hs. cbn [mbind outcome_bind].
  assert (TemplatesFS (args_Config config) = None) as Hfs.
  { apply main_documents in Hm as (texts & ls & d & _ & _ & _ & a & -> & Ha).
    destruct (bool_decide _); by subst a. }
  assert (watch_dirs config = dirs) as ->.
  { unfold watch_dirs. rewrite Hw, (bool_decide_true (TemplatesFS _ = None)) by done. done. }
  rewrite bool_decide_false by (unfold dirs; by destruct (Watch config)).
  by destruct (watch_Watch dirs).
Qed.
End parsed.
End app.
