(* ===== verification/Server.v ===== *)
(** * The reloadable server (server.go)

    [Reload], [Stop] and requests run in goroutines of their own; the model lets
    them take turns at every access to shared state.  An instance and its context
    are known by the id [Config.Instance] takes from the process-wide counter.
    Building an instance either succeeds or fails; what it does meanwhile does not
    touch the server. *)

From S2P Require Import Prelude.

(** ** The shared state *)

Record Server := {
  sv_instance : option nat;         (* x.instance *)
  sv_cancel : option nat;           (* x.cancel: the context it cancels *)
  sv_mutex : option nat;            (* the goroutine that holds x.mutex *)
  sv_done : gset nat;               (* the contexts cancelled so far *)
  sv_made : gset nat;               (* the contexts [Reload] made so far *)
  sv_next : nat;                    (* nextInstanceIdentity *)
  sv_parent_done : bool             (* x.config.Ctx is done *)
}.

Definition new_server : Server :=
  {| sv_instance := None; sv_cancel := None; sv_mutex := None; sv_done := ∅; sv_made := ∅;
     sv_next := 0; sv_parent_done := false |}.

(** Where a goroutine is; a [Reload] remembers the instance it found. *)
Inductive pc :=
| RStart
| RLocked
| RLoaded (old : option nat)
| RBuilt (old : option nat) (new : nat)
| RSwapped (old : option nat) (new : nat)
| RCancelled (old : option nat) (new : nat)
| RInstalled (old : option nat) (new : nat)
| RFailed (old : option nat) (new : nat)
| ROk (new : nat)
| RErr
| SStart
| SLocked
| SCancelled
| SCleared
| SStored
| SDone
| QStart
| QLoaded (o : option nat)
| QServed (i : nat)
| QStopped (i : nat)
| QPanic.

Definition set_mutex (x : Server) (m : option nat) : Server :=
  {| sv_instance := sv_instance x; sv_cancel := sv_cancel x; sv_mutex := m; sv_done := sv_done x;
     sv_made := sv_made x; sv_next := sv_next x; sv_parent_done := sv_parent_done x |}.
Definition set_instance (x : Server) (i : option nat) : Server :=
  {| sv_instance := i; sv_cancel := sv_cancel x; sv_mutex := sv_mutex x; sv_done := sv_done x;
     sv_made := sv_made x; sv_next := sv_next x; sv_parent_done := sv_parent_done x |}.
Definition set_cancel (x : Server) (c : option nat) : Server :=
  {| sv_instance := sv_instance x; sv_cancel := c; sv_mutex := sv_mutex x; sv_done := sv_done x;
     sv_made := sv_made x; sv_next := sv_next x; sv_parent_done := sv_parent_done x |}.
Definition cancel (x : Server) (c : nat) : Server :=
  {| sv_instance := sv_instance x; sv_cancel := sv_cancel x; sv_mutex := sv_mutex x;
     sv_done := {[c]} ∪ sv_done x;
     sv_made := sv_made x; sv_next := sv_next x; sv_parent_done := sv_parent_done x |}.
Definition call_cancel (x : Server) : Server :=
  match sv_cancel x with Some c => cancel x c | None => x end.

(** A new context and the instance built with it get the next id. *)
Definition next_id (x : Server) : nat := S (sv_next x).
Definition make_instance (x : Server) : Server :=
  {| sv_instance := sv_instance x; sv_cancel := sv_cancel x; sv_mutex := sv_mutex x;
     sv_done := sv_done x; sv_made := {[next_id x]} ∪ sv_made x; sv_next := next_id x;
     sv_parent_done := sv_parent_done x |}.

Definition ctx_done (x : Server) (i : nat) : bool := sv_parent_done x || bool_decide (i ∈ sv_done x).

(** ** The steps *)

(** [x.mutex.Lock()], when it is free. *)
Definition lock (t : nat) (x : Server) (p : pc) : option (Server * pc) :=
  match sv_mutex x with
  | None => Some (set_mutex x (Some t), p)
  | Some _ => None
  end.

(** The steps of [Reload]; [ok] tells whether [config.Instance] succeeds. *)
Definition reload_next (t : nat) (ok : bool) (x : Server) (p : pc) : option (Server * pc) :=
  match p with
  | RStart => lock t x RLocked
  | RLocked => Some (x, RLoaded (sv_instance x))
  | RLoaded old =>
      let new := next_id x in
      let x := make_instance x in
      if ok then Some (x, RBuilt old new) else Some (cancel x new, RFailed old new)
  | RBuilt old new =>
      (* x.instance.CompareAndSwap(old, new_) *)
      Some (if bool_decide (sv_instance x = old) then set_instance x (Some new) else x, RSwapped old new)
  | RSwapped old new => Some (call_cancel x, RCancelled old new)
  | RCancelled old new => Some (set_cancel x (Some new), RInstalled old new)
  | RInstalled _ new => Some (set_mutex x None, ROk new)
  | RFailed _ _ => Some (set_mutex x None, RErr)
  | _ => None
  end.

(** The steps of [Stop]. *)
Definition stop_next (t : nat) (x : Server) (p : pc) : option (Server * pc) :=
  match p with
  | SStart => lock t x SLocked
  | SLocked => Some (call_cancel x, SCancelled)
  | SCancelled => Some (set_cancel x None, SCleared)
  | SCleared => Some (set_instance x None, SStored)
  | SStored => Some (set_mutex x None, SDone)
  | _ => None
  end.

(** The steps of a request: [Handler] loads the instance, whose [ServeHTTP] looks
    at its context first; a method call on a nil instance panics there. *)
Definition request_next (x : Server) (p : pc) : option (Server * pc) :=
  match p with
  | QStart => Some (x, QLoaded (sv_instance x))
  | QLoaded None => Some (x, QPanic)
  | QLoaded (Some i) => Some (x, if ctx_done x i then QStopped i else QServed i)
  | _ => None
  end.

Definition thread_next (t : nat) (ok : bool) (x : Server) (p : pc) : option (Server * pc) :=
  match reload_next t ok x p with
  | Some r => Some r
  | None =>
      match stop_next t x p with
      | Some r => Some r
      | None => request_next x p
      end
  end.

(** The server and its goroutines; the first one is the [Reload] of
    [Config.Server], and the others start when it has succeeded. *)
Record system := { sys_server : Server; sys_threads : list pc }.

Definition init : system := {| sys_server := new_server; sys_threads := [RStart] |}.

Definition built (s : system) : bool :=
  match sys_threads s !! 0 with Some (ROk _) => true | _ => false end.

Definition run_thread (s : system) (t : nat) (ok : bool) : option system :=
  p ← sys_threads s !! t;
  '(x, p) ← thread_next t ok (sys_server s) p;
  Some {| sys_server := x; sys_threads := <[t := p]> (sys_threads s) |}.

Inductive event :=
| Run (t : nat) (ok : bool)       (* goroutine [t] takes a step *)
| Reload | Stop | Request         (* a call, in a new goroutine *)
| Tick                            (* another instance of the process takes an id *)
| ParentDone.                     (* the context of the configuration is cancelled *)

Definition spawn (s : system) (p : pc) : option system :=
  if built s then Some {| sys_server := sys_server s; sys_threads := sys_threads s ++ [p] |} else None.

Definition with_server (s : system) (x : Server) : system :=
  {| sys_server := x; sys_threads := sys_threads s |}.

Definition step (s : system) (e : event) : option system :=
  let x := sys_server s in
  match e with
  | Run t ok => run_thread s t ok
  | Reload => spawn s RStart
  | Stop => spawn s SStart
  | Request => spawn s QStart
  | Tick => Some (with_server s
      {| sv_instance := sv_instance x; sv_cancel := sv_cancel x; sv_mutex := sv_mutex x;
         sv_done := sv_done x; sv_made := sv_made x; sv_next := S (sv_next x);
         sv_parent_done := sv_parent_done x |})
  | ParentDone => Some (with_server s
      {| sv_instance := sv_instance x; sv_cancel := sv_cancel x; sv_mutex := sv_mutex x;
         sv_done := sv_done x; sv_made := sv_made x; sv_next := sv_next x; sv_parent_done := true |})
  end.

Inductive reachable : system -> Prop :=
| reach_init : reachable init
| reach_step s e s' : reachable s -> step s e = Some s' -> reachable s'.

Definition run (es : list event) : option system := run_steps step init es.

Lemma run_reachable es s : run es = Some s -> reachable s.
Proof. apply run_steps_ind; [apply reach_step|apply reach_init]. Qed.

(** ** The invariant *)

(** The only context of this server that is not cancelled is [cur]. *)
Definition live (x : Server) (cur : option nat) : Prop :=
  (forall i, i ∈ sv_made x -> i ∈ sv_done x \/ cur = Some i) /\
  (forall i, cur = Some i -> i ∈ sv_made x /\ (i ∉ sv_done x)).

Definition settled (x : Server) : Prop := sv_cancel x = sv_instance x /\ live x (sv_instance x).

Definition newer (old : option nat) (new : nat) : Prop := forall i, old = Some i -> i < new.

(** The part of a [Reload] or [Stop] under the mutex, and what holds there. *)
Definition shape (x : Server) (p : pc) : option Prop :=
  match p with
  | RLocked | SLocked => Some (settled x)
  | RLoaded old => Some (settled x /\ sv_instance x = old)
  | RBuilt old new =>
      Some (sv_instance x = old /\ sv_cancel x = old /\ newer old new /\
            new ∈ sv_made x /\ (new ∉ sv_done x) /\
            (forall i, i ∈ sv_made x -> i ∈ sv_done x \/ old = Some i \/ i = new) /\
            (forall i, old = Some i -> i ∈ sv_made x))
  | RSwapped old new =>
      Some (sv_instance x = Some new /\ sv_cancel x = old /\ newer old new /\
            new ∈ sv_made x /\ (new ∉ sv_done x) /\
            (forall i, i ∈ sv_made x -> i ∈ sv_done x \/ old = Some i \/ i = new) /\
            (forall i, old = Some i -> i ∈ sv_made x))
  | RCancelled old new =>
      Some (sv_instance x = Some new /\ newer old new /\ live x (Some new) /\
            (forall i, old = Some i -> i ∈ sv_done x))
  | RInstalled old new =>
      Some (settled x /\ sv_instance x = Some new /\ newer old new /\
            (forall i, old = Some i -> i ∈ sv_done x))
  | RFailed old new => Some (settled x /\ sv_instance x = old /\ new ∈ sv_done x)
  | SCancelled => Some (live x None)
  | SCleared => Some (sv_cancel x = None /\ live x None)
  | SStored => Some (settled x /\ sv_instance x = None)
  | _ => None
  end.

Definition critical (p : pc) : bool :=
  match p with
  | RLocked | RLoaded _ | RBuilt _ _ | RSwapped _ _ | RCancelled _ _ | RInstalled _ _ | RFailed _ _
  | SLocked | SCancelled | SCleared | SStored => true
  | _ => false
  end.

Definition bounded (x : Server) : Prop := forall i, i ∈ sv_made x \/ i ∈ sv_done x -> i <= sv_next x.

(** What a step of the goroutine that holds the mutex leads to: it goes on, or
    gives the mutex back with the server settled. *)
Definition goes_on (x : Server) (x' : Server) (p' : pc) : Prop :=
  bounded x' /\
  ((exists P, shape x' p' = Some P /\ P /\ sv_mutex x' = sv_mutex x) \/
   (critical p' = false /\ sv_mutex x' = None /\ settled x')).

Lemma goes_on_intro x x' p' P :
  bounded x' -> shape x' p' = Some P -> sv_mutex x' = sv_mutex x -> P -> goes_on x x' p'.
Proof. intros. split; [done|]. left. by exists P. Qed.

Lemma goes_on_release x x' p' :
  bounded x' -> critical p' = false -> sv_mutex x' = None -> settled x' -> goes_on x x' p'.
Proof. intros. split; [done|]. by right. Qed.

Ltac goes := eapply goes_on_intro; [|reflexivity|reflexivity|]; cbn; try done.

Lemma call_cancel_spec x :
  sv_instance (call_cancel x) = sv_instance x /\ sv_cancel (call_cancel x) = sv_cancel x /\
  sv_mutex (call_cancel x) = sv_mutex x /\ sv_made (call_cancel x) = sv_made x /\
  sv_next (call_cancel x) = sv_next x /\
  forall i, i ∈ sv_done (call_cancel x) <-> sv_cancel x = Some i \/ i ∈ sv_done x.
Proof.
  unfold call_cancel. destruct (sv_cancel x) as [c|] eqn:E; cbn; split_and!; try done; intros i; set_solver.
Qed.

Lemma reload_build_step t ok x old x' p' :
  bounded x -> settled x -> sv_instance x = old -> thread_next t ok x (RLoaded old) = Some (x', p') ->
  goes_on x x' p'.
Proof.
  intros Hb [H1 [H2 H3]] <- Hn. cbn in Hn.
  assert (next_id x ∉ sv_made x /\ next_id x ∉ sv_done x) as [Hf Hf']
    by (split; intros Hi; [specialize (Hb _ (or_introl Hi))|specialize (Hb _ (or_intror Hi))]; unfold next_id in *; lia).
  destruct ok; injection Hn as <- <-; goes.
  - intros i. cbn. unfold next_id. set_unfold. intros [[->|Hi]|Hi]; [lia| |];
      [specialize (Hb _ (or_introl Hi))|specialize (Hb _ (or_intror Hi))]; lia.
  - split_and!; try done; try set_solver.
    intros i Hi. apply H3 in Hi as [Hi _]. specialize (Hb _ (or_introl Hi)). unfold next_id. lia.
  - intros i. cbn. unfold next_id. set_unfold. intros [[->|Hi]|[->|Hi]]; try lia;
      [specialize (Hb _ (or_introl Hi))|specialize (Hb _ (or_intror Hi))]; lia.
  - split_and!; [|done|set_solver]. split; [done|]. split; cbn; [set_solver|].
    intros i Hi. destruct (H3 i Hi) as [Hm Hd]. split; [set_solver|].
    set_unfold. intros [->|?]; done.
Qed.

Lemma holder_step t ok x p P x' p' :
  bounded x -> shape x p = Some P -> P -> thread_next t ok x p = Some (x', p') -> goes_on x x' p'.
Proof.
  intros Hb Hs HP Hn. destruct (call_cancel_spec x) as (C1 & C2 & C3 & C4 & C5 & C6).
  destruct p; try done; cbn in Hs; injection Hs as <-; cbn in Hn.
  - injection Hn as <- <-. by goes.
  - destruct HP. by eapply reload_build_step.
  - destruct HP as (H1 & H2 & H3 & H4 & H5 & H6 & H7). rewrite bool_decide_true in Hn by done.
    injection Hn as <- <-. by goes.
  - destruct HP as (H1 & H2 & H3 & H4 & H5 & H6 & H7). injection Hn as <- <-.
    eapply goes_on_intro; [|reflexivity|done|].
    + intros i. rewrite C4, C5, C6. intros [Hi|[Hi|Hi]]; apply Hb; auto. left. apply H7. congruence.
    + cbn. split_and!; [congruence|done| |].
      * split; intros i; rewrite C4, C6; [intros Hi; destruct (H6 i Hi) as [?|[?| ->]]; auto; left; left; congruence|].
        intros [= <-]. split; [done|]. intros [E|?]; [|done]. rewrite H2 in E. apply H3 in E. lia.
      * intros i Hi. rewrite C6. left. congruence.
  - destruct HP as (H1 & H2 & H3 & H4). injection Hn as <- <-. goes. split_and!; try done. split; cbn; [done|].
    by rewrite H1.
  - destruct HP as (H1 & H2 & H3 & H4). injection Hn as <- <-. by apply goes_on_release.
  - destruct HP as (H1 & H2 & H3). injection Hn as <- <-. by apply goes_on_release.
  - injection Hn as <- <-. destruct HP as [H1 [H2 H3]]. eapply goes_on_intro; [|reflexivity|done|].
    + intros i. rewrite C4, C5, C6. intros [Hi|[Hi|Hi]]; apply Hb; auto. left. apply H3. congruence.
    + cbn. split; [|done]. intros i. rewrite C4, C6. intros Hi. left. destruct (H2 i Hi) as [?|?]; auto. left. congruence.
  - injection Hn as <- <-. goes.
  - destruct HP as [H1 H2]. injection Hn as <- <-. goes.
  - destruct HP as [H1 H2]. injection Hn as <- <-. by apply goes_on_release.
Qed.

(** Goroutines outside of the mutex leave the server alone, except for taking it. *)
Lemma outside_step t ok x p x' p' :
  critical p = false -> thread_next t ok x p = Some (x', p') ->
  (x' = x /\ critical p' = false) \/
  (sv_mutex x = None /\ x' = set_mutex x (Some t) /\ (p' = RLocked \/ p' = SLocked)).
Proof.
  intros Hc Hn. unfold thread_next, lock in Hn.
  destruct p; try done; cbn [reload_next stop_next request_next] in Hn; unfold lock in Hn; repeat case_match;
    simplify_eq; auto.
Qed.

Lemma shape_critical x p : critical p = true <-> is_Some (shape x p).
Proof. destruct p; cbn; split; try done; try (by eauto); by intros [? ?]. Qed.

Record sys_inv (s : system) : Prop := {
  inv_bounded : bounded (sys_server s);
  inv_mutual : forall t p, sys_threads s !! t = Some p -> critical p = true -> sv_mutex (sys_server s) = Some t;
  inv_free : sv_mutex (sys_server s) = None -> settled (sys_server s);
  inv_holder : forall t, sv_mutex (sys_server s) = Some t ->
    exists p P, sys_threads s !! t = Some p /\ shape (sys_server s) p = Some P /\ P
}.

Lemma lookup_insert_cases {A} (l : list A) t t' p q :
  <[t := p]> l !! t' = Some q -> (t' = t /\ q = p) \/ (t' <> t /\ l !! t' = Some q).
Proof. intros [(-> & <- & _)|[? ?]]%list_lookup_insert_Some; auto. Qed.

Lemma run_thread_inv s t ok s' : sys_inv s -> run_thread s t ok = Some s' -> sys_inv s'.
Proof.
  intros [I1 I2 I3 I4]. unfold run_thread. destruct (sys_threads s !! t) as [p|] eqn:Et; [|done]. cbn.
  destruct (thread_next t ok (sys_server s) p) as [[x' p']|] eqn:En; [|done]. cbn. intros [= <-].
  assert (t < length (sys_threads s)) as Hlt by (by eapply lookup_lt_Some).
  destruct (critical p) eqn:Ec.
  - pose proof (I2 _ _ Et Ec) as Hm. destruct (I4 _ Hm) as (p0 & P & Ht & Hs & HP).
    rewrite Et in Ht. injection Ht as <-.
    destruct (holder_step _ _ _ _ _ _ _ I1 Hs HP En) as [Hb Hgo].
    assert (forall t' q, t' <> t -> sys_threads s !! t' = Some q -> critical q = false) as Hothers.
    { intros t' q Hne Hq. destruct (critical q) eqn:Eq; [|done]. rewrite (I2 _ _ Hq Eq) in Hm. congruence. }
    split; cbn; [done| | |].
    + intros t' q [[-> ->]|[Hne Hq]]%lookup_insert_cases Hcq; [|by rewrite (Hothers _ _ Hne Hq) in Hcq].
      destruct Hgo as [(Q & _ & _ & ->)|(Hcf & _)]; [done|congruence].
    + intros Hnone. destruct Hgo as [(Q & _ & _ & Hm')|(_ & _ & ?)]; [congruence|done].
    + intros t' Ht'. destruct Hgo as [(Q & HQ & HQ' & Hm')|(_ & Hm' & _)]; [|congruence].
      rewrite Hm', Hm in Ht'. injection Ht' as <-. exists p', Q. by rewrite list_lookup_insert_eq.
  - destruct (outside_step _ _ _ _ _ _ Ec En) as [[-> Hc']|(Hfree & -> & Hp')].
    + split; cbn; [done| |done|].
      * intros t' q [[-> ->]|[Hne Hq]]%lookup_insert_cases Hcq; [congruence|by eapply I2].
      * intros t' Ht'. destruct (I4 _ Ht') as (p0 & P & H1 & H2 & H3). exists p0, P.
        rewrite list_lookup_insert_ne; [done|]. intros <-. rewrite Et in H1. injection H1 as <-.
        assert (critical p = true) by (apply (shape_critical (sys_server s)); eauto). congruence.
    + split; cbn; [done| |done|].
      * intros t' q [[-> ->]|[Hne Hq]]%lookup_insert_cases Hcq; [done|]. rewrite (I2 _ _ Hq Hcq) in Hfree. done.
      * intros t' [= <-]. exists p', (settled (set_mutex (sys_server s) (Some t))).
        rewrite list_lookup_insert_eq by done. split_and!; [done| |by apply I3].
        by destruct Hp' as [-> | ->].
Qed.

Lemma spawn_inv s p s' : critical p = false -> sys_inv s -> spawn s p = Some s' -> sys_inv s'.
Proof.
  intros Hp [I1 I2 I3 I4]. unfold spawn. destruct (built s); [|done]. intros [= <-]. split; cbn; [done| |done|].
  - intros t q [Hq|[_ Hq]]%lookup_app_Some Hc; [by eapply I2|].
    apply list_lookup_singleton_Some in Hq as [_ <-]. congruence.
  - intros t Ht. destruct (I4 _ Ht) as (q & P & H1 & H2 & H3). exists q, P. split; [|done].
    by apply lookup_app_l_Some.
Qed.

Lemma reachable_inv s : reachable s -> sys_inv s.
Proof.
  induction 1 as [|s e s' _ IH Hs].
  { split; cbn; [intros i; cbn; set_solver| |intros _; split; [done|split; cbn; set_solver]|done].
    intros [|t] p Hp Hc; [by injection Hp as <-|done]. }
  destruct e; cbn in Hs; try (by eapply spawn_inv; [|done|done]); [by eapply run_thread_inv| |];
    injection Hs as <-; destruct IH as [I1 I2 I3 I4]; split; cbn; try done.
  intros i Hi. cbn in *. specialize (I1 i Hi). lia.
Qed.

(** ** Requests and the instance *)

Definition is_stop (p : pc) : bool :=
  match p with SStart | SLocked | SCancelled | SCleared | SStored | SDone => true | _ => false end.

(** Once the server exists, the instance is only missing when [Stop] was called,
    and the same holds of the instance a request found. *)
Definition stopped (s : system) : Prop := exists t p, sys_threads s !! t = Some p /\ is_stop p = true.

Record never_nil (s : system) : Prop := {
  nn_server : built s = true -> sv_instance (sys_server s) = None -> stopped s;
  nn_request : forall t p, sys_threads s !! t = Some p -> p = QLoaded None \/ p = QPanic -> stopped s;
  nn_first : built s = false ->
    exists p, sys_threads s = [p] /\ p <> QLoaded None /\ p <> QPanic /\ p <> QStart /\ is_stop p = false
}.

Lemma thread_next_stop t ok x p x' p' : thread_next t ok x p = Some (x', p') -> is_stop p' = is_stop p.
Proof.
  unfold thread_next, lock. destruct p; try done; cbn [reload_next stop_next request_next]; unfold lock;
    intros; repeat case_match; by simplify_eq.
Qed.

Lemma stopped_insert s t p p' x :
  sys_threads s !! t = Some p -> is_stop p' = is_stop p ->
  stopped s -> stopped {| sys_server := x; sys_threads := <[t := p']> (sys_threads s) |}.
Proof.
  intros Ht Hp (t0 & q & Hq & Hs). destruct (decide (t0 = t)) as [->|Hne].
  - exists t, p'. cbn. rewrite list_lookup_insert_eq by (by eapply lookup_lt_Some).
    rewrite Ht in Hq. injection Hq as <-. by rewrite Hp.
  - exists t0, q. cbn. by rewrite list_lookup_insert_ne.
Qed.

(** Only [Stop] removes the instance. *)
Lemma thread_next_instance t ok x p x' p' :
  thread_next t ok x p = Some (x', p') -> sv_instance x' = None -> sv_instance x = None \/ is_stop p = true.
Proof.
  unfold thread_next, lock. destruct p; try done; cbn [reload_next stop_next request_next]; unfold lock, call_cancel;
    intros; repeat case_match; simplify_eq; auto.
Qed.

Lemma thread_next_request t ok x p x' p' :
  thread_next t ok x p = Some (x', p') -> p' = QLoaded None \/ p' = QPanic ->
  (p = QStart /\ sv_instance x = None) \/ p = QLoaded None.
Proof.
  unfold thread_next, lock. destruct p; try done; cbn [reload_next stop_next request_next]; unfold lock, call_cancel;
    intros Hn Hp; repeat case_match; simplify_eq; destruct Hp; simplify_eq; auto.
Qed.

Lemma thread_next_not_start t ok x p x' p' : thread_next t ok x p = Some (x', p') -> p' <> QStart.
Proof.
  unfold thread_next, lock. destruct p; try done; cbn [reload_next stop_next request_next]; unfold lock, call_cancel;
    intros Hn; repeat case_match; by simplify_eq.
Qed.

Lemma thread_next_ok t ok x p x' i :
  thread_next t ok x p = Some (x', ROk i) -> exists old, p = RInstalled old i /\ sv_instance x' = sv_instance x.
Proof.
  unfold thread_next, lock. destruct p; try done; cbn [reload_next stop_next request_next]; unfold lock, call_cancel;
    intros Hn; repeat case_match; simplify_eq; eauto.
Qed.

Lemma run_thread_nil s t ok s' : sys_inv s -> never_nil s -> run_thread s t ok = Some s' -> never_nil s'.
Proof.
  intros Hi [N1 N2 N3]. unfold run_thread. destruct (sys_threads s !! t) as [p|] eqn:Et; [|done]. cbn.
  destruct (thread_next t ok (sys_server s) p) as [[x' p']|] eqn:En; [|done]. cbn. intros [= <-].
  set (s' := {| sys_server := x'; sys_threads := <[t := p']> (sys_threads s) |}).
  assert (stopped s -> stopped s') as Hkeep by (eapply stopped_insert; [done|by eapply thread_next_stop]).
  assert (is_stop p = true -> stopped s') as Hstop by (intros; apply Hkeep; by exists t, p).
  destruct (built s) eqn:Eb.
  - assert (built s' = true) as Eb'.
    { unfold built in *. cbn. destruct (decide (t = 0)) as [->|Hne]; [|by rewrite list_lookup_insert_ne].
      rewrite Et in Eb. by destruct p. }
    split; [| |by rewrite Eb'].
    + intros _ Hnone. cbn in Hnone. destruct (thread_next_instance _ _ _ _ _ _ En Hnone); auto.
    + intros t0 q [[-> ->]|[Hne Hq]]%lookup_insert_cases Hc; [|by eapply Hkeep, N2].
      destruct (thread_next_request _ _ _ _ _ _ En Hc) as [[-> Hnone]| ->]; [by apply Hkeep, N1|].
      eapply Hkeep, N2; [done|by left].
  - destruct (N3 eq_refl) as (q & Hq & H1 & H2 & H3 & H4). rewrite Hq in Et.
    apply list_lookup_singleton_Some in Et as [-> ->].
    assert (p' <> QLoaded None /\ p' <> QPanic) as [P1 P2].
    { split; intros ->; destruct (thread_next_request _ _ _ _ _ _ En) as [[? _]|?]; auto. }
    split.
    + unfold built. cbn. rewrite Hq. cbn. intros Hb. destruct p'; try done.
      destruct (thread_next_ok _ _ _ _ _ _ En) as (old & -> & ->). intros Hnone.
      assert (sys_threads s !! 0 = Some (RInstalled old new)) as Ht by (by rewrite Hq).
      pose proof (inv_mutual s Hi _ _ Ht eq_refl) as Hm.
      destruct (inv_holder s Hi _ Hm) as (p0 & P & Hp0 & Hs & HP). rewrite Ht in Hp0. injection Hp0 as <-.
      cbn in Hs. injection Hs as <-. destruct HP as (_ & HP & _). congruence.
    + intros t0 q0. unfold s'. cbn. rewrite Hq. intros Hl [-> | ->];
        apply list_lookup_singleton_Some in Hl as [_ Hl]; congruence.
    + intros _. exists p'. unfold s'. cbn. rewrite Hq. split_and!; [done|done|done|by eapply thread_next_not_start|].
      by rewrite (thread_next_stop _ _ _ _ _ _ En).
Qed.

Lemma stopped_snoc s p x : stopped s -> stopped {| sys_server := x; sys_threads := sys_threads s ++ [p] |}.
Proof. intros (t & q & Hq & Hs). exists t, q. split; [|done]. by apply lookup_app_l_Some. Qed.

Lemma spawn_nil s p s' :
  p <> QLoaded None -> p <> QPanic -> never_nil s -> spawn s p = Some s' -> never_nil s'.
Proof.
  intros P1 P2 [N1 N2 N3]. unfold spawn. destruct (built s) eqn:Eb; [|done]. intros [= <-].
  assert (sys_threads s <> []) as Hne by (unfold built in Eb; by destruct (sys_threads s)).
  split; cbn.
  - intros _ Hn. by apply stopped_snoc, N1.
  - intros t q [Hq|[_ Hq]]%lookup_app_Some Hc; [by eapply stopped_snoc, N2|].
    apply list_lookup_singleton_Some in Hq as [_ <-]. by destruct Hc.
  - unfold built in *. cbn. intros Hf. exfalso. destruct (sys_threads s) as [|q ts]; [done|]. cbn in *. congruence.
Qed.

Lemma reachable_nil s : reachable s -> never_nil s.
Proof.
  induction 1 as [|s e s' Hr IH Hs].
  { split; cbn; [done| |by exists RStart]. intros [|t] p Hp; [injection Hp as <-; by intros [?|?]|done]. }
  destruct e; cbn in Hs.
  - eapply run_thread_nil; [by apply reachable_inv|done|done].
  - by eapply (spawn_nil s RStart).
  - by eapply (spawn_nil s SStart).
  - by eapply (spawn_nil s QStart).
  - injection Hs as <-. destruct IH as [N1 N2 N3]. by split.
  - injection Hs as <-. destruct IH as [N1 N2 N3]. by split.
Qed.

(** ** Properties *)

(** C9: whatever reloads, stops and requests do at the same time, when no reload
    or stop is under way the function to cancel is that of the current instance,
    the current instance was not cancelled, and every other instance the server
    ever started to build was. *)
Theorem server_settled s :
  reachable s -> sv_mutex (sys_server s) = None ->
  sv_cancel (sys_server s) = sv_instance (sys_server s) /\
  forall i, i ∈ sv_made (sys_server s) ->
    (i ∈ sv_done (sys_server s) <-> sv_instance (sys_server s) <> Some i).
Proof.
  intros Hr Hm. destruct (inv_free s (reachable_inv s Hr) Hm) as [H1 [H2 H3]]. split; [done|].
  intros i Hi. split; [intros Hd E; by apply H3 in E as [_ ?]|]. intros Hne. by destruct (H2 i Hi).
Qed.

(** C12: a reload that is about to succeed has made its new instance the current
    one, with an id above that of the old one, which is cancelled; a reload that is
    about to fail has left the current instance as it was, not cancelled, and
    has cancelled the context of the failed attempt. *)
Theorem reload_outcome s t old new (succeeds : bool) :
  reachable s ->
  sys_threads s !! t = Some (if succeeds then RInstalled old new else RFailed old new) ->
  sv_mutex (sys_server s) = Some t /\
  if succeeds then
    sv_instance (sys_server s) = Some new /\ sv_cancel (sys_server s) = Some new /\
    (new ∉ sv_done (sys_server s)) /\ forall i, old = Some i -> i < new /\ i ∈ sv_done (sys_server s)
  else
    sv_instance (sys_server s) = old /\ sv_cancel (sys_server s) = old /\
    (forall i, old = Some i -> i ∉ sv_done (sys_server s)) /\ new ∈ sv_done (sys_server s).
Proof.
  intros Hr Ht. apply reachable_inv in Hr.
  assert (sv_mutex (sys_server s) = Some t) as Hm by (eapply inv_mutual; [done|done|by destruct succeeds]).
  split; [done|]. destruct (inv_holder s Hr _ Hm) as (p & P & Hp & Hs & HP). rewrite Ht in Hp.
  injection Hp as <-. destruct succeeds; cbn in Hs; injection Hs as <-.
  - destruct HP as ([H1 [H2 H3]] & H4 & H5 & H6). split_and!; [done|congruence| |].
    + by apply H3 in H4 as [_ ?].
    + intros i Hi. auto.
  - destruct HP as ([H1 [H2 H3]] & H4 & H5). split_and!; [done|congruence| |done].
    intros i Hi. rewrite <- H4 in Hi. by apply H3 in Hi as [_ ?].
Qed.

(** The steps a goroutine has left. *)
Definition rank (p : pc) : nat :=
  match p with
  | RStart => 7 | RLocked => 6 | RLoaded _ => 5 | RBuilt _ _ => 4 | RSwapped _ _ => 3
  | RCancelled _ _ => 2 | RInstalled _ _ => 1 | RFailed _ _ => 1
  | SStart => 5 | SLocked => 4 | SCancelled => 3 | SCleared => 2 | SStored => 1
  | QStart => 2 | QLoaded _ => 1
  | ROk _ | RErr | SDone | QServed _ | QStopped _ | QPanic => 0
  end.

Lemma thread_next_rank t ok x p x' p' : thread_next t ok x p = Some (x', p') -> rank p' < rank p.
Proof.
  unfold thread_next, lock. destruct p; try done; cbn [reload_next stop_next request_next]; unfold lock, call_cancel;
    intros Hn; repeat case_match; simplify_eq; cbn; lia.
Qed.

Lemma thread_next_runs t ok x p :
  rank p <> 0 -> (exists r, thread_next t ok x p = Some r) \/
                 ((p = RStart \/ p = SStart) /\ is_Some (sv_mutex x)).
Proof.
  unfold thread_next, lock. destruct p; try done; cbn [reload_next stop_next request_next]; unfold lock, call_cancel;
    intros Hn; repeat case_match; eauto.
Qed.

(** There is no deadlock: a reload, stop or request that has not returned can
    take its next step, or waits for a mutex whose holder can. *)
Lemma server_progress s t p ok :
  reachable s -> sys_threads s !! t = Some p -> rank p <> 0 ->
  exists t' p' s', (t' = t \/ ((p = RStart \/ p = SStart) /\ sv_mutex (sys_server s) = Some t')) /\
    sys_threads s !! t' = Some p' /\ run_thread s t' ok = Some s' /\
    exists p'', sys_threads s' !! t' = Some p'' /\ rank p'' < rank p'.
Proof.
  intros Hr Ht Hk. apply reachable_inv in Hr.
  assert (forall t' p', sys_threads s !! t' = Some p' -> (exists r, thread_next t' ok (sys_server s) p' = Some r) ->
    exists s', run_thread s t' ok = Some s' /\
      exists p'', sys_threads s' !! t' = Some p'' /\ rank p'' < rank p') as Hrun.
  { intros t' p' Ht' [[x q] Hq]. unfold run_thread. rewrite Ht'. cbn. rewrite Hq. cbn. eexists. split; [done|].
    exists q. cbn. rewrite list_lookup_insert_eq by (by eapply lookup_lt_Some). split; [done|].
    by eapply thread_next_rank. }
  destruct (thread_next_runs t ok (sys_server s) p Hk) as [Hn|[Hp [t' Hm]]].
  - destruct (Hrun t p Ht Hn) as (s' & H1 & H2). exists t, p, s'. split_and!; auto.
  - destruct (inv_holder s Hr _ Hm) as (p' & P & Hp' & Hs & _).
    destruct (thread_next_runs t' ok (sys_server s) p') as [Hn|[Hq _]].
    + by destruct p'.
    + destruct (Hrun t' p' Hp' Hn) as (s' & H1 & H2). exists t', p', s'. split_and!; auto.
    + by destruct Hq; subst.
Qed.

(** C19: as long as [Stop] is not called, a server that was created always has an
    instance, and no request panics for want of one. *)
Theorem request_finds_instance s :
  reachable s -> (forall t p, sys_threads s !! t = Some p -> is_stop p = false) ->
  (built s = true -> exists i, sv_instance (sys_server s) = Some i) /\
  (forall t, sys_threads s !! t <> Some QPanic).
Proof.
  intros Hr Hs. apply reachable_nil in Hr. assert (~ stopped s) as Hns.
  { intros (t & p & Hp & Hst). rewrite (Hs _ _ Hp) in Hst. done. }
  split.
  - intros Hb. destruct (sv_instance (sys_server s)) as [i|] eqn:E; [by exists i|].
    by destruct Hns; apply (nn_server s).
  - intros t Ht. destruct Hns. by eapply nn_request; [done|exact Ht|right].
Qed.

(** A reload from start to end. *)
Definition reload_by (t : nat) : list event := replicate 7 (Run t true).

(** The instance the server has and those requests found were made by it. *)
Record instances_made (s : system) : Prop := {
  im_server : forall i, sv_instance (sys_server s) = Some i -> i ∈ sv_made (sys_server s);
  im_request : forall t i, sys_threads s !! t = Some (QLoaded (Some i)) -> i ∈ sv_made (sys_server s)
}.

Lemma thread_next_made t ok x p x' p' :
  thread_next t ok x p = Some (x', p') -> sv_made x ⊆ sv_made x' /\
  (forall i, sv_instance x' = Some i -> sv_instance x = Some i \/ exists old, p = RBuilt old i) /\
  (forall i, p' = QLoaded (Some i) -> sv_instance x = Some i).
Proof.
  unfold thread_next, lock. destruct p; try done; cbn [reload_next stop_next request_next]; unfold lock, call_cancel;
    intros Hn; repeat case_match; simplify_eq; cbn; split_and!; try done; try set_solver; try naive_solver.
Qed.

Lemma reachable_made s : reachable s -> instances_made s.
Proof.
  induction 1 as [|s e s' Hr IH Hs]; [split; [done|]; by intros [|t] i|].
  assert (forall p, spawn s p = Some s' -> (forall i, p <> QLoaded (Some i)) -> instances_made s') as Hspawn.
  { intros p. unfold spawn. destruct (built s); [|done]. intros [= <-] Hp. split; cbn; [apply IH|].
    intros t i [Hq|[_ Hq]]%lookup_app_Some; [by eapply im_request|].
    apply list_lookup_singleton_Some in Hq as [_ Hq]. by destruct (Hp i). }
  destruct e as [t ok| | | | |]; cbn in Hs; try (by eapply Hspawn); [|injection Hs as <-; by destruct IH..].
  unfold run_thread in Hs. destruct (sys_threads s !! t) as [p|] eqn:Et; [|done]. cbn in Hs.
  destruct (thread_next t ok (sys_server s) p) as [[x' p']|] eqn:En; [|done]. cbn in Hs. injection Hs as <-.
  destruct (thread_next_made _ _ _ _ _ _ En) as (Hsub & Hi & Hq). split; cbn.
  - intros i Hx. apply Hsub. apply Hi in Hx as [Hx|[old ->]]; [by apply IH|].
    apply reachable_inv in Hr. pose proof (inv_mutual s Hr _ _ Et eq_refl) as Hm.
    destruct (inv_holder s Hr _ Hm) as (p0 & P & Hp0 & Hsh & HP). rewrite Et in Hp0. injection Hp0 as <-.
    cbn in Hsh. injection Hsh as <-. by destruct HP as (_ & _ & _ & ? & _).
  - intros t' i [[-> <-]|[_ Ht']]%lookup_insert_cases; apply Hsub; [by apply IH, Hq|by eapply im_request].
Qed.

(** A goroutine that takes no step stays where it is. *)
Definition idle (t : nat) (e : event) : Prop := match e with Run t' _ => t' <> t | _ => True end.

Lemma step_idle s e s' t p : idle t e -> step s e = Some s' -> sys_threads s !! t = Some p -> sys_threads s' !! t = Some p.
Proof.
  intros Hi Hs Ht. assert (forall q, spawn s q = Some s' -> sys_threads s' !! t = Some p) as Hspawn.
  { intros q. unfold spawn. destruct (built s); [|done]. intros [= <-]. by apply lookup_app_l_Some. }
  destruct e as [t' ok| | | | |]; cbn in Hs; try (by eapply Hspawn); [|by injection Hs as <-..].
  unfold run_thread in Hs. destruct (sys_threads s !! t') as [q|]; [|done]. cbn in Hs.
  destruct (thread_next t' ok (sys_server s) q) as [[x' q']|]; [|done]. cbn in Hs. injection Hs as <-. cbn.
  by rewrite list_lookup_insert_ne.
Qed.

Lemma idle_steps es s s' t p :
  Forall (idle t) es -> run_steps step s es = Some s' -> sys_threads s !! t = Some p -> sys_threads s' !! t = Some p.
Proof.
  intros Hi. revert s. induction Hi as [|e es He _ IH]; intros s; [by intros [= <-]|].
  rewrite run_steps_cons. destruct (step s e) as [s1|] eqn:E; [|done]. cbn. intros Hr Ht. eapply IH; [done|].
  by eapply step_idle.
Qed.

Lemma run_at ts p ts' x ok :
  run_thread {| sys_server := x; sys_threads := ts ++ p :: ts' |} (length ts) ok =
  '(x, p) ← thread_next (length ts) ok x p; Some {| sys_server := x; sys_threads := ts ++ p :: ts' |}.
Proof.
  unfold run_thread. cbn [sys_threads sys_server]. rewrite list_lookup_middle by done. cbn [mbind option_bind].
  destruct (thread_next (length ts) ok x p) as [[x' p']|]; [|done]. cbn [mbind option_bind].
  by rewrite insert_app_r_alt, Nat.sub_diag by done.
Qed.

(** A request that has loaded the instance while another one is put in its place. *)
Definition overtaken (n : nat) : list event := [Request; Run n true; Reload] ++ reload_by (S n).

Lemma overtaken_run s i :
  built s = true -> sv_mutex (sys_server s) = None -> sv_instance (sys_server s) = Some i ->
  let n := length (sys_threads s) in
  exists s', run_steps step s (overtaken n) = Some s' /\ sys_threads s' !! n = Some (QLoaded (Some i)) /\
    sv_mutex (sys_server s') = None /\ sv_instance (sys_server s') = Some (next_id (sys_server s)).
Proof.
  intros Hb Hm Hi. cbn zeta. destruct s as [x ts]. cbn [sys_server sys_threads] in *. unfold overtaken, reload_by.
  assert (forall q x', built {| sys_server := x'; sys_threads := ts ++ [q] |} = true) as Hb'.
  { intros q x'. unfold built in *. cbn in *. destruct ts as [|p ts]; [done|]. done. }
  assert (S (length ts) = length (ts ++ [QLoaded (Some i)])) as En by (rewrite length_app; cbn; lia).
  cbn [app]. rewrite run_steps_cons. cbn [step]. unfold spawn at 1. rewrite Hb. cbn [mbind option_bind sys_server sys_threads].
  rewrite run_steps_cons. cbn [step]. rewrite run_at. cbn [thread_next reload_next stop_next request_next mbind option_bind].
  rewrite Hi, run_steps_cons. cbn [step]. unfold spawn. rewrite Hb'. cbn [mbind option_bind sys_server sys_threads].
  rewrite En. cbn [replicate].
  assert (forall p p' es x1 x2, reload_next (length (ts ++ [QLoaded (Some i)])) true x1 p = Some (x2, p') ->
    run_steps step {| sys_server := x1; sys_threads := (ts ++ [QLoaded (Some i)]) ++ [p] |}
      (Run (length (ts ++ [QLoaded (Some i)])) true :: es) =
    run_steps step {| sys_server := x2; sys_threads := (ts ++ [QLoaded (Some i)]) ++ [p'] |} es) as Hstep.
  { intros p p' es x1 x2 E. rewrite run_steps_cons. cbn [step]. rewrite run_at. unfold thread_next. by rewrite E. }
  erewrite Hstep by (cbn; unfold lock; by rewrite Hm). do 2 erewrite Hstep by reflexivity.
  erewrite Hstep by (cbn; rewrite bool_decide_true by done; reflexivity). do 3 erewrite Hstep by reflexivity.
  eexists. split; [done|]. cbn [sys_threads sys_server]. rewrite <- app_assoc. cbn [app]. split; [by rewrite list_lookup_middle|].
  unfold call_cancel. by destruct (sv_cancel _).
Qed.

(** A request that comes when the server was stopped. *)
Definition too_late (n : nat) : list event := Stop :: replicate 5 (Run n true) ++ [Request].

Lemma too_late_run s :
  built s = true -> sv_mutex (sys_server s) = None ->
  let n := length (sys_threads s) in
  exists s', run_steps step s (too_late n) = Some s' /\ sys_threads s' !! S n = Some QStart /\
    sv_instance (sys_server s') = None.
Proof.
  intros Hb Hm. cbn zeta. destruct s as [x ts]. cbn [sys_server sys_threads] in *. unfold too_late.
  assert (forall q x', built {| sys_server := x'; sys_threads := ts ++ [q] |} = true) as Hb'.
  { intros q x'. unfold built in *. cbn in *. destruct ts as [|p ts]; [done|]. done. }
  rewrite run_steps_cons. cbn [step]. unfold spawn at 1. rewrite Hb. cbn [mbind option_bind sys_server sys_threads replicate app].
  assert (forall p p' es x1 x2, thread_next (length ts) true x1 p = Some (x2, p') ->
    run_steps step {| sys_server := x1; sys_threads := ts ++ [p] |} (Run (length ts) true :: es) =
    run_steps step {| sys_server := x2; sys_threads := ts ++ [p'] |} es) as Hstep.
  { intros p p' es x1 x2 E. rewrite run_steps_cons. cbn [step]. rewrite run_at. by rewrite E. }
  erewrite Hstep by (unfold thread_next; cbn; unfold lock; by rewrite Hm). do 4 erewrite Hstep by reflexivity.
  rewrite run_steps_cons. cbn [step]. unfold spawn. rewrite Hb'. eexists. split; [done|]. cbn [sys_threads sys_server].
  split; [|done]. rewrite <- app_assoc. rewrite lookup_app_r by lia.
  by replace (S (length ts) - length ts) with 1 by lia.
Qed.

(** C37: what makes requests fail.  A request that has loaded the instance just before
    a reload put another one in its place is refused when it goes on after the reload,
    although the server was never stopped; and a request that comes while the server
    has no instance panics, whatever happens between its two steps.  Both can happen
    from every state of a running server: a request and then a reload bring about the
    first, a stop and then a request the second. *)
Theorem request_failures s :
  reachable s ->
  (forall t i ok, sys_threads s !! t = Some (QLoaded (Some i)) -> sv_mutex (sys_server s) = None ->
     sv_instance (sys_server s) <> Some i ->
     exists s', step s (Run t ok) = Some s' /\ sys_threads s' !! t = Some (QStopped i)) /\
  (forall t ok es s', sys_threads s !! t = Some QStart -> sv_instance (sys_server s) = None -> Forall (idle t) es ->
     run_steps step s (Run t ok :: es ++ [Run t ok]) = Some s' -> sys_threads s' !! t = Some QPanic) /\
  (built s = true -> sv_mutex (sys_server s) = None ->
   let n := length (sys_threads s) in
   (forall i, sv_instance (sys_server s) = Some i ->
      exists s', run_steps step s (overtaken n) = Some s' /\ sys_threads s' !! n = Some (QLoaded (Some i)) /\
        sv_mutex (sys_server s') = None /\ sv_instance (sys_server s') <> Some i) /\
   exists s', run_steps step s (too_late n) = Some s' /\ sys_threads s' !! S n = Some QStart /\
     sv_instance (sys_server s') = None).
Proof.
  intros Hr. split_and!.
  - intros t i ok Ht Hm Hne. cbn [step]. unfold run_thread. rewrite Ht. cbn. eexists. split; [done|]. cbn.
    rewrite list_lookup_insert_eq by (by eapply lookup_lt_Some).
    destruct (inv_free s (reachable_inv s Hr) Hm) as [_ [H2 _]].
    pose proof (im_request s (reachable_made s Hr) t i Ht) as Hmade. unfold ctx_done.
    destruct (H2 i Hmade) as [Hd|?]; [|done]. rewrite (bool_decide_true (i ∈ _)) by done. by rewrite orb_true_r.
  - intros t ok es s' Ht Hn Hi. rewrite run_steps_cons. cbn [step]. unfold run_thread at 1. rewrite Ht. cbn [mbind option_bind thread_next reload_next stop_next request_next].
    rewrite Hn, run_steps_app. set (s1 := {| sys_server := _; sys_threads := _ |}).
    destruct (run_steps step s1 es) as [s2|] eqn:E; [|done]. cbn [mbind option_bind].
    assert (sys_threads s2 !! t = Some (QLoaded None)) as Ht2.
    { eapply idle_steps; [done|done|]. cbn. apply list_lookup_insert_eq. by eapply lookup_lt_Some. }
    rewrite run_steps_cons. cbn [step]. unfold run_thread. rewrite Ht2. cbn. intros [= <-]. cbn.
    apply list_lookup_insert_eq. by eapply lookup_lt_Some.
  - intros Hb Hm n. split; [|by apply too_late_run]. intros i Hi.
    destruct (overtaken_run s i Hb Hm Hi) as (s' & H1 & H2 & H3 & H4). exists s'. split_and!; try done.
    rewrite H4. intros [= E]. pose proof (inv_bounded s (reachable_inv s Hr) i) as Hbd.
    specialize (Hbd (or_introl (im_server s (reachable_made s Hr) i Hi))). unfold next_id in E. lia.
Qed.

(** ** Examples *)

(** A server whose second load fails. *)
Definition failing_events : list event :=
  reload_by 0 ++ [Reload; Run 1 true; Run 1 true; Run 1 false].

Definition after (es : list event) : system := default init (run es).

Lemma after_reachable es : is_Some (run es) -> reachable (after es).
Proof. intros [s Hs]. unfold after. rewrite Hs. by eapply run_reachable. Qed.

Lemma server_settled_witness :
  sv_cancel (sys_server (after (reload_by 0))) = Some 1 /\
  (1 ∈ sv_done (sys_server (after (reload_by 0))) <-> False).
Proof.
  destruct (server_settled (after (reload_by 0))) as [H1 H2].
  - apply after_reachable. vm_compute. by eexists.
  - vm_compute. reflexivity.
  - split; [rewrite H1; vm_compute; reflexivity|]. rewrite H2 by (vm_compute; reflexivity).
    split; [|done]. intros H. apply H. vm_compute. reflexivity.
Defined.

Lemma reload_outcome_witness :
  sv_instance (sys_server (after failing_events)) = Some 1 /\ 2 ∈ sv_done (sys_server (after failing_events)).
Proof.
  destruct (reload_outcome (after failing_events) 1 (Some 1) 2 false) as (_ & H1 & _ & _ & H2).
  - apply after_reachable. vm_compute. by eexists.
  - vm_compute. reflexivity.
  - by split.
Defined.

Lemma request_finds_instance_witness :
  exists i, sv_instance (sys_server (after failing_events)) = Some i.
Proof.
  destruct (request_finds_instance (after failing_events)) as [H _].
  - apply after_reachable. vm_compute. by eexists.
  - intros [|[|t]] p Hp; vm_compute in Hp; by simplify_eq.
  - apply H. vm_compute. reflexivity.
Defined.

Lemma request_failures_witness :
  let s := after (reload_by 0) in
  exists s', run_steps step s (overtaken 1) = Some s' /\ sys_threads s' !! 1 = Some (QLoaded (Some 1)) /\
    sv_mutex (sys_server s') = None /\ sv_instance (sys_server s') <> Some 1.
Proof.
  destruct (request_failures (after (reload_by 0))) as (_ & _ & H).
  - apply after_reachable. vm_compute. by eexists.
  - destruct H as [H _]; [vm_compute; reflexivity..|]. apply H. vm_compute. reflexivity.
Defined.
