(* ===== verification/Concurrent.v ===== *)
(** * Requests at the same time (handlers.go, dot.go, dot_instance.go)

    Requests run in goroutines of their own and share two kinds of pools: the
    structs of [dot.pool], one pool for each of the two dots of an instance, and the
    buffers of [bufPool], which the buffering handler, [DotX.Template], [Dir.Read] and
    [FuncMarkdown] use.
    Pooled objects are cells of a heap; the steps of different requests come in any
    order, [sync.Pool] hands out any free cell or a new one, and may drop free cells
    at any time.  The theorem says that no request can tell: each one ends the way
    the handlers of Handlers.v end when they run alone with empty pools.

    The world of a request (its response writer and what its providers reach) is its
    own here; keeping transactions of different requests apart is left to the
    databases. *)

From S2P Require Import Prelude GoStrings GoErrors Http ServeContent.
From S2P Require Import DotDB DotFlush DotResp DotFS Dot Template Handlers Transactions.

Section concurrent.
Context {V P R Info Entry CVal CType CCall Ext : Type} `{EqDecision CType}.
Context (env : mime_env).
Context (custom_type : CVal -> CType).

Abbreviation World := (World (Ext := Ext)).
Abbreviation field := (field (V := V) (P := P) (R := R) (Info := Info) (Entry := Entry) (CVal := CVal)).
Abbreviation struct := (list (option field)).
Abbreviation dot := (dot (World := World) (Val := field) (T := ftype (CType := CType))).
Abbreviation answer := (answer (V := V) (R := R) (Info := Info) (Entry := Entry) (CVal := CVal)).
Abbreviation tprog := (tprog (V := V) (P := P) (R := R) (Info := Info) (Entry := Entry)
                         (CVal := CVal) (CCall := CCall)).
Abbreviation call := (call (P := P) (CCall := CCall)).
Abbreviation exec_state := (exec_state (V := V) (P := P) (R := R) (Info := Info) (Entry := Entry)
                              (CVal := CVal) (Ext := Ext)).

Context (custom_call : CVal -> CCall -> World -> CVal * World * outcome (result CVal)).

#[local] Existing Instance ftype_eq.

(** [bufferDot] at [false] and [flusherDot] at [true]. *)
Context (dots : bool -> dot).

(** ** The heap and the pools *)

Abbreviation cell := (bool * nat)%type.

Record heap := {
  h_dots : gmap cell struct;       (* the structs, by the dot they belong to *)
  h_free : list cell;              (* those in a pool *)
  h_bufs : gmap nat gostring;      (* the buffers *)
  h_freebufs : list nat;
  h_next : nat                     (* the address of the next allocation *)
}.

Definition empty_heap : heap :=
  {| h_dots := ∅; h_free := []; h_bufs := ∅; h_freebufs := []; h_next := 0 |}.

Definition dot_at (h : heap) (d : cell) : struct := default [] (h_dots h !! d).
Definition buf_at (h : heap) (b : nat) : gostring := default [] (h_bufs h !! b).

Definition set_dot (h : heap) (d : cell) (v : struct) : heap :=
  {| h_dots := <[d := v]> (h_dots h); h_free := h_free h; h_bufs := h_bufs h; h_freebufs := h_freebufs h;
     h_next := h_next h |}.
Definition set_buf (h : heap) (b : nat) (s : gostring) : heap :=
  {| h_dots := h_dots h; h_free := h_free h; h_bufs := <[b := s]> (h_bufs h); h_freebufs := h_freebufs h;
     h_next := h_next h |}.
Definition put_dot (h : heap) (d : cell) : heap :=
  {| h_dots := h_dots h; h_free := d :: h_free h; h_bufs := h_bufs h; h_freebufs := h_freebufs h;
     h_next := h_next h |}.
Definition put_buf (h : heap) (b : nat) : heap :=
  {| h_dots := h_dots h; h_free := h_free h; h_bufs := h_bufs h; h_freebufs := b :: h_freebufs h;
     h_next := h_next h |}.

Definition remove_nth {A} (c : nat) (l : list A) : list A := take c l ++ drop (S c) l.

Definition new_dot (h : heap) (flush : bool) : cell * heap :=
  ((flush, h_next h),
   {| h_dots := <[(flush, h_next h) := zero_struct (dots flush)]> (h_dots h); h_free := h_free h;
      h_bufs := h_bufs h; h_freebufs := h_freebufs h; h_next := S (h_next h) |}).

(** [d.pool.Get()]: free cell number [c] when it is one of this pool, or a new one. *)
Definition get_dot (h : heap) (flush : bool) (c : nat) : cell * heap :=
  match h_free h !! c with
  | Some d =>
      if bool_decide (d.1 = flush) then
        (d, {| h_dots := h_dots h; h_free := remove_nth c (h_free h); h_bufs := h_bufs h;
               h_freebufs := h_freebufs h; h_next := h_next h |})
      else new_dot h flush
  | None => new_dot h flush
  end.

(** [bufPool.Get()] *)
Definition get_buf (h : heap) (c : nat) : nat * heap :=
  match h_freebufs h !! c with
  | Some b => (b, {| h_dots := h_dots h; h_free := h_free h; h_bufs := h_bufs h;
                     h_freebufs := remove_nth c (h_freebufs h); h_next := h_next h |})
  | None => (h_next h, {| h_dots := h_dots h; h_free := h_free h; h_bufs := <[h_next h := []]> (h_bufs h);
                          h_freebufs := h_freebufs h; h_next := S (h_next h) |})
  end.

(** The garbage collector empties pools. *)
Definition drop_pooled (h : heap) (c c' : nat) : heap :=
  {| h_dots := h_dots h; h_free := remove_nth c (h_free h); h_bufs := h_bufs h;
     h_freebufs := remove_nth c' (h_freebufs h); h_next := h_next h |}.

(** ** A request *)

Record job := {
  j_flush : bool;                  (* the flushing handler serves it *)
  j_tmpl : tprog;
  j_request : request;
  j_world : World
}.

(** A [DotX.Template] under way: its buffer, and how the caller goes on. *)
Record frame := {
  fr_buf : nat;
  fr_try : bool;
  fr_name : gostring;
  fr_k : result answer -> tprog
}.

(** A call of [Dir.Read] under way: its buffer, the call, and how the template goes on. *)
Record reading := {
  rd_buf : nat;
  rd_try : bool;
  rd_field : nat;
  rd_call : call;
  rd_k : result answer -> tprog
}.

Inductive phase :=
| Got                                (* [bufPool.Get] *)
| Emptied                            (* [buf.Reset] *)
| Opened (file : result gostring)    (* [d.dot.fs.Open]: what reading the file gives *)
| Copied (err : option goerr).       (* [io.Copy] *)

Inductive pc :=
| HStart
| HGot (d : cell)
| HFill (d : cell) (i : nat)
| HFailed (d : cell)
| HFailedPut (d : cell)
| HError
| HBuf (d : cell)
| HReset (d : cell) (b : nat)
| HExec (d : cell) (base : option nat) (stk : list frame) (p : tprog)
| HNested (d : cell) (base : option nat) (stk : list frame) (fr : frame) (p : tprog)
| HRead (d : cell) (base : option nat) (stk : list frame) (rd : reading) (ph : phase)
| HNestedPut (d : cell) (base : option nat) (stk : list frame) (b : nat) (p : tprog)
| HCleanup (d : cell) (base : option nat) (k : nat) (err : option goerr)
| HClean (d : cell) (base : option nat) (err : option goerr)
| HPutDot (d : cell) (base : option nat) (err : option goerr)
| HFinish (base : option nat) (err : option goerr)
| HPutBuf (base : option nat)
| HDone
| HPanicPut (base : option nat) (msg : gostring)
| HPanicked (msg : gostring).

Record thread := { th_job : job; th_pc : pc; th_world : World }.

Definition at_ (th : thread) (p : pc) : thread := {| th_job := th_job th; th_pc := p; th_world := th_world th |}.
Definition to (th : thread) (p : pc) (wd : World) : thread := {| th_job := th_job th; th_pc := p; th_world := wd |}.

(** How the caller of [DotX.Template] goes on, with the output or the error. *)
Definition nested_next (try : bool) (name : gostring) (k : result answer -> tprog) (out : gostring) (err : option goerr) : tprog :=
  match err with
  | None => k (Ok (AString out))
  | Some e =>
      let e := template_failed name e in
      if try then k (Err e) else TFail e
  end.

(** The end of a template: of the outermost one or of a nested one. *)
Definition template_end (h : heap) (d : cell) (base : option nat) (stk : list frame) (err : option goerr) : pc :=
  match stk with
  | [] => HCleanup d base 0 err
  | fr :: stk => HNestedPut d base stk (fr_buf fr) (nested_next (fr_try fr) (fr_name fr) (fr_k fr) (buf_at h (fr_buf fr)) err)
  end.

(** Where the output goes: to the innermost buffer, or straight to the response. *)
Definition target (base : option nat) (stk : list frame) : option nat :=
  match stk with fr :: _ => Some (fr_buf fr) | [] => base end.

Definition current (h : heap) (base : option nat) (stk : list frame) : gostring :=
  match target base stk with Some b => buf_at h b | None => [] end.

Definition outermost {A} (stk : list A) : bool := match stk with [] => true | _ => false end.

(** The calls that [Dir.Read] serves. *)
Definition reads (f : option (option field)) (cl : call) : bool :=
  match f, cl with Some (Some (FDirs _ _)), CallDir (FRead _ _) => true | _, _ => false end.

Definition text_of (ans : result answer) : result gostring :=
  match ans with Ok (AString t) => Ok t | Ok _ => Ok [] | Err e => Err e end.

(** How a template goes on with the answer of [Dir.Read]. *)
Definition answered (try : bool) (k : result answer -> tprog) (res : result gostring) : tprog :=
  match res with
  | Ok t => k (Ok (AString t))
  | Err e => if try then k (Err e) else TFail e
  end.

(** A call of the template that runs. *)
Definition call_in (h : heap) (th : thread) (d : cell) (base : option nat) (stk : list frame)
    (try : bool) (i : nat) (cl : call) : exec_state * result answer :=
  call_field_at env custom_call (outermost stk)
    {| ex_fields := dot_at h d; ex_world := th_world th; ex_buf := current h base stk |}
    (j_request (th_job th)) try i cl.

(** A step of [Dir.Read]. *)
Definition read_next (h : heap) (th : thread) (d : cell) (base : option nat) (stk : list frame)
    (rd : reading) (ph : phase) : heap * thread :=
  let b := rd_buf rd in
  match ph with
  | Got => (set_buf h b [], at_ th (HRead d base stk rd Emptied))
  | Emptied =>
      let '(s, ans) := call_in h th d base stk (rd_try rd) (rd_field rd) (rd_call rd) in
      (set_dot h d (ex_fields s), to th (HRead d base stk rd (Opened (text_of ans))) (ex_world s))
  | Opened (Ok t) => (set_buf h b (buf_at h b ++ t), at_ th (HRead d base stk rd (Copied None)))
  | Opened (Err e) => (h, at_ th (HRead d base stk rd (Copied (Some e))))
  | Copied err =>
      (h, at_ th (HNestedPut d base stk b
                    (answered (rd_try rd) (rd_k rd) (match err with None => Ok (buf_at h b) | Some e => Err e end))))
  end.

(** A step of [tmpl.Execute].  [Template] and [Read] take a buffer from the pool;
    [FuncMarkdown] does so as well: it is a nested template whose program writes the
    HTML. *)
Definition exec_next (h : heap) (th : thread) (c : nat) (d : cell) (base : option nat) (stk : list frame)
    (p : tprog) : heap * thread :=
  let wd := th_world th in
  match p with
  | TEnd => (h, at_ th (template_end h d base stk None))
  | TFail e => (h, at_ th (template_end h d base stk (Some (exec_error e))))
  | TText t k =>
      match target base stk with
      | Some b => (set_buf h b (buf_at h b ++ t), at_ th (HExec d base stk k))
      | None => (h, to th (HExec d base stk k) (set_w wd (Write (world_w wd) t)))
      end
  | TCall try i cl k =>
      if reads (dot_at h d !! i) cl then
        let '(b, h) := get_buf h c in
        (h, at_ th (HRead d base stk {| rd_buf := b; rd_try := try; rd_field := i; rd_call := cl; rd_k := k |} Got))
      else
        let '(s, ans) := call_in h th d base stk try i cl in
        (set_dot h d (ex_fields s),
         to th (HExec d base stk (match ans with
                                  | Ok _ => k ans
                                  | Err e => if try then k ans else TFail e
                                  end)) (ex_world s))
  | TNested try name p k =>
      let '(b, h) := get_buf h c in
      (h, at_ th (HNested d base stk {| fr_buf := b; fr_try := try; fr_name := name; fr_k := k |} p))
  end.

(** A step of the handler of a request: [bufferingTemplateHandler] or
    [flushingTemplateHandler], with [dot.value] and [dot.cleanup]. *)
Definition handler_next (h : heap) (th : thread) (c : nat) : option (heap * thread) :=
  let j := th_job th in
  let wd := th_world th in
  let dt := dots (j_flush j) in
  match th_pc th with
  | HStart =>
      if j_flush j && negb (bool_decide (Header_Get (r_header (j_request j)) (gs "Accept") = gs "text/event-stream")) then
        match http_Error (world_w wd) (gs "SSE endpoint") 406 with
        | Ret w => Some (h, to th HDone (set_w wd w))
        | Panic msg => Some (h, at_ th (HPanicked msg))
        end
      else
        let wd := if j_flush j then set_w wd (sse_headers (world_w wd)) else wd in
        let '(d, h) := get_dot h (j_flush j) c in Some (h, to th (HGot d) wd)
  | HGot d => Some (set_dot h d (SetZero (dot_at h d)), at_ th (HFill d 0))
  | HFill d i =>
      match dps dt !! i with
      | Some dp =>
          match Value dp wd (j_request j) with
          | Panic msg => Some (h, at_ th (HPanicked msg))
          | Ret (wd, _, Some _) => Some (h, to th (HFailed d) wd)
          | Ret (wd, a, None) =>
              match set_field (typeOf custom_type) dt (dot_at h d) i a with
              | Ret v => Some (set_dot h d v, to th (HFill d (S i)) wd)
              | Panic msg => Some (h, to th (HPanicked msg) wd)
              end
          end
      | None =>
          if j_flush j then Some (h, at_ th (HExec d None [] (j_tmpl j)))
          else Some (h, at_ th (HBuf d))
      end
  | HFailed d => Some (set_dot h d (SetZero (dot_at h d)), at_ th (HFailedPut d))
  | HFailedPut d => Some (put_dot h d, at_ th HError)
  | HError =>
      match internal_error wd with
      | Ret wd => Some (h, to th HDone wd)
      | Panic msg => Some (h, at_ th (HPanicked msg))
      end
  | HBuf d => let '(b, h) := get_buf h c in Some (h, at_ th (HReset d b))
  | HReset d b => Some (set_buf h b [], at_ th (HExec d (Some b) [] (j_tmpl j)))
  | HExec d base stk p => Some (exec_next h th c d base stk p)
  | HNested d base stk fr p => Some (set_buf h (fr_buf fr) [], at_ th (HExec d base (fr :: stk) p))
  | HRead d base stk rd ph => Some (read_next h th d base stk rd ph)
  | HNestedPut d base stk b p => Some (put_buf h b, at_ th (HExec d base stk p))
  | HCleanup d base k err =>
      match cleanups dt !! k with
      | Some cl =>
          match dot_at h d !! cl_idx cl with
          | Some (Some x) =>
              match cl_Cleanup cl wd x err with
              | Ret (wd, err) => Some (h, to th (HCleanup d base (S k) err) wd)
              | Panic msg => Some (h, at_ th (HPanicPut base msg))
              end
          | _ => Some (h, at_ th (HPanicPut base (gs "interface conversion: interface is nil")))
          end
      | None => Some (h, at_ th (HClean d base err))
      end
  | HClean d base err => Some (set_dot h d (SetZero (dot_at h d)), at_ th (HPutDot d base err))
  | HPutDot d base err => Some (put_dot h d, at_ th (HFinish base err))
  | HFinish base (Some _) =>
      match internal_error wd with
      | Ret wd => Some (h, to th (HPutBuf base) wd)
      | Panic msg => Some (h, at_ th (HPanicPut base msg))
      end
  | HFinish base None =>
      Some (h, to th (HPutBuf base)
                 (match base with Some b => set_w wd (Write (world_w wd) (buf_at h b)) | None => wd end))
  | HPutBuf base => Some (match base with Some b => put_buf h b | None => h end, at_ th HDone)
  | HPanicPut base msg => Some (match base with Some b => put_buf h b | None => h end, at_ th (HPanicked msg))
  | HDone | HPanicked _ => None
  end.

(** ** The process *)

Record process := { pr_heap : heap; pr_threads : list thread }.

Inductive happening :=
| Arrive (j : job)
| RunThread (t : nat) (c : nat)      (* a step of request [t]; [c] is what a pool hands out *)
| Collect (c c' : nat).

Definition process_step (s : process) (e : happening) : option process :=
  match e with
  | Arrive j => Some {| pr_heap := pr_heap s;
      pr_threads := pr_threads s ++ [{| th_job := j; th_pc := HStart; th_world := j_world j |}] |}
  | RunThread t c =>
      th ← pr_threads s !! t;
      '(h, th) ← handler_next (pr_heap s) th c;
      Some {| pr_heap := h; pr_threads := <[t := th]> (pr_threads s) |}
  | Collect c c' => Some {| pr_heap := drop_pooled (pr_heap s) c c'; pr_threads := pr_threads s |}
  end.

Inductive process_reachable : process -> Prop :=
| process_init : process_reachable {| pr_heap := empty_heap; pr_threads := [] |}
| process_more s e s' : process_reachable s -> process_step s e = Some s' -> process_reachable s'.

(** The handlers of Handlers.v on the request alone. *)
Definition alone (j : job) : outcome World :=
  let dt := dots (j_flush j) in
  '(wd, _) ← (if j_flush j then flushingTemplateHandler env custom_type custom_call dt [] 0 (j_tmpl j) (j_world j) (j_request j)
              else bufferingTemplateHandler env custom_type custom_call dt [] 0 (j_tmpl j) (j_world j) (j_request j));
  Ret wd.

(** ** What is left of a request

    The outcome of a request from where it is, when nobody else runs. *)

(** A template with callers waiting: for each, how it goes on and its own buffer. *)
Fixpoint exec_stack (direct : bool) (r : request) (stk : list (bool * gostring * (result answer -> tprog) * gostring))
    (p : tprog) (s : exec_state) : exec_state * option goerr :=
  match stk with
  | [] => exec env custom_call direct r p s
  | (try, name, k, saved) :: stk =>
      let '(s1, err) := exec_at env custom_call false false r p s in
      exec_stack direct r stk (nested_next try name k (ex_buf s1) err) (with_buf s1 saved)
  end.

Definition rest_finish (flush : bool) (wd : World) (err : option goerr) (out : gostring) : outcome World :=
  match err with
  | Some _ => internal_error wd
  | None => Ret (if flush then wd else set_w wd (Write (world_w wd) out))
  end.

Definition rest_cleanup (flush : bool) (k : nat) (wd : World) (v : struct) (err : option goerr) (out : gostring) :
    outcome World :=
  '(wd, err) ← run_cleanups (drop k (cleanups (dots flush))) wd v err;
  rest_finish flush wd err out.

Definition rest_exec (j : job) (stk : list (bool * gostring * (result answer -> tprog) * gostring)) (p : tprog)
    (s : exec_state) : outcome World :=
  let '(s, err) := exec_stack (j_flush j) (j_request j) stk p s in
  rest_cleanup (j_flush j) 0 (ex_world s) (ex_fields s) err (ex_buf s).

Definition rest_fill (j : job) (i : nat) (wd : World) (v : struct) : outcome World :=
  let dt := dots (j_flush j) in
  '(wd, res) ← fill (typeOf custom_type) dt wd (j_request j) i (drop i (dps dt)) v;
  match res with
  | NotFilled _ => internal_error wd
  | Filled v => rest_exec j [] (j_tmpl j) (start_exec v wd)
  end.

(** The callers of a nested template, with the buffers below theirs. *)
Fixpoint waiting (h : heap) (base : option nat) (stk : list frame) :
    list (bool * gostring * (result answer -> tprog) * gostring) :=
  match stk with
  | [] => []
  | fr :: stk => (fr_try fr, fr_name fr, fr_k fr, current h base stk) :: waiting h base stk
  end.

Definition base_at (h : heap) (base : option nat) : gostring :=
  match base with Some b => buf_at h b | None => [] end.

Definition running (h : heap) (th : thread) (d : cell) (base : option nat) (stk : list frame) (p : tprog) :
    outcome World :=
  rest_exec (th_job th) (waiting h base stk) p
    {| ex_fields := dot_at h d; ex_world := th_world th; ex_buf := current h base stk |}.

(** [Dir.Read] before the file is opened, with [pre] in its buffer. *)
Definition before_read (h : heap) (th : thread) (d : cell) (base : option nat) (stk : list frame) (rd : reading)
    (pre : gostring) : outcome World :=
  let '(s, ans) := call_in h th d base stk (rd_try rd) (rd_field rd) (rd_call rd) in
  rest_exec (th_job th) (waiting h base stk) (answered (rd_try rd) (rd_k rd) (t ← text_of ans; Ok (pre ++ t))) s.

Definition rest_read (h : heap) (th : thread) (d : cell) (base : option nat) (stk : list frame) (rd : reading)
    (ph : phase) : outcome World :=
  let old := buf_at h (rd_buf rd) in
  let on res := running h th d base stk (answered (rd_try rd) (rd_k rd) res) in
  match ph with
  | Got => before_read h th d base stk rd []
  | Emptied => before_read h th d base stk rd old
  | Opened file => on (t ← file; Ok (old ++ t))
  | Copied None => on (Ok old)
  | Copied (Some e) => on (Err e)
  end.

Definition rest (h : heap) (th : thread) : outcome World :=
  let j := th_job th in
  let wd := th_world th in
  match th_pc th with
  | HStart => alone {| j_flush := j_flush j; j_tmpl := j_tmpl j; j_request := j_request j; j_world := wd |}
  | HGot d => rest_fill j 0 wd (zero_struct (dots (j_flush j)))
  | HFill d i => rest_fill j i wd (dot_at h d)
  | HFailed _ | HFailedPut _ | HError => internal_error wd
  | HBuf d | HReset d _ => rest_exec j [] (j_tmpl j) (start_exec (dot_at h d) wd)
  | HExec d base stk p => running h th d base stk p
  | HNested d base stk fr p => running h th d base stk (TNested (fr_try fr) (fr_name fr) p (fr_k fr))
  | HRead d base stk rd ph => rest_read h th d base stk rd ph
  | HNestedPut d base stk _ p => running h th d base stk p
  | HCleanup d base k err => rest_cleanup (j_flush j) k wd (dot_at h d) err (base_at h base)
  | HClean _ base err | HPutDot _ base err | HFinish base err => rest_finish (j_flush j) wd err (base_at h base)
  | HPutBuf _ | HDone => Ret wd
  | HPanicPut _ msg | HPanicked msg => Panic msg
  end.

(** ** Ownership *)

Definition owned_dots (p : pc) : list cell :=
  match p with
  | HGot d | HFill d _ | HFailed d | HFailedPut d | HBuf d | HReset d _ | HExec d _ _ _ | HNested d _ _ _ _
  | HRead d _ _ _ _ | HNestedPut d _ _ _ _ | HCleanup d _ _ _ | HClean d _ _ | HPutDot d _ _ => [d]
  | _ => []
  end.

Definition owned_bufs (p : pc) : list nat :=
  match p with
  | HReset _ b => [b]
  | HExec _ base stk _ => (fr_buf <$> stk) ++ option_list base
  | HNested _ base stk fr _ => fr_buf fr :: (fr_buf <$> stk) ++ option_list base
  | HRead _ base stk rd _ => rd_buf rd :: (fr_buf <$> stk) ++ option_list base
  | HNestedPut _ base stk b _ => b :: (fr_buf <$> stk) ++ option_list base
  | HCleanup _ base _ _ | HClean _ base _ | HPutDot _ base _ | HFinish base _ | HPutBuf base
  | HPanicPut base _ => option_list base
  | _ => []
  end.

(** A flushing handler writes straight to the response, a buffering one has a buffer. *)
Definition base_ok (th : thread) : Prop :=
  let ok (base : option nat) := match base with Some _ => j_flush (th_job th) = false | None => j_flush (th_job th) = true end in
  match th_pc th with
  | HBuf _ | HReset _ _ => j_flush (th_job th) = false
  | HExec _ base _ _ | HNested _ base _ _ _ | HRead _ base _ _ _ | HNestedPut _ base _ _ _ | HCleanup _ base _ _ | HClean _ base _
  | HPutDot _ base _ | HFinish base _ => ok base
  | _ => True
  end.

(** How a step moves cells between a pool and a request: it may lose some, or
    allocate one. *)
Definition moved {A} (from to : list A) (new : A -> Prop) : Prop :=
  (exists lost, to ++ lost ≡ₚ from) \/ (exists x, new x /\ to ≡ₚ x :: from).

Lemma moved_NoDup {A} (from to l : list A) (new : A -> Prop) :
  moved from to new -> (forall x, new x -> (x ∉ from ++ l)) -> NoDup (from ++ l) -> NoDup (to ++ l).
Proof.
  intros [[lost Hp]|(x & Hx & Hp)] Hn Hd.
  - assert (lost ++ to ++ l ≡ₚ from ++ l) as E by (rewrite <- Hp, app_assoc; f_equiv; apply Permutation_app_comm).
    rewrite <- E in Hd. by apply NoDup_app in Hd as (_ & _ & ?).
  - rewrite Hp. cbn. apply NoDup_cons. split; [by apply Hn|done].
Qed.

Lemma moved_same {A} (l : list A) new : moved l l new.
Proof. left. exists []. by rewrite app_nil_r. Qed.

Lemma moved_perm {A} (from to : list A) new : to ≡ₚ from -> moved from to new.
Proof. intros. left. exists []. by rewrite app_nil_r. Qed.

Lemma remove_nth_perm {A} (l : list A) c x : l !! c = Some x -> x :: remove_nth c l ≡ₚ l.
Proof.
  intros H. unfold remove_nth. rewrite <- (take_drop_middle l c x H) at 3. by rewrite Permutation_middle.
Qed.

(** ** Templates with callers *)

Lemma exec_stack_nested direct r stk try name p k (s : exec_state) :
  exec_stack direct r stk (TNested try name p k) s =
  exec_stack direct r ((try, name, k, ex_buf s) :: stk) p (with_buf s []).
Proof.
  assert (forall addr direct, exec_at env custom_call addr direct r (TNested try name p k) s =
    let '(s1, err) := exec_at env custom_call false false r p (with_buf s []) in
    exec_at env custom_call addr direct r (nested_next try name k (ex_buf s1) err) (with_buf s1 (ex_buf s))) as H.
  { intros addr b. cbn [exec_at]. unfold with_buf. destruct (exec_at _ _ false false r p _) as [s1 [e|]]; [|done].
    by destruct try. }
  destruct stk as [|[[try' k'] saved] stk]; cbn [exec_stack]; unfold exec; rewrite H;
    by destruct (exec_at _ _ false false r p _).
Qed.

Lemma exec_stack_text direct r stk t k (s : exec_state) :
  exec_stack direct r stk (TText t k) s =
  exec_stack direct r stk k (emit (match stk with [] => direct | _ => false end) s t).
Proof. by destruct stk as [|[[try' k'] saved] stk]. Qed.

Lemma exec_stack_call direct r stk try i c k (s : exec_state) :
  exec_stack direct r stk (TCall try i c k) s =
  let '(s, ans) := call_field_at env custom_call (outermost stk) s r try i c in
  exec_stack direct r stk (match ans with Ok _ => k ans | Err e => if try then k ans else TFail e end) s.
Proof.
  destruct stk as [|[[try' k'] saved] stk]; cbn [exec_stack]; unfold exec; cbn [exec_at outermost];
    destruct (call_field_at _ _ _ s r try i c) as [s1 [a|e]]; try done; by destruct try.
Qed.

(** The end of a template. *)
Lemma exec_stack_end direct r stk p (s : exec_state) err :
  (p = TEnd /\ err = None) \/ (exists e, p = TFail e /\ err = Some (exec_error e)) ->
  exec_stack direct r stk p s =
  match stk with
  | [] => (s, err)
  | (try, name, k, saved) :: stk => exec_stack direct r stk (nested_next try name k (ex_buf s) err) (with_buf s saved)
  end.
Proof. by intros [[-> ->]|(e & -> & ->)]; destruct stk as [|[[try' k'] saved] stk]. Qed.

Lemma call_field_length addr (s : exec_state) r try i c s' ans :
  call_field_at env custom_call addr s r try i c = (s', ans) ->
  length (ex_fields s') = length (ex_fields s) /\ ex_buf s' = ex_buf s.
Proof.
  unfold call_field_at. destruct (ex_fields s !! i) as [[f|]|]; [|by intros [= <- _]|by intros [= <- _]].
  destruct (try && negb (tryable f)); [by intros [= <- _]|].
  destruct (negb addr && negb (tryable f)); [by intros [= <- _]|].
  destruct (do_call _ _ c f (ex_world s) r) as [[f' wd] a]. intros [= <- _]. cbn. by rewrite length_insert.
Qed.

(** [Dir.Read] answers with a string. *)
Lemma reads_string addr (s : exec_state) r try i c s' ans :
  call_field_at env custom_call addr s r try i c = (s', ans) -> reads (ex_fields s !! i) c = true ->
  forall k : result answer -> tprog,
    match ans with Ok _ => k ans | Err e => if try then k ans else TFail e end =
    answered try k (t ← text_of ans; Ok ([] ++ t)).
Proof.
  unfold call_field_at, reads. destruct (ex_fields s !! i) as [[[]|]|]; try done. destruct c as [|[]| | | | | | | |]; try done.
  rewrite !andb_false_r. intros [= _ <-] _ k. cbn [fs_answer].
  destruct (env_dirs e !! i0) as [p|]; [|done]. by destruct (Dir_Read fs (env_fs e) p name).2.
Qed.

Lemma set_field_length (dt : dot) v i a v' :
  set_field (typeOf custom_type) dt v i a = Ret v' -> length v' = length v.
Proof.
  unfold set_field. destruct a as [x|]; [|by destruct (typ dt !! i)]. destruct (typ dt !! i) as [[n t]|]; [|done].
  destruct (bool_decide _); [|done]. intros [= <-]. by rewrite length_insert.
Qed.

(** ** The cells a request depends on *)

Lemma current_frame h h' base stk :
  (forall b, b ∈ (fr_buf <$> stk) ++ option_list base -> buf_at h' b = buf_at h b) ->
  current h' base stk = current h base stk.
Proof.
  intros H. unfold current, target. destruct stk as [|fr stk]; cbn in H; [|apply H; by left].
  destruct base as [b|]; [|done]. apply H. by left.
Qed.

Lemma waiting_frame h h' base stk :
  (forall b, b ∈ (fr_buf <$> tail stk) ++ option_list base -> buf_at h' b = buf_at h b) ->
  waiting h' base stk = waiting h base stk.
Proof.
  induction stk as [|fr stk IH]; [done|]. cbn [tail waiting]. intros H.
  rewrite (current_frame h h') by done. f_equal. apply IH. intros b Hb. apply H.
  destruct stk; cbn in *; [done|by right].
Qed.

Lemma running_frame h h' th d base stk p :
  dot_at h' d = dot_at h d ->
  (forall b, b ∈ (fr_buf <$> stk) ++ option_list base -> buf_at h' b = buf_at h b) ->
  running h' th d base stk p = running h th d base stk p.
Proof.
  intros Hd Hb. unfold running. rewrite Hd, (current_frame h h') by done. rewrite (waiting_frame h h'); [done|].
  intros b H. apply Hb. destruct stk; cbn in *; [done|by right].
Qed.

Lemma outermost_waiting h base stk : outermost (waiting h base stk) = outermost stk.
Proof. by destruct stk. Qed.

Lemma before_read_frame h h' th d base stk rd pre :
  dot_at h' d = dot_at h d ->
  (forall b, b ∈ (fr_buf <$> stk) ++ option_list base -> buf_at h' b = buf_at h b) ->
  before_read h' th d base stk rd pre = before_read h th d base stk rd pre.
Proof.
  intros Hd Hb. unfold before_read, call_in. rewrite Hd, (current_frame h h') by done. rewrite (waiting_frame h h'); [done|].
  intros b H. apply Hb. destruct stk; cbn in *; [done|by right].
Qed.

(** The buffer of [Dir.Read] does not matter before it is emptied. *)
Lemma rest_read_frame h h' th d base stk rd ph :
  dot_at h' d = dot_at h d ->
  (forall b, b ∈ (fr_buf <$> stk) ++ option_list base -> buf_at h' b = buf_at h b) ->
  (ph <> Got -> buf_at h' (rd_buf rd) = buf_at h (rd_buf rd)) ->
  rest_read h' th d base stk rd ph = rest_read h th d base stk rd ph.
Proof.
  intros Hd Hb Hr. unfold rest_read. destruct ph as [| |file|[e|]].
  - by apply before_read_frame.
  - rewrite Hr by done. by apply before_read_frame.
  - rewrite Hr by done. by apply running_frame.
  - by apply running_frame.
  - rewrite Hr by done. by apply running_frame.
Qed.

Lemma rest_frame h h' th :
  (forall d, d ∈ owned_dots (th_pc th) -> dot_at h' d = dot_at h d) ->
  (forall b, b ∈ owned_bufs (th_pc th) -> buf_at h' b = buf_at h b) ->
  rest h' th = rest h th.
Proof.
  intros Hd Hb. unfold rest. destruct (th_pc th); cbn in Hd, Hb; try done;
    try (rewrite Hd by (by left); done);
    try (apply running_frame; [apply Hd; by left|intros; apply Hb; first [done|by right]]);
    try (apply rest_read_frame; [apply Hd; by left|intros; apply Hb; by right|intros; apply Hb; by left]);
    unfold base_at; try (rewrite Hd by (by left)); (destruct base as [b|]; [|done]); by rewrite Hb by (by left).
Qed.

(** ** The invariant of a request *)

Definition fits (h : heap) (d : cell) : Prop := length (dot_at h d) = length (typ (dots d.1)).

Record thread_ok (h : heap) (th : thread) : Prop := {
  tk_base : base_ok th;
  tk_dots : forall d, d ∈ owned_dots (th_pc th) -> d.1 = j_flush (th_job th) /\ fits h d;
  tk_zero : forall d, (th_pc th = HFailedPut d \/ exists base err, th_pc th = HPutDot d base err) ->
    dot_at h d = zero_struct (dots d.1);
  tk_rest : rest h th = alone (th_job th)
}.

(** What a request relies on before a step. *)
Record step_pre (h : heap) (th : thread) : Prop := {
  pre_thread : thread_ok h th;
  pre_dots : NoDup (h_free h ++ owned_dots (th_pc th));
  pre_bufs : NoDup (h_freebufs h ++ owned_bufs (th_pc th));
  pre_below_d : forall d, d ∈ h_free h ++ owned_dots (th_pc th) -> d.2 < h_next h;
  pre_below_b : forall b, b ∈ h_freebufs h ++ owned_bufs (th_pc th) -> b < h_next h;
  pre_zero : forall d, d ∈ h_free h -> dot_at h d = zero_struct (dots d.1)
}.

(** And what it guarantees after it. *)
Record step_ok (h : heap) (th : thread) (h' : heap) (th' : thread) : Prop := {
  so_job : th_job th' = th_job th;
  so_dots : moved (h_free h ++ owned_dots (th_pc th)) (h_free h' ++ owned_dots (th_pc th'))
              (fun d => d.2 = h_next h /\ h_next h < h_next h');
  so_bufs : moved (h_freebufs h ++ owned_bufs (th_pc th)) (h_freebufs h' ++ owned_bufs (th_pc th'))
              (fun b => b = h_next h /\ h_next h < h_next h');
  so_next : h_next h <= h_next h';
  so_frame_d : forall d, d.2 < h_next h -> d ∉ owned_dots (th_pc th) -> dot_at h' d = dot_at h d;
  so_frame_b : forall b, b < h_next h -> b ∉ owned_bufs (th_pc th) -> buf_at h' b = buf_at h b;
  so_zero : forall d, d ∈ h_free h' -> dot_at h' d = zero_struct (dots d.1);
  so_thread : thread_ok h' th'
}.

Lemma dot_at_set h d v d' : dot_at (set_dot h d v) d' = if decide (d' = d) then v else dot_at h d'.
Proof. unfold dot_at. cbn. destruct (decide _) as [->|]; [by rewrite lookup_insert_eq|by rewrite lookup_insert_ne]. Qed.

Lemma buf_at_set h b v b' : buf_at (set_buf h b v) b' = if decide (b' = b) then v else buf_at h b'.
Proof. unfold buf_at. cbn. destruct (decide _) as [->|]; [by rewrite lookup_insert_eq|by rewrite lookup_insert_ne]. Qed.

Lemma get_dot_spec h flush c d h' :
  get_dot h flush c = (d, h') ->
  d.1 = flush /\ h_bufs h' = h_bufs h /\ h_freebufs h' = h_freebufs h /\
  ((d ∈ h_free h /\ d :: h_free h' ≡ₚ h_free h /\ h_dots h' = h_dots h /\ h_next h' = h_next h) \/
   (d.2 = h_next h /\ h_free h' = h_free h /\ h_dots h' = <[d := zero_struct (dots flush)]> (h_dots h) /\
    h_next h' = S (h_next h))).
Proof.
  unfold get_dot, new_dot. destruct (h_free h !! c) as [x|] eqn:E; [|intros [= <- <-]; cbn; split_and!; try done; by right].
  destruct (bool_decide_reflect (x.1 = flush)) as [Hx|Hx]; intros [= <- <-]; cbn; split_and!; try done; [left|by right].
  split_and!; [by eapply list_elem_of_lookup_2|by apply remove_nth_perm|done|done].
Qed.

Lemma get_buf_spec h c b h' :
  get_buf h c = (b, h') ->
  h_dots h' = h_dots h /\ h_free h' = h_free h /\
  ((b ∈ h_freebufs h /\ b :: h_freebufs h' ≡ₚ h_freebufs h /\ h_bufs h' = h_bufs h /\ h_next h' = h_next h) \/
   (b = h_next h /\ h_freebufs h' = h_freebufs h /\ h_bufs h' = <[b := []]> (h_bufs h) /\ h_next h' = S (h_next h))).
Proof.
  unfold get_buf. destruct (h_freebufs h !! c) as [x|] eqn:E; intros [= <- <-]; cbn; split_and!; try done; [left|by right].
  split_and!; [by eapply list_elem_of_lookup_2|by apply remove_nth_perm|done|done].
Qed.

(** A step that leaves pools and cells alone. *)
Lemma quiet_step h th th' :
  step_pre h th -> th_job th' = th_job th ->
  (exists lost, owned_dots (th_pc th') ++ lost = owned_dots (th_pc th)) ->
  (exists lost, owned_bufs (th_pc th') ++ lost = owned_bufs (th_pc th)) ->
  thread_ok h th' -> step_ok h th h th'.
Proof.
  intros Hp Hj [l1 H1] [l2 H2] Ht. split; try done.
  - left. exists l1. by rewrite <- H1, app_assoc.
  - left. exists l2. by rewrite <- H2, app_assoc.
  - apply (pre_zero _ _ Hp).
Qed.

(** A step that writes to the struct of the request. *)
Lemma write_dot_step h th th' d v :
  step_pre h th -> th_job th' = th_job th -> owned_dots (th_pc th) = [d] -> owned_dots (th_pc th') = [d] ->
  owned_bufs (th_pc th') = owned_bufs (th_pc th) -> thread_ok (set_dot h d v) th' ->
  step_ok h th (set_dot h d v) th'.
Proof.
  intros Hp Hj H1 H2 H3 Ht. split; try done.
  - cbn. rewrite H1, H2. apply moved_same.
  - cbn. rewrite H3. apply moved_same.
  - intros d' _ Hd. rewrite H1 in Hd. rewrite dot_at_set, decide_False; [done|]. intros ->. apply Hd. by left.
  - cbn. intros d' Hd. rewrite dot_at_set, decide_False; [by apply (pre_zero _ _ Hp)|]. intros ->.
    pose proof (pre_dots _ _ Hp) as Hn. rewrite H1 in Hn. apply NoDup_app in Hn as (_ & Hn & _).
    destruct (Hn d Hd). by left.
Qed.

(** A step that writes to a buffer of the request. *)
Lemma write_buf_step h th th' b s :
  step_pre h th -> th_job th' = th_job th -> owned_dots (th_pc th') = owned_dots (th_pc th) ->
  b ∈ owned_bufs (th_pc th) -> owned_bufs (th_pc th') = owned_bufs (th_pc th) ->
  thread_ok (set_buf h b s) th' -> step_ok h th (set_buf h b s) th'.
Proof.
  intros Hp Hj H1 H2 H3 Ht. split; try done.
  - cbn. rewrite H1. apply moved_same.
  - cbn. rewrite H3. apply moved_same.
  - intros b' _ Hb. rewrite buf_at_set, decide_False; [done|]. by intros ->.
  - apply (pre_zero _ _ Hp).
Qed.

Lemma get_buf_old h th c b h' b' :
  step_pre h th -> get_buf h c = (b, h') -> b' ∈ owned_bufs (th_pc th) -> buf_at h' b' = buf_at h b'.
Proof.
  intros Hp (_ & _ & E)%get_buf_spec Hin. unfold buf_at. destruct E as [(_ & _ & -> & _)|(-> & _ & -> & _)]; [done|].
  assert (b' < h_next h) by (apply (pre_below_b _ _ Hp), elem_of_app; by right).
  by rewrite lookup_insert_ne by lia.
Qed.

(** A step that takes a buffer. *)
Lemma get_buf_step h th th' c b h' :
  step_pre h th -> th_job th' = th_job th -> get_buf h c = (b, h') ->
  owned_dots (th_pc th') = owned_dots (th_pc th) -> owned_bufs (th_pc th') = b :: owned_bufs (th_pc th) ->
  base_ok th' -> (forall d, th_pc th' <> HFailedPut d) -> (forall d base err, th_pc th' <> HPutDot d base err) ->
  rest h' th' = rest h th -> step_ok h th h' th'.
Proof.
  intros Hp Hj Hg Hd Hb Hbase Hf1 Hf2 Hr. apply get_buf_spec in Hg as (E1 & E2 & Hg).
  assert (forall d, dot_at h' d = dot_at h d) as Ed by (intros; unfold dot_at; by rewrite E1).
  destruct (pre_thread _ _ Hp) as [T1 T2 T3 T4]. split.
  - done.
  - rewrite E2, Hd. apply moved_same.
  - rewrite Hb. destruct Hg as [(_ & Hg & _)|(-> & -> & _ & ->)].
    + apply moved_perm. rewrite <- Hg. by rewrite <- Permutation_middle.
    + right. exists (h_next h). split; [lia|]. by rewrite <- Permutation_middle.
  - destruct Hg as [(_ & _ & _ & ->)|(_ & _ & _ & ->)]; lia.
  - done.
  - intros b' Hlt Hne. unfold buf_at. destruct Hg as [(_ & _ & -> & _)|(-> & _ & -> & _)]; [done|].
    by rewrite lookup_insert_ne by lia.
  - intros d. rewrite E2, Ed. apply (pre_zero _ _ Hp).
  - split; [done| | |by rewrite Hr, Hj].
    + intros d. rewrite Hd, Hj. intros Hin. destruct (T2 d Hin). split; [done|]. unfold fits. by rewrite Ed.
    + intros d [H|(base & err & H)]; [by destruct (Hf1 d)|by destruct (Hf2 d base err)].
Qed.

(** ** Steps of a template *)

(** The next place of a request that goes on with the same struct. *)
Lemma thread_ok_next h th h' th' :
  thread_ok h th -> th_job th' = th_job th -> base_ok th' ->
  (forall d, d ∈ owned_dots (th_pc th') -> d ∈ owned_dots (th_pc th) /\ length (dot_at h' d) = length (dot_at h d)) ->
  (forall d, (th_pc th' = HFailedPut d \/ exists base err, th_pc th' = HPutDot d base err) ->
     dot_at h' d = zero_struct (dots d.1)) ->
  rest h' th' = rest h th -> thread_ok h' th'.
Proof.
  intros [T1 T2 T3 T4] Hj Hb Hd Hz Hr. split; [done| |done|by rewrite Hr, Hj].
  intros d Hin. destruct (Hd d Hin) as [Hin' E]. rewrite Hj. destruct (T2 d Hin') as [? ?]. split; [done|].
  unfold fits in *. by rewrite E.
Qed.

Lemma not_putting (th : thread) h :
  match th_pc th with HFailedPut _ | HPutDot _ _ _ => False | _ => True end ->
  forall d, (th_pc th = HFailedPut d \/ exists base err, th_pc th = HPutDot d base err) ->
  dot_at h d = zero_struct (dots d.1).
Proof. intros H d [E|(base & err & E)]; by rewrite E in H. Qed.

Lemma template_end_step h th d base stk p err :
  step_pre h th -> th_pc th = HExec d base stk p ->
  (p = TEnd /\ err = None) \/ (exists e, p = TFail e /\ err = Some (exec_error e)) ->
  step_ok h th h (at_ th (template_end h d base stk err)).
Proof.
  intros Hp Hpc He. pose proof (pre_thread _ _ Hp) as Ht. pose proof (tk_base _ _ Ht) as Hb. unfold base_ok in Hb.
  rewrite Hpc in Hb. apply quiet_step; [done|done| | |].
  - exists []. rewrite Hpc. by destruct stk.
  - exists []. rewrite Hpc, app_nil_r. by destruct stk.
  - apply (thread_ok_next h th); [done|done| | |apply not_putting; by destruct stk|].
    + unfold base_ok. by destruct stk.
    + rewrite Hpc. by destruct stk.
    + unfold rest. rewrite Hpc. unfold running, rest_exec. rewrite (exec_stack_end _ _ _ p _ err He).
      destruct stk as [|fr stk]; cbn; [|done]. done.
Qed.

Lemma text_step h th d base stk t k c :
  step_pre h th -> th_pc th = HExec d base stk (TText t k) ->
  let '(h', th') := exec_next h th c d base stk (TText t k) in step_ok h th h' th'.
Proof.
  intros Hp Hpc. pose proof (pre_thread _ _ Hp) as Ht. pose proof (tk_base _ _ Ht) as Hb. unfold base_ok in Hb.
  rewrite Hpc in Hb. cbn [exec_next]. destruct (target base stk) as [b|] eqn:Etgt.
  - pose proof (pre_bufs _ _ Hp) as Hn. rewrite Hpc in Hn. apply NoDup_app in Hn as (_ & _ & Hn). cbn in Hn.
    assert (forall b', b' ∈ (fr_buf <$> tail stk) ++ option_list base -> stk <> [] -> b' <> b) as Hother.
    { intros b' Hin Hne ->. destruct stk as [|fr stk]; [done|]. cbn in *. injection Etgt as <-.
      apply NoDup_cons in Hn as [Hn _]. done. }
    apply write_buf_step; [done|done|by rewrite Hpc| |by rewrite Hpc|].
    + rewrite Hpc. cbn. destruct stk as [|fr stk]; cbn in *; [subst base; by left|injection Etgt as <-; by left].
    + apply (thread_ok_next h th); [done|done|done|rewrite Hpc; done|by apply not_putting|].
      unfold rest at 2. rewrite Hpc. unfold running, rest_exec. rewrite exec_stack_text. cbn [th_job th_world at_].
      unfold rest, running, rest_exec. cbn [th_pc th_job th_world at_]. 
      assert (waiting (set_buf h b (buf_at h b ++ t)) base stk = waiting h base stk) as ->.
      { destruct stk as [|fr stk]; [done|]. apply waiting_frame. intros b' Hin. rewrite buf_at_set, decide_False; [done|].
        by apply Hother. }
      unfold current at 1 2. rewrite Etgt, buf_at_set, decide_True by done.
      assert (match waiting h base stk with [] => j_flush (th_job th) | _ :: _ => false end = false) as ->; [|done].
      destruct stk as [|fr stk]; [|done]. cbn in *. by subst base.
  - destruct stk as [|fr stk]; [|done]. cbn in Etgt. subst base.
    apply quiet_step; [done|done|exists []; by rewrite Hpc|exists []; by rewrite Hpc|].
    apply (thread_ok_next h th); [done|done|done|rewrite Hpc; done|by apply not_putting|].
    unfold rest. rewrite Hpc. unfold running, rest_exec. rewrite exec_stack_text. cbn. by rewrite Hb.
Qed.

Lemma call_step h th d base stk try i cl k c :
  step_pre h th -> th_pc th = HExec d base stk (TCall try i cl k) ->
  let '(h', th') := exec_next h th c d base stk (TCall try i cl k) in step_ok h th h' th'.
Proof.
  intros Hp Hpc. pose proof (pre_thread _ _ Hp) as Ht. pose proof (tk_base _ _ Ht) as Hb. unfold base_ok in Hb.
  rewrite Hpc in Hb. cbn [exec_next]. destruct (reads _ cl) eqn:Erd.
  { destruct (get_buf h c) as [b h'] eqn:E.
    eapply get_buf_step; [done|done|done|by rewrite Hpc|by rewrite Hpc|done|done|done|].
    etransitivity; [apply (rest_read_frame h); [unfold dot_at; by apply get_buf_spec in E as (-> & _)| |done]|].
    { intros b' Hb'. eapply get_buf_old; [done|exact E|rewrite Hpc; exact Hb']. }
    unfold rest. rewrite Hpc. unfold rest_read, before_read, call_in, running, rest_exec.
    cbn [rd_try rd_field rd_call rd_k th_job th_world at_].
    rewrite exec_stack_call, outermost_waiting. destruct (call_field_at _ _ _ _ _ _ _ _) as [s ans] eqn:Ecall.
    by rewrite (reads_string _ _ _ _ _ _ _ _ Ecall Erd). }
  unfold call_in. destruct (call_field_at _ _ _ _ _ _ _ _) as [s ans] eqn:E.
  pose proof (call_field_length _ _ _ _ _ _ _ _ E) as [El Eb]. cbn in El, Eb.
  apply write_dot_step; [done|done|by rewrite Hpc|done|by rewrite Hpc|].
  apply (thread_ok_next h th); [done|done|done| |by apply not_putting|].
  - rewrite Hpc. cbn. intros d' Hd. split; [done|]. apply list_elem_of_singleton in Hd as ->.
    by rewrite dot_at_set, decide_True.
  - unfold rest. rewrite Hpc. unfold running, rest_exec. rewrite exec_stack_call, outermost_waiting, E. cbn [th_job th_world th_pc to].
    rewrite dot_at_set, decide_True by done.
    rewrite (waiting_frame h (set_dot h d (ex_fields s))), (current_frame h (set_dot h d (ex_fields s))) by done.
    rewrite <- Eb. by destruct s.
Qed.

Lemma nested_step h th d base stk try name p k c :
  step_pre h th -> th_pc th = HExec d base stk (TNested try name p k) ->
  let '(h', th') := exec_next h th c d base stk (TNested try name p k) in step_ok h th h' th'.
Proof.
  intros Hp Hpc. pose proof (pre_thread _ _ Hp) as Ht. pose proof (tk_base _ _ Ht) as Hb. unfold base_ok in Hb.
  rewrite Hpc in Hb. cbn [exec_next]. destruct (get_buf h c) as [b h'] eqn:E. pose proof E as Eg.
  eapply get_buf_step; [done|done|done|by rewrite Hpc|by rewrite Hpc|done|done|done|].
  unfold rest. rewrite Hpc. cbn [th_pc at_ fr_try fr_name fr_k]. apply get_buf_spec in E as (E1 & E2 & E).
  etransitivity; [apply (running_frame h)|reflexivity]; [unfold dot_at; by rewrite E1|]. intros b' Hin.
  eapply get_buf_old; [done|exact Eg|by rewrite Hpc].
Qed.

Lemma exec_step_ok h th d base stk p c :
  step_pre h th -> th_pc th = HExec d base stk p ->
  let '(h', th') := exec_next h th c d base stk p in step_ok h th h' th'.
Proof.
  intros Hp Hpc. destruct p as [|t k|e|try i cl k|try name p k].
  - eapply template_end_step; [done|done|by left].
  - by apply text_step.
  - eapply template_end_step; [done|done|right; by exists e].
  - by apply call_step.
  - by apply nested_step.
Qed.

(** ** Steps of a handler *)

Lemma SetZero_zero_struct (dt : dot) : SetZero (zero_struct dt) = zero_struct dt.
Proof. apply SetZero_zero. unfold zero_struct. by rewrite length_replicate. Qed.

(** What a handler does alone, from its first step on. *)
Lemma alone_fill (j : job) :
  alone j =
  if j_flush j && negb (bool_decide (Header_Get (r_header (j_request j)) (gs "Accept") = gs "text/event-stream")) then
    w ← http_Error (world_w (j_world j)) (gs "SSE endpoint") 406; Ret (set_w (j_world j) w)
  else
    rest_fill j 0 (if j_flush j then set_w (j_world j) (sse_headers (world_w (j_world j))) else j_world j)
      (zero_struct (dots (j_flush j))).
Proof.
  unfold alone, rest_fill, bufferingTemplateHandler, flushingTemplateHandler, dot_value. cbn [pool_Get lookup list_lookup].
  destruct (j_flush j) eqn:Ef; cbn [andb].
  - destruct (negb _); [by destruct (http_Error _ _ _)|]. rewrite !SetZero_zero_struct, drop_0.
    destruct (fill _ _ _ _ _ _ _) as [[wd [v|e]]|msg]; cbn [mbind outcome_bind]; [|by destruct (internal_error wd)|done].
    unfold rest_exec, rest_cleanup, dot_cleanup. rewrite Ef. cbn [exec_stack].
    destruct (exec _ _ _ _ _ _) as [s err]. rewrite drop_0.
    destruct (run_cleanups _ _ _ _) as [[wd' [e|]]|msg]; cbn [mbind outcome_bind rest_finish]; [|done|done].
    by destruct (internal_error wd').
  - rewrite !SetZero_zero_struct, drop_0.
    destruct (fill _ _ _ _ _ _ _) as [[wd [v|e]]|msg]; cbn [mbind outcome_bind]; [|by destruct (internal_error wd)|done].
    unfold rest_exec, rest_cleanup, dot_cleanup. rewrite Ef. cbn [exec_stack].
    destruct (exec _ _ _ _ _ _) as [s err]. rewrite drop_0.
    destruct (run_cleanups _ _ _ _) as [[wd' [e|]]|msg]; cbn [mbind outcome_bind rest_finish]; [|done|done].
    by destruct (internal_error wd').
Qed.

Lemma start_step h th c h' th' :
  step_pre h th -> th_pc th = HStart -> handler_next h th c = Some (h', th') -> step_ok h th h' th'.
Proof.
  intros Hp Hpc. pose proof (pre_thread _ _ Hp) as Ht. pose proof (tk_rest _ _ Ht) as Hr.
  unfold handler_next. rewrite Hpc. unfold rest in Hr. rewrite Hpc in Hr. rewrite (alone_fill (Build_job _ _ _ _)) in Hr.
  cbn [j_flush j_request j_world] in Hr.
  destruct (j_flush (th_job th) && _) eqn:Erej.
  - destruct (http_Error _ _ _) as [w|msg]; intros [= <- <-]; cbn in Hr;
      (apply quiet_step; [done|done|exists []; by rewrite Hpc|exists []; by rewrite Hpc|]);
      (split; [done|cbn; set_solver|by apply not_putting|etransitivity; [|exact Hr]; done]).
  - destruct (get_dot h (j_flush (th_job th)) c) as [d h1] eqn:Eg. intros [= <- <-].
    apply get_dot_spec in Eg as (Ed & E1 & E2 & Eg).
    assert (d.2 < h_next h -> dot_at h1 d = dot_at h d) as Hsame.
    { intros Hlt. unfold dot_at. destruct Eg as [(_ & _ & -> & _)|(E & _)]; [done|lia]. }
    split.
    + done.
    + rewrite Hpc. cbn. rewrite app_nil_r. destruct Eg as [(_ & Eg & _)|(Eg & -> & _ & ->)].
      * apply moved_perm. rewrite <- Eg. by rewrite Permutation_app_comm.
      * right. exists d. split; [lia|]. by rewrite Permutation_app_comm.
    + rewrite Hpc, E2. cbn. apply moved_same.
    + destruct Eg as [(_ & _ & _ & ->)|(_ & _ & _ & ->)]; lia.
    + intros d' Hlt _. unfold dot_at. destruct Eg as [(_ & _ & -> & _)|(E & _ & -> & _)]; [done|].
      rewrite lookup_insert_ne; [done|]. intros ->. lia.
    + intros b _ _. unfold buf_at. by rewrite E1.
    + intros d' Hin. destruct Eg as [(_ & Eg & Eh & _)|(E & Ef & Eh & _)].
      * unfold dot_at. rewrite Eh. apply (pre_zero _ _ Hp). rewrite <- Eg. by right.
      * rewrite Ef in Hin. unfold dot_at. rewrite Eh, lookup_insert_ne; [by apply (pre_zero _ _ Hp)|]. intros ->.
        assert (d'.2 < h_next h) by (apply (pre_below_d _ _ Hp), elem_of_app; by left). lia.
    + split; [done| |by apply not_putting|].
      * cbn. intros d' ->%list_elem_of_singleton. split; [done|]. unfold fits.
        destruct Eg as [(Hin & _ & Eh & _)|(E & _ & Eh & _)]; unfold dot_at; rewrite Eh.
        -- pose proof (pre_zero _ _ Hp d Hin) as Hz. unfold dot_at in Hz. rewrite Hz. unfold zero_struct. by rewrite length_replicate.
        -- rewrite lookup_insert_eq. cbn. unfold zero_struct. rewrite length_replicate. by rewrite Ed.
      * etransitivity; [|exact Hr]. done.
Qed.

(** Zeroing the struct of the request. *)
Lemma zero_step h th d p :
  step_pre h th -> owned_dots (th_pc th) = [d] -> owned_dots p = [d] -> owned_bufs p = owned_bufs (th_pc th) ->
  base_ok (at_ th p) ->
  rest (set_dot h d (zero_struct (dots (j_flush (th_job th))))) (at_ th p) = rest h th ->
  step_ok h th (set_dot h d (SetZero (dot_at h d))) (at_ th p).
Proof.
  intros Hp H1 H2 H3 Hb Hr. pose proof (pre_thread _ _ Hp) as Ht.
  destruct (tk_dots _ _ Ht d) as [Ek Ef]; [rewrite H1; by left|].
  rewrite (SetZero_zero (dots d.1) (dot_at h d) Ef). rewrite <- Ek in Hr.
  apply write_dot_step; [done|done|done|done|done|].
  apply (thread_ok_next h th); [done|done|done| | |done].
  - cbn. rewrite H1, H2. intros d' Hd. split; [done|]. apply list_elem_of_singleton in Hd as ->.
    rewrite dot_at_set, decide_True by done. rewrite Ef. unfold zero_struct. by rewrite length_replicate.
  - cbn. intros d' Hd. assert (d' = d) as ->.
    { destruct Hd as [-> |(base & err & ->)]; cbn in H2; by injection H2 as ->. }
    by rewrite dot_at_set, decide_True.
Qed.

(** Giving the struct back. *)
Lemma put_dot_step h th d p :
  step_pre h th -> (th_pc th = HFailedPut d \/ exists base err, th_pc th = HPutDot d base err) ->
  owned_dots p = [] -> owned_bufs p = owned_bufs (th_pc th) -> base_ok (at_ th p) ->
  match p with HFailedPut _ | HPutDot _ _ _ => False | _ => True end ->
  rest (put_dot h d) (at_ th p) = rest h th -> step_ok h th (put_dot h d) (at_ th p).
Proof.
  intros Hp Hpc H2 H3 Hb Hne Hr. pose proof (pre_thread _ _ Hp) as Ht.
  assert (owned_dots (th_pc th) = [d]) as H1 by (by destruct Hpc as [-> |(base & err & ->)]).
  split; try done.
  - cbn. rewrite H1, H2, app_nil_r. apply moved_perm. by rewrite Permutation_app_comm.
  - cbn. rewrite H3. apply moved_same.
  - cbn. intros d' [->|Hd]%elem_of_cons; [by apply (tk_zero _ _ Ht)|by apply (pre_zero _ _ Hp)].
  - apply (thread_ok_next h th); [done|done|done| |by apply not_putting|done]. cbn. rewrite H2. set_solver.
Qed.

(** Giving a buffer back. *)
Lemma put_buf_step h th b p :
  step_pre h th -> owned_dots p = owned_dots (th_pc th) -> owned_bufs (th_pc th) = b :: owned_bufs p ->
  base_ok (at_ th p) -> match p with HFailedPut _ | HPutDot _ _ _ => False | _ => True end ->
  rest (put_buf h b) (at_ th p) = rest h th -> step_ok h th (put_buf h b) (at_ th p).
Proof.
  intros Hp H1 H2 Hb Hne Hr. pose proof (pre_thread _ _ Hp) as Ht. split; try done.
  - cbn. rewrite H1. apply moved_same.
  - cbn. rewrite H2. apply moved_perm. by rewrite <- Permutation_middle.
  - apply (pre_zero _ _ Hp).
  - apply (thread_ok_next h th); [done|done|done| |by apply not_putting|done]. cbn. rewrite H1. done.
Qed.

(** A step that only changes where the request is and its world. *)
Lemma move_step h th p wd :
  step_pre h th -> (exists lost, owned_dots p ++ lost = owned_dots (th_pc th)) ->
  (exists lost, owned_bufs p ++ lost = owned_bufs (th_pc th)) -> base_ok (to th p wd) ->
  match p with HFailedPut _ | HPutDot _ _ _ => False | _ => True end ->
  rest h (to th p wd) = rest h th -> step_ok h th h (to th p wd).
Proof.
  intros Hp H1 H2 Hb Hne Hr. pose proof (pre_thread _ _ Hp) as Ht.
  apply quiet_step; [done|done|done|done|].
  apply (thread_ok_next h th); [done|done|done| |by apply not_putting|done].
  cbn. intros d Hd. split; [|done]. destruct H1 as [l <-]. apply elem_of_app. by left.
Qed.

Lemma fill_step h th d i c h' th' :
  step_pre h th -> th_pc th = HFill d i -> handler_next h th c = Some (h', th') -> step_ok h th h' th'.
Proof.
  intros Hp Hpc. pose proof (pre_thread _ _ Hp) as Ht. unfold handler_next. rewrite Hpc.
  assert (rest h th = rest_fill (th_job th) i (th_world th) (dot_at h d)) as Hr by (unfold rest; by rewrite Hpc).
  unfold rest_fill in Hr. destruct (dps (dots (j_flush (th_job th))) !! i) as [dp|] eqn:Edp.
  - rewrite (drop_S _ dp) in Hr by done. cbn [fill] in Hr.
    destruct (Value dp (th_world th) (j_request (th_job th))) as [[[wd a] [e|]]|msg]; cbn [mbind outcome_bind] in Hr.
    + intros [= <- <-]. apply move_step; [done|exists []; by rewrite Hpc|exists []; by rewrite Hpc|done|done|by rewrite Hr].
    + destruct (set_field _ _ (dot_at h d) i a) as [v|msg] eqn:Es; cbn [mbind outcome_bind] in Hr; intros [= <- <-].
      * apply write_dot_step; [done|done|by rewrite Hpc|done|by rewrite Hpc|].
        apply (thread_ok_next h th); [done|done|done| |by apply not_putting|].
        -- rewrite Hpc. cbn. intros d' Hd. split; [done|]. apply list_elem_of_singleton in Hd as ->.
           rewrite dot_at_set, decide_True by done. by eapply set_field_length.
        -- rewrite Hr. unfold rest. cbn [th_pc to]. by rewrite dot_at_set, decide_True.
      * apply move_step; [done|exists [d]; by rewrite Hpc|exists []; by rewrite Hpc|done|done|by rewrite Hr].
    + intros [= <- <-]. apply move_step; [done|exists [d]; by rewrite Hpc|exists []; by rewrite Hpc|done|done|by rewrite Hr].
  - rewrite drop_ge in Hr by (by apply lookup_ge_None). cbn [fill mbind outcome_bind] in Hr.
    destruct (j_flush (th_job th)) eqn:Ef; intros [= <- <-];
      (apply (move_step _ _ _ (th_world th)); [done|exists []; by rewrite Hpc|exists []; by rewrite Hpc|done|done|by rewrite Hr]).
Qed.

Lemma cleanup_step_ok h th d base k err c h' th' :
  step_pre h th -> th_pc th = HCleanup d base k err -> handler_next h th c = Some (h', th') -> step_ok h th h' th'.
Proof.
  intros Hp Hpc. pose proof (pre_thread _ _ Hp) as Ht. pose proof (tk_base _ _ Ht) as Hb. unfold base_ok in Hb.
  rewrite Hpc in Hb. unfold handler_next. rewrite Hpc.
  assert (rest h th = rest_cleanup (j_flush (th_job th)) k (th_world th) (dot_at h d) err (base_at h base)) as Hr
    by (unfold rest; by rewrite Hpc).
  assert (forall msg, rest h th = Panic msg -> step_ok h th h (to th (HPanicPut base msg) (th_world th))) as Hpanic.
  { intros msg E. apply move_step; [done|exists [d]; by rewrite Hpc|exists []; by rewrite Hpc, app_nil_r|done|done|by rewrite E]. }
  unfold rest_cleanup in Hr. destruct (cleanups (dots (j_flush (th_job th))) !! k) as [cl|] eqn:Ecl.
  - rewrite (drop_S _ cl) in Hr by done. cbn [run_cleanups] in Hr.
    destruct (dot_at h d !! cl_idx cl) as [[x|]|]; [|intros [= <- <-]; by apply Hpanic..].
    destruct (cl_Cleanup cl (th_world th) x err) as [[wd err']|msg]; intros [= <- <-]; [|by apply Hpanic].
    apply move_step; [done|exists []; by rewrite Hpc|exists []; by rewrite Hpc, app_nil_r|done|done|by rewrite Hr].
  - rewrite drop_ge in Hr by (by apply lookup_ge_None). intros [= <- <-].
    apply (move_step _ _ _ (th_world th)); [done|exists []; by rewrite Hpc|exists []; by rewrite Hpc, app_nil_r|done|done|by rewrite Hr].
Qed.

(** Emptying the buffer just taken. *)
Lemma reset_step h th c h' th' :
  step_pre h th ->
  (exists d b, th_pc th = HReset d b) \/ (exists d base stk fr p, th_pc th = HNested d base stk fr p) ->
  handler_next h th c = Some (h', th') -> step_ok h th h' th'.
Proof.
  intros Hp Hpc. pose proof (pre_thread _ _ Hp) as Ht. pose proof (tk_base _ _ Ht) as Hb.
  pose proof (pre_bufs _ _ Hp) as Hn. unfold base_ok in Hb. unfold handler_next.
  destruct Hpc as [(d & b & Hpc)|(d & base & stk & fr & p & Hpc)]; rewrite Hpc in *; intros [= <- <-].
  - apply write_buf_step; [done|done|by rewrite Hpc|rewrite Hpc; by left|by rewrite Hpc|].
    apply (thread_ok_next h th); [done|done|done|by rewrite Hpc|by apply not_putting|].
    unfold rest. rewrite Hpc. cbn [th_pc at_]. unfold running, current. cbn [target waiting].
    by rewrite buf_at_set, decide_True.
  - apply write_buf_step; [done|done|by rewrite Hpc|rewrite Hpc; by left|by rewrite Hpc|].
    apply (thread_ok_next h th); [done|done|done|by rewrite Hpc|by apply not_putting|].
    unfold rest. rewrite Hpc. cbn [th_pc at_]. unfold running, rest_exec. rewrite exec_stack_nested.
    cbn [th_job th_world at_ waiting ex_buf]. apply NoDup_app in Hn as (_ & _ & Hn). cbn in Hn.
    apply NoDup_cons in Hn as [Hn _].
    assert (forall b, b ∈ (fr_buf <$> stk) ++ option_list base ->
      buf_at (set_buf h (fr_buf fr) []) b = buf_at h b) as Hf.
    { intros b Hin. rewrite buf_at_set, decide_False; [done|]. by intros ->. }
    rewrite (current_frame h (set_buf h (fr_buf fr) []) base stk Hf).
    rewrite (waiting_frame h (set_buf h (fr_buf fr) []) base stk)
      by (intros b Hin; apply Hf; destruct stk; [done|by right]).
    change (current (set_buf h (fr_buf fr) []) base (fr :: stk)) with (buf_at (set_buf h (fr_buf fr) []) (fr_buf fr)).
    by rewrite buf_at_set, decide_True.
Qed.

(** The steps of [Dir.Read]. *)
Lemma read_step h th d base stk rd ph :
  step_pre h th -> th_pc th = HRead d base stk rd ph ->
  let '(h', th') := read_next h th d base stk rd ph in step_ok h th h' th'.
Proof.
  intros Hp Hpc. pose proof (pre_thread _ _ Hp) as Ht. pose proof (tk_base _ _ Ht) as Hb. unfold base_ok in Hb.
  pose proof (pre_bufs _ _ Hp) as Hn. rewrite Hpc in Hb, Hn. apply NoDup_app in Hn as (_ & _ & Hn). cbn in Hn.
  apply NoDup_cons in Hn as [Hn _].
  assert (forall t b, b ∈ (fr_buf <$> stk) ++ option_list base -> buf_at (set_buf h (rd_buf rd) t) b = buf_at h b) as Hf.
  { intros t b Hin. rewrite buf_at_set, decide_False; [done|]. by intros ->. }
  assert (forall t ph', (rest_read (set_buf h (rd_buf rd) t) th d base stk rd ph' = rest h th) ->
    step_ok h th (set_buf h (rd_buf rd) t) (at_ th (HRead d base stk rd ph'))) as Hwrite.
  { intros t ph' Hr. apply write_buf_step; [done|done|by rewrite Hpc|rewrite Hpc; by left|by rewrite Hpc|].
    by apply (thread_ok_next h th); [|done|done|rewrite Hpc|apply not_putting|]. }
  assert (rest h th = rest_read h th d base stk rd ph) as Hr by (unfold rest; by rewrite Hpc).
  unfold rest_read in Hwrite, Hr. cbn zeta in Hwrite, Hr. destruct ph as [| |[t|e]|err]; cbn [read_next].
  - apply Hwrite. rewrite Hr, buf_at_set, decide_True by done. apply before_read_frame; [done|apply Hf].
  - unfold before_read in Hr. unfold call_in in *. destruct (call_field_at _ _ _ _ _ _ _ _) as [s ans] eqn:E.
    pose proof (call_field_length _ _ _ _ _ _ _ _ E) as [El Eb]. cbn in El, Eb.
    apply write_dot_step; [done|done|by rewrite Hpc|done|by rewrite Hpc|].
    apply (thread_ok_next h th); [done|done|done| |by apply not_putting|].
    + rewrite Hpc. cbn. intros d' Hd. split; [done|]. apply list_elem_of_singleton in Hd as ->.
      by rewrite dot_at_set, decide_True.
    + rewrite Hr. unfold rest, rest_read, running. cbn [th_job th_world th_pc to]. rewrite dot_at_set, decide_True by done.
      rewrite (waiting_frame h (set_dot h d (ex_fields s))), (current_frame h (set_dot h d (ex_fields s))) by done.
      rewrite <- Eb. by destruct s.
  - apply Hwrite. rewrite Hr, buf_at_set, decide_True by done. apply running_frame; [done|apply Hf].
  - apply (move_step _ _ _ (th_world th)); [done|exists []; by rewrite Hpc|exists []; by rewrite Hpc, app_nil_r|done|done|by rewrite Hr].
  - apply (move_step _ _ _ (th_world th)); [done|exists []; by rewrite Hpc|exists []; by rewrite Hpc, app_nil_r|done|done|].
    rewrite Hr. by destruct err.
Qed.

Lemma finish_step h th base err c h' th' :
  step_pre h th -> th_pc th = HFinish base err -> handler_next h th c = Some (h', th') -> step_ok h th h' th'.
Proof.
  intros Hp Hpc. pose proof (pre_thread _ _ Hp) as Ht. pose proof (tk_base _ _ Ht) as Hb. unfold base_ok in Hb.
  rewrite Hpc in Hb. unfold handler_next. rewrite Hpc.
  assert (rest h th = rest_finish (j_flush (th_job th)) (th_world th) err (base_at h base)) as Hr
    by (unfold rest; by rewrite Hpc).
  destruct err as [e|]; cbn [rest_finish] in Hr.
  - destruct (internal_error (th_world th)) as [wd|msg]; intros [= <- <-];
      [apply move_step|apply (move_step _ _ _ (th_world th))];
      try done; try (exists []; by rewrite Hpc, ?app_nil_r); by rewrite Hr.
  - intros [= <- <-]. apply move_step; try done; try (exists []; by rewrite Hpc, ?app_nil_r).
    rewrite Hr. by destruct base; rewrite Hb.
Qed.

(** The steps that zero the struct or give something back. *)
Ltac give_back h Hs Hpc :=
  unfold handler_next in Hs; rewrite Hpc in Hs; injection Hs as <- <-;
  (apply zero_step || apply put_dot_step || apply put_buf_step); try done; try (by rewrite Hpc);
  try (left; done); try (right; by eauto); unfold rest; rewrite Hpc; cbn [th_pc at_]; rewrite ?dot_at_set, ?decide_True;
  first [done|etransitivity; [by apply (running_frame h)|reflexivity]].

Lemma handler_step_ok h th c h' th' :
  step_pre h th -> handler_next h th c = Some (h', th') -> step_ok h th h' th'.
Proof.
  intros Hp Hs. pose proof (pre_thread _ _ Hp) as Ht. pose proof (tk_base _ _ Ht) as Hb. unfold base_ok in Hb.
  destruct (th_pc th) as [|d|d i|d|d| |d|d b|d base stk p|d base stk fr p|d base stk rd ph|d base stk b p|d base k err|d base err
    |d base err|base err|base| |base msg|msg] eqn:Hpc.
  - by eapply start_step.
  - give_back h Hs Hpc.
  - by eapply fill_step.
  - give_back h Hs Hpc.
  - give_back h Hs Hpc.
  - unfold handler_next in Hs. rewrite Hpc in Hs.
    assert (rest h th = internal_error (th_world th)) as Hr by (unfold rest; by rewrite Hpc).
    destruct (internal_error (th_world th)) as [wd|msg]; injection Hs as <- <-;
      [apply move_step|apply (move_step _ _ _ (th_world th))]; try done; try (exists []; by rewrite Hpc); by rewrite Hr.
  - unfold handler_next in Hs. rewrite Hpc in Hs. destruct (get_buf h c) as [b h1] eqn:E. injection Hs as <- <-.
    eapply get_buf_step; [done|done|exact E|by rewrite Hpc|by rewrite Hpc|done|done|done|].
    unfold rest. rewrite Hpc. cbn [th_pc at_]. unfold dot_at. apply get_buf_spec in E as (-> & _). done.
  - eapply reset_step; [done|left; by eauto|done].
  - unfold handler_next in Hs. rewrite Hpc in Hs. pose proof (exec_step_ok h th d base stk p c Hp Hpc) as H.
    destruct (exec_next h th c d base stk p). by injection Hs as <- <-.
  - eapply reset_step; [done|right; by eauto 10|done].
  - unfold handler_next in Hs. rewrite Hpc in Hs. pose proof (read_step h th d base stk rd ph Hp Hpc) as H.
    destruct (read_next h th d base stk rd ph). by injection Hs as <- <-.
  - give_back h Hs Hpc.
  - by eapply cleanup_step_ok.
  - give_back h Hs Hpc.
  - give_back h Hs Hpc.
  - by eapply finish_step.
  - destruct base as [b|]; [give_back h Hs Hpc|]. unfold handler_next in Hs. rewrite Hpc in Hs. injection Hs as <- <-.
    apply (move_step _ _ _ (th_world th)); try done; try (exists []; by rewrite Hpc). unfold rest. by rewrite Hpc.
  - unfold handler_next in Hs. by rewrite Hpc in Hs.
  - destruct base as [b|]; [give_back h Hs Hpc|]. unfold handler_next in Hs. rewrite Hpc in Hs. injection Hs as <- <-.
    apply (move_step _ _ _ (th_world th)); try done; try (exists []; by rewrite Hpc). unfold rest. by rewrite Hpc.
  - unfold handler_next in Hs. by rewrite Hpc in Hs.
Qed.

(** ** The invariant of the process *)

Definition dots_held (s : process) : list cell := concat ((fun th => owned_dots (th_pc th)) <$> pr_threads s).
Definition bufs_held (s : process) : list nat := concat ((fun th => owned_bufs (th_pc th)) <$> pr_threads s).

Record process_inv (s : process) : Prop := {
  pi_dots : NoDup (h_free (pr_heap s) ++ dots_held s);
  pi_bufs : NoDup (h_freebufs (pr_heap s) ++ bufs_held s);
  pi_below_d : forall d, d ∈ h_free (pr_heap s) ++ dots_held s -> d.2 < h_next (pr_heap s);
  pi_below_b : forall b, b ∈ h_freebufs (pr_heap s) ++ bufs_held s -> b < h_next (pr_heap s);
  pi_zero : forall d, d ∈ h_free (pr_heap s) -> dot_at (pr_heap s) d = zero_struct (dots d.1);
  pi_threads : forall t th, pr_threads s !! t = Some th -> thread_ok (pr_heap s) th
}.

(** What the other requests hold. *)
Lemma held_split {A B} (f : A -> list B) (l : list A) t x :
  l !! t = Some x -> exists rest,
    (concat (f <$> l) ≡ₚ f x ++ rest) /\ (forall y, concat (f <$> <[t := y]> l) ≡ₚ f y ++ rest) /\
    forall t' y, t' <> t -> l !! t' = Some y -> f y ⊆ rest.
Proof.
  intros Ht. exists (concat (f <$> take t l) ++ concat (f <$> drop (S t) l)).
  assert (t < length l) as Hlt by (by eapply lookup_lt_Some).
  assert (forall y, concat (f <$> take t l ++ y :: drop (S t) l) ≡ₚ
            f y ++ concat (f <$> take t l) ++ concat (f <$> drop (S t) l)) as H.
  { intros y. rewrite fmap_app, concat_app. cbn. rewrite !app_assoc. f_equiv. apply Permutation_app_comm. }
  split_and!.
  - rewrite <- (take_drop_middle l t x Ht) at 1. apply H.
  - intros y. rewrite insert_take_drop by done. apply H.
  - intros t' y Hne Hy z Hz. rewrite <- concat_app, <- fmap_app.
    apply list_elem_of_In, in_concat. exists (f y). split; apply list_elem_of_In; [|done].
    apply list_elem_of_fmap_2, elem_of_app.
    destruct (decide (t' < t)); [left|right]; apply list_elem_of_lookup.
    + exists t'. by rewrite lookup_take_lt.
    + exists (t' - S t). rewrite lookup_drop. rewrite <- Hy. f_equal. lia.
Qed.

Lemma moved_in {A} (from to : list A) new x : moved from to new -> x ∈ to -> x ∈ from \/ new x.
Proof.
  intros [[lost Hp]|(y & Hy & Hp)] Hx.
  - left. rewrite <- Hp. apply elem_of_app. by left.
  - rewrite Hp in Hx. apply elem_of_cons in Hx as [->|Hx]; auto.
Qed.

Lemma thread_ok_frame h h' th :
  (forall d, d ∈ owned_dots (th_pc th) -> dot_at h' d = dot_at h d) ->
  (forall b, b ∈ owned_bufs (th_pc th) -> buf_at h' b = buf_at h b) ->
  thread_ok h th -> thread_ok h' th.
Proof.
  intros Hd Hb Ht. apply (thread_ok_next h th); try done.
  - apply Ht.
  - intros d Hin. by rewrite Hd.
  - intros d Hpc. rewrite Hd; [by apply (tk_zero _ _ Ht)|]. destruct Hpc as [-> |(base & err & ->)]; by left.
  - by apply rest_frame.
Qed.

Section run.
Context (s : process) (t : nat) (th : thread) (c : nat) (h' : heap) (th' : thread).
Context (inv : process_inv s) (Ht : pr_threads s !! t = Some th)
        (Hs : handler_next (pr_heap s) th c = Some (h', th')).

Lemma run_pre : step_pre (pr_heap s) th.
Proof using inv Ht.
  destruct (held_split (fun th => owned_dots (th_pc th)) _ _ _ Ht) as (rd & Ed & _).
  destruct (held_split (fun th => owned_bufs (th_pc th)) _ _ _ Ht) as (rb & Eb & _).
  destruct inv as [I1 I2 I3 I4 I5 I6]. unfold dots_held, bufs_held in *. split.
  - by apply (I6 t).
  - rewrite Ed, app_assoc in I1. by apply NoDup_app in I1 as [? _].
  - rewrite Eb, app_assoc in I2. by apply NoDup_app in I2 as [? _].
  - intros d Hd. apply I3. rewrite Ed, app_assoc. apply elem_of_app. by left.
  - intros b Hb. apply I4. rewrite Eb, app_assoc. apply elem_of_app. by left.
  - done.
Qed.

Lemma run_inv : process_inv {| pr_heap := h'; pr_threads := <[t := th']> (pr_threads s) |}.
Proof using inv Ht Hs.
  pose proof (handler_step_ok _ _ _ _ _ run_pre Hs) as [S0 S1 S2 S3 S4 S5 S6 S7].
  destruct (held_split (fun th => owned_dots (th_pc th)) _ _ _ Ht) as (rd & Ed & Ed' & Hrd).
  destruct (held_split (fun th => owned_bufs (th_pc th)) _ _ _ Ht) as (rb & Eb & Eb' & Hrb).
  destruct inv as [I1 I2 I3 I4 I5 I6]. unfold dots_held, bufs_held in *.
  rewrite Ed, app_assoc in I1. rewrite Eb, app_assoc in I2.
  setoid_rewrite Ed in I3. setoid_rewrite app_assoc in I3. setoid_rewrite Eb in I4. setoid_rewrite app_assoc in I4.
  split; cbn [pr_heap pr_threads dots_held bufs_held]; unfold dots_held, bufs_held; cbn [pr_threads].
  - rewrite Ed', app_assoc. eapply moved_NoDup; [exact S1| |done]. intros d [Hd _] Hin%I3. lia.
  - rewrite Eb', app_assoc. eapply moved_NoDup; [exact S2| |done]. intros b [Hb _] Hin%I4. lia.
  - intros d. rewrite Ed', app_assoc. intros [Hd|Hd]%elem_of_app.
    + destruct (moved_in _ _ _ _ S1 Hd) as [Hin|[? ?]]; [|lia].
      assert (d.2 < h_next (pr_heap s)) by (apply I3, elem_of_app; by left). lia.
    + assert (d.2 < h_next (pr_heap s)) by (apply I3, elem_of_app; by right). lia.
  - intros b. rewrite Eb', app_assoc. intros [Hb|Hb]%elem_of_app.
    + destruct (moved_in _ _ _ _ S2 Hb) as [Hin|[? ?]]; [|lia].
      assert (b < h_next (pr_heap s)) by (apply I4, elem_of_app; by left). lia.
    + assert (b < h_next (pr_heap s)) by (apply I4, elem_of_app; by right). lia.
  - done.
  - intros t' th2 [(-> & <- & _)|[Hne H2]]%list_lookup_insert_Some; [done|].
    apply NoDup_app in I1 as (_ & N1 & _). apply NoDup_app in I2 as (_ & N2 & _).
    apply (thread_ok_frame (pr_heap s)); [| |by apply (I6 t')].
    + intros d Hd. apply (Hrd t' th2) in Hd; [|done|done]. apply S4; [apply I3, elem_of_app; by right|].
      intros Hin. apply (N1 d); [apply elem_of_app; by right|done].
    + intros b Hb. apply (Hrb t' th2) in Hb; [|done|done]. apply S5; [apply I4, elem_of_app; by right|].
      intros Hin. apply (N2 b); [apply elem_of_app; by right|done].
Qed.
End run.

Lemma remove_nth_sub {A} (l : list A) c : exists lost, remove_nth c l ++ lost ≡ₚ l.
Proof.
  destruct (l !! c) as [x|] eqn:E.
  - exists [x]. rewrite Permutation_app_comm. by apply remove_nth_perm.
  - exists []. unfold remove_nth. rewrite app_nil_r, (drop_ge l) by (apply lookup_ge_None in E; lia).
    rewrite app_nil_r, take_ge; [done|by apply lookup_ge_None].
Qed.

Lemma process_reachable_inv s : process_reachable s -> process_inv s.
Proof.
  induction 1 as [|s e s' _ IH Hs].
  { split; cbn; try (by constructor); set_solver. }
  destruct e as [j|t c|c c']; cbn in Hs.
  - injection Hs as <-. destruct IH as [I1 I2 I3 I4 I5 I6].
    split; unfold dots_held, bufs_held in *; cbn [pr_heap pr_threads] in *;
      rewrite ?fmap_app, ?concat_app; cbn; rewrite ?app_nil_r; try done.
    intros t th [Hth|[_ Hth]]%lookup_app_Some; [by apply (I6 t)|].
    apply list_lookup_singleton_Some in Hth as [_ <-]. split; [done|cbn; set_solver|by apply not_putting|].
    by destruct j.
  - destruct (pr_threads s !! t) as [th|] eqn:Ht; [|done]. cbn in Hs.
    destruct (handler_next (pr_heap s) th c) as [[h' th']|] eqn:En; [|done]. cbn in Hs. injection Hs as <-.
    by eapply run_inv.
  - injection Hs as <-. destruct IH as [I1 I2 I3 I4 I5 I6].
    destruct (remove_nth_sub (h_free (pr_heap s)) c) as [l1 E1].
    destruct (remove_nth_sub (h_freebufs (pr_heap s)) c') as [l2 E2].
    assert (forall d, d ∈ remove_nth c (h_free (pr_heap s)) -> d ∈ h_free (pr_heap s)) as H1
      by (intros d Hd; rewrite <- E1; apply elem_of_app; by left).
    assert (forall b, b ∈ remove_nth c' (h_freebufs (pr_heap s)) -> b ∈ h_freebufs (pr_heap s)) as H2
      by (intros b Hb; rewrite <- E2; apply elem_of_app; by left).
    split; unfold dots_held, bufs_held in *; cbn [pr_heap pr_threads drop_pooled h_free h_freebufs h_next] in *.
    + eapply (moved_NoDup _ _ _ (fun _ => False)); [left; by exists l1|done|done].
    + eapply (moved_NoDup _ _ _ (fun _ => False)); [left; by exists l2|done|done].
    + intros d [Hd|Hd]%elem_of_app; apply I3, elem_of_app; auto.
    + intros b [Hb|Hb]%elem_of_app; apply I4, elem_of_app; auto.
    + intros d Hd. by apply I5, H1.
    + intros t th Hth. apply (thread_ok_frame (pr_heap s)); [done|done|by apply (I6 t)].
Qed.

(** ** Properties *)

Definition run_process (s : process) (es : list happening) : option process := run_steps process_step s es.

Lemma run_process_reachable s es s' : process_reachable s -> run_process s es = Some s' -> process_reachable s'.
Proof. apply run_steps_ind, process_more. Qed.

(** C2: requests that run at the same time do not affect each other: in whatever
    order their steps come, whichever structs and buffers the pools hand out and
    whenever the pools are emptied, a request that has ended left its response, and
    everything else of its world, the way the handler leaves it when the request is
    the only one and the pools are empty; it panics only if it would have then. *)
Theorem requests_isolated s t th :
  process_reachable s -> pr_threads s !! t = Some th ->
  match th_pc th with
  | HDone => alone (th_job th) = Ret (th_world th)
  | HPanicked msg => alone (th_job th) = Panic msg
  | _ => True
  end.
Proof.
  intros Hr Ht. pose proof (tk_rest _ _ (pi_threads _ (process_reachable_inv s Hr) t th Ht)) as H.
  unfold rest in H. by destruct (th_pc th).
Qed.

(** C21: no struct and no buffer is ever in two hands, the pools' included, and no
    pooled struct holds a value of a request. *)
Theorem pooled_cells_unshared s :
  process_reachable s ->
  NoDup (h_free (pr_heap s) ++ dots_held s) /\ NoDup (h_freebufs (pr_heap s) ++ bufs_held s) /\
  forall d, d ∈ h_free (pr_heap s) -> dot_at (pr_heap s) d = zero_struct (dots d.1).
Proof. intros Hr. destruct (process_reachable_inv s Hr). by split_and!. Qed.

End concurrent.

(** ** Two requests, step by step in turn *)

#[local] Existing Instance ftype_eq.

Abbreviation example_tprog :=
  (tprog (V := unit) (P := unit) (R := unit) (Info := unit) (Entry := unit) (CVal := Empty_set) (CCall := Empty_set)).

Definition example_dots (flush : bool) := if flush then flusher_made.2 else example_dot.

(** One request inserts a row, the other streams an event and a nested template. *)
Definition first_job : job (V := unit) (P := unit) (R := unit) (Info := unit) (Entry := unit)
    (CVal := Empty_set) (CCall := Empty_set) (Ext := unit) :=
  {| j_flush := false; j_tmpl := insert_template; j_request := any_request; j_world := start_world |}.
Definition second_job : job (V := unit) (P := unit) (R := unit) (Info := unit) (Entry := unit)
    (CVal := Empty_set) (CCall := Empty_set) (Ext := unit) :=
  {| j_flush := true; j_tmpl := TNested false (gs "part") (TText (gs "data: x") TEnd) (fun _ => event_template);
     j_request := stream_request; j_world := start_world |}.

Definition turns (n : nat) : list happening :=
  [Arrive first_job; Arrive second_job] ++ concat (replicate n [RunThread 0 0; RunThread 1 0]).

Abbreviation example_process :=
  (process (V := unit) (P := unit) (R := unit) (Info := unit) (Entry := unit) (CVal := Empty_set)
     (CCall := Empty_set) (Ext := unit)).

Definition no_requests : example_process := {| pr_heap := empty_heap; pr_threads := [] |}.

(** In the middle of both. *)
Definition midway : example_process :=
  default no_requests (run_process StaticFile.no_env no_type no_call example_dots no_requests (turns 9)).

(** The first has ended. *)
Definition first_done : example_process :=
  default no_requests (run_process StaticFile.no_env no_type no_call example_dots midway (replicate 11 (RunThread 0 0))).

Definition pc_of (s : example_process) (t : nat) := th_pc <$> (pr_threads s !! t).

(** Where a request has come to. *)
Definition is_done (s : example_process) (t : nat) : bool := match pc_of s t with Some HDone => true | _ => false end.
Definition is_executing (s : example_process) (t : nat) : bool :=
  match pc_of s t with Some (HExec _ _ _ _) => true | _ => false end.

Definition example_alone :=
  alone StaticFile.no_env no_type no_call example_dots.

Lemma run_process_default es (s : example_process) :
  process_reachable StaticFile.no_env no_type no_call example_dots s ->
  process_reachable StaticFile.no_env no_type no_call example_dots
    (default no_requests (run_process StaticFile.no_env no_type no_call example_dots s es)).
Proof.
  intros Hs. destruct (run_process _ _ _ _ s es) as [s'|] eqn:E; [|apply process_init].
  by eapply run_process_reachable.
Qed.

Lemma midway_reachable : process_reachable StaticFile.no_env no_type no_call example_dots midway.
Proof. apply run_process_default, process_init. Qed.

Lemma first_done_reachable : process_reachable StaticFile.no_env no_type no_call example_dots first_done.
Proof. apply run_process_default, midway_reachable. Qed.

Lemma requests_isolated_witness :
  is_executing first_done 1 = true /\
  match pr_threads first_done !! 0 with
  | Some th => th_pc th = HDone /\ example_alone (th_job th) = Ret (th_world th)
  | None => False
  end.
Proof.
  split; [vm_compute; reflexivity|].
  assert (forall s, process_reachable StaticFile.no_env no_type no_call example_dots s -> is_done s 0 = true ->
    match pr_threads s !! 0 with
    | Some th => th_pc th = HDone /\ example_alone (th_job th) = Ret (th_world th)
    | None => False
    end) as H.
  { intros s Hs Hd. unfold is_done, pc_of in Hd. destruct (pr_threads s !! 0) as [th|] eqn:E; [|discriminate].
    pose proof (requests_isolated StaticFile.no_env no_type no_call example_dots s 0 th Hs E) as H.
    cbn in Hd. destruct (th_pc th); try discriminate. by split. }
  apply H; [apply first_done_reachable|vm_compute; reflexivity].
Defined.

Lemma pooled_cells_unshared_witness :
  h_free (pr_heap first_done) <> [] /\ NoDup (h_free (pr_heap first_done) ++ dots_held first_done).
Proof.
  split; [vm_compute; discriminate|].
  apply (pooled_cells_unshared StaticFile.no_env no_type no_call example_dots first_done first_done_reachable).
Defined.
