(* ===== verification/AppExample.v ===== *)
(** * An example run of the application

    A command line with a configuration document, over the example instance. *)

From S2P Require Import Prelude GoStrings GoErrors GoPath Http ServeContent Config Negotiate.
From S2P Require Import DotDB DotFlush DotResp DotFS Dot Init Template StaticFile Mux Build Handlers Instance.
From S2P Require Import Transactions Requests Example Json App.

(** JSON text, with single quotes for double ones. *)
Definition js (s : string) : gostring := (fun c => if bool_decide (c = "'"%char) then QUOTE else c) <$> gs s.

Definition ex_document : gostring :=
  js "{'Listen': ':80', 'minify': false, 'log_level': 0,
       'flags': [{'name': 'Flags', 'values': {'a': '1'}}], 'watch_dirs': ['data', null], 'other': [1.5e3, {}]} tail".

(** [--minify] is not given. *)
Definition ex_flags : flags :=
  {| f_dir := None; f_ext := Some (gs ".html"); f_minify := None; f_ldelim := None; f_rdelim := None;
     f_watch := [gs "more"]; f_watch_templates := None; f_listen := None; f_loglevel := None;
     f_config := [js "{'template_extension': '.tmpl'}"]; f_config_file := [gs "config.json"] |}.

Definition ex_files (name : gostring) : result gostring :=
  if bool_decide (name = gs "config.json") then Ok ex_document else Err (ErrText (gs "no such file")).

Definition no_nats {A} (_ : A) (_ : json) : option A := None.

Abbreviation ex_Args :=
  (Args (V := unit) (P := unit) (R := unit) (Info := unit) (Entry := unit) (CVal := Empty_set) (Ext := unit)
     (FSys := unit) (Logger := unit) (Ctx := unit) (Func := unit) (DB := nat) (TxOptions := unit)
     (NatsServerOptions := unit) (NatsOptions := unit) (JetStreamOpt := unit) (NatsConn := unit)
     (NatsServer := unit) (JetStream := unit)).

Definition ex_MustParse (a : ex_Args) : Z + ex_Args := inr (parse_flags ex_flags a).

Definition ex_main_config : Z + ex_Args :=
  main_config tt tt no_nats ex_MustParse ex_files (fun _ => tt).

Definition ex_config : ex_Args :=
  match ex_main_config with inr c => c | inl _ => default_args end.

Lemma ex_main_config_ok : ex_main_config = inr ex_config.
Proof.
  assert (match ex_main_config with inr _ => true | inl _ => false end = true) as H by (vm_compute; reflexivity).
  unfold ex_config. by destruct ex_main_config.
Qed.

Lemma main_settings_witness :
  exists texts ls, main_texts ex_files ex_flags = Some texts /\ mapM document texts = Some ls /\
    string_setting (concat ls) (gs "listen") [] = gs ":80" /\ Listen ex_config = gs ":80" /\
    bool_setting (concat ls) (gs "minify") true = false /\ Minify (args_Config ex_config) = true /\
    Watch ex_config = [gs "data"; []; gs "more"] /\ LogLevel ex_config = (-2)%Z.
Proof.
  destruct (main_settings tt tt no_nats ex_MustParse ex_files (fun _ => tt) ex_flags (fun a => eq_refl)
              ex_config ex_main_config_ok) as (texts & ls & Ht & Hl & H).
  exists texts, ls. vm_compute in Ht. injection Ht as <-. vm_compute in Hl. injection Hl as <-.
  split_and!; [reflexivity|reflexivity|vm_compute; reflexivity| |vm_compute; reflexivity|..];
    [pose proof (f_equal (fmap Listen) H) as H1|pose proof (f_equal (fmap (fun a => Minify (args_Config a))) H) as H1
    |pose proof (f_equal (fmap Watch) H) as H1|pose proof (f_equal (fmap LogLevel) H) as H1];
    apply (inj Some); (etransitivity; [symmetry; exact H1|vm_compute; reflexivity]).
Defined.

(** An embedded program that brings its templates along. *)
Definition ex_overrides : list (Option_ (FS := unit) (Logger := unit) (Ctx := unit) (FuncMap := gmap gostring unit)
    (DB := nat) (TxOptions := unit)
    (Provider := custom_provider (V := unit) (P := unit) (R := unit) (Info := unit) (Entry := unit)
                   (CVal := Empty_set) (Ext := unit))
    (NatsServerOptions := unit) (NatsOptions := unit) (JetStreamOpt := unit) (NatsConn := unit)
    (NatsServer := unit) (JetStream := unit)) :=
  [WithTemplateFS (Some tt); WithDB (gs "DB") (Some 0) None].

Abbreviation ex_server :=
  (Config_Server StaticFile.no_env no_type ascii_only ascii_only no_call tt tt ex_platform (fun l _ => l) (fun c => c)
    (args_Config ex_config) ex_overrides 0 0 start_world).

Lemma ex_server_ok : exists wd rs c ld, ex_server = Ret (wd, rs, Ok (c, ld)).
Proof.
  assert (match ex_server with Ret (_, _, Ok _) => true | _ => false end = true) as H by (vm_compute; reflexivity).
  destruct ex_server as [[[wd rs] [[c ld]|e]]|msg]; [by eauto|done..].
Qed.

Definition no_such_directory (dirs : list gostring) : option goerr :=
  if bool_decide (gs "templates" ∈ dirs) then Some (ErrText (gs "no such file or directory")) else None.

Lemma ex_config_watches : WatchTemplates ex_config = true.
Proof. vm_compute. reflexivity. Qed.

Lemma ex_config_dirs :
  exists e, no_such_directory (Watch ex_config ++ [TemplatesDir (args_Config ex_config)]) = Some e.
Proof. eexists. vm_compute. reflexivity. Qed.

Lemma main_watches_disk_witness :
  exists wd' rs c ld, ex_server = Ret (wd', rs, Ok (c, ld)) /\
  Main StaticFile.no_env no_type ascii_only ascii_only no_call tt tt ex_platform no_nats ex_MustParse ex_files
    no_such_directory (fun _ => tt) (fun l _ => l) (fun c => c) ex_overrides 0 0 start_world =
  Ret (wd', Exit 4).
Proof.
  destruct ex_server_ok as (wd' & rs & c & ld & Hs). exists wd', rs, c, ld. split; [exact Hs|].
  pose proof (main_watches_disk StaticFile.no_env no_type ascii_only ascii_only no_call tt tt ex_platform no_nats
             ex_MustParse ex_files no_such_directory (fun _ => tt) (fun l _ => l) (fun c => c) ex_flags
             (fun a => eq_refl) ex_config ex_overrides 0 0 start_world wd' rs c ld ex_main_config_ok) as H.
  specialize (H ex_config_watches Hs). destruct ex_config_dirs as [e He].
  cbv zeta in H. rewrite He in H. exact H.
Defined.

Abbreviation ex_default_doc :=
  (default_doc (V := unit) (P := unit) (R := unit) (Info := unit) (Entry := unit) (CVal := Empty_set) (Ext := unit)
     (FSys := unit) (Logger := unit) (Ctx := unit) (Func := unit) (DB := nat) (TxOptions := unit)
     (NatsServerOptions := unit) (NatsOptions := unit) (JetStreamOpt := unit) (NatsConn := unit)
     (NatsServer := unit) (JetStream := unit)).

(** A second document that configures another database: the fields it does not give
    are those of the database the first document had at this place. *)
Lemma documents_merge_elements :
  doc_databases <$>
    (Decode no_nats ex_default_doc (js "{'databases': [{'name': 'A', 'driver': 'sqlite3', 'connstr': 'a.db'}]}") ≫= fun d =>
     Decode no_nats d (js "{'databases': [{'name': 'B', 'driver': 'sqlite3'}]}"))
  = Some {| sl_items := [{| db_DB := None; db_TxOptions := None; db_Name := gs "B"; db_Driver := gs "sqlite3";
                            db_Connstr := gs "a.db"; db_MaxOpenConns := 0 |}]; sl_stale := [] |}.
Proof. vm_compute. reflexivity. Qed.
